(* ===== verification/_CoqProject ===== *)
-Q . S2P
Prelude.v
PyFloat.v
Rounding.v
Format.v
Runtime.v
Keeps.v
Fixtures.v
Gateway.v
Predict.v
Docs.v
App.v
Logfree.v
Cachefree.v
Local.v
Session.v
Spec.v
Threads.v
Browser.v
World.v
Scoring.v
Visit.v
Loading.v
Interleave.v
Reload.v
Navigate.v
Overlap.v
Settle.v
