(* ===== verification/Prelude.v ===== *)
(** * Loan Approval Predictor: a verification development

    The program ([src/app.py]) is one Streamlit script.  Streamlit runs the
    whole script from top to bottom on every user interaction; what the user
    sees is the sequence of elements the run emitted, what the script reads
    is the value of each widget in the session.  The script has four parts:

    - the model gateway, [load_model] (lines 53-63): a cached load of the
      scoring pipeline that turns a missing artifact into [None];
    - the prediction page (lines 78-235): eleven input widgets, a button,
      and the handler that builds a one-row table, calls the pipeline's
      [predict_proba], applies the 0.5 threshold and renders gauge,
      decision, metrics and recommendations, or an error message;
    - the documentation and about pages (lines 238-368): static tables and
      text;
    - the page frame (lines 11-75 and 371-377): page configuration, style
      sheet, sidebar navigation, footer.

    ** Files

    - [Prelude] (this file): what every other file loads: the libraries, a
      hint database, tactics, and lemmas on lists and options that are not
      specific to one component.
    - [PyFloat]: the numbers of the script.  A Python [float] is an IEEE-754
      binary64 value, modelled by the Standard Library's [spec_float] with
      precision 53 and maximal exponent 1024, so that NaN, the infinities,
      signed zeros and rounding are those of the program.  The file defines
      the comparison operators the script uses ([>=], [<], [==]), the
      multiplication [prob * 100], the exact value of a float as an integer
      number of units of 2^-1074, and the format specification [.1%].
    - [Rounding]: the product [prob * 100] is correctly rounded.  The
      Standard Library rounds a product by shifting its mantissa bit by
      bit with a round and a sticky bit; the file proves that this is the
      rounding of [round_half_even] on the exact product ([round_ref]),
      and from there that the product of two valid floats is valid, is a
      float nearest to the exact product, and overflows only beyond the
      largest float ([float_mul_spec], [float_mul_above],
      [float_mul_below], [float_mul_error]); that the floats are ordered
      as their exact values and the product is monotone
      ([float_mul_mono]).
    - [Format]: the text of the metric, [f"{prob:.1%}"], for a
      probability between 0 and 1: a number of tenths from 0.0 to 100.0
      and a percent sign, within 0.05 + 2^-47 of the exact percentage;
      the text is monotone in the probability, and 50.0% is shown for
      exactly the floats from 0.4995 to 0.5005, an interval with the
      threshold 0.5 strictly inside ([metric_fifty]).
    - [Runtime]: what the script runs on.  Python values, exceptions with
      their class and text, the elements a run displays (each with the
      containers it sits in), widgets and their session values.  A piece of
      script is a [script A]: a function from the run's context (the
      outside world, the session, the current containers) and the run's
      state (elements shown, widgets declared, the process-wide cache, the
      log of calls to the outside) to an exception or a value, and the new
      state.  [try_except] is Python's [try]/[except]; [selectbox],
      [number_input], [button] and [radio] declare a widget (a second
      declaration of the same widget raises) and return its session value;
      [cache_resource] is the decorator of [load_model]: the first call
      that returns is stored with what it displayed, later calls give both
      again.  [set_page_config], [pd_dataframe] and [px_bar] are the three
      calls that test their arguments.  The tactic [run_script] executes a
      script symbolically, one equation per construct; the checks of the
      library have their equations too ([register_twice],
      [number_input_below], [set_page_config_second]).
    - [Keeps]: invariants of a run.  [Keeps R m] says that every run of
      the script [m] relates the state before to the state after by [R];
      it is found by instance resolution along the structure of [m], from
      what [R] allows: to declare a widget ([AllowsRegister]), to show
      an element ([AllowsEmit]), to make a call ([AllowsIo]).  [Grows] is
      the instance for "a run only adds to the page, the widgets, the
      cache and the log".
    - [Fixtures]: the pipelines, files and sessions at which the theorems
      are applied: a pipeline that answers 0.82 or 0.2 by the credit
      history, one that raises, one with a one-column matrix; the artifact
      present, missing and unreadable; the sessions of the two scenarios.
    - [Gateway]: [load_model] (lines 53-59).  Theorems: that after a
      call that returned every later call gives the same value and the
      same [notice] without reading the file ([load_model_once], from
      the lemmas of the decorator in [Runtime]), and what a call does on
      a cold cache in each of the three outcomes of [joblib.load].
    - [Predict]: the prediction page (lines 78-235), every definition
      under the name of the script's variable: the eleven widgets and
      [prediction_form], [input_df], [prob], [decision], [fig],
      [show_result], [predict_handler], [prediction_page].  Theorems: the
      threshold is exact and inclusive on the real values of the floats;
      the form returns values in the domain of the record; the handler in
      each outcome of the pipeline (an answer, an exception, a matrix of
      the wrong shape) and when idle; the recommendations appear exactly on
      a rejection, NaN apart; the needle of the gauge is at or past its
      threshold line exactly when the loan is approved, for every float;
      the page as a whole, which never raises.
    - [Docs]: the documentation page (lines 238-332): [variables_data]
      and [tab1], the image with its [try]/[except] ([col_img]) and the
      example chart, [tab2], [tab3], [documentation_page].  Theorems: the
      table lists the columns of the model's table and can be built; the
      page in each state of the image file (in place, missing, unreadable).
    - [App]: the whole script: [page_config], [style_sheet], [sidebar],
      [about_page] (lines 335-368), [footer], the [if]/[elif] chain
      [body], and [app].  Theorems: the navigation selects the page; the
      first request of a process end to end; the run when the load has
      failed before (degraded mode) and when the load raises.
    - [Logfree]: the log of the calls to the outside is written and
      never read.  [LogFree m], found by instance resolution like
      [Keeps], says that the run of [m] from a state with a log is the
      run from the empty log, on top of that log; it holds of every
      construct of [Runtime], since the log is a device of the model
      that no primitive reads.  The file states no property of the
      program: it lets [Interleave] and [Overlap] compare runs that
      start from different logs.
    - [Cachefree]: the script after the call of [load_model]
      ([after_load]: sidebar, selected page, footer) does not touch the
      cache.  [CacheFree m] is the fourth class found along the
      structure of the script; with [LogFree] it gives the run of that
      part from any cache and log by its run from empty ones
      ([private_run]), which is what [Overlap] needs; [load_model] is
      the one place where it fails.
    - [Local]: the session is read at the widgets a run declares and
      nowhere else.  [Local m], the third class found along the
      structure of the script, says that the run of [m] is the same in
      every session that holds the same for the widgets the run
      declares.
    - [Session]: the process over its runs.  A [server] state holds the
      cache, the log of calls to the outside and the last page; [rerun]
      is one run of [app] for an [interaction] (a session and the files at
      that moment); [step] is the step relation and [run_all] the function
      that runs a list of interactions.  Theorems, by induction on the
      steps: the cached model never changes and the artifact is not read
      again; with files that are in place or missing the artifact is read
      exactly once and no run raises; after a load that found no file
      every run shows the message and asks no pipeline.
    - [Spec]: the contract of spec.md as pure definitions ([gateway] with
      [gw_load], [decide], [recommend], [score], [handle]) and the two
      refinement theorems: the cache of the process, read through
      [gw_of], moves as the gateway does ([gateway_refinement]); the
      handler shows the rendering of the contract's outcome
      ([handler_refines]).  The validation the specification names
      ([build_record], [predict]) is defined here too.
    - [Threads]: the calls of [load_model()] of several threads, step
      by step: lookup, lock, second lookup, read, store ([advance]).
      Theorems, by induction on the steps from the invariant
      [coherent]: the artifact is read once and all calls return the
      same ([single_initialization]); every call returns
      ([calls_return]); the threads implement the gateway of the
      specification, and a thread alone is the call of the script
      ([threads_refine_gateway]).
    - [Browser]: what Streamlit does between two runs, from the
      behaviour of the library: the [action]s of a user, the actions a
      page permits ([offers], [permitted]: an option that is shown, a
      number at or above the minimum, a button that is shown), the
      session an action starts a run with ([set]) and what is kept of it
      after the run ([kept]: the state of the widgets the run declared,
      without the click).  [agree] is equality of sessions on some
      widgets, which [set], the form and the navigation respect.
    - [World]: the server and its browsers.  A [world] is the [server]
      of [Session] and one [client] (session and page) per browser;
      [receive] serves a [request] (a new browser, or an action its page
      permits) by one run of [app]; [wstep] is the step relation and
      [play] the function for a list of requests.  The invariant [sound]
      (the sessions fit their widgets, hold no click, and the pages show
      known widgets only) holds in every reachable world; [over P] is
      the relation of a run that shows elements passing the test [P]
      only, kept by the structure of the scripts.  Theorems:
      only records of the domain reach the pipeline; the pipeline is
      asked exactly on a click, on the prediction page, with the model
      loaded; the validation of the specification never fails on what a
      browser can send; the gateway settles with the first request
      served and stays.
    - [Scoring]: what the artifact promises.  [Calibrated m] is the
      interface between the pipeline and the script, from sections 3, 6
      and 8 of the specification: a probability, a float from 0 to 1,
      for every record of the domain.  The theorems are proved against
      the interface: the handler shows a result and never an error
      ([handler_answers]); the result is on the scales of the page
      ([result_on_scale]); in the worlds whose artifact keeps the
      promise ([stocked]) every click is answered with the page of the
      result ([click_answered]), and the one error message a page can
      hold is the message of the missing artifact: the handler of the
      exception of the prediction is never reached
      ([errors_only_missing], from the invariant [composed]).  The
      pipeline of the fixtures is an instance; the one that raises and
      the one with one column are not.
    - [Visit]: a whole visit: a browser connects, enters a record field
      by field and clicks; the pipeline receives the table of that
      record ([visit_roundtrip]).
    - [Loading]: the steps in which the artifact is read are well
      founded when the artifact is in place or missing, and after one
      of them no later step reads the artifact, whatever the files
      become ([loading_terminates]); with an artifact that cannot be
      read the reads go on for ever ([reading_diverges]).
    - [Interleave]: the requests of different browsers.  [similar]
      relates worlds with the same clients and cache and the same calls
      in some order; [receive] and [play] respect it.  Once the gateway
      has settled two requests of different browsers commute, and every
      interleaving ([merge]) of the requests of two groups of browsers
      ends as the groups served one after the other
      ([interleaving_serial]).  Before that, the first request decides
      ([early_late_gateway]).
    - [Reload]: what the browser keeps of a run is all the run read:
      after any action but a click a reload shows the same page and
      leaves sessions and cache as they are ([reload_idempotent]), by
      [Local], [LogFree] and the settled cache together.
    - [Navigate]: the navigation.  A run for the documentation or the
      about page declares no widget of the form, so the session forgets
      the form ([navigation_forgets]); with an artifact in place or
      missing every browser can always open every page ([no_dead_end]),
      and with an artifact that cannot be read it cannot
      ([corrupt_dead_end]).
    - [Overlap]: runs that overlap.  The process holds the threads of
      [Threads], one per run under way ([flight]), and the browsers; a
      request arrives ([arrive]), the call of its run steps among the
      calls of the others ([proceed]), and when the call has returned
      the rest of the script runs and the page is delivered
      ([finish], [resume]).  [matches] relates the process to a world
      of [World]: the same cache, and every browser shows or is about
      to be shown the same.  Theorems: every state reached with overlap
      matches a state reached by serving requests one at a time
      ([overlap_serial]).  The statement gives the existence of that
      world; the order of its requests is in the proof, a simulation
      in which [World] serves a request at the step in which its call
      returns and stands still otherwise ([return_matches],
      [ostep_matches]).  What
      holds of the clients of every
      world holds with overlap ([overlap_transfer]): the records that
      reach the pipeline are in its domain, a click is answered when
      the artifact keeps its promise; and the artifact is read at most
      once ([overlap_loads_once]).
    - [Settle]: the process of [Overlap] comes to rest.  The steps of
      the runs under way are well founded and never stuck
      ([runs_end]); a request whose run goes on alone to its end is a
      step of [World], so that one request at a time is a case of the
      overlap ([overlap_complete]).

    ** Reading the theorems

    The lists of a run state are kept newest first, so that the state after
    a run is a term one can compare by computation; [added st st'] and
    [page st] give the elements in the order of the page.  The exact value
    of a finite float [f] is [ulps f] units of 2^-1074, and [ulp_den] is
    the number of such units in 1.

    ** Bounds

    Nothing in the development uses fuel: every definition is structurally
    recursive or not recursive at all, and a run of the script always
    ends.  The one thing that can go on for ever is the process, which
    serves requests as long as it runs; what [Loading] proves to end is
    the phase in which it reads the artifact.  [Threads.drive] runs one
    thread for at most four steps, which is the length of the longest
    call (lookup, lock, second lookup, read).  The runs of [Overlap]
    need no fuel either: that they end is the theorem
    [Settle.runs_end], by the measure [effort] (the steps the calls
    have left, and the runs under way).  Integers are unbounded [Z], as
    Python's are; floats are kept at binary64.  [st.number_input] is
    given no upper bound, where Streamlit keeps integers within
    2^53 - 1 in size: the domain of the model is the wider one.

    ** Not modelled

    The pipeline itself is outside the repository: it is an arbitrary
    function from the table to an exception or a matrix, and, in
    [Scoring], one that keeps the promise of the specification; its
    preprocessing and its classifier are not modelled.  The rendering of
    the elements by the browser (layout, style sheet) is not modelled: an
    element is its constructor and its arguments.  The display calls are
    taken never to raise.  The box in which Streamlit shows an exception
    that leaves the script is not an element of the model: the page of a
    run that raised holds what the script showed before, and the
    exception is in [sv_raised]; the theorems on the error messages of
    a page ([Scoring.errors_only_missing]) are about the messages of
    the script.  Exception classes are flat: [except FileNotFoundError]
    catches that class and no subclass, of which the script meets none.
    A widget is known by its kind and label, where Streamlit takes all
    arguments into account; the labels of the script are distinct.
    What the browser and Streamlit do between two
    runs is modelled from the behaviour of the library ([Browser]), not
    from code of the repository: after every run, also one that raised,
    the session keeps the state of the widgets the run declared and
    drops the rest, which versions of Streamlit that do not clean up
    after a run that stopped early do otherwise.  So are the steps of
    the decorator under concurrent calls ([Threads]) and the threads of
    the runs ([Overlap]).  In [World] a run is atomic; in [Overlap] the runs of
    different browsers overlap at the grain of the steps of the
    decorator, the only place where they share state.  Within one
    browser they do not: a browser makes no request while its run is
    under way, whereas Streamlit stops the run of a session that acts
    again and starts another; that interruption is not modelled.  The
    files are taken not to change during a run.  [Overlap] keeps no log
    of the calls to the outside: the calls of a run are those of its
    request served alone ([Cachefree.private_run]).

    ** Plan

    The plan of the earlier versions of this header is carried out:
    the runs that overlap are related to [World] in [Overlap] and
    [Settle].  What could follow is outside the repository: the
    interruption of a run by its own session, which is behaviour of
    Streamlit, and the pipeline behind [Calibrated], which is the
    artifact. *)

From Stdlib Require Export ZArith Lia.
From stdpp Require Export base tactics option list strings pretty gmap.

(** The hint database of the development: facts that close the routine
    side conditions of the component files. *)
Create HintDb loan discriminated.
Create Rewrite HintDb loan_rw.

#[global] Open Scope Z_scope.

(** ** Strings *)

(** The double quote, for the HTML attributes of the script's markup. *)
Definition dq : string := String (Ascii.ascii_of_nat 34) EmptyString.

(** The line break of a multi-line literal. *)
Definition nl : string := String (Ascii.ascii_of_nat 10) EmptyString.

(** ** Tactics *)

(** [by_decide]: a closed decidable proposition, by evaluating its
    decision procedure. *)
Ltac by_decide :=
  lazymatch goal with
  | |- ?P => apply (bool_decide_unpack P); vm_compute; exact I
  end.

(** [find_elem]: an element of a list that is written out. *)
Ltac find_elem :=
  repeat first [apply list_elem_of_here | apply list_elem_of_further].

(** [bool_cases]: split every boolean test of the goal that is stuck on a
    variable, keeping the equation. *)
Ltac bool_cases :=
  repeat match goal with
         | |- context [if ?b then _ else _] =>
             lazymatch type of b with
             | bool => let E := fresh "E" in destruct b eqn:E
             end
         end.
