(* ===== verification/PyFloat.v ===== *)
(** * PyFloat: the floating-point numbers of the script

    A Python [float] (and a [numpy.float64], which the pipeline returns) is
    an IEEE-754 binary64 value.  The model is the Standard Library's
    [spec_float] at precision 53 and maximal exponent 1024: the operators
    below are the ones [src/app.py] applies to such values.  [ulps] gives
    the exact value of a finite float as an integer number of units of
    2^-1074, the smallest positive binary64 value, so that statements about
    the real value of a probability are statements about integers. *)

From S2P Require Import Prelude.
From Stdlib Require Export SpecFloat.

(** ** The format *)

Abbreviation float := spec_float.

Definition prec : Z := 53.
Definition emax : Z := 1024.
Definition emin : Z := -1074.

(** A float the hardware can hold: a canonical mantissa and an exponent in
    range. *)
Definition valid (f : float) : bool := valid_binary prec emax f.

Definition is_finite (f : float) : bool :=
  match f with S754_zero _ | S754_finite _ _ _ => true | _ => false end.

Definition is_nan (f : float) : bool :=
  match f with S754_nan => true | _ => false end.

Definition sign_bit (f : float) : bool :=
  match f with
  | S754_zero s | S754_infinity s | S754_finite s _ _ => s
  | S754_nan => false
  end.

(** ** Exact values *)

(** The magnitude [m * 2^e] in units of [2^emin]. *)
Definition mag (m : positive) (e : Z) : Z := Z.pos m * 2 ^ (e - emin).

Definition ulps (f : float) : Z :=
  match f with
  | S754_finite s m e => if s then - mag m e else mag m e
  | _ => 0
  end.

(** The unit: [ulps f / ulp_den] is the real value of a finite [f]. *)
Definition ulp_den : Z := 2 ^ 1074.

(** ** Literals and conversions *)

(** A Python [int] used where a float is expected, as the [100] of
    [prob * 100]. *)
Definition float_of_Z (z : Z) : float := binary_normalize prec emax z 0 false.

(** The decimal literal [n/d]: the binary64 value nearest to the quotient.
    The division of two exactly represented integers rounds once, as the
    conversion of the literal does. *)
Definition float_lit (n d : Z) : float :=
  SFdiv prec emax (float_of_Z n) (float_of_Z d).

(** [0.5], [1.0] and [0.0] as the script writes them. *)
Definition f_0_5 : float := S754_finite false 4503599627370496 (-53).
Definition f_1_0 : float := S754_finite false 4503599627370496 (-52).
Definition f_0_0 : float := S754_zero false.

(** ** Operators *)

(** [x >= y], [x < y] and [x == y]: false as soon as one side is NaN. *)
Definition float_ge (x y : float) : bool := SFleb y x.
Definition float_lt (x y : float) : bool := SFltb x y.
Definition float_eq (x y : float) : bool := SFeqb x y.

(** [x * y], rounded to nearest, ties to even. *)
Definition float_mul (x y : float) : float := SFmul prec emax x y.

(** ** Formatting *)

(** [n / d] rounded to the nearest integer, ties to the even one; for
    [0 <= n] and [0 < d]. *)
Definition round_half_even (n d : Z) : Z :=
  let q := n / d in
  match 2 * (n mod d) ?= d with
  | Lt => q
  | Gt => q + 1
  | Eq => if Z.even q then q else q + 1
  end.

(** The absolute value of [f] in tenths, correctly rounded. *)
Definition tenths (f : float) : Z :=
  round_half_even (Z.abs (ulps f) * 10) ulp_den.

Definition digits (z : Z) : string := pretty (Z.to_N z).

(** The format specification [.1f]. *)
Definition format_f1 (f : float) : string :=
  match f with
  | S754_nan => "nan"
  | S754_infinity s => (if s then "-" else "") +:+ "inf"
  | _ =>
      (if sign_bit f then "-" else "")
        +:+ digits (tenths f / 10) +:+ "." +:+ digits (tenths f mod 10)
  end.

(** The format specification [.1%]: the value times 100, a product taken
    in binary64, then [.1f] and a percent sign. *)
Definition format_pct1 (f : float) : string :=
  format_f1 (float_mul f (float_of_Z 100)) +:+ "%".

(** ** The format's bounds *)

#[export] Instance float_eq_dec : EqDecision float.
Proof. solve_decision. Defined.

Lemma digits2_pos_size m : digits2_pos m = Pos.size m.
Proof. induction m; simpl; congruence. Qed.

Lemma size_bounds m :
  2 ^ Z.pos (Pos.size m) <= 2 * Z.pos m /\ Z.pos m < 2 ^ Z.pos (Pos.size m).
Proof.
  split.
  - pose proof (Pos.size_le m) as H. apply Pos2Z.pos_le_pos in H.
    by rewrite Pos2Z.inj_pow in H.
  - pose proof (Pos.size_gt m) as H. apply Pos2Z.pos_lt_pos in H.
    by rewrite Pos2Z.inj_pow in H.
Qed.

(** What [valid] says of a finite float: the exponent is in range, the
    mantissa has at most 53 bits, and exactly 53 unless the float is
    subnormal. *)
Lemma bounded_inv m e :
  bounded prec emax m e = true ->
  emin <= e <= emax - prec /\ Z.pos m < 2 ^ prec
  /\ (emin < e -> 2 ^ (prec - 1) <= Z.pos m).
Proof.
  unfold bounded, canonical_mantissa, fexp, SpecFloat.emin.
  rewrite andb_true_iff, Z.eqb_eq, Z.leb_le, digits2_pos_size.
  change (3 - emax - prec) with emin.
  intros [Hc He]. destruct (size_bounds m) as [Hlo Hhi].
  assert (Hd : Z.pos (Pos.size m) <= prec
               /\ (emin < e -> Z.pos (Pos.size m) = prec)) by lia.
  destruct Hd as [Hd1 Hd2]. split; [lia|]. split.
  - eapply Z.lt_le_trans; [done|]. apply Z.pow_le_mono_r; lia.
  - intros Hlt. rewrite (Hd2 Hlt) in Hlo. unfold prec in *.
    change (2 ^ 53) with (2 * 2 ^ 52) in Hlo.
    change (2 ^ (53 - 1)) with (2 ^ 52). lia.
Qed.

Lemma pow2_step a b : 0 <= a -> a < b -> 2 * 2 ^ a <= 2 ^ b.
Proof.
  intros Ha Hab. rewrite <- Z.pow_succ_r by done.
  apply Z.pow_le_mono_r; lia.
Qed.

Lemma mag_pos m e : bounded prec emax m e = true -> 0 < mag m e.
Proof.
  intros (? & _ & _)%bounded_inv. apply Z.mul_pos_pos; [done|].
  apply Z.pow_pos_nonneg; lia.
Qed.

(** A smaller exponent is a smaller magnitude: the reason a comparison of
    valid floats may look at the exponents first. *)
Lemma mag_lt_exp m1 e1 m2 e2 :
  bounded prec emax m1 e1 = true -> bounded prec emax m2 e2 = true ->
  e1 < e2 -> mag m1 e1 < mag m2 e2.
Proof.
  intros (He1 & Hm1 & _)%bounded_inv (He2 & _ & Hm2)%bounded_inv Hlt.
  specialize (Hm2 ltac:(lia)). unfold mag.
  pose proof (pow2_step (e1 - emin) (e2 - emin) ltac:(lia) ltac:(lia)) as Hp.
  assert (0 < 2 ^ (e1 - emin)) by (apply Z.pow_pos_nonneg; lia).
  change (2 ^ prec) with (2 * 2 ^ (prec - 1)) in Hm1.
  assert (0 < 2 ^ (prec - 1)) by done.
  nia.
Qed.

(** [by_compare]: a goal [c = (a ?= b)] with [c] a constructor, by linear
    arithmetic. *)
Ltac by_compare :=
  symmetry;
  first [apply Z.compare_lt_iff | apply Z.compare_gt_iff
        | apply Z.compare_eq_iff];
  lia.

Lemma mag_compare m1 e1 m2 e2 :
  bounded prec emax m1 e1 = true -> bounded prec emax m2 e2 = true ->
  match e1 ?= e2 with
  | Lt => Lt | Gt => Gt | Eq => Pos.compare_cont Eq m1 m2
  end = (mag m1 e1 ?= mag m2 e2).
Proof.
  intros H1 H2. pose proof (mag_pos _ _ H2) as Hp.
  destruct (Z.compare_spec e1 e2) as [->|Hlt|Hgt].
  - unfold mag in *. rewrite <- Zmult_compare_compat_r; [done|].
    apply Z.lt_gt. apply bounded_inv in H2. apply Z.pow_pos_nonneg; lia.
  - pose proof (mag_lt_exp _ _ _ _ H1 H2 Hlt). by_compare.
  - pose proof (mag_lt_exp _ _ _ _ H2 H1 Hgt). by_compare.
Qed.

(** ** Comparison is comparison of exact values *)

Lemma SFcompare_ulps x y :
  valid x = true -> valid y = true ->
  is_finite x = true -> is_finite y = true ->
  SFcompare x y = Some (ulps x ?= ulps y).
Proof.
  destruct x as [sx|?| |sx mx ex], y as [sy|?| |sy my ey]; try done;
    cbn [SFcompare ulps valid valid_binary]; intros Hx Hy _ _; f_equal;
    try pose proof (mag_pos _ _ Hx); try pose proof (mag_pos _ _ Hy).
  - destruct sy; by_compare.
  - destruct sx; by_compare.
  - pose proof (mag_compare _ _ _ _ Hx Hy) as Hc.
    destruct sx, sy; try by_compare; [|done].
    rewrite Z.compare_opp, (Z.compare_antisym (mag mx ex)), <- Hc.
    by destruct (ex ?= ey).
Qed.

Lemma float_ge_ulps x y :
  valid x = true -> valid y = true ->
  is_finite x = true -> is_finite y = true ->
  float_ge x y = (ulps y <=? ulps x).
Proof.
  intros. unfold float_ge, SFleb, Z.leb. rewrite SFcompare_ulps by done.
  by destruct (ulps y ?= ulps x).
Qed.

Lemma float_lt_ulps x y :
  valid x = true -> valid y = true ->
  is_finite x = true -> is_finite y = true ->
  float_lt x y = (ulps x <? ulps y).
Proof.
  intros. unfold float_lt, SFltb, Z.ltb. rewrite SFcompare_ulps by done.
  by destruct (ulps x ?= ulps y).
Qed.

(** ** NaN and the infinities *)

Lemma float_ge_nan_l y : float_ge S754_nan y = false.
Proof. by destruct y. Qed.

Lemma float_lt_nan_l y : float_lt S754_nan y = false.
Proof. done. Qed.

(** Swapping the sides of a comparison reverses its result. *)
Lemma SFcompare_antisym x y :
  SFcompare y x = CompOpp <$> SFcompare x y.
Proof.
  destruct x as [sx|sx| |sx mx ex], y as [sy|sy| |sy my ey];
    cbn [SFcompare fmap option_fmap option_map]; try done;
    try (by destruct sx); try (by destruct sy); try (by destruct sx, sy).
  f_equal. rewrite (Z.compare_antisym ex ey).
  destruct sx, sy; try done; destruct (ex ?= ey); cbn [CompOpp]; try done.
  all: rewrite ?Pos.compare_cont_spec; cbn [Pos.switch_Eq].
  all: rewrite (Pos.compare_antisym mx my); by destruct (Pos.compare mx my).
Qed.

Lemma SFcompare_not_nan x y :
  is_nan x = false -> is_nan y = false -> is_Some (SFcompare x y).
Proof. destruct x, y; try done; cbn [SFcompare]; eauto. Qed.

(** Away from NaN, [<] is the negation of [>=]. *)
Lemma float_lt_not_ge x y :
  is_nan x = false -> is_nan y = false ->
  float_lt x y = negb (float_ge x y).
Proof.
  intros Hx Hy. unfold float_lt, float_ge, SFltb, SFleb.
  rewrite (SFcompare_antisym x y).
  destruct (SFcompare_not_nan x y Hx Hy) as [c ->]. by destruct c.
Qed.

#[export] Hint Rewrite float_ge_nan_l float_lt_nan_l : loan_rw.

(** ** The operators of the script *)

(** On valid finite floats the three comparisons of the script are
    the comparisons of the exact values: [x >= y], [x < y] and [x == y]
    hold exactly when the values, counted in units of 2^-1074, are in that
    relation.  The two zeros are equal. *)
Theorem float_compare_exact x y :
  valid x = true -> valid y = true ->
  is_finite x = true -> is_finite y = true ->
  (float_ge x y = true <-> ulps y <= ulps x)
  /\ (float_lt x y = true <-> ulps x < ulps y)
  /\ (float_eq x y = true <-> ulps x = ulps y).
Proof.
  intros. rewrite float_ge_ulps, float_lt_ulps by done.
  unfold float_eq, SFeqb. rewrite SFcompare_ulps by done.
  rewrite Z.leb_le, Z.ltb_lt, <- Z.compare_eq_iff.
  by destruct (ulps x ?= ulps y).
Qed.

Lemma float_compare_exact_witness :
  (float_ge (float_lit 82 100) f_0_5 = true
   <-> ulps f_0_5 <= ulps (float_lit 82 100))
  /\ (float_lt (float_lit 82 100) f_0_5 = true
      <-> ulps (float_lit 82 100) < ulps f_0_5)
  /\ (float_eq (float_lit 82 100) f_0_5 = true
      <-> ulps (float_lit 82 100) = ulps f_0_5).
Proof. apply float_compare_exact; reflexivity. Defined.

(** NaN is unordered: every comparison of the script with NaN on
    either side is false, so that [x < y] and [x >= y] are both false
    there, while away from NaN exactly one of them holds. *)
Theorem float_nan_unordered x :
  float_ge S754_nan x = false /\ float_ge x S754_nan = false
  /\ float_lt S754_nan x = false /\ float_lt x S754_nan = false
  /\ float_eq S754_nan x = false
  /\ forall y, is_nan x = false -> is_nan y = false ->
       xorb (float_lt x y) (float_ge x y) = true.
Proof.
  repeat split; try (by destruct x).
  intros y Hx Hy. rewrite float_lt_not_ge by done.
  by destruct (float_ge x y).
Qed.

(** The format [.1%] on the values of the scenarios and on the cases
    of its rounding: the product with 100 is taken in binary64
    (0.29 * 100 is below 29 and is still shown as 29.0), the decimal
    rounding is to nearest with ties to even on the exact binary value,
    NaN is shown as such and a small negative value keeps its sign. *)
Theorem format_pct1_examples :
  format_pct1 (float_lit 82 100) = "82.0%"
  /\ format_pct1 (float_lit 20 100) = "20.0%"
  /\ format_pct1 f_0_5 = "50.0%"
  /\ format_pct1 f_1_0 = "100.0%"
  /\ format_pct1 (float_lit 29 100) = "29.0%"
  /\ format_pct1 (float_lit 1225 10000) = "12.2%"
  /\ format_pct1 (float_lit 99995 100000) = "100.0%"
  /\ format_pct1 (float_lit 5 10000) = "0.1%"
  /\ format_pct1 (float_lit 25 10000) = "0.2%"
  /\ format_pct1 (float_lit (-1) 10000) = "-0.0%"
  /\ format_pct1 S754_nan = "nan%".
Proof. by vm_compute. Qed.
