(* ===== verification/Rounding.v ===== *)
(** * Rounding: the product of two floats is correctly rounded

    The script multiplies the probability by 100 twice: for the needle of
    the gauge ([prob * 100]) and inside the format [.1%].  The product of
    the model, [float_mul], is the Standard Library's [SFmul], which
    rounds by shifting the mantissa of the exact product to the right, one
    bit at a time, with a round bit and a sticky bit.  This file proves
    that the shifts compute the division they stand for, that the result
    is the rounding of [round_half_even] (the reference the decimal
    format uses as well), and from there what the other files need: the
    product of two valid floats is valid, it is a float nearest to the
    exact product, it differs from the exact product by at most half the
    spacing of the floats there, and it is infinite only when the exact
    product is beyond the largest float.  The last part is the order:
    the rounding is monotone, so the product is monotone in each factor
    ([float_mul_mono]), and a float below (above) a float of the grid is
    at most its predecessor (at least its successor), which is what
    [Format] needs to find where the text of the metric changes. *)

From S2P Require Import Prelude PyFloat.

(** ** The reference *)

(** What [k] shifts to the right make of [m]: the quotient by [2^k] in
    [shr_m], and in the round and sticky bits the place of the remainder
    with respect to the half of [2^k]. *)
Definition shifted (m k : Z) (r : shr_record) : Prop :=
  0 <= shr_m r /\
  exists rem, m = shr_m r * 2 ^ k + rem /\
    match shr_r r, shr_s r with
    | false, false => rem = 0
    | false, true => 0 < 2 * rem < 2 ^ k
    | true, false => 2 * rem = 2 ^ k
    | true, true => 2 ^ k < 2 * rem < 2 * 2 ^ k
    end.

(** [z] or its opposite. *)
Definition signed (s : bool) (z : Z) : Z := if s then - z else z.

(** The float of sign [s] and magnitude [q * 2^e], for [0 <= q]. *)
Definition pack (s : bool) (q e : Z) : float :=
  match q with
  | Zpos p =>
      if e <=? emax - prec then S754_finite s p e else S754_infinity s
  | Z0 => S754_zero s
  | Zneg _ => S754_nan
  end.

(** The exponent of the rounding of [m * 2^e], the spacing of the floats
    there in units of [2^e], and the mantissa of the rounding before a
    carry to the next binade. *)
Definition round_exp (m e : Z) : Z := Z.max (Zdigits2 m + e - prec) emin.
Definition round_grid (m e : Z) : Z := 2 ^ (round_exp m e - e).
Definition round_man (m e : Z) : Z := round_half_even m (round_grid m e).

(** The rounding of [m * 2^e] to the format, with sign [s]. *)
Definition round_ref (s : bool) (m e : Z) : float :=
  if round_man m e =? 2 ^ prec
  then pack s (2 ^ (prec - 1)) (round_exp m e + 1)
  else pack s (round_man m e) (round_exp m e).

(** [2^e] in units of [2^(2*emin)], the unit of a product of two
    [ulps]. *)
Definition exact_scale (e : Z) : Z := 2 ^ (e - 2 * emin).

(** The largest finite float, in [ulps]. *)
Definition max_ulps : Z := (2 ^ prec - 1) * 2 ^ (emax - prec - emin).

(** ** Shifts are divisions *)

Lemma pow2_pos k : 0 <= k -> 0 < 2 ^ k.
Proof. intros. apply Z.pow_pos_nonneg; lia. Qed.

Lemma iter_pos_invariant {A} (f : A -> A) (P : Z -> A -> Prop) :
  (forall k a, 0 <= k -> P k a -> P (k + 1) (f a)) ->
  forall p k a, 0 <= k -> P k a -> P (k + Z.pos p) (iter_pos f p a).
Proof.
  intros Hf. induction p as [p IH|p IH|]; intros k a Hk Ha; cbn [iter_pos].
  - replace (k + Z.pos p~1) with (k + 1 + Z.pos p + Z.pos p) by lia.
    apply IH; [lia|]. apply IH; [lia|]. by apply Hf.
  - replace (k + Z.pos p~0) with (k + Z.pos p + Z.pos p) by lia.
    apply IH; [lia|]. by apply IH.
  - by apply Hf.
Qed.

Lemma shifted_0 m : 0 <= m -> shifted m 0 (Build_shr_record m false false).
Proof. intros. split; [done|]. exists 0. cbn. lia. Qed.

Lemma shifted_shr_1 m k r :
  0 <= k -> shifted m k r -> shifted m (k + 1) (shr_1 r).
Proof.
  intros Hk [Hq (rem & Hm & Hrem)]. unfold shifted.
  rewrite Z.pow_add_r, Z.pow_1_r by lia. pose proof (pow2_pos k Hk).
  destruct r as [q b s]. cbn [shr_m shr_r shr_s] in *.
  destruct q as [|[q|q|]|q]; [| | | |lia]; cbn [shr_1 shr_m shr_r shr_s];
    (split; [lia|]).
  - exists rem. split; [lia|]. destruct b, s; cbn; lia.
  - exists (2 ^ k + rem). split; [lia|]. destruct b, s; cbn; lia.
  - exists rem. split; [lia|]. destruct b, s; cbn; lia.
  - exists (2 ^ k + rem). split; [lia|]. destruct b, s; cbn; lia.
Qed.

Lemma shr_shifted m e n :
  0 <= m -> 0 <= n ->
  shifted m n (shr (Build_shr_record m false false) e n).1
  /\ (shr (Build_shr_record m false false) e n).2 = e + n.
Proof.
  intros Hm Hn. destruct n as [|p|p]; [| |lia]; cbn [shr fst snd].
  - split; [by apply shifted_0|lia].
  - split; [|done].
    apply (iter_pos_invariant shr_1 (shifted m) (λ k a, shifted_shr_1 m k a)
             p 0 _ (Z.le_refl 0) (shifted_0 m Hm)).
Qed.

Lemma shifted_div m k r :
  0 <= k -> shifted m k r -> shr_m r = m / 2 ^ k.
Proof.
  intros Hk [Hq (rem & Hm & Hrem)]. pose proof (pow2_pos k Hk).
  apply (Z.div_unique_pos m (2 ^ k) (shr_m r) rem); [|lia].
  destruct (shr_r r), (shr_s r); lia.
Qed.

(** Rounding on the round and sticky bits is [round_half_even]. *)
Lemma shifted_round m k r :
  0 <= k -> shifted m k r ->
  round_nearest_even (shr_m r) (loc_of_shr_record r)
  = round_half_even m (2 ^ k).
Proof.
  intros Hk Hs. pose proof (shifted_div m k r Hk Hs) as Hdiv.
  destruct Hs as [Hq (rem & Hm & Hrem)]. pose proof (pow2_pos k Hk).
  assert (Hmod : m mod 2 ^ k = rem).
  { symmetry. apply (Z.mod_unique_pos m (2 ^ k) (shr_m r) rem); [|lia].
    destruct (shr_r r), (shr_s r); lia. }
  unfold round_half_even. rewrite Hmod, <- Hdiv.
  destruct r as [q [] []]; cbn [shr_m shr_r shr_s loc_of_shr_record
    round_nearest_even] in *.
  - by replace (2 * rem ?= 2 ^ k) with Gt by by_compare.
  - by replace (2 * rem ?= 2 ^ k) with Eq by by_compare.
  - by replace (2 * rem ?= 2 ^ k) with Lt by by_compare.
  - by replace (2 * rem ?= 2 ^ k) with Lt by by_compare.
Qed.

(** ** [round_half_even] *)

Lemma round_half_even_nearest n d c :
  0 < d -> Z.abs (round_half_even n d * d - n) <= Z.abs (c * d - n).
Proof.
  intros Hd. unfold round_half_even.
  pose proof (Z.div_mod n d ltac:(lia)) as Hn.
  pose proof (Z.mod_pos_bound n d Hd) as Hr.
  set (q := n / d) in *. set (r := n mod d) in *.
  assert (Hc : c <= q \/ q + 1 <= c) by lia.
  destruct (Z.compare_spec (2 * r) d), (Z.even q), Hc; nia.
Qed.

Lemma round_half_even_half n d :
  0 < d -> 2 * Z.abs (round_half_even n d * d - n) <= d.
Proof.
  intros Hd. unfold round_half_even.
  pose proof (Z.div_mod n d ltac:(lia)) as Hn.
  pose proof (Z.mod_pos_bound n d Hd) as Hr.
  set (q := n / d) in *. set (r := n mod d) in *.
  destruct (Z.compare_spec (2 * r) d), (Z.even q); nia.
Qed.

Lemma round_half_even_bounds n d :
  0 < d -> n / d <= round_half_even n d <= n / d + 1.
Proof.
  intros. unfold round_half_even.
  destruct (2 * (n mod d) ?= d), (Z.even (n / d)); lia.
Qed.

Lemma round_half_even_le n d c :
  0 < d -> n <= c * d -> round_half_even n d <= c.
Proof.
  intros Hd Hn. unfold round_half_even.
  pose proof (Z.div_mod n d ltac:(lia)) as Hdm.
  pose proof (Z.mod_pos_bound n d Hd) as Hr.
  set (q := n / d) in *. set (r := n mod d) in *.
  assert (q < c \/ (q = c /\ r = 0)) as [|[-> ->]] by nia.
  - destruct (2 * r ?= d), (Z.even q); lia.
  - by replace (2 * 0 ?= d) with Lt by by_compare.
Qed.

Lemma round_half_even_mono n n' d :
  0 < d -> n <= n' -> round_half_even n d <= round_half_even n' d.
Proof.
  intros Hd Hn.
  pose proof (Z.div_le_mono n n' d Hd Hn) as Hq.
  destruct (Z.le_gt_cases (n / d + 1) (n' / d)).
  - pose proof (round_half_even_bounds n d Hd).
    pose proof (round_half_even_bounds n' d Hd). lia.
  - assert (Heq : n' / d = n / d) by lia.
    pose proof (Z.div_mod n d ltac:(lia)). pose proof (Z.div_mod n' d ltac:(lia)).
    assert (n mod d <= n' mod d) by nia.
    unfold round_half_even. rewrite Heq.
    destruct (Z.compare_spec (2 * (n mod d)) d),
      (Z.compare_spec (2 * (n' mod d)) d), (Z.even (n / d)); lia.
Qed.

Lemma round_half_even_nonneg n d :
  0 <= n -> 0 < d -> 0 <= round_half_even n d.
Proof.
  intros Hn Hd. pose proof (round_half_even_bounds n d Hd).
  pose proof (Z.div_pos n d Hn Hd). lia.
Qed.

(** ** The number of bits of a mantissa *)

Lemma Zdigits2_bounds m :
  0 < m -> 0 < Zdigits2 m /\ 2 ^ (Zdigits2 m - 1) <= m < 2 ^ Zdigits2 m.
Proof.
  destruct m as [|p|p]; [lia| |lia]. intros _. cbn [Zdigits2].
  rewrite digits2_pos_size. destruct (size_bounds p) as [Hlo Hhi].
  split; [lia|]. split; [|done].
  replace (Z.pos (Pos.size p)) with (Z.pos (Pos.size p) - 1 + 1) in Hlo by lia.
  rewrite Z.pow_add_r, Z.pow_1_r in Hlo by lia. lia.
Qed.

Lemma Zdigits2_le m d : 0 < m -> m < 2 ^ d -> Zdigits2 m <= d.
Proof.
  intros Hm Hd. destruct (Zdigits2_bounds m Hm) as (Hp & Hlo & _).
  destruct (Z.le_gt_cases (Zdigits2 m) d) as [|Hgt]; [done|].
  assert (0 <= d).
  { destruct (Z.le_gt_cases 0 d); [done|]. rewrite Z.pow_neg_r in Hd; lia. }
  pose proof (Z.pow_le_mono_r 2 d (Zdigits2 m - 1) ltac:(lia) ltac:(lia)). lia.
Qed.

Lemma Zdigits2_ge m d : 0 < m -> 2 ^ (d - 1) <= m -> d <= Zdigits2 m.
Proof.
  intros Hm Hd. destruct (Zdigits2_bounds m Hm) as (Hp & _ & Hhi).
  destruct (Z.le_gt_cases d (Zdigits2 m)) as [|Hgt]; [done|].
  pose proof (Z.pow_le_mono_r 2 (Zdigits2 m) (d - 1) ltac:(lia) ltac:(lia)).
  lia.
Qed.

Lemma fexp_eq x : fexp prec emax x = Z.max (x - prec) emin.
Proof. reflexivity. Qed.

(** The converse of [bounded_inv]. *)
Lemma bounded_intro m e :
  emin <= e <= emax - prec -> Z.pos m < 2 ^ prec ->
  (emin < e -> 2 ^ (prec - 1) <= Z.pos m) ->
  bounded prec emax m e = true.
Proof.
  intros He Hhi Hlo. unfold bounded, canonical_mantissa.
  rewrite andb_true_iff, Z.eqb_eq, Z.leb_le, fexp_eq. split; [|lia].
  change (Z.pos (digits2_pos m)) with (Zdigits2 (Z.pos m)).
  pose proof (Zdigits2_le (Z.pos m) prec ltac:(lia) Hhi).
  destruct (decide (emin < e)) as [Hlt|]; [|lia].
  pose proof (Zdigits2_ge (Z.pos m) prec ltac:(lia) (Hlo Hlt)). lia.
Qed.

(** ** Packing a mantissa and an exponent *)

Lemma pack_valid s q e :
  emin <= e -> 0 <= q < 2 ^ prec -> (emin < e -> 2 ^ (prec - 1) <= q) ->
  valid (pack s q e) = true.
Proof.
  intros He Hq Hlo. unfold pack. destruct q as [|p|p]; [done| |lia].
  destruct (Z.leb_spec e (emax - prec)); [|done].
  apply bounded_intro; lia.
Qed.

Lemma pack_sign s q e :
  0 <= q -> is_nan (pack s q e) = false /\ sign_bit (pack s q e) = s.
Proof.
  intros Hq. unfold pack. destruct q as [|p|p]; [done| |lia].
  by destruct (e <=? emax - prec).
Qed.

Lemma ulps_pack s q e :
  is_finite (pack s q e) = true -> 0 <= q ->
  ulps (pack s q e) = signed s (q * 2 ^ (e - emin)).
Proof.
  unfold pack. destruct q as [|p|p]; [by destruct s| |lia].
  by destruct (e <=? emax - prec).
Qed.

Lemma pack_infinite s q e :
  is_finite (pack s q e) = false -> 0 <= q -> emax - prec < e.
Proof.
  unfold pack. destruct q as [|p|p]; [done| |lia].
  by destruct (Z.leb_spec e (emax - prec)).
Qed.

(** ** Signs *)

Lemma signed_mul_l s a b : signed s a * b = signed s (a * b).
Proof. destruct s; cbn; lia. Qed.

Lemma abs_signed s a : Z.abs (signed s a) = Z.abs a.
Proof. destruct s; cbn; lia. Qed.

Lemma abs_sub_signed s a b : Z.abs (a - signed s b) = Z.abs (signed s a - b).
Proof. destruct s; cbn; lia. Qed.

Lemma ulps_nonneg f : sign_bit f = false -> 0 <= ulps f.
Proof.
  destruct f as [| | |[] m e]; try done. intros _. cbn [ulps]. unfold mag.
  apply Z.mul_nonneg_nonneg; [done|]. apply Z.pow_nonneg. lia.
Qed.

Lemma nearest_scaled q m P S w :
  0 < S -> Z.abs (q * P - m) <= Z.abs (w * P - m) ->
  Z.abs (q * P * S - m * S) <= Z.abs (w * P * S - m * S).
Proof.
  intros HS H.
  replace (q * P * S - m * S) with ((q * P - m) * S) by ring.
  replace (w * P * S - m * S) with ((w * P - m) * S) by ring.
  rewrite !Z.abs_mul. apply Z.mul_le_mono_nonneg_r; lia.
Qed.

Lemma scaled_chain c K A P M m S :
  0 <= c -> 0 <= A -> 0 < S -> M <= c * K ->
  A * K <= P * S -> c * P <= m -> M * A <= m * S.
Proof.
  intros Hc HA HS HM HK Hm.
  transitivity (c * K * A); [by apply Z.mul_le_mono_nonneg_r|].
  transitivity (c * (P * S)).
  - rewrite <- Z.mul_assoc, (Z.mul_comm K). by apply Z.mul_le_mono_nonneg_l.
  - rewrite Z.mul_assoc. apply Z.mul_le_mono_nonneg_r; lia.
Qed.

(** ** The rounding of [m * 2^e]

    For a positive [m] that is at least as fine as the format at its
    magnitude, as the exact product of two valid floats is. *)

Section rounding.
Context (m e : Z) (Hm : 0 < m) (He : e <= round_exp m e).
Local Set Default Proof Using "All".

Local Abbreviation P := (round_grid m e).

Lemma round_exp_ge : emin <= round_exp m e.
Proof. unfold round_exp. lia. Qed.

Lemma round_grid_pos : 0 < P.
Proof. apply pow2_pos. lia. Qed.

(** Above the subnormal range the mantissa has all its bits. *)
Lemma round_grid_le : emin < round_exp m e -> 2 ^ (prec - 1) * P <= m.
Proof.
  intros Hlt. destruct (Zdigits2_bounds m Hm) as (_ & Hlo & _).
  unfold round_grid. rewrite <- Z.pow_add_r by (unfold prec; lia).
  eapply Z.le_trans; [|done].
  apply Z.pow_le_mono_r; unfold round_exp in *; lia.
Qed.

Lemma round_grid_gt : m < 2 ^ prec * P.
Proof.
  destruct (Zdigits2_bounds m Hm) as (_ & _ & Hhi).
  unfold round_grid. rewrite <- Z.pow_add_r by (unfold prec; lia).
  eapply Z.lt_le_trans; [done|].
  apply Z.pow_le_mono_r; unfold round_exp in *; lia.
Qed.

Lemma round_man_le : 0 <= round_man m e <= 2 ^ prec.
Proof.
  pose proof round_grid_pos as HP. pose proof round_grid_gt.
  pose proof (round_half_even_bounds m P HP) as Hq.
  pose proof (Z.div_pos m P ltac:(lia) HP).
  assert (m / P < 2 ^ prec); [|unfold round_man; lia].
  apply Z.div_lt_upper_bound; lia.
Qed.

Lemma round_man_ge : emin < round_exp m e -> 2 ^ (prec - 1) <= round_man m e.
Proof.
  intros Hlt. pose proof round_grid_pos as HP.
  pose proof (round_half_even_bounds m P HP) as Hq.
  assert (2 ^ (prec - 1) <= m / P); [|unfold round_man; lia].
  apply Z.div_le_lower_bound; [done|].
  rewrite Z.mul_comm. by apply round_grid_le.
Qed.

(** The second normalisation of [binary_round_aux]: nothing to do, or a
    carry. *)
Lemma shr_fexp_id q e' :
  0 <= q < 2 ^ prec -> emin <= e' ->
  shr_fexp prec emax q e' loc_Exact = (Build_shr_record q false false, e').
Proof.
  intros Hq He'. unfold shr_fexp. rewrite fexp_eq. cbn [shr_record_of_loc].
  assert (Zdigits2 q <= prec) as Hd.
  { destruct (decide (q = 0)) as [->|]; [done|]. apply Zdigits2_le; lia. }
  unfold shr. by destruct (Z.max _ _ - e') eqn:E; [| lia |].
Qed.

Lemma shr_fexp_carry e' :
  emin <= e' ->
  shr_fexp prec emax (2 ^ prec) e' loc_Exact
  = (Build_shr_record (2 ^ (prec - 1)) false false, e' + 1).
Proof.
  intros He'. unfold shr_fexp. rewrite fexp_eq.
  change (Zdigits2 (2 ^ prec)) with 54. unfold prec at 2.
  replace (Z.max (54 + e' - 53) emin - e') with 1 by lia. reflexivity.
Qed.

(** The rounding of the Standard Library is the reference. *)
Lemma binary_round_aux_ref s :
  binary_round_aux prec emax s m e loc_Exact = round_ref s m e.
Proof.
  unfold binary_round_aux, round_ref, shr_fexp at 1.
  rewrite fexp_eq. cbn [shr_record_of_loc]. fold (round_exp m e).
  pose proof round_exp_ge.
  destruct (shr_shifted m e (round_exp m e - e) ltac:(lia) ltac:(lia))
    as [Hs He'].
  destruct (shr _ e (round_exp m e - e)) as [r1 e1]. cbn [fst snd] in *.
  rewrite (shifted_round m (round_exp m e - e) r1) by (done || lia).
  fold P (round_man m e). pose proof round_man_le as Hq.
  replace e1 with (round_exp m e) by lia.
  destruct (Z.eqb_spec (round_man m e) (2 ^ prec)) as [->|].
  - rewrite shr_fexp_carry by lia. reflexivity.
  - rewrite shr_fexp_id by lia. reflexivity.
Qed.

Lemma round_ref_valid s : valid (round_ref s m e) = true.
Proof.
  unfold round_ref. pose proof round_man_le. pose proof round_exp_ge.
  destruct (Z.eqb_spec (round_man m e) (2 ^ prec)).
  - apply pack_valid; [lia|done|done].
  - apply pack_valid; [done|lia|]. apply round_man_ge.
Qed.

Lemma round_ref_sign s :
  is_nan (round_ref s m e) = false /\ sign_bit (round_ref s m e) = s.
Proof.
  unfold round_ref. pose proof round_man_le.
  destruct (Z.eqb_spec (round_man m e) (2 ^ prec)) as [_|];
    apply pack_sign; [done|lia].
Qed.

Lemma ulps_round_ref s :
  is_finite (round_ref s m e) = true ->
  ulps (round_ref s m e)
  = signed s (round_man m e * 2 ^ (round_exp m e - emin)).
Proof.
  unfold round_ref. pose proof round_man_le. pose proof round_exp_ge.
  destruct (Z.eqb_spec (round_man m e) (2 ^ prec)) as [->|]; intros Hf;
    rewrite ulps_pack by (done || lia); [|done].
  f_equal.
  replace (round_exp m e + 1 - emin) with (1 + (round_exp m e - emin))
    by lia.
  rewrite Z.pow_add_r by lia.
  change (2 ^ prec) with (2 ^ (prec - 1) * 2 ^ 1). ring.
Qed.

(** When the rounding overflows, the exact value is in a binade past
    the last one, or at half a spacing from the end of the last one. *)
Lemma round_ref_infinite s :
  is_finite (round_ref s m e) = false ->
  (emax - prec <= round_exp m e /\ (2 ^ prec - 1) * P <= m)
  \/ (emax - prec < round_exp m e /\ 2 ^ (prec - 1) * P <= m).
Proof.
  unfold round_ref. pose proof round_man_le. pose proof round_exp_ge.
  pose proof round_grid_pos as HP. assert (emin < emax - prec) by done.
  destruct (Z.eqb_spec (round_man m e) (2 ^ prec)) as [Heq|];
    intros Hi%pack_infinite; [|done| |lia].
  - left. split; [lia|]. pose proof (round_half_even_half m P HP) as Hh.
    fold (round_man m e) in Hh. rewrite Heq in Hh. lia.
  - right. split; [lia|]. apply round_grid_le. lia.
Qed.
End rounding.

(** ** The rounding is a nearest float *)

Section nearest.
Context (m e : Z) (Hm : 0 < m) (He : e <= round_exp m e)
  (Hlow : 2 * emin <= e).
Local Set Default Proof Using "All".

Local Abbreviation P := (round_grid m e).
Local Abbreviation S := (exact_scale e).

Lemma exact_scale_pos : 0 < S.
Proof. apply pow2_pos. lia. Qed.

(** The spacing of the floats at the result, in the unit of the exact
    value. *)
Lemma grid_unit : 2 ^ (round_exp m e - emin) * ulp_den = P * S.
Proof.
  unfold round_grid, exact_scale, ulp_den. change 1074 with (- emin).
  assert (emin < 0) by done. pose proof (round_exp_ge m e Hm He).
  rewrite <- !Z.pow_add_r by lia. f_equal. lia.
Qed.

Lemma rounded_on_grid w :
  Z.abs (round_man m e * P * S - m * S) <= Z.abs (w * P * S - m * S).
Proof.
  apply nearest_scaled; [apply exact_scale_pos|].
  apply round_half_even_nearest, round_grid_pos; done.
Qed.

(** A float whose exponent is at least that of the result is a point of
    the grid. *)
Lemma mag_on_grid mt et :
  round_exp m e <= et ->
  mag mt et * ulp_den = Z.pos mt * 2 ^ (et - round_exp m e) * P * S.
Proof.
  intros Het. unfold mag. pose proof (round_exp_ge m e Hm He).
  replace (et - emin) with ((et - round_exp m e) + (round_exp m e - emin))
    by lia.
  rewrite Z.pow_add_r, <- !Z.mul_assoc, grid_unit by lia. ring.
Qed.

(** A float with a smaller exponent is below the binade of the exact
    value. *)
Lemma mag_below_grid mt et :
  bounded prec emax mt et = true -> et < round_exp m e ->
  mag mt et * ulp_den < 2 ^ (prec - 1) * P * S.
Proof.
  intros (Het & Hmt & _)%bounded_inv Hlt. assert (emin < 0) by done.
  rewrite <- Z.mul_assoc, <- grid_unit, Z.mul_assoc.
  apply Z.mul_lt_mono_pos_r; [done|]. unfold mag.
  pose proof (pow2_step (et - emin) (round_exp m e - emin)
                ltac:(lia) ltac:(lia)).
  pose proof (pow2_pos (et - emin) ltac:(lia)).
  change (2 ^ prec) with (2 * 2 ^ (prec - 1)) in Hmt.
  assert (0 < 2 ^ (prec - 1)) by done. nia.
Qed.

Lemma nearest_finite s st mt et :
  bounded prec emax mt et = true ->
  Z.abs (round_man m e * P * S - m * S)
  <= Z.abs (signed st (mag mt et) * ulp_den - signed s (m * S)).
Proof.
  intros Ht. destruct (Z.le_gt_cases (round_exp m e) et) as [Hle|Hgt].
  - rewrite signed_mul_l, mag_on_grid, abs_sub_signed by done.
    rewrite <- !signed_mul_l. apply rounded_on_grid.
  - pose proof (mag_below_grid mt et Ht Hgt) as Hlt.
    pose proof (round_grid_le m e Hm He ltac:(apply bounded_inv in Ht; lia)).
    pose proof (rounded_on_grid (2 ^ (prec - 1))) as Hn.
    pose proof exact_scale_pos. rewrite signed_mul_l.
    assert (0 < mag mt et * ulp_den)
      by (apply Z.mul_pos_pos; [by apply mag_pos|done]).
    assert (2 ^ (prec - 1) * P * S <= m * S)
      by (apply Z.mul_le_mono_nonneg_r; [lia|done]).
    destruct s, st; cbn [signed]; lia.
Qed.

Lemma round_ref_nearest s t :
  valid t = true -> is_finite t = true ->
  is_finite (round_ref s m e) = true ->
  Z.abs (ulps (round_ref s m e) * ulp_den - signed s (m * S))
  <= Z.abs (ulps t * ulp_den - signed s (m * S)).
Proof.
  intros Ht Hft Hf. rewrite (ulps_round_ref m e Hm He s Hf).
  rewrite signed_mul_l, <- Z.mul_assoc, grid_unit, Z.mul_assoc.
  rewrite <- abs_sub_signed, <- (abs_signed s (_ - _)).
  replace (signed s (signed s (m * S) - round_man m e * P * S))
    with (signed s (signed s (m * S)) - signed s (round_man m e * P * S))
    by (destruct s; cbn; lia).
  destruct t as [st| | |st mt et]; try done.
  - pose proof (rounded_on_grid 0). destruct s; cbn [signed ulps]; lia.
  - pose proof (nearest_finite s st mt et Ht). cbn [ulps].
    change (if st then - mag mt et else mag mt et)
      with (signed st (mag mt et)).
    destruct s; cbn [signed] in *; lia.
Qed.

(** An overflow happens at or beyond the largest float only. *)
Lemma round_ref_overflow s :
  is_finite (round_ref s m e) = false -> max_ulps * ulp_den <= m * S.
Proof.
  intros Hi. pose proof exact_scale_pos. pose proof (round_exp_ge m e Hm He).
  assert (emin < 0) by done. assert (emin < emax - prec) by done.
  assert (Hmax : forall k, emax - prec + k <= round_exp m e -> 0 <= k ->
            2 ^ (emax - prec - emin) * ulp_den * 2 ^ k <= P * S).
  { intros k Hk ?. rewrite <- grid_unit.
    rewrite <- Z.mul_assoc, (Z.mul_comm ulp_den), Z.mul_assoc.
    apply Z.mul_le_mono_nonneg_r; [done|].
    rewrite <- Z.pow_add_r by lia. apply Z.pow_le_mono_r; lia. }
  unfold max_ulps. rewrite <- Z.mul_assoc.
  destruct (round_ref_infinite m e Hm He s Hi) as [[Hle Hge]|[Hlt Hge]].
  - apply (scaled_chain (2 ^ prec - 1) (2 ^ 0) _ P); try done.
    apply Hmax; lia.
  - apply (scaled_chain (2 ^ (prec - 1)) (2 ^ 1) _ P); try done.
    apply Hmax; lia.
Qed.
(** The error of the rounding is at most half the spacing of the floats
    at the result. *)
Lemma round_ref_error s :
  is_finite (round_ref s m e) = true ->
  2 * Z.abs (ulps (round_ref s m e) * ulp_den - signed s (m * S))
  <= 2 ^ (round_exp m e - emin) * ulp_den.
Proof.
  intros Hf. rewrite (ulps_round_ref m e Hm He s Hf).
  rewrite signed_mul_l, <- Z.mul_assoc, grid_unit, Z.mul_assoc by done.
  replace (signed s (round_man m e * P * S) - signed s (m * S))
    with (signed s ((round_man m e * P - m) * S))
    by (destruct s; cbn [signed]; ring).
  rewrite abs_signed, Z.abs_mul, Z.mul_assoc. pose proof exact_scale_pos.
  rewrite (Z.abs_eq S) by lia.
  apply Z.mul_le_mono_nonneg_r; [lia|].
  apply round_half_even_half, round_grid_pos; done.
Qed.

(** The exponent of the result of a value below [2^k]. *)
Lemma round_exp_below k :
  emin + prec <= k -> m * S < 2 ^ (k - 2 * emin) ->
  round_exp m e <= k - prec.
Proof.
  intros Hk Hlt. unfold exact_scale in Hlt.
  destruct (Zdigits2_bounds m Hm) as (Hd & Hlo & _).
  assert (emin < 0) by done. assert (0 < prec) by done.
  assert (Hp : 2 ^ (Zdigits2 m - 1 + (e - 2 * emin)) < 2 ^ (k - 2 * emin)).
  { eapply Z.le_lt_trans; [|done]. rewrite Z.pow_add_r by lia.
    apply Z.mul_le_mono_nonneg_r; [|done]. apply Z.pow_nonneg. lia. }
  apply Z.pow_lt_mono_r_iff in Hp; [|lia|lia]. unfold round_exp. lia.
Qed.
End nearest.

(** ** The product of two floats *)

(** The exact product of two valid floats is never coarser than the
    format: rounding shifts to the right, or not at all. *)
Lemma mul_exp_le mx ex my ey :
  bounded prec emax mx ex = true -> bounded prec emax my ey = true ->
  ex + ey <= round_exp (Z.pos (mx * my)) (ex + ey).
Proof.
  intros (Hex & Hx & Hnx)%bounded_inv (Hey & Hy & Hny)%bounded_inv.
  unfold round_exp. destruct (decide (ex + ey <= emin)); [lia|].
  assert (prec <= Zdigits2 (Z.pos (mx * my))); [|lia].
  apply Zdigits2_ge; [done|]. rewrite Pos2Z.inj_mul.
  destruct (decide (emin < ex)) as [Hlt|].
  - transitivity (Z.pos mx * 1); [specialize (Hnx Hlt); lia|].
    apply Z.mul_le_mono_nonneg_l; lia.
  - assert (emin < 0) by done.
    transitivity (1 * Z.pos my); [specialize (Hny ltac:(lia)); lia|].
    apply Z.mul_le_mono_nonneg_r; lia.
Qed.

Lemma float_mul_finite sx mx ex sy my ey :
  bounded prec emax mx ex = true -> bounded prec emax my ey = true ->
  float_mul (S754_finite sx mx ex) (S754_finite sy my ey)
  = round_ref (xorb sx sy) (Z.pos (mx * my)) (ex + ey).
Proof.
  intros Hx Hy. unfold float_mul. cbn [SFmul].
  apply binary_round_aux_ref; [done|]. by apply mul_exp_le.
Qed.

(** The product of the exact values, in units of [2^(2*emin)]. *)
Lemma ulps_mul sx mx ex sy my ey :
  bounded prec emax mx ex = true -> bounded prec emax my ey = true ->
  ulps (S754_finite sx mx ex) * ulps (S754_finite sy my ey)
  = signed (xorb sx sy) (Z.pos (mx * my) * exact_scale (ex + ey)).
Proof.
  intros (Hex & _)%bounded_inv (Hey & _)%bounded_inv.
  unfold exact_scale, mag, ulps, mag.
  replace (ex + ey - 2 * emin) with ((ex - emin) + (ey - emin)) by lia.
  rewrite Z.pow_add_r, Pos2Z.inj_mul by lia.
  destruct sx, sy; cbn [xorb signed]; ring.
Qed.

(** [float_mul] on finite operands: the four facts the other files use. *)
Lemma float_mul_spec x y :
  valid x = true -> valid y = true ->
  is_finite x = true -> is_finite y = true ->
  let r := float_mul x y in
  valid r = true /\ is_nan r = false
  /\ sign_bit r = xorb (sign_bit x) (sign_bit y)
  /\ (is_finite r = true ->
      forall t, valid t = true -> is_finite t = true ->
        Z.abs (ulps r * ulp_den - ulps x * ulps y)
        <= Z.abs (ulps t * ulp_den - ulps x * ulps y))
  /\ (is_finite r = false -> max_ulps * ulp_den <= Z.abs (ulps x * ulps y)).
Proof.
  destruct x as [sx| | |sx mx ex], y as [sy| | |sy my ey]; try done;
    intros Hx Hy _ _; cbn zeta.
  1-3: by repeat split; [intros _ t _ _; cbn [float_mul SFmul ulps]; lia|].
  cbn [valid valid_binary] in Hx, Hy.
  pose proof (mul_exp_le mx ex my ey Hx Hy) as He.
  assert (Hlow : 2 * emin <= ex + ey)
    by (apply bounded_inv in Hx, Hy; lia).
  rewrite float_mul_finite, ulps_mul by done.
  split; [by apply round_ref_valid|].
  destruct (round_ref_sign _ _ (Pos2Z.is_pos _) He (xorb sx sy)) as [Hn Hs].
  repeat split; [done|done| |].
  - intros Hf t Ht Hft. by apply round_ref_nearest.
  - intros Hi. rewrite abs_signed.
    pose proof (round_ref_overflow _ _ (Pos2Z.is_pos _) He Hlow _ Hi).
    pose proof (exact_scale_pos _ _ (Pos2Z.is_pos _) He Hlow). lia.
Qed.

(** A product whose exact value is below the largest float is finite. *)
Lemma float_mul_is_finite x y :
  valid x = true -> valid y = true ->
  is_finite x = true -> is_finite y = true ->
  Z.abs (ulps x * ulps y) < max_ulps * ulp_den ->
  is_finite (float_mul x y) = true.
Proof.
  intros Hx Hy Hfx Hfy Hlt.
  destruct (float_mul_spec x y Hx Hy Hfx Hfy) as (_ & _ & _ & _ & Hover).
  destruct (is_finite (float_mul x y)); [done|]. specialize (Hover eq_refl).
  lia.
Qed.

(** The error of a finite product whose exact value is below [2^k]: at
    most half the spacing of the floats below [2^k]. *)
Lemma float_mul_error x y k :
  valid x = true -> valid y = true ->
  is_finite x = true -> is_finite y = true ->
  is_finite (float_mul x y) = true -> emin + prec <= k ->
  Z.abs (ulps x * ulps y) < 2 ^ (k - 2 * emin) ->
  2 * Z.abs (ulps (float_mul x y) * ulp_den - ulps x * ulps y)
  <= 2 ^ (k - prec - emin) * ulp_den.
Proof.
  assert (emin < 0) by done. assert (0 < ulp_den) by done.
  destruct x as [sx| | |sx mx ex], y as [sy| | |sy my ey]; try done;
    intros Hx Hy _ _ Hf Hk.
  1-3: intros _; cbn [float_mul SFmul ulps];
    pose proof (pow2_pos (k - prec - emin) ltac:(lia)); nia.
  cbn [valid valid_binary] in Hx, Hy.
  pose proof (mul_exp_le mx ex my ey Hx Hy) as He.
  assert (Hlow : 2 * emin <= ex + ey)
    by (apply bounded_inv in Hx, Hy; lia).
  revert Hf. rewrite float_mul_finite, ulps_mul, abs_signed by done.
  intros Hf Hlt. rewrite Z.abs_eq in Hlt
    by (pose proof (exact_scale_pos _ _ (Pos2Z.is_pos _) He Hlow); lia).
  etrans; [by apply round_ref_error|].
  apply Z.mul_le_mono_nonneg_r; [lia|].
  pose proof (round_exp_ge _ _ (Pos2Z.is_pos (mx * my)) He).
  apply Z.pow_le_mono_r; [lia|].
  pose proof (round_exp_below _ _ (Pos2Z.is_pos _) He Hlow k Hk Hlt). lia.
Qed.

(** ** Rounding against a threshold *)

Section threshold.
Context (x y : float).
Context (Hx : valid x = true) (Hy : valid y = true).
Context (Hfx : is_finite x = true) (Hfy : is_finite y = true).
Context (Hf : is_finite (float_mul x y) = true).
Local Set Default Proof Using "All".

(** An exact product at or above a float is rounded at or above it. *)
Lemma float_mul_above t :
  valid t = true -> is_finite t = true ->
  ulps t * ulp_den <= ulps x * ulps y -> ulps t <= ulps (float_mul x y).
Proof.
  intros Ht Hft Hle.
  destruct (float_mul_spec x y Hx Hy Hfx Hfy) as (_ & _ & _ & Hnear & _).
  specialize (Hnear Hf t Ht Hft).
  destruct (Z.le_gt_cases (ulps t) (ulps (float_mul x y))); [done|].
  assert (ulps (float_mul x y) * ulp_den < ulps t * ulp_den)
    by (by apply Z.mul_lt_mono_pos_r).
  lia.
Qed.

(** An exact product below the middle of two floats is rounded below the
    upper one. *)
Lemma float_mul_below t' t :
  valid t' = true -> is_finite t' = true -> ulps t' < ulps t ->
  2 * (ulps x * ulps y) < (ulps t' + ulps t) * ulp_den ->
  ulps (float_mul x y) < ulps t.
Proof.
  intros Ht' Hft' Hlt Hmid. rewrite Z.mul_add_distr_r in Hmid.
  destruct (float_mul_spec x y Hx Hy Hfx Hfy) as (_ & _ & _ & Hnear & _).
  specialize (Hnear Hf t' Ht' Hft').
  destruct (Z.lt_ge_cases (ulps (float_mul x y)) (ulps t)); [done|].
  assert (ulps t * ulp_den <= ulps (float_mul x y) * ulp_den)
    by (by apply Z.mul_le_mono_nonneg_r).
  assert (ulps t' * ulp_den < ulps t * ulp_den)
    by (by apply Z.mul_lt_mono_pos_r).
  lia.
Qed.
(** An exact product at or below a float is rounded at or below it. *)
Lemma float_mul_under t :
  valid t = true -> is_finite t = true ->
  ulps x * ulps y <= ulps t * ulp_den -> ulps (float_mul x y) <= ulps t.
Proof.
  intros Ht Hft Hle.
  destruct (float_mul_spec x y Hx Hy Hfx Hfy) as (_ & _ & _ & Hnear & _).
  specialize (Hnear Hf t Ht Hft).
  destruct (Z.le_gt_cases (ulps (float_mul x y)) (ulps t)); [done|].
  assert (ulps t * ulp_den < ulps (float_mul x y) * ulp_den)
    by (by apply Z.mul_lt_mono_pos_r).
  lia.
Qed.
End threshold.

(** ** The order of the floats and of the products *)

(** A valid finite float is determined by its value, zero apart. *)
Lemma ulps_inj x y :
  valid x = true -> valid y = true ->
  is_finite x = true -> is_finite y = true ->
  ulps x = ulps y -> x = y \/ ulps x = 0.
Proof.
  destruct x as [sx| | |sx mx ex], y as [sy| | |sy my ey]; try done;
    intros Hx Hy _ _ Hu; try by right.
  cbn [valid valid_binary] in Hx, Hy.
  pose proof (mag_pos mx ex Hx). pose proof (mag_pos my ey Hy).
  pose proof (mag_compare mx ex my ey Hx Hy) as Hc.
  assert (sx = sy /\ mag mx ex = mag my ey) as [<- Hm]
    by (cbn [ulps] in Hu; destruct sx, sy; split; (done || lia)).
  rewrite Hm, Z.compare_refl in Hc. left.
  destruct (Z.compare_spec ex ey) as [->| |]; [|done..].
  unfold mag in Hm. apply Z.mul_cancel_r in Hm; [by simplify_eq|].
  apply Z.pow_nonzero; [done|]. apply bounded_inv in Hy. lia.
Qed.

(** The product with a zero is a zero. *)
Lemma ulps_mul_zero x y :
  is_finite x = true -> is_finite y = true ->
  ulps x = 0 \/ ulps y = 0 -> valid x = true -> valid y = true ->
  ulps (float_mul x y) = 0.
Proof.
  destruct x as [sx| | |sx mx ex], y as [sy| | |sy my ey]; try done.
  intros _ _ Hu Hx Hy. cbn [valid valid_binary] in Hx, Hy.
  pose proof (mag_pos mx ex Hx). pose proof (mag_pos my ey Hy).
  cbn [ulps] in Hu. destruct sx, sy; lia.
Qed.

(** The product is monotone in its first factor, for a second factor
    that is not negative. *)
Lemma float_mul_mono x x' y :
  valid x = true -> valid x' = true -> valid y = true ->
  is_finite x = true -> is_finite x' = true -> is_finite y = true ->
  is_finite (float_mul x y) = true -> is_finite (float_mul x' y) = true ->
  0 <= ulps y -> ulps x <= ulps x' ->
  ulps (float_mul x y) <= ulps (float_mul x' y).
Proof.
  intros Hx Hx' Hy Hfx Hfx' Hfy Hf Hf' Hy0 Hle.
  destruct (Z.eq_dec (ulps y) 0) as [Hz|Hz].
  { by rewrite !ulps_mul_zero by first [done|by right]. }
  destruct (Z.eq_dec (ulps x) (ulps x')) as [He|Hne].
  { destruct (ulps_inj x x' Hx Hx' Hfx Hfx' He) as [->|H0]; [done|].
    by rewrite !ulps_mul_zero by first [done|left; congruence]. }
  destruct (float_mul_spec x y Hx Hy Hfx Hfy) as (Hv & _ & _ & Hn & _).
  destruct (float_mul_spec x' y Hx' Hy Hfx' Hfy) as (Hv' & _ & _ & Hn' & _).
  specialize (Hn Hf _ Hv' Hf'). specialize (Hn' Hf' _ Hv Hf).
  assert (0 < ulp_den) by done.
  assert (ulps x * ulps y < ulps x' * ulps y) by nia.
  destruct (Z.le_gt_cases (ulps (float_mul x y)) (ulps (float_mul x' y)));
    [done|].
  assert (ulps (float_mul x' y) * ulp_den < ulps (float_mul x y) * ulp_den)
    by (by apply Z.mul_lt_mono_pos_r).
  lia.
Qed.

(** A valid float below a normal float is at most the float before it. *)
Lemma ulps_lt_pred p m e :
  valid p = true -> is_finite p = true ->
  bounded prec emax m e = true -> 2 ^ (prec - 1) < Z.pos m ->
  ulps p < mag m e -> ulps p <= (Z.pos m - 1) * 2 ^ (e - emin).
Proof.
  intros Hp Hfp Hb Hm. destruct (bounded_inv m e Hb) as (He & Hlt & _).
  assert (0 < 2 ^ (e - emin)) by (apply pow2_pos; lia).
  assert (0 <= (Z.pos m - 1) * 2 ^ (e - emin))
    by (apply Z.mul_nonneg_nonneg; lia).
  destruct p as [s| | |s m' e']; [intros _; cbn [ulps]; lia|done|done|].
  cbn [valid valid_binary] in Hp. pose proof (mag_pos m' e' Hp).
  destruct s; cbn [ulps]; [intros _; lia|]. intros Hu.
  destruct (Z.compare_spec e' e) as [->|Hlt'|Hgt].
  - unfold mag in *. assert (Z.pos m' < Z.pos m) by nia.
    apply Z.mul_le_mono_nonneg_r; lia.
  - destruct (bounded_inv m' e' Hp) as (He' & Hm' & _). unfold mag.
    pose proof (pow2_step (e' - emin) (e - emin) ltac:(lia) ltac:(lia)).
    assert (0 < 2 ^ (e' - emin)) by (apply pow2_pos; lia).
    change (2 ^ prec) with (2 * 2 ^ (prec - 1)) in Hm'. nia.
  - pose proof (mag_lt_exp m e m' e' Hb Hp Hgt). lia.
Qed.

(** A valid float above a float is at least the float after it. *)
Lemma ulps_gt_succ p m e :
  valid p = true -> is_finite p = true ->
  bounded prec emax m e = true -> Z.pos m + 1 < 2 ^ prec ->
  mag m e < ulps p -> (Z.pos m + 1) * 2 ^ (e - emin) <= ulps p.
Proof.
  intros Hp Hfp Hb Hm. destruct (bounded_inv m e Hb) as (He & Hlt & _).
  pose proof (mag_pos m e Hb).
  assert (0 < 2 ^ (e - emin)) by (apply pow2_pos; lia).
  destruct p as [s| | |s m' e']; [cbn [ulps]; lia|done|done|].
  cbn [valid valid_binary] in Hp. pose proof (mag_pos m' e' Hp).
  destruct s; cbn [ulps]; [lia|]. intros Hu.
  destruct (Z.compare_spec e' e) as [->|Hlt'|Hgt].
  - unfold mag in *. assert (Z.pos m < Z.pos m') by nia.
    apply Z.mul_le_mono_nonneg_r; lia.
  - pose proof (mag_lt_exp m' e' m e Hp Hb Hlt'). lia.
  - destruct (bounded_inv m' e' Hp) as (He' & _ & Hm'). unfold mag.
    specialize (Hm' ltac:(lia)).
    pose proof (pow2_step (e - emin) (e' - emin) ltac:(lia) ltac:(lia)).
    change (2 ^ prec) with (2 * 2 ^ (prec - 1)) in Hm. nia.
Qed.

(** ** The product of the script *)

(** C40: The product of two floats is correctly rounded.  For valid
    finite [x] and [y] the product the script computes ([prob * 100] for
    the gauge and inside the format [.1%]) is a valid float; when it is
    finite no valid finite float is nearer to the exact product of the two
    values than it is; and it is infinite only when the exact product is,
    in absolute value, at least the largest finite float. *)
Theorem float_mul_nearest x y :
  valid x = true -> valid y = true ->
  is_finite x = true -> is_finite y = true ->
  valid (float_mul x y) = true
  /\ (is_finite (float_mul x y) = true ->
      forall t, valid t = true -> is_finite t = true ->
        Z.abs (ulps (float_mul x y) * ulp_den - ulps x * ulps y)
        <= Z.abs (ulps t * ulp_den - ulps x * ulps y))
  /\ (is_finite (float_mul x y) = false ->
      max_ulps * ulp_den <= Z.abs (ulps x * ulps y)).
Proof.
  intros Hx Hy Hfx Hfy.
  by destruct (float_mul_spec x y Hx Hy Hfx Hfy) as (? & _ & _ & ? & ?).
Qed.

Lemma float_mul_nearest_witness :
  valid (float_mul (float_lit 29 100) (float_of_Z 100)) = true
  /\ (is_finite (float_mul (float_lit 29 100) (float_of_Z 100)) = true ->
      forall t, valid t = true -> is_finite t = true ->
        Z.abs (ulps (float_mul (float_lit 29 100) (float_of_Z 100)) * ulp_den
               - ulps (float_lit 29 100) * ulps (float_of_Z 100))
        <= Z.abs (ulps t * ulp_den
                  - ulps (float_lit 29 100) * ulps (float_of_Z 100)))
  /\ (is_finite (float_mul (float_lit 29 100) (float_of_Z 100)) = false ->
      max_ulps * ulp_den
      <= Z.abs (ulps (float_lit 29 100) * ulps (float_of_Z 100))).
Proof.
  apply (float_mul_nearest (float_lit 29 100) (float_of_Z 100));
    reflexivity.
Defined.
