(* ===== verification/Format.v ===== *)
(** * Format: the text of the metric

    The metric of the result shows the probability with the format
    specification [.1%] (line 219 of [src/app.py]): the product of the
    probability and 100, taken in binary64, rounded to one decimal, to
    nearest with ties to even on the exact binary value.  [PyFloat] holds
    the definition ([format_pct1]) and [Rounding] the lemmas on the
    product; this file puts them together for a probability between 0
    and 1: the shape of the text, the range of the number it shows, its
    distance to the exact percentage, that it never decreases when the
    probability grows, and from there the probabilities that are shown
    as 50.0%, the value of the threshold: those from the literal 0.4995
    to the literal 0.5005. *)

From S2P Require Import Prelude PyFloat Rounding.

(** The literals 0.4995 and 0.5005, and the floats next to them. *)
Definition fifty_low : float := float_lit 4995 10000.
Definition fifty_high : float := float_lit 5005 10000.
Definition before_low : float := SFpred prec emax fifty_low.
Definition after_high : float := SFsucc prec emax fifty_high.

(** Twice the most the metric can differ from the exact percentage, in
    tenths of a percent times [ulp_den]: half a tenth for the rounding
    to one decimal and 10 * 2^-47 for the rounding of the product. *)
Definition metric_error : Z := ulp_den + 10 * 2 ^ (7 - prec - emin).

(** ** The percentage of a probability *)

Section metric.
Context (p : float) (Hp : valid p = true) (Hfp : is_finite p = true).
Context (Hs : sign_bit p = false) (Hle : ulps p <= ulp_den).
Local Set Default Proof Using "All".

Local Abbreviation pct := (float_mul p (float_of_Z 100)).

(** The exact product is between 0 and 100. *)
Lemma pct_exact :
  0 <= ulps p * ulps (float_of_Z 100) <= ulps (float_of_Z 100) * ulp_den.
Proof.
  pose proof (ulps_nonneg p Hs).
  replace (ulps (float_of_Z 100)) with (100 * ulp_den) by (by vm_compute).
  assert (0 < ulp_den) by done. nia.
Qed.

Lemma pct_finite : is_finite pct = true.
Proof.
  apply float_mul_is_finite; try done. pose proof pct_exact.
  assert (ulps (float_of_Z 100) < max_ulps) by (by vm_compute).
  assert (0 < ulp_den) by done. rewrite Z.abs_eq by lia.
  eapply Z.le_lt_trans; [apply pct_exact|]. by apply Z.mul_lt_mono_pos_r.
Qed.

Lemma pct_sign : sign_bit pct = false.
Proof.
  destruct (float_mul_spec p (float_of_Z 100) Hp eq_refl Hfp eq_refl)
    as (_ & _ & -> & _).
  by rewrite Hs.
Qed.

(** So is the rounded one: 0 and 100 are floats. *)
Lemma pct_range : 0 <= ulps pct <= ulps (float_of_Z 100).
Proof.
  split; [apply ulps_nonneg, pct_sign|].
  apply float_mul_under; try done; [apply pct_finite|apply pct_exact].
Qed.

(** Below 128 the floats are 2^-46 apart: the product is within 2^-47 of
    the exact percentage. *)
Lemma pct_error :
  2 * Z.abs (ulps pct - 100 * ulps p) <= 2 ^ (7 - prec - emin).
Proof.
  pose proof (float_mul_error p (float_of_Z 100) 7 Hp eq_refl Hfp eq_refl
                pct_finite ltac:(done)) as He.
  assert (0 < ulp_den) by done. pose proof pct_exact.
  assert (ulps (float_of_Z 100) * ulp_den < 2 ^ (7 - 2 * emin))
    by (by vm_compute).
  rewrite Z.abs_eq in He by lia. specialize (He ltac:(lia)). revert He.
  replace (ulps (float_of_Z 100)) with (100 * ulp_den) by (by vm_compute).
  replace (ulps pct * ulp_den - ulps p * (100 * ulp_den))
    with ((ulps pct - 100 * ulps p) * ulp_den) by ring.
  rewrite Z.abs_mul, (Z.abs_eq ulp_den), Z.mul_assoc by lia.
  by intros ?%Z.mul_le_mono_pos_r.
Qed.

(** The text is the number of tenths, which is between 0 and 1000. *)
Lemma format_pct1_shape :
  format_pct1 p
  = (digits (tenths pct / 10) +:+ "." +:+ digits (tenths pct mod 10))
    +:+ "%"
  /\ 0 <= tenths pct <= 1000.
Proof.
  unfold format_pct1. pose proof pct_finite as Hf.
  pose proof pct_range as Hr. pose proof pct_sign as Hsign.
  assert (0 < ulp_den) by done.
  revert Hf Hr Hsign. generalize pct. intros r Hf Hr Hsign.
  split; [|split].
  - unfold format_f1.
    by destruct r; try done; cbn [sign_bit] in Hsign; rewrite Hsign.
  - apply round_half_even_nonneg; lia.
  - unfold tenths. rewrite (Z.abs_eq (ulps r)) by lia.
    apply round_half_even_le; [done|]. revert Hr.
    replace (ulps (float_of_Z 100)) with (100 * ulp_den) by (by vm_compute).
    lia.
Qed.
End metric.

(** ** The metric grows with the probability *)

Section order.
Context (p q : float).
Context (Hp : valid p = true) (Hfp : is_finite p = true).
Context (Hq : valid q = true) (Hfq : is_finite q = true).
Context (Hs : sign_bit p = false) (Hsq : sign_bit q = false).
Context (Hle : ulps p <= ulps q).
Context (Hq1 : ulps q <= ulp_den).
Local Set Default Proof Using "All".

(** The percentage is monotone in the probability. *)
Lemma pct_mono :
  ulps (float_mul p (float_of_Z 100)) <= ulps (float_mul q (float_of_Z 100)).
Proof.
  apply float_mul_mono; try done.
  - apply pct_finite; try done. lia.
  - by apply pct_finite.
Qed.

(** So is the number of tenths the metric shows. *)
Lemma tenths_mono :
  tenths (float_mul p (float_of_Z 100))
  <= tenths (float_mul q (float_of_Z 100)).
Proof.
  pose proof (pct_range p Hp Hfp Hs ltac:(lia)).
  pose proof (pct_range q Hq Hfq Hsq Hq1).
  unfold tenths. rewrite !Z.abs_eq by lia.
  apply round_half_even_mono; [done|]. pose proof pct_mono. lia.
Qed.

End order.

(** ** The probabilities shown as 50.0% *)

(** The text of [t] tenths is "50.0%" for 500 tenths only. *)
Lemma text_fifty t :
  0 <= t <= 1000 ->
  (digits (t / 10) +:+ "." +:+ digits (t mod 10)) +:+ "%" = "50.0%"
  <-> t = 500.
Proof.
  intros Ht. split; [|by intros ->].
  assert (Forall
    (λ t, (digits (t / 10) +:+ "." +:+ digits (t mod 10)) +:+ "%" = "50.0%"
          -> t = 500) (seqZ 0 1001)) as Hall by by_decide.
  apply (proj1 (Forall_forall _ _) Hall), elem_of_seqZ. lia.
Qed.

(** No float lies between 0.4995 and the float before it, nor between
    0.5005 and the float after it. *)
Lemma before_fifty_low p :
  valid p = true -> is_finite p = true ->
  ulps p < ulps fifty_low -> ulps p <= ulps before_low.
Proof.
  intros Hp Hfp Hlt.
  pose proof (ulps_lt_pred p 8998192055486251 (-54) Hp Hfp
                ltac:(by vm_compute) ltac:(by vm_compute)) as H.
  replace (mag 8998192055486251 (-54)) with (ulps fifty_low) in H
    by (by vm_compute).
  replace ((Z.pos 8998192055486251 - 1) * 2 ^ (-54 - emin))
    with (ulps before_low) in H by (by vm_compute).
  by apply H.
Qed.

Lemma after_fifty_high p :
  valid p = true -> is_finite p = true ->
  ulps fifty_high < ulps p -> ulps after_high <= ulps p.
Proof.
  intros Hp Hfp Hlt.
  pose proof (ulps_gt_succ p 4508103226997866 (-53) Hp Hfp
                ltac:(by vm_compute) ltac:(by vm_compute)) as H.
  replace (mag 4508103226997866 (-53)) with (ulps fifty_high) in H
    by (by vm_compute).
  replace ((Z.pos 4508103226997866 + 1) * 2 ^ (-53 - emin))
    with (ulps after_high) in H by (by vm_compute).
  by apply H.
Qed.

Lemma bounds_valid :
  Forall (λ f, valid f = true /\ is_finite f = true /\ sign_bit f = false
               /\ ulps f <= ulp_den)
    [before_low; fifty_low; fifty_high; after_high].
Proof. repeat constructor; by vm_compute. Qed.

(** What the metric shows at the four floats. *)
Lemma shown_at_bounds :
  tenths (float_mul before_low (float_of_Z 100)) = 499
  /\ tenths (float_mul fifty_low (float_of_Z 100)) = 500
  /\ tenths (float_mul fifty_high (float_of_Z 100)) = 500
  /\ tenths (float_mul after_high (float_of_Z 100)) = 501.
Proof. repeat split; by vm_compute. Qed.

(** ** The metric *)

(** C39: The metric of a probability between 0 and 1.  The text of the
    format [.1%] is the integer part of a number of tenths [t], a point,
    its last digit and a percent sign; [t] is between 0 and 1000, so that
    the metric reads from 0.0% to 100.0%; and [t] tenths differ from the
    exact percentage by at most 0.05 (the rounding to one decimal) plus
    2^-47 (the rounding of the product in binary64): in units of 2^-1074,
    [2 * |t * 2^1074 - 1000 * ulps p| <= 2^1074 + 10 * 2^1028], the
    bound [metric_error]. *)
Theorem format_pct1_metric p :
  valid p = true -> is_finite p = true ->
  sign_bit p = false -> ulps p <= ulp_den ->
  let t := tenths (float_mul p (float_of_Z 100)) in
  format_pct1 p = (digits (t / 10) +:+ "." +:+ digits (t mod 10)) +:+ "%"
  /\ 0 <= t <= 1000
  /\ 2 * Z.abs (t * ulp_den - 1000 * ulps p) <= metric_error.
Proof.
  intros Hp Hfp Hs Hle. cbn zeta. unfold metric_error.
  destruct (format_pct1_shape p Hp Hfp Hs Hle) as [Htext Ht].
  split; [done|]. split; [done|].
  pose proof (pct_range p Hp Hfp Hs Hle) as Hr.
  pose proof (pct_error p Hp Hfp Hs Hle) as He.
  assert (0 < ulp_den) by done. unfold tenths.
  revert Hr He. generalize (float_mul p (float_of_Z 100)). intros r Hr He.
  rewrite (Z.abs_eq (ulps r)) by lia.
  pose proof (round_half_even_half (ulps r * 10) ulp_den ltac:(done)). lia.
Qed.

(** C38: The probabilities shown as 50.0%.  For a probability between 0
    and 1 the metric reads "50.0%", the value of the threshold, exactly
    when the probability lies between the float of the literal 0.4995
    and the float of the literal 0.5005, both included.  The metric
    never decreases when the probability grows, the four floats at the
    two ends are shown as 49.9%, 50.0%, 50.0% and 50.1%, and no float
    lies between neighbours.  The threshold of the decision, 0.5, is
    inside the interval: the probabilities from 0.4995 up to 0.5 are
    shown as 50.0% and are below the threshold. *)
Theorem metric_fifty p :
  valid p = true -> is_finite p = true ->
  sign_bit p = false -> ulps p <= ulp_den ->
  (format_pct1 p = "50.0%" <-> ulps fifty_low <= ulps p <= ulps fifty_high)
  /\ ulps fifty_low < ulps f_0_5 < ulps fifty_high.
Proof.
  intros Hp Hfp Hs Hle. split; [|by vm_compute].
  destruct (format_pct1_shape p Hp Hfp Hs Hle) as [-> Hr].
  rewrite text_fifty by exact Hr.
  destruct shown_at_bounds as (Hb & Hl & Hh & Ha).
  pose proof bounds_valid as Hv. rewrite !Forall_cons in Hv.
  destruct Hv as ((Hv1&Hf1&Hs1&Hle1) & (Hv2&Hf2&Hs2&_) & (Hv3&Hf3&Hs3&Hle3)
                  & (Hv4&Hf4&Hs4&_) & _).
  split.
  - intros Ht. split.
    + destruct (Z.le_gt_cases (ulps fifty_low) (ulps p)) as [H|Hlt];
        [exact H|exfalso].
      pose proof (tenths_mono p before_low Hp Hfp Hv1 Hf1 Hs Hs1
                    (before_fifty_low p Hp Hfp Hlt) Hle1) as Hm.
      rewrite Hb, Ht in Hm. exact (Hm eq_refl).
    + destruct (Z.le_gt_cases (ulps p) (ulps fifty_high)) as [H|Hlt];
        [exact H|exfalso].
      pose proof (tenths_mono after_high p Hv4 Hf4 Hp Hfp Hs4 Hs
                    (after_fifty_high p Hp Hfp Hlt) Hle) as Hm.
      rewrite Ha, Ht in Hm. exact (Hm eq_refl).
  - intros [Hlo Hhi].
    pose proof (tenths_mono fifty_low p Hv2 Hf2 Hp Hfp Hs2 Hs Hlo Hle) as Hm.
    pose proof (tenths_mono p fifty_high Hp Hfp Hv3 Hf3 Hs Hs3 Hhi Hle3)
      as Hm'.
    rewrite Hl in Hm. rewrite Hh in Hm'. by apply Z.le_antisymm.
Qed.

(** ** The theorems at 0.82 and at 0.49996 *)

Lemma format_pct1_metric_witness :
  let t := tenths (float_mul (float_lit 82 100) (float_of_Z 100)) in
  format_pct1 (float_lit 82 100)
  = (digits (t / 10) +:+ "." +:+ digits (t mod 10)) +:+ "%"
  /\ 0 <= t <= 1000
  /\ 2 * Z.abs (t * ulp_den - 1000 * ulps (float_lit 82 100))
     <= metric_error.
Proof. apply format_pct1_metric; by vm_compute. Defined.

Lemma metric_fifty_witness :
  (format_pct1 (float_lit 49996 100000) = "50.0%"
   <-> ulps fifty_low <= ulps (float_lit 49996 100000) <= ulps fifty_high)
  /\ ulps fifty_low < ulps f_0_5 < ulps fifty_high.
Proof. apply metric_fifty; by vm_compute. Defined.
