(* ===== verification/Runtime.v ===== *)
(** * Runtime: how a Streamlit script runs

    [src/app.py] is executed from top to bottom on every interaction.  A run
    reads the values of the widgets from the session, calls the outside
    world (the artifact file, the pipeline), and emits elements to the page.
    This file models a run as a state-and-exception monad, [script]:

    - the context of a run ([run_ctx]) holds the environment, the session's
      widget values and the container the script is writing into;
    - the state of a run ([run_state]) holds the elements emitted so far, the
      widgets registered so far, the process-wide resource cache and the log
      of calls to the outside; the three lists are kept newest first, and
      [page] gives the elements in the order of the page;
    - a run ends with a value or with a Python exception ([exn]).

    The operations are the Streamlit and Python constructs the script uses:
    [emit] (any [st.*] display call), [within] (a [with] block on a
    container), [selectbox], [number_input], [button] and [radio] (the
    widgets), [cache_resource] (the decorator), [try_except], and the
    calls [call_joblib_load] and [call_predict_proba]. *)

From S2P Require Import Prelude PyFloat.

(** ** Python values *)

Inductive pyval :=
| VNone
| VStr (s : string)
| VInt (z : Z)
| VFloat (f : float).

(** A table row is a dict from column name to value, kept in insertion
    order; a table is a list of rows. *)
Abbreviation row := (list (string * pyval)).
Abbreviation dataframe := (list row).

(** [a == b].  An integer and a float are equal when the float is finite
    and holds exactly that integer. *)
Definition int_eq_float (z : Z) (f : float) : bool :=
  is_finite f && bool_decide (z * ulp_den = ulps f).

Definition py_eq (a b : pyval) : bool :=
  match a, b with
  | VNone, VNone => true
  | VStr s, VStr t => bool_decide (s = t)
  | VInt x, VInt y => bool_decide (x = y)
  | VFloat f, VFloat g => float_eq f g
  | VInt x, VFloat g => int_eq_float x g
  | VFloat f, VInt y => int_eq_float y f
  | _, _ => false
  end.

(** ** Exceptions *)

Inductive exn_class :=
| FileNotFoundError
| IndexError
| DuplicateWidgetID
| ValueBelowMinError
| ValueError
| StreamlitAPIException
| OtherException.

(** An exception: its class, and what [str(e)] gives. *)
Record exn := Exn { exn_cls : exn_class; exn_str : string }.

(** ** The outside world *)

(** The deserialised artifact.  The script calls one method of it. *)
Record pipeline := Pipeline {
  predict_proba : dataframe -> exn + list (list float)
}.

(** What the files hold when a run reads them. *)
Record env := Env {
  joblib_load : string -> exn + pipeline;
  image_open : string -> exn + string
}.

Inductive io_event :=
| IoJoblibLoad (path : string)
| IoPredictProba (df : dataframe)
| IoImageOpen (path : string).

(** ** Elements *)

Inductive container :=
| CSidebar
| CColumn (name : string)
| CContainer
| CTab (name : string).

Record gauge_step := GaugeStep {
  step_lo : Z; step_hi : Z; step_color : string
}.

Record indicator := Indicator {
  ind_mode : string;
  ind_value : float;
  ind_domain : (Z * Z) * (Z * Z);
  ind_title : string;
  ind_axis_range : option Z * option Z;
  ind_bar_color : string;
  ind_steps : list gauge_step;
  ind_thr_color : string;
  ind_thr_width : Z;
  ind_thr_thickness : float;
  ind_thr_value : Z;
  ind_height : Z
}.

Record bar_chart := BarChart {
  bar_x : list float;
  bar_y : list string;
  bar_orientation : string;
  bar_title : string;
  bar_labels : list (string * string)
}.

Inductive figure :=
| FIndicator (i : indicator)
| FBar (b : bar_chart).

Inductive element :=
| EPageConfig (page_title page_icon layout initial_sidebar_state : string)
| EMarkdown (body : string) (unsafe_allow_html : bool)
| ETitle (body : string)
| ESubheader (body : string)
| EInfo (body : string)
| EWarning (body : string)
| EError (body : string)
| EMetric (label value : string)
| EPlotly (fig : figure) (use_container_width : bool)
| EColumns (widths : list Z)
| ETabs (labels : list string)
| EDataframe (columns : list (string * list string))
    (use_container_width hide_index : bool)
| EImage (data caption : string) (use_container_width : bool)
| ESelectbox (label : string) (options : list pyval)
    (shown : option (list string)) (help : option string)
| ENumberInput (label : string) (min_value step value : Z) (help : string)
| EButton (label : string) (use_container_width : bool) (type : string)
| ERadio (label : string) (options : list string).

(** An emitted element and the containers it sits in, outermost first. *)
Abbreviation emitted := (list container * element)%type.

(** ** Widgets and the session *)

Inductive wkind := KSelectbox | KNumberInput | KButton | KRadio.

(** A widget is identified by its kind and its label. *)
Abbreviation wid := (wkind * string)%type.

(** What the session holds for a widget: the index of the chosen option,
    the number entered, or the fact that the button was just clicked. *)
Inductive wvalue :=
| WIndex (i : nat)
| WNumber (z : Z)
| WTrigger.

#[export] Instance pyval_eq_dec : EqDecision pyval.
Proof. solve_decision. Defined.
#[export] Instance exn_class_eq_dec : EqDecision exn_class.
Proof. solve_decision. Defined.
#[export] Instance exn_eq_dec : EqDecision exn.
Proof. solve_decision. Defined.
#[export] Instance container_eq_dec : EqDecision container.
Proof. solve_decision. Defined.
#[export] Instance gauge_step_eq_dec : EqDecision gauge_step.
Proof. solve_decision. Defined.
#[export] Instance indicator_eq_dec : EqDecision indicator.
Proof. solve_decision. Defined.
#[export] Instance bar_chart_eq_dec : EqDecision bar_chart.
Proof. solve_decision. Defined.
#[export] Instance figure_eq_dec : EqDecision figure.
Proof. solve_decision. Defined.
#[export] Instance element_eq_dec : EqDecision element.
Proof. solve_decision. Defined.
#[export] Instance io_event_eq_dec : EqDecision io_event.
Proof. solve_decision. Defined.
#[export] Instance wvalue_eq_dec : EqDecision wvalue.
Proof. solve_decision. Defined.
#[export] Instance wkind_eq_dec : EqDecision wkind.
Proof. solve_decision. Defined.

Definition wkind_code (k : wkind) : nat :=
  match k with
  | KSelectbox => 0 | KNumberInput => 1 | KButton => 2 | KRadio => 3
  end%nat.

Definition wkind_of_code (n : nat) : wkind :=
  match n with
  | 0 => KSelectbox | 1 => KNumberInput | 2 => KButton | _ => KRadio
  end%nat.

#[export] Instance wkind_countable : Countable wkind.
Proof. apply (inj_countable' wkind_code wkind_of_code). by intros []. Defined.

Abbreviation session := (gmap wid wvalue).

(** ** Runs *)

(** A cached resource: the value the function returned and the elements it
    emitted while computing it, which a cache hit replays. *)
Abbreviation cache_entry := (option pipeline * list element)%type.

Record run_ctx := Ctx {
  cx_env : env;
  cx_session : wid -> option wvalue;
  cx_path : list container
}.

Record run_state := St {
  rs_out : list emitted;
  rs_widgets : list wid;
  rs_cache : gmap string cache_entry;
  rs_io : list io_event
}.

Definition script (A : Type) : Type :=
  run_ctx -> run_state -> (exn + A) * run_state.

#[export] Instance script_ret : MRet script := λ A x _ st, (inr x, st).

#[export] Instance script_bind : MBind script := λ A B k m cx st,
  match m cx st with
  | (inr x, st') => k x cx st'
  | (inl e, st') => (inl e, st')
  end.

(** [raise e] *)
Definition raise {A} (e : exn) : script A := λ _ st, (inl e, st).

(** [try: body except C as e: handler e], for the classes [C] that
    [catches] accepts.  What the body emitted before it raised stays on
    the page. *)
Definition try_except {A} (catches : exn_class -> bool)
    (body : script A) (handler : exn -> script A) : script A := λ cx st,
  match body cx st with
  | (inl e, st') =>
      if catches (exn_cls e) then handler e cx st' else (inl e, st')
  | r => r
  end.

(** [except Exception] catches every class of the model;
    [except FileNotFoundError] catches that class only. *)
Definition any_exception (c : exn_class) : bool := true.
Definition only (c0 c : exn_class) : bool := bool_decide (c = c0).

(** Whether a read of a file worked or failed because the file is not
    there: the failures the script catches. *)
Definition found_or_missing {A} (r : exn + A) : bool :=
  match r with
  | inr _ => true
  | inl e => only FileNotFoundError (exn_cls e)
  end.

(** State updates.  The lists grow at their head. *)
Definition st_emit (x : emitted) (st : run_state) : run_state :=
  St (x :: rs_out st) (rs_widgets st) (rs_cache st) (rs_io st).
Definition st_emits (x : list emitted) (st : run_state) : run_state :=
  St (x ++ rs_out st) (rs_widgets st) (rs_cache st) (rs_io st).
Definition st_register (w : wid) (st : run_state) : run_state :=
  St (rs_out st) (w :: rs_widgets st) (rs_cache st) (rs_io st).
Definition st_store (name : string) (c : cache_entry) (st : run_state)
    : run_state :=
  St (rs_out st) (rs_widgets st) (<[name := c]> (rs_cache st)) (rs_io st).
Definition st_io (ev : io_event) (st : run_state) : run_state :=
  St (rs_out st) (rs_widgets st) (rs_cache st) (ev :: rs_io st).

(** Any display call: the element goes to the current container. *)
Definition emit (e : element) : script unit := λ cx st,
  (inr (), st_emit (cx_path cx, e) st).

(** [with c: body] *)
Definition within {A} (c : container) (body : script A) : script A :=
  λ cx st, body (Ctx (cx_env cx) (cx_session cx) (cx_path cx ++ [c])) st.

(** The session's value for a widget. *)
Definition widget_value (w : wid) : script (option wvalue) := λ cx st,
  (inr (cx_session cx w), st).

(** A widget may be declared once in a run. *)
Definition register (w : wid) : script unit := λ cx st,
  if decide (w ∈ rs_widgets st)
  then (inl (Exn DuplicateWidgetID w.2), st)
  else (inr (), st_register w st).

(** ** The widgets *)

(** What a select box or a radio returns for a session value: the option
    at the stored index, at index 0 when nothing is stored, [None] when
    there is no such option. *)
Definition selected {A} (options : list A) (v : option wvalue) : option A :=
  options !! match v with Some (WIndex i) => i | _ => 0%nat end.

(** What a number input returns: the stored number, or its default. *)
Definition entered (value : Z) (v : option wvalue) : Z :=
  match v with Some (WNumber z) => z | _ => value end.

(** What a button returns. *)
Definition clicked (v : option wvalue) : bool :=
  bool_decide (v = Some WTrigger).

(** [st.selectbox(label, options, format_func=..., help=...)]: the chosen
    option, the first one until the user chooses; [None] when there is no
    such option. *)
Definition selectbox (label : string) (options : list pyval)
    (shown : option (list string)) (help : option string) : script pyval :=
  register (KSelectbox, label);;
  emit (ESelectbox label options shown help);;
  v ← widget_value (KSelectbox, label);
  mret (default VNone (selected options v)).

(** [st.radio(label, options)] *)
Definition radio (label : string) (options : list string) : script pyval :=
  register (KRadio, label);;
  emit (ERadio label options);;
  v ← widget_value (KRadio, label);
  mret (default VNone (VStr <$> selected options v)).

(** [st.number_input(label, min_value=, step=, value=, help=)] with
    integer arguments: the number entered, [value] until the user enters
    one.  A default below the minimum is refused. *)
Definition number_input (label : string) (min_value step value : Z)
    (help : string) : script Z :=
  register (KNumberInput, label);;
  (if value <? min_value
   then raise (Exn ValueBelowMinError label)
   else mret ());;
  emit (ENumberInput label min_value step value help);;
  v ← widget_value (KNumberInput, label);
  mret (entered value v).

(** [st.button(label, use_container_width=, type=)]: true in the run that
    the click started, false in every other run. *)
Definition button (label : string) (use_container_width : bool)
    (type : string) : script bool :=
  register (KButton, label);;
  emit (EButton label use_container_width type);;
  v ← widget_value (KButton, label);
  mret (clicked v).

(** ** Calls to the outside *)

Definition call_joblib_load (path : string) : script pipeline := λ cx st,
  (joblib_load (cx_env cx) path, st_io (IoJoblibLoad path) st).

Definition call_image_open (path : string) : script string := λ cx st,
  (image_open (cx_env cx) path, st_io (IoImageOpen path) st).

Definition call_predict_proba (m : pipeline) (df : dataframe)
    : script (list (list float)) := λ cx st,
  (predict_proba m df, st_io (IoPredictProba df) st).

(** [a[i]] on an array: the element, or [IndexError]. *)
Definition index_error (i size : nat) : exn :=
  Exn IndexError
    ("index " +:+ pretty i +:+ " is out of bounds for axis 0 with size "
       +:+ pretty size).

Definition py_index {A} (a : list A) (i : nat) : script A :=
  match a !! i with
  | Some x => mret x
  | None => raise (index_error i (length a))
  end.

(** ** Calls that check their arguments *)

(** [st.set_page_config(...)]: allowed only as the first Streamlit call
    of a run. *)
Definition set_page_config_late : exn :=
  Exn StreamlitAPIException
    "set_page_config() can only be called once per app page, and must be called as the first Streamlit command in your script.".

Definition set_page_config (page_title page_icon layout
    initial_sidebar_state : string) : script unit := λ cx st,
  if bool_decide (rs_out st = [])
  then (inr (),
        st_emit (cx_path cx, EPageConfig page_title page_icon layout
                               initial_sidebar_state) st)
  else (inl set_page_config_late, st).

(** Whether the lists of a family have one length. *)
Definition same_length {A} (ls : list (list A)) : bool :=
  match ls with
  | [] => true
  | l :: ls => forallb (λ l', length l' =? length l)%nat ls
  end.

(** [pd.DataFrame(data)] on a dict of lists: the columns, or [ValueError]
    when they differ in length. *)
Definition pd_dataframe (data : list (string * list string))
    : script (list (string * list string)) :=
  if same_length data.*2 then mret data
  else raise (Exn ValueError "All arrays must be of the same length").

(** [px.bar(x=, y=, orientation=, title=, labels=)]: the chart, or
    [ValueError] when [x] and [y] differ in length (the text of the
    exception is given up to its first sentence). *)
Definition px_bar (x : list float) (y : list string)
    (orientation title : string) (labels : list (string * string))
    : script figure :=
  if bool_decide (length x = length y)
  then mret (FBar (BarChart x y orientation title labels))
  else raise (Exn ValueError "All arguments should have the same length.").

(** ** [st.cache_resource] *)

(** What a run that took [st] to [st'] added to the page, in the order of
    the page. *)
Definition added (st st' : run_state) : list emitted :=
  reverse (take (length (rs_out st') - length (rs_out st)) (rs_out st')).

(** The decorated function runs once per process: its result is stored
    under the function's name together with the elements it emitted, and
    every later call returns the stored result and emits the stored
    elements again.  A call that raises stores nothing. *)
Definition cache_resource (name : string) (f : script (option pipeline))
    : script (option pipeline) := λ cx st,
  match rs_cache st !! name with
  | Some (v, replay) =>
      (inr v, st_emits (reverse (pair (cx_path cx) <$> replay)) st)
  | None =>
      match f cx st with
      | (inr v, st') => (inr v, st_store name (v, (added st st').*2) st')
      | r => r
      end
  end.

(** ** Running a script *)

Definition initial_state (cache : gmap string cache_entry) : run_state :=
  St [] [] cache [].

(** The page, in the order of display, and its elements without their
    containers. *)
Definition page (st : run_state) : list emitted := reverse (rs_out st).
Definition elements (st : run_state) : list element := (page st).*2.

(** ** Running a script, step by step *)

(** Each construct has one equation that says what a run of it returns and
    how it changes the state.  [run_script] applies them along the
    structure of a script. *)

Lemma bind_run {A B} (m : script A) (k : A -> script B) cx st r st' res :
  m cx st = (r, st') ->
  match r with inr x => k x cx st' | inl e => (inl e, st') end = res ->
  (m ≫= k) cx st = res.
Proof. unfold mbind, script_bind. by intros -> <-. Qed.

Lemma ret_run {A} (x : A) cx st : (mret x : script A) cx st = (inr x, st).
Proof. done. Qed.

Lemma raise_run {A} e cx st : @raise A e cx st = (inl e, st).
Proof. done. Qed.

Lemma emit_run e cx st :
  emit e cx st = (inr (), st_emit (cx_path cx, e) st).
Proof. done. Qed.

Lemma widget_value_run w cx st :
  widget_value w cx st = (inr (cx_session cx w), st).
Proof. done. Qed.

Lemma register_run w cx st :
  w ∉ rs_widgets st -> register w cx st = (inr (), st_register w st).
Proof. intros H. unfold register. by rewrite decide_False. Qed.

Lemma register_dup w cx st :
  w ∈ rs_widgets st ->
  register w cx st = (inl (Exn DuplicateWidgetID w.2), st).
Proof. intros H. unfold register. by rewrite decide_True. Qed.

(** The calls to the outside, when what the outside answers is known. *)
Lemma call_joblib_load_run path cx st r :
  joblib_load (cx_env cx) path = r ->
  call_joblib_load path cx st = (r, st_io (IoJoblibLoad path) st).
Proof. by intros <-. Qed.

Lemma call_image_open_run path cx st r :
  image_open (cx_env cx) path = r ->
  call_image_open path cx st = (r, st_io (IoImageOpen path) st).
Proof. by intros <-. Qed.

Lemma call_predict_proba_run m df cx st r :
  predict_proba m df = r ->
  call_predict_proba m df cx st = (r, st_io (IoPredictProba df) st).
Proof. by intros <-. Qed.

Lemma try_except_run {A} (catches : exn_class -> bool) (body : script A)
    (handler : exn -> script A) cx st r st' res :
  body cx st = (r, st') ->
  match r with
  | inl e =>
      if catches (exn_cls e) then handler e cx st' else (inl e, st')
  | inr x => (inr x, st')
  end = res ->
  try_except catches body handler cx st = res.
Proof. unfold try_except. intros -> <-. by destruct r. Qed.

(** [st.cache_resource]: a hit and a miss. *)

Lemma cache_resource_hit name f cx st v replay :
  rs_cache st !! name = Some (v, replay) ->
  cache_resource name f cx st =
  (inr v, st_emits (reverse (pair (cx_path cx) <$> replay)) st).
Proof. intros H. unfold cache_resource. by rewrite H. Qed.

Lemma cache_resource_miss name f cx st r st' :
  rs_cache st !! name = None -> f cx st = (r, st') ->
  cache_resource name f cx st =
  match r with
  | inr v => (inr v, st_store name (v, (added st st').*2) st')
  | inl e => (inl e, st')
  end.
Proof. intros H Hf. unfold cache_resource. rewrite H, Hf. by destruct r. Qed.

(** A call that returns has filled the cache with what it returned; on a
    miss, with what the function returned and showed. *)
Lemma cache_resource_caches name f cx st v st1 :
  cache_resource name f cx st = (inr v, st1) ->
  exists replay,
    rs_cache st1 !! name = Some (v, replay)
    /\ (rs_cache st !! name = None ->
        exists st0, f cx st = (inr v, st0) /\ replay = (added st st0).*2).
Proof.
  unfold cache_resource.
  destruct (rs_cache st !! name) as [[v0 replay]|] eqn:Hc.
  - intros [= <- <-]. by exists replay.
  - destruct (f cx st) as [[e|v0] st0]; intros [= <- <-].
    eexists. split; [apply lookup_insert_eq|]. by eexists.
Qed.

(** What a run added, when the page grew by [x]. *)
Lemma added_new st st' (x : list emitted) :
  rs_out st' = reverse x ++ rs_out st -> added st st' = x.
Proof.
  intros H. unfold added. rewrite H, length_app.
  replace (length (reverse x) + length (rs_out st) - length (rs_out st))%nat
    with (length (reverse x)) by lia.
  by rewrite take_app_length, reverse_involutive.
Qed.

Lemma added_emits st x : added st (st_emits (reverse x) st) = x.
Proof. by apply added_new. Qed.

Lemma added_emit st x : added st (st_emit x st) = [x].
Proof. by apply (added_new _ _ [x]). Qed.

(** The page after a step, from the page before it. *)
Lemma page_out st st' x :
  rs_out st' = reverse x ++ rs_out st -> page st' = page st ++ x.
Proof.
  unfold page. intros ->. by rewrite reverse_app, reverse_involutive.
Qed.

Lemma page_emits x st : page (st_emits (reverse x) st) = page st ++ x.
Proof. by apply page_out. Qed.

Lemma page_emit x st : page (st_emit x st) = page st ++ [x].
Proof. by apply (page_out _ _ [x]). Qed.

Lemma page_register w st : page (st_register w st) = page st.
Proof. done. Qed.

Lemma page_store name c st : page (st_store name c st) = page st.
Proof. done. Qed.

Lemma page_io ev st : page (st_io ev st) = page st.
Proof. done. Qed.

Lemma page_initial cache : page (initial_state cache) = [].
Proof. done. Qed.

#[export] Hint Rewrite page_emits page_emit page_register page_store
  page_io page_initial : loan_rw.

(** The widgets, when their identifier is fresh. *)

Lemma selectbox_run label options shown help cx st :
  (KSelectbox, label) ∉ rs_widgets st ->
  selectbox label options shown help cx st =
  (inr (default VNone (selected options (cx_session cx (KSelectbox, label)))),
   st_emit (cx_path cx, ESelectbox label options shown help)
     (st_register (KSelectbox, label) st)).
Proof.
  intros H. unfold selectbox.
  eapply bind_run; [by apply register_run|done].
Qed.

Lemma radio_run label options cx st :
  (KRadio, label) ∉ rs_widgets st ->
  radio label options cx st =
  (inr (default VNone
          (VStr <$> selected options (cx_session cx (KRadio, label)))),
   st_emit (cx_path cx, ERadio label options)
     (st_register (KRadio, label) st)).
Proof.
  intros H. unfold radio. eapply bind_run; [by apply register_run|done].
Qed.

Lemma number_input_run label min_value step value help cx st :
  (KNumberInput, label) ∉ rs_widgets st -> min_value <= value ->
  number_input label min_value step value help cx st =
  (inr (entered value (cx_session cx (KNumberInput, label))),
   st_emit (cx_path cx, ENumberInput label min_value step value help)
     (st_register (KNumberInput, label) st)).
Proof.
  intros H Hv. unfold number_input.
  eapply bind_run; [by apply register_run|]. cbn beta iota.
  destruct (Z.ltb_spec value min_value); [lia|done].
Qed.

(** The checks of the library: a default below the minimum, a widget
    declared twice, a page configuration that is not the first call. *)

Lemma number_input_below label min_value step value help cx st :
  (KNumberInput, label) ∉ rs_widgets st -> value < min_value ->
  number_input label min_value step value help cx st =
  (inl (Exn ValueBelowMinError label), st_register (KNumberInput, label) st).
Proof.
  intros H Hv. unfold number_input.
  eapply bind_run; [by apply register_run|]. cbn beta iota.
  destruct (Z.ltb_spec value min_value); [done|lia].
Qed.

Lemma register_twice w cx st :
  exists st', (register w;; register w) cx st
              = (inl (Exn DuplicateWidgetID w.2), st').
Proof.
  unfold mbind, script_bind, register. case_decide as Hw; [by eexists|].
  rewrite decide_True by (by left). by eexists.
Qed.

Lemma set_page_config_second t i l s cx st :
  rs_out st <> [] ->
  set_page_config t i l s cx st = (inl set_page_config_late, st).
Proof. intros H. unfold set_page_config. by rewrite bool_decide_false. Qed.

Lemma button_run label ucw type cx st :
  (KButton, label) ∉ rs_widgets st ->
  button label ucw type cx st =
  (inr (clicked (cx_session cx (KButton, label))),
   st_emit (cx_path cx, EButton label ucw type)
     (st_register (KButton, label) st)).
Proof.
  intros H. unfold button. eapply bind_run; [by apply register_run|done].
Qed.

(** The state projections of the state updates. *)
Ltac st_simpl :=
  cbn [rs_out rs_widgets rs_cache rs_io st_emit st_emits st_register st_io
       st_store cx_env cx_session cx_path fst snd].

(** Two states are equal when their four components are.  [st_eq] proves
    such an equality between nests of state updates, one component at a
    time, so that no update is unfolded more than once. *)
Lemma run_state_eq st st' :
  rs_out st = rs_out st' -> rs_widgets st = rs_widgets st' ->
  rs_cache st = rs_cache st' -> rs_io st = rs_io st' -> st = st'.
Proof. destruct st, st'; cbn; congruence. Qed.

Ltac st_eq := apply run_state_eq; st_simpl; reflexivity.

(** A widget identifier is not among those declared so far: the goal
    after [st_simpl] is a membership in a concrete extension of the
    initial list. *)
Ltac fresh_widget :=
  st_simpl;
  repeat (apply not_elem_of_cons; split; [discriminate|]);
  first [assumption | apply not_elem_of_nil].

(** [run_script] proves [m cx st = ?r] by running [m]: the result [?r] is
    found by the run.  The goals it leaves are those no rule decides. *)
Ltac run_script :=
  lazymatch goal with
  | |- (?m ≫= ?k) ?cx ?st = _ =>
      eapply bind_run; [run_script | cbn beta iota; run_script]
  | |- @mret script _ _ _ _ _ = _ => apply ret_run
  | |- raise _ _ _ = _ => apply raise_run
  | |- emit _ _ _ = _ => apply emit_run
  | |- widget_value _ _ _ = _ => apply widget_value_run
  | |- register _ _ _ = _ => apply register_run; fresh_widget
  | |- selectbox _ _ _ _ _ _ = _ => apply selectbox_run; fresh_widget
  | |- radio _ _ _ _ = _ => apply radio_run; fresh_widget
  | |- number_input _ _ _ _ _ _ _ = _ =>
      apply number_input_run; [fresh_widget | done]
  | |- button _ _ _ _ _ = _ => apply button_run; fresh_widget
  | |- within _ _ _ _ = _ => unfold within at 1; run_script
  | |- try_except _ _ _ _ _ = _ =>
      eapply try_except_run; [run_script | cbn beta iota; run_script]
  | |- call_joblib_load _ _ _ = _ =>
      first [eapply call_joblib_load_run; eassumption | reflexivity]
  | |- call_image_open _ _ _ = _ =>
      first [eapply call_image_open_run; eassumption | reflexivity]
  | |- call_predict_proba _ _ _ _ = _ =>
      first [eapply call_predict_proba_run; eassumption | reflexivity]
  | |- (if ?b then _ else _) = _ =>
      first [ match goal with H : b = _ |- _ => rewrite H end;
              cbn beta iota; run_script
            | reflexivity ]
  | |- _ => reflexivity
  end.
