(* ===== verification/Keeps.v ===== *)
(** * Keeps: what a run may change

    A relation [R] between the state before a piece of script and the
    state after it is kept by the whole script when it is kept by every
    step: the combinators of [Runtime] ([ret], [bind], [try_except],
    [within], the conditionals) keep any preorder, and a primitive keeps
    [R] when [R] allows the one update the primitive makes: to declare
    this widget ([AllowsRegister]), to show this element ([AllowsEmit]),
    to make this call ([AllowsIo]).  [Keeps R m] is found by instance
    resolution along the structure of [m].

    The relations used by the component files: [grows] (a run only adds
    to the page, the widgets, the cache and the log), here; the relations
    of [Session] that say that a run leaves the cache and the number of
    reads of the artifact as they were; and the relations of [Browser]
    that say which widgets a run shows and that it asks no pipeline. *)

From S2P Require Import Prelude PyFloat Runtime.

(** [Keeps R m]: every run of [m] takes a state to one related by [R],
    whether it returns or raises. *)
Class Keeps (R : relation run_state) {A} (m : script A) : Prop :=
  keeps : forall cx st, R st (m cx st).2.

#[export] Hint Mode Keeps + + ! : typeclass_instances.

(** What [R] must allow: to stay and to go on. *)
Class Allows (R : relation run_state) : Prop := {
  allows_preorder :: PreOrder R
}.

(** [R] allows to declare the widget [w]. *)
Class AllowsRegister (R : relation run_state) (w : wid) : Prop :=
  allows_register : forall st, R st (st_register w st).

(** [R] allows to show the element [e], in any container. *)
Class AllowsEmit (R : relation run_state) (e : element) : Prop :=
  allows_emit : forall p st, R st (st_emit (p, e) st).

(** [R] allows the call [ev] to the outside. *)
Class AllowsIo (R : relation run_state) (ev : io_event) : Prop :=
  allows_io : forall st, R st (st_io ev st).

#[export] Hint Mode Allows + : typeclass_instances.
#[export] Hint Mode AllowsRegister + + : typeclass_instances.
#[export] Hint Mode AllowsEmit + + : typeclass_instances.
#[export] Hint Mode AllowsIo + + : typeclass_instances.

(** ** The relation [grows] *)

(** A run adds to the page, to the declared widgets and to the log, and
    adds entries to the cache: it never takes anything back. *)
Record grows (st st' : run_state) : Prop := Grows_intro {
  grows_out : rs_out st `suffix_of` rs_out st';
  grows_widgets : rs_widgets st `suffix_of` rs_widgets st';
  grows_cache : rs_cache st ⊆ rs_cache st';
  grows_io : rs_io st `suffix_of` rs_io st'
}.

Abbreviation Grows := (Keeps grows).

(** ** The combinators keep every preorder *)

Section combinators.
Context (R : relation run_state) `{!Allows R}.

Lemma allows_emits x st :
  Forall (λ a, AllowsEmit R a.2) x -> R st (st_emits x st).
Proof.
  induction 1 as [|[p e] x He _ IH]; [by destruct st|].
  etrans; [apply IH|]. apply (He p (st_emits x st)).
Qed.

#[export] Instance ret_keeps {A} (x : A) : Keeps R (mret x : script A).
Proof. by intros cx st. Qed.

#[export] Instance raise_keeps {A} e : Keeps R (@raise A e).
Proof. by intros cx st. Qed.

#[export] Instance bind_keeps {A B} (m : script A) (k : A -> script B) :
  Keeps R m -> (forall x, Keeps R (k x)) -> Keeps R (m ≫= k).
Proof.
  intros Hm Hk cx st. unfold mbind, script_bind.
  specialize (Hm cx st). destruct (m cx st) as [[e|x] st']; [done|].
  etrans; [done|]. apply Hk.
Qed.

#[export] Instance try_except_keeps {A} c (body : script A) handler :
  Keeps R body -> (forall e, Keeps R (handler e)) ->
  Keeps R (try_except c body handler).
Proof.
  intros Hb Hh cx st. unfold try_except.
  specialize (Hb cx st). destruct (body cx st) as [[e|x] st']; [|done].
  destruct (c _); [|done]. etrans; [done|]. apply Hh.
Qed.

#[export] Instance within_keeps {A} c (body : script A) :
  Keeps R body -> Keeps R (within c body).
Proof. intros Hb cx st. apply Hb. Qed.

#[export] Instance if_keeps {A} (b : bool) (m1 m2 : script A) :
  Keeps R m1 -> Keeps R m2 -> Keeps R (if b then m1 else m2).
Proof. by destruct b. Qed.

#[export] Instance pair_keeps {A B C} (x : A * B)
    (k : A -> B -> script C) :
  (forall a b, Keeps R (k a b)) -> Keeps R (let '(a, b) := x in k a b).
Proof. by destruct x. Qed.

(** ** The primitives *)

#[export] Instance emit_keeps e `{!AllowsEmit R e} : Keeps R (emit e).
Proof. intros cx st. apply allows_emit. Qed.

#[export] Instance widget_value_keeps w : Keeps R (widget_value w).
Proof. by intros cx st. Qed.

#[export] Instance register_keeps w `{!AllowsRegister R w} :
  Keeps R (register w).
Proof.
  intros cx st. unfold register. case_decide; [done|apply allows_register].
Qed.

#[export] Instance selectbox_keeps l o s h
    `{!AllowsRegister R (KSelectbox, l)}
    `{!AllowsEmit R (ESelectbox l o s h)} :
  Keeps R (selectbox l o s h).
Proof. unfold selectbox. apply _. Qed.

#[export] Instance radio_keeps l o `{!AllowsRegister R (KRadio, l)}
    `{!AllowsEmit R (ERadio l o)} :
  Keeps R (radio l o).
Proof. unfold radio. apply _. Qed.

#[export] Instance number_input_keeps l m s v h
    `{!AllowsRegister R (KNumberInput, l)}
    `{!AllowsEmit R (ENumberInput l m s v h)} :
  Keeps R (number_input l m s v h).
Proof. unfold number_input. apply _. Qed.

#[export] Instance button_keeps l u t `{!AllowsRegister R (KButton, l)}
    `{!AllowsEmit R (EButton l u t)} :
  Keeps R (button l u t).
Proof. unfold button. apply _. Qed.

#[export] Instance py_index_keeps {A} (a : list A) i : Keeps R (py_index a i).
Proof. unfold py_index. destruct (a !! i); apply _. Qed.

#[export] Instance set_page_config_keeps t i l s
    `{!AllowsEmit R (EPageConfig t i l s)} :
  Keeps R (set_page_config t i l s).
Proof.
  intros cx st. unfold set_page_config. case_bool_decide; [|done].
  apply allows_emit.
Qed.

#[export] Instance pd_dataframe_keeps data : Keeps R (pd_dataframe data).
Proof. unfold pd_dataframe. apply _. Qed.

#[export] Instance px_bar_keeps x y o t l : Keeps R (px_bar x y o t l).
Proof. unfold px_bar. apply _. Qed.

(** The calls to the outside, when [R] allows them. *)

#[export] Instance call_joblib_load_keeps p `{!AllowsIo R (IoJoblibLoad p)} :
  Keeps R (call_joblib_load p).
Proof. intros cx st. apply allows_io. Qed.

#[export] Instance call_image_open_keeps p `{!AllowsIo R (IoImageOpen p)} :
  Keeps R (call_image_open p).
Proof. intros cx st. apply allows_io. Qed.

#[export] Instance call_predict_proba_keeps m df
    `{!AllowsIo R (IoPredictProba df)} :
  Keeps R (call_predict_proba m df).
Proof. intros cx st. apply allows_io. Qed.

End combinators.

(** ** [grows] is allowed everywhere *)

#[export] Instance grows_preorder : PreOrder grows.
Proof.
  split.
  - by intros st.
  - intros st1 st2 st3 [] []. split; by etrans.
Qed.

#[export] Instance grows_allows : Allows grows.
Proof. split. apply _. Qed.

#[export] Instance grows_allows_register w : AllowsRegister grows w.
Proof. intros st. split; st_simpl; try done. by apply suffix_cons_r. Qed.

#[export] Instance grows_allows_emit e : AllowsEmit grows e.
Proof. intros p st. split; st_simpl; try done. by apply suffix_cons_r. Qed.

#[export] Instance grows_allows_io ev : AllowsIo grows ev.
Proof. intros st. split; st_simpl; try done. by apply suffix_cons_r. Qed.

Lemma grows_store name c st :
  rs_cache st !! name = None -> grows st (st_store name c st).
Proof. intros H. split; st_simpl; try done. by apply insert_subseteq. Qed.

#[export] Hint Resolve grows_store : loan.

(** The decorator adds an entry to the cache and never replaces one. *)
#[export] Instance cache_resource_grows name f :
  Grows f -> Grows (cache_resource name f).
Proof.
  intros Hf cx st. unfold cache_resource.
  destruct (rs_cache st !! name) as [[v replay]|] eqn:Hc.
  - apply (allows_emits grows), Forall_forall. intros; apply _.
  - specialize (Hf cx st). destruct (f cx st) as [[e|v] st']; [done|].
    cbn [snd] in *. split; st_simpl; try apply Hf.
    apply insert_subseteq_r; [done|apply Hf].
Qed.
