(* ===== verification/Fixtures.v ===== *)
(** * Fixtures: concrete pipelines, files and sessions

    The values at which the theorems of the component files are applied:
    a pipeline that answers 0.82 for a good credit history and 0.2 for a
    poor one (the two scenarios of the specification, section 8), the
    states of the artifact file, and the sessions of the two scenarios. *)

From S2P Require Import Prelude PyFloat Runtime.

(** The cell of a row. *)
Definition cell (r : row) (column : string) : option pyval :=
  (λ x, x.2.2) <$> list_find (λ c, c.1 = column) r.

(** A pipeline that decides on the credit history alone. *)
Definition fixture_proba (df : dataframe) : exn + list (list float) :=
  match df with
  | [r] =>
      match cell r "Credit_History" with
      | Some (VFloat f) =>
          if float_eq f f_1_0
          then inr [[float_lit 18 100; float_lit 82 100]]
          else inr [[float_lit 80 100; float_lit 20 100]]
      | _ => inl (Exn OtherException "columns are missing: Credit_History")
      end
  | _ => inl (Exn OtherException "expected one row")
  end.

Definition fixture_model : pipeline := Pipeline fixture_proba.

(** A pipeline that always raises, and one that returns a matrix with a
    single column. *)
Definition failing_model : pipeline :=
  Pipeline (λ _, inl (Exn OtherException "could not convert string to float")).

Definition one_column_model : pipeline :=
  Pipeline (λ _, inr [[f_1_0]]).

(** The artifact in place, missing, and unreadable. *)
Definition no_such_file : exn :=
  Exn FileNotFoundError "[Errno 2] No such file or directory".

Definition invalid_load_key : exn :=
  Exn OtherException "invalid load key".

Definition env_found : env :=
  Env (λ _, inr fixture_model) (λ _, inl no_such_file).

Definition env_missing : env :=
  Env (λ _, inl no_such_file) (λ _, inl no_such_file).

Definition env_corrupt : env :=
  Env (λ _, inl invalid_load_key) (λ _, inl no_such_file).

(** The image of the documentation page in place, and unreadable (in
    [env_found] it is missing). *)
Definition unidentified_image : exn :=
  Exn OtherException "cannot identify image file".

Definition env_image : env :=
  Env (λ _, inr fixture_model) (λ _, inr "feature importances").

Definition env_bad_image : env :=
  Env (λ _, inr fixture_model) (λ _, inl unidentified_image).

(** A session as a run reads it. *)
Definition session_of (m : session) (w : wid) : option wvalue := m !! w.

(** Scenario 1: the defaults of the form with "Indépendant" set to "No",
    and the button clicked.  Scenario 2: the same with a poor credit
    history. *)
Definition scenario1 : session :=
  {[ (KSelectbox, "Indépendant") := WIndex 1;
     (KButton, "🚀 Calculer la probabilité d'approbation") := WTrigger ]}.

Definition scenario2 : session :=
  <[ (KSelectbox, "Historique de crédit") := WIndex 1 ]> scenario1.

(** The sessions in which the navigation is on the documentation and on
    the about page. *)
Definition session_docs : session :=
  {[ (KRadio, "Navigation") := WIndex 1 ]}.

Definition session_about : session :=
  {[ (KRadio, "Navigation") := WIndex 2 ]}.

(** The cache after a load that found no file. *)
Definition cache_unavailable : gmap string cache_entry :=
  {[ "load_model" :=
       (None,
        [EError "❌ Modèle non trouvé. Veuillez vérifier que 'loan_pipeline.joblib' existe."]) ]}.

(** A session in which nothing was entered and nothing clicked. *)
Definition fresh_session : session := ∅.

Definition cx_of (e : env) (m : session) : run_ctx :=
  Ctx e (session_of m) [].
