(* ===== verification/Gateway.v ===== *)
(** * Gateway: loading the scoring pipeline

    [load_model] ([src/app.py], lines 53-59) reads the serialised pipeline
    from a fixed path.  A missing file is reported on the page and turned
    into [None]; any other failure of the load is not caught.  The
    decorator [st.cache_resource] makes the function run once per process:
    what it returned, [None] included, and what it displayed are kept and
    given again on every later call. *)

From S2P Require Import Prelude PyFloat Runtime Keeps Fixtures.

(** ** The function *)

Definition artifact_path : string := "loan_pipeline.joblib".

Definition model_not_found : string :=
  "❌ Modèle non trouvé. Veuillez vérifier que 'loan_pipeline.joblib' existe.".

(** The body of [load_model], without the decorator. *)
Definition load_model_body : script (option pipeline) :=
  try_except (only FileNotFoundError)
    (m ← call_joblib_load artifact_path; mret (Some m))
    (λ _, emit (EError model_not_found);; mret None).

(** The name under which the decorator stores the result. *)
Definition load_model_key : string := "load_model".

Definition load_model : script (option pipeline) :=
  cache_resource load_model_key load_model_body.

(** What a call shows with the value it returns: the message when the
    file was missing, nothing with a pipeline. *)
Definition notice (v : option pipeline) : list element :=
  match v with Some _ => [] | None => [EError model_not_found] end.

(** ** What a call leaves behind *)

(** The state after the read of the artifact. *)
Definition st_read (st : run_state) : run_state :=
  st_io (IoJoblibLoad artifact_path) st.

(** What a call on a cold cache returns and leaves, by the outcome of
    [joblib.load]. *)
Definition cold_outcome (cx : run_ctx) (st : run_state)
    (loaded : exn + pipeline) : (exn + option pipeline) * run_state :=
  match loaded with
  | inr m =>
      (inr (Some m), st_store load_model_key (Some m, []) (st_read st))
  | inl e =>
      if only FileNotFoundError (exn_cls e) then
        (inr None,
         st_store load_model_key (None, [EError model_not_found])
           (st_emit (cx_path cx, EError model_not_found) (st_read st)))
      else (inl e, st_read st)
  end.

(** The cache entry of a state, if any. *)
Definition cached_model (st : run_state) : option cache_entry :=
  rs_cache st !! load_model_key.

(** What a call returns and leaves, on a warm cache and on a cold one. *)
Definition load_outcome (cx : run_ctx) (st : run_state)
    : (exn + option pipeline) * run_state :=
  match cached_model st with
  | Some (v, replay) =>
      (inr v, st_emits (reverse (pair (cx_path cx) <$> replay)) st)
  | None => cold_outcome cx st (joblib_load (cx_env cx) artifact_path)
  end.

(** ** The body, case by case *)

Lemma load_model_body_run cx st :
  load_model_body cx st =
  match joblib_load (cx_env cx) artifact_path with
  | inr m => (inr (Some m), st_read st)
  | inl e =>
      if only FileNotFoundError (exn_cls e)
      then (inr None, st_emit (cx_path cx, EError model_not_found) (st_read st))
      else (inl e, st_read st)
  end.
Proof.
  unfold load_model_body, try_except, mbind, script_bind, call_joblib_load.
  by destruct (joblib_load _ _).
Qed.

(** When the body returns, it has shown the notice of what it returns. *)
Lemma load_model_body_notice cx st v st' :
  load_model_body cx st = (inr v, st') -> (added st st').*2 = notice v.
Proof.
  rewrite load_model_body_run.
  destruct (joblib_load _ _) as [e|m]; [destruct (only _ _)|];
    intros [= <- <-]; [|by rewrite (added_new _ _ [])].
  by rewrite (added_new _ _ [(cx_path cx, EError model_not_found)]).
Qed.

#[export] Instance load_model_body_grows : Grows load_model_body.
Proof. unfold load_model_body. apply _. Qed.

#[export] Instance load_model_grows : Grows load_model.
Proof. unfold load_model. apply _. Qed.

(** ** The decorator *)

(** C4: The load happens once per process.  After a call of
    [load_model] that returned, every later call in a state that has kept
    the cache, in the same run or in a later one, returns the same value
    without reading the file, whatever the file has become; it displays
    again what the first call displayed, which, when the first call
    found the cache empty, is the error message if it found no file
    and nothing if it loaded the pipeline. *)
Theorem load_model_once cx st v st1 cx' st' :
  load_model cx st = (inr v, st1) -> rs_cache st1 ⊆ rs_cache st' ->
  exists replay,
    load_model cx' st' =
    (inr v, st_emits (reverse (pair (cx_path cx') <$> replay)) st')
    /\ (cached_model st = None -> replay = notice v).
Proof.
  intros (replay & Hc & Hcold)%cache_resource_caches Hgrows.
  exists replay. split.
  - apply cache_resource_hit. by eapply lookup_weaken.
  - intros (st0 & Hb & ->)%Hcold. by eapply load_model_body_notice.
Qed.

(** ** The cached function, case by case *)

(** On a cold cache. *)
Lemma load_model_cold cx st :
  cached_model st = None ->
  load_model cx st = cold_outcome cx st (joblib_load (cx_env cx) artifact_path).
Proof.
  intros Hc. unfold load_model, cold_outcome, cache_resource.
  unfold cached_model in Hc. rewrite Hc, load_model_body_run.
  destruct (joblib_load _ _) as [e|m].
  - destruct (only _ _); [|done].
    by rewrite (added_new _ _ [(cx_path cx, EError model_not_found)]).
  - by rewrite (added_new _ _ []).
Qed.

(** On a warm cache. *)
Lemma load_model_warm cx st v replay :
  cached_model st = Some (v, replay) ->
  load_model cx st =
  (inr v, st_emits (reverse (pair (cx_path cx) <$> replay)) st).
Proof. apply cache_resource_hit. Qed.

Lemma load_model_outcome cx st : load_model cx st = load_outcome cx st.
Proof.
  unfold load_outcome. destruct (cached_model st) as [[v replay]|] eqn:Hc;
    eauto using load_model_warm, load_model_cold.
Qed.

(** A call declares no widget. *)
Lemma load_model_widgets cx st :
  rs_widgets (load_model cx st).2 = rs_widgets st.
Proof.
  rewrite load_model_outcome. unfold load_outcome, cold_outcome.
  repeat case_match; done.
Qed.

(** When the read works or finds no file, the call returns; it adds at
    most its message to the page and leaves the cache filled. *)
Lemma load_model_returns cx st :
  found_or_missing (joblib_load (cx_env cx) artifact_path) = true ->
  exists v notice st1,
    load_model cx st = (inr v, st1)
    /\ rs_out st1 = reverse notice ++ rs_out st
    /\ rs_widgets st1 = rs_widgets st
    /\ is_Some (cached_model st1).
Proof.
  intros Hb. rewrite load_model_outcome. unfold load_outcome.
  destruct (cached_model st) as [[v replay]|] eqn:Hc.
  - exists v, (pair (cx_path cx) <$> replay). eexists.
    split; [done|]. split; [done|]. split; [done|].
    unfold cached_model in *. st_simpl. by rewrite Hc.
  - unfold cold_outcome.
    destruct (joblib_load _ _) as [e|m]; cbn in Hb; [rewrite Hb|].
    + exists None, [(cx_path cx, EError model_not_found)]. eexists.
      split; [done|]. split; [done|]. split; [done|].
      unfold cached_model. st_simpl. by rewrite lookup_insert_eq.
    + exists (Some m), []. eexists.
      split; [done|]. split; [done|]. split; [done|].
      unfold cached_model. st_simpl. by rewrite lookup_insert_eq.
Qed.

Lemma page_st_read st : page (st_read st) = page st.
Proof. done. Qed.

#[export] Hint Rewrite page_st_read : loan_rw.

(** A call that returns has filled the cache with what it returned. *)
Lemma load_model_caches cx st v st' :
  load_model cx st = (inr v, st') ->
  exists replay, cached_model st' = Some (v, replay).
Proof. intros (replay & Hc & _)%cache_resource_caches. by exists replay. Qed.

Section cold.
Context (cx : run_ctx) (st : run_state).
Hypothesis cold : cached_model st = None.

(** On a cold cache with the artifact in place, [load_model] reads
    the file once, returns the pipeline, displays nothing and stores the
    pipeline in the cache. *)
Theorem load_model_found m :
  joblib_load (cx_env cx) artifact_path = inr m ->
  load_model cx st =
  (inr (Some m), st_store load_model_key (Some m, []) (st_read st)).
Proof. intros H. by rewrite load_model_cold, H. Qed.

(** C5: On a cold cache with the artifact missing, [load_model] returns
    [None], displays the error message, and stores both: the failure is
    cached like a success. *)
Theorem load_model_missing e :
  joblib_load (cx_env cx) artifact_path = inl e ->
  exn_cls e = FileNotFoundError ->
  load_model cx st =
  (inr None,
   st_store load_model_key (None, [EError model_not_found])
     (st_emit (cx_path cx, EError model_not_found) (st_read st))).
Proof.
  intros H Hc. rewrite load_model_cold, H by done.
  unfold cold_outcome. by rewrite Hc.
Qed.

(** C32: An exception of [joblib.load] other than [FileNotFoundError]
    leaves [load_model]: the run ends with it, and nothing is cached, so
    that the next run tries the load again. *)
Theorem load_model_raises e :
  joblib_load (cx_env cx) artifact_path = inl e ->
  exn_cls e <> FileNotFoundError ->
  load_model cx st = (inl e, st_read st)
  /\ cached_model (st_read st) = None.
Proof.
  intros H Hc. split; [|done]. rewrite load_model_cold, H by done.
  unfold cold_outcome, only. by rewrite bool_decide_false.
Qed.

End cold.

(** ** The theorems at the fixtures *)

Lemma load_model_found_witness :
  load_model (cx_of env_found fresh_session) (initial_state ∅) =
  (inr (Some fixture_model),
   st_store load_model_key (Some fixture_model, [])
     (st_read (initial_state ∅))).
Proof. by apply load_model_found. Defined.

Lemma load_model_missing_witness :
  load_model (cx_of env_missing fresh_session) (initial_state ∅) =
  (inr None,
   st_store load_model_key (None, [EError model_not_found])
     (st_emit ([], EError model_not_found) (st_read (initial_state ∅)))).
Proof.
  apply (load_model_missing (cx_of env_missing fresh_session)
           (initial_state ∅)) with (e := no_such_file); reflexivity.
Defined.

Lemma load_model_raises_witness :
  load_model (cx_of env_corrupt fresh_session) (initial_state ∅) =
  (inl invalid_load_key, st_read (initial_state ∅))
  /\ cached_model (st_read (initial_state ∅)) = None.
Proof.
  apply (load_model_raises (cx_of env_corrupt fresh_session)
           (initial_state ∅)) with (e := invalid_load_key);
    [reflexivity|reflexivity|discriminate].
Defined.

(** The file is missing at the first call and in place at the second, in
    a later run of the same process: the second call still returns [None]
    and shows the message again. *)
Lemma load_model_once_witness :
  exists replay,
    load_model (cx_of env_found fresh_session)
      (initial_state {[ load_model_key := (None, [EError model_not_found]) ]})
    = (inr None,
       st_emits (reverse (pair [] <$> replay))
         (initial_state
            {[ load_model_key := (None, [EError model_not_found]) ]}))
    /\ (cached_model (initial_state ∅) = None -> replay = notice None).
Proof.
  apply (load_model_once (cx_of env_missing fresh_session) (initial_state ∅)
           None
           (st_store load_model_key (None, [EError model_not_found])
              (st_emit ([], EError model_not_found)
                 (st_read (initial_state ∅))))).
  - by rewrite load_model_cold.
  - reflexivity.
Defined.
