(* ===== verification/Predict.v ===== *)
(** * Predict: the prediction page

    Lines 78-235 of [src/app.py]: the form (eleven widgets in three rows of
    columns), the button, and the handler that runs when the button was
    clicked and a model is loaded.  The handler builds a one-row table from
    the widget values, asks the pipeline for the class probabilities, takes
    the probability of class 1, decides with the threshold 0.5 and renders
    the result; any exception of that block becomes an error message.

    The definitions carry the names of the script's variables.  A widget
    variable ([gender], [applicant_income], ...) is the script that declares
    the widget and returns its value; [inputs] collects the eleven values. *)

From S2P Require Import Prelude PyFloat Rounding Runtime Keeps Fixtures.

(** ** The form (lines 86-149) *)

Definition gender_options : list pyval := [VStr "Male"; VStr "Female"].
Definition education_options : list pyval :=
  [VStr "Graduate"; VStr "Not Graduate"].
Definition married_options : list pyval := [VStr "Yes"; VStr "No"].
Definition self_employed_options : list pyval := [VStr "Yes"; VStr "No"].
Definition dependents_options : list pyval :=
  [VStr "0"; VStr "1"; VStr "2"; VStr "3+"].
Definition property_area_options : list pyval :=
  [VStr "Urban"; VStr "Semiurban"; VStr "Rural"].
Definition loan_amount_term_options : list pyval :=
  VInt <$> [360; 180; 480; 300; 240; 120; 84].
Definition credit_history_options : list pyval :=
  [VFloat f_1_0; VFloat f_0_0].

(** The [format_func] of the credit history box: [x == 1.0]. *)
Definition credit_history_label (x : pyval) : string :=
  if py_eq x (VFloat f_1_0) then "✅ Bon historique"
  else "❌ Historique faible".

Definition gender : script pyval :=
  selectbox "Genre" gender_options None None.
Definition education : script pyval :=
  selectbox "Éducation" education_options None None.
Definition married : script pyval :=
  selectbox "Marié(e)" married_options None None.
Definition self_employed : script pyval :=
  selectbox "Indépendant" self_employed_options None None.
Definition dependents : script pyval :=
  selectbox "Personnes à charge" dependents_options None None.
Definition property_area : script pyval :=
  selectbox "Zone de propriété" property_area_options None None.

Definition applicant_income : script Z :=
  number_input "Revenu du demandeur ($)" 0 500 5000
    "Revenu mensuel du demandeur principal".
Definition coapplicant_income : script Z :=
  number_input "Revenu du co-demandeur ($)" 0 500 0
    "Revenu mensuel du co-demandeur".
Definition loan_amount : script Z :=
  number_input "Montant du prêt (k$)" 0 10 100
    "Montant en milliers de dollars".

Definition loan_amount_term : script pyval :=
  selectbox "Durée du prêt (jours)" loan_amount_term_options None
    (Some "Durée de remboursement en jours").
Definition credit_history : script pyval :=
  selectbox "Historique de crédit" credit_history_options
    (Some (credit_history_label <$> credit_history_options))
    (Some "1.0 = bon historique de crédit, 0.0 = historique faible").

(** The values of the eleven widgets. *)
Record inputs := Inputs {
  in_gender : pyval;
  in_married : pyval;
  in_dependents : pyval;
  in_education : pyval;
  in_self_employed : pyval;
  in_applicant_income : Z;
  in_coapplicant_income : Z;
  in_loan_amount : Z;
  in_loan_amount_term : pyval;
  in_credit_history : pyval;
  in_property_area : pyval
}.

(** The block [with st.container():] of the left column. *)
Definition prediction_form : script inputs :=
  within CContainer (
    emit (ESubheader "📝 Informations personnelles");;
    emit (EColumns [1; 1; 1]);;
    '(gender, education) ←
      within (CColumn "col1a") (g ← gender; e ← education; mret (g, e));
    '(married, self_employed) ←
      within (CColumn "col1b") (m ← married; s ← self_employed; mret (m, s));
    '(dependents, property_area) ←
      within (CColumn "col1c")
        (d ← dependents; p ← property_area; mret (d, p));
    emit (ESubheader "💰 Informations financières");;
    emit (EColumns [1; 1; 1]);;
    applicant_income ← within (CColumn "col2a") applicant_income;
    coapplicant_income ← within (CColumn "col2b") coapplicant_income;
    loan_amount ← within (CColumn "col2c") loan_amount;
    emit (ESubheader "📄 Détails du prêt");;
    emit (EColumns [1; 1]);;
    loan_amount_term ← within (CColumn "col3a") loan_amount_term;
    credit_history ← within (CColumn "col3b") credit_history;
    mret (Inputs gender married dependents education self_employed
            applicant_income coapplicant_income loan_amount
            loan_amount_term credit_history property_area)).

(** ** The handler (lines 161-235) *)

(** The one-row table given to the pipeline (lines 163-175). *)
Definition input_df (i : inputs) : dataframe :=
  [[("Gender", in_gender i);
    ("Married", in_married i);
    ("Dependents", in_dependents i);
    ("Education", in_education i);
    ("Self_Employed", in_self_employed i);
    ("ApplicantIncome", VInt (in_applicant_income i));
    ("CoapplicantIncome", VInt (in_coapplicant_income i));
    ("LoanAmount", VInt (in_loan_amount i));
    ("Loan_Amount_Term", in_loan_amount_term i);
    ("Credit_History", in_credit_history i);
    ("Property_Area", in_property_area i)]].

(** [model.predict_proba(input_df)[0][1]] (line 179). *)
Definition prob (model : pipeline) (df : dataframe) : script float :=
  probs ← call_predict_proba model df;
  row0 ← py_index probs 0;
  py_index row0 1.

(** The decision (line 180). *)
Definition decision (prob : float) : string :=
  if float_ge prob f_0_5 then "Approved" else "Not Approved".

(** The gauge (lines 187-207). *)
Definition fig (prob : float) : figure :=
  FIndicator {|
    ind_mode := "gauge+number+delta";
    ind_value := float_mul prob (float_of_Z 100);
    ind_domain := ((0, 1), (0, 1));
    ind_title := "Probabilité d'approbation (%)";
    ind_axis_range := (None, Some 100);
    ind_bar_color := "darkblue";
    ind_steps := [GaugeStep 0 30 "lightcoral";
                  GaugeStep 30 70 "lightyellow";
                  GaugeStep 70 100 "lightgreen"];
    ind_thr_color := "red";
    ind_thr_width := 4;
    ind_thr_thickness := float_lit 75 100;
    ind_thr_value := 50;
    ind_height := 300
  |}.

Definition card_open : string :=
  "<div class=" +:+ dq +:+ "prediction-card" +:+ dq +:+ ">".
Definition approved_html : string :=
  "<h2 class=" +:+ dq +:+ "approved" +:+ dq +:+ ">✅ Prêt Approuvé</h2>".
Definition rejected_html : string :=
  "<h2 class=" +:+ dq +:+ "rejected" +:+ dq +:+ ">❌ Prêt Non Approuvé</h2>".

(** The text of the warning (lines 227-232), as the literal holds it. *)
Definition recommendations : string := "
                        **Recommandations pour améliorer l'approbation :**
                        - Améliorer l'historique de crédit
                        - Augmenter le revenu du demandeur/co-demandeur
                        - Réduire le montant du prêt demandé
                        ".

(** What the handler displays for a probability (lines 180-232). *)
Definition show_result (prob : float) : script unit :=
  let decision := decision prob in
  within CContainer (
    emit (EMarkdown card_open true);;
    emit (EPlotly (fig prob) true);;
    (if String.eqb decision "Approved"
     then emit (EMarkdown approved_html true)
     else emit (EMarkdown rejected_html true));;
    emit (EColumns [1; 1]);;
    within (CColumn "col_met1")
      (emit (EMetric "Probabilité d'approbation" (format_pct1 prob)));;
    within (CColumn "col_met2") (emit (EMetric "Seuil de décision" "50%"));;
    emit (EMarkdown "</div>" true);;
    if String.eqb decision "Not Approved" && float_lt prob f_0_5
    then emit (EWarning recommendations)
    else mret ()).

Definition prediction_error (e : exn) : string :=
  "Erreur lors de la prédiction : " +:+ exn_str e.

(** [if predict_btn and model is not None:] and its block. *)
Definition predict_handler (model : option pipeline) (predict_btn : bool)
    (i : inputs) : script unit :=
  if predict_btn then
    match model with
    | Some m =>
        let input_df := input_df i in
        try_except any_exception
          (p ← prob m input_df; show_result p)
          (λ e, emit (EError (prediction_error e)))
    | None => mret ()
    end
  else mret ().

(** ** The page (lines 78-235) *)

Definition main_header : string :=
  "<h1 class=" +:+ dq +:+ "main-header" +:+ dq
    +:+ ">🏦 Loan Approval Predictor</h1>".

Definition predict_btn : script bool :=
  button "🚀 Calculer la probabilité d'approbation" true "primary".

Definition prediction_page (model : option pipeline) : script unit :=
  emit (EMarkdown main_header true);;
  emit (EMarkdown
          "### Entrez les détails du demandeur pour prédire l'approbation du prêt"
          false);;
  emit (EColumns [2; 1]);;
  i ← within (CColumn "col1") prediction_form;
  within (CColumn "col2") (
    emit (ESubheader "🎯 Prédiction");;
    b ← predict_btn;
    predict_handler model b i).

(** ** What the page reads and shows *)

(** The widgets of the form, in the order of their declaration. *)
Definition form_widgets : list wid :=
  [(KSelectbox, "Genre"); (KSelectbox, "Éducation");
   (KSelectbox, "Marié(e)"); (KSelectbox, "Indépendant");
   (KSelectbox, "Personnes à charge"); (KSelectbox, "Zone de propriété");
   (KNumberInput, "Revenu du demandeur ($)");
   (KNumberInput, "Revenu du co-demandeur ($)");
   (KNumberInput, "Montant du prêt (k$)");
   (KSelectbox, "Durée du prêt (jours)");
   (KSelectbox, "Historique de crédit")].

Definition button_widget : wid :=
  (KButton, "🚀 Calculer la probabilité d'approbation").

Definition page_widgets : list wid := form_widgets ++ [button_widget].

(** What a select box and a number input of the form return in a
    session. *)
Definition choice (s : wid -> option wvalue) (label : string)
    (options : list pyval) : pyval :=
  default VNone (selected options (s (KSelectbox, label))).

Definition number (s : wid -> option wvalue) (label : string) (value : Z)
    : Z :=
  entered value (s (KNumberInput, label)).

(** The inputs as a function of the session. *)
Definition read_inputs (s : wid -> option wvalue) : inputs := {|
  in_gender := choice s "Genre" gender_options;
  in_married := choice s "Marié(e)" married_options;
  in_dependents := choice s "Personnes à charge" dependents_options;
  in_education := choice s "Éducation" education_options;
  in_self_employed := choice s "Indépendant" self_employed_options;
  in_applicant_income := number s "Revenu du demandeur ($)" 5000;
  in_coapplicant_income := number s "Revenu du co-demandeur ($)" 0;
  in_loan_amount := number s "Montant du prêt (k$)" 100;
  in_loan_amount_term :=
    choice s "Durée du prêt (jours)" loan_amount_term_options;
  in_credit_history :=
    choice s "Historique de crédit" credit_history_options;
  in_property_area := choice s "Zone de propriété" property_area_options
|}.

(** The elements of the form, in the order of the page, for a form that
    sits in the containers [p]. *)
Definition form_page (p : list container) : list emitted :=
  let c := p ++ [CContainer] in
  [(c, ESubheader "📝 Informations personnelles");
   (c, EColumns [1; 1; 1]);
   (c ++ [CColumn "col1a"], ESelectbox "Genre" gender_options None None);
   (c ++ [CColumn "col1a"],
    ESelectbox "Éducation" education_options None None);
   (c ++ [CColumn "col1b"], ESelectbox "Marié(e)" married_options None None);
   (c ++ [CColumn "col1b"],
    ESelectbox "Indépendant" self_employed_options None None);
   (c ++ [CColumn "col1c"],
    ESelectbox "Personnes à charge" dependents_options None None);
   (c ++ [CColumn "col1c"],
    ESelectbox "Zone de propriété" property_area_options None None);
   (c, ESubheader "💰 Informations financières");
   (c, EColumns [1; 1; 1]);
   (c ++ [CColumn "col2a"],
    ENumberInput "Revenu du demandeur ($)" 0 500 5000
      "Revenu mensuel du demandeur principal");
   (c ++ [CColumn "col2b"],
    ENumberInput "Revenu du co-demandeur ($)" 0 500 0
      "Revenu mensuel du co-demandeur");
   (c ++ [CColumn "col2c"],
    ENumberInput "Montant du prêt (k$)" 0 10 100
      "Montant en milliers de dollars");
   (c, ESubheader "📄 Détails du prêt");
   (c, EColumns [1; 1]);
   (c ++ [CColumn "col3a"],
    ESelectbox "Durée du prêt (jours)" loan_amount_term_options None
      (Some "Durée de remboursement en jours"));
   (c ++ [CColumn "col3b"],
    ESelectbox "Historique de crédit" credit_history_options
      (Some (credit_history_label <$> credit_history_options))
      (Some "1.0 = bon historique de crédit, 0.0 = historique faible"))].

(** A session fits the form when every stored index is an index of the
    box's options and every stored number is at least the input's minimum:
    what the widgets of the browser allow the user to enter. *)
Definition index_fits (s : wid -> option wvalue) (label : string)
    (options : list pyval) : bool :=
  match s (KSelectbox, label) with
  | Some (WIndex i) => bool_decide (i < length options)%nat
  | _ => true
  end.

Definition number_fits (s : wid -> option wvalue) (label : string)
    (min_value : Z) : bool :=
  match s (KNumberInput, label) with
  | Some (WNumber z) => bool_decide (min_value <= z)
  | _ => true
  end.

Definition valid_ui (s : wid -> option wvalue) : bool :=
  index_fits s "Genre" gender_options
  && index_fits s "Éducation" education_options
  && index_fits s "Marié(e)" married_options
  && index_fits s "Indépendant" self_employed_options
  && index_fits s "Personnes à charge" dependents_options
  && index_fits s "Zone de propriété" property_area_options
  && number_fits s "Revenu du demandeur ($)" 0
  && number_fits s "Revenu du co-demandeur ($)" 0
  && number_fits s "Montant du prêt (k$)" 0
  && index_fits s "Durée du prêt (jours)" loan_amount_term_options
  && index_fits s "Historique de crédit" credit_history_options.

(** The domain of the record the pipeline expects: every categorical
    field is one of its options, every amount is non-negative. *)
Record valid_inputs (i : inputs) : Prop := Valid_inputs {
  gender_ok : in_gender i ∈ gender_options;
  married_ok : in_married i ∈ married_options;
  dependents_ok : in_dependents i ∈ dependents_options;
  education_ok : in_education i ∈ education_options;
  self_employed_ok : in_self_employed i ∈ self_employed_options;
  applicant_income_ok : 0 <= in_applicant_income i;
  coapplicant_income_ok : 0 <= in_coapplicant_income i;
  loan_amount_ok : 0 <= in_loan_amount i;
  loan_amount_term_ok : in_loan_amount_term i ∈ loan_amount_term_options;
  credit_history_ok : in_credit_history i ∈ credit_history_options;
  property_area_ok : in_property_area i ∈ property_area_options
}.

(** The select boxes of the form with their options and its number
    inputs with their minimum: what the browser lets the user choose and
    enter. *)
Definition select_boxes : gmap string (list pyval) :=
  list_to_map
    [("Genre", gender_options); ("Éducation", education_options);
     ("Marié(e)", married_options); ("Indépendant", self_employed_options);
     ("Personnes à charge", dependents_options);
     ("Zone de propriété", property_area_options);
     ("Durée du prêt (jours)", loan_amount_term_options);
     ("Historique de crédit", credit_history_options)].

Definition number_inputs : gmap string Z :=
  list_to_map
    [("Revenu du demandeur ($)", 0); ("Revenu du co-demandeur ($)", 0);
     ("Montant du prêt (k$)", 0)].

(** An element is known when, if it is a select box or a number input,
    it is one of the form with the options or the minimum of the form. *)
Definition known (e : element) : bool :=
  match e with
  | ESelectbox label options _ _ =>
      bool_decide (select_boxes !! label = Some options)
  | ENumberInput label min_value _ _ _ =>
      bool_decide (number_inputs !! label = Some min_value)
  | _ => true
  end.

Class Known (e : element) : Prop := is_known : known e = true.

#[export] Hint Extern 0 (Known _) => exact eq_refl : typeclass_instances.

(** The tables the pipeline was asked about, the last one first. *)
Definition asked (io : list io_event) : list dataframe :=
  omap (λ ev, match ev with IoPredictProba df => Some df | _ => None end) io.

(** The columns of the table, in order. *)
Definition feature_names : list string :=
  ["Gender"; "Married"; "Dependents"; "Education"; "Self_Employed";
   "ApplicantIncome"; "CoapplicantIncome"; "LoanAmount";
   "Loan_Amount_Term"; "Credit_History"; "Property_Area"].

(** Whether the handler shows the approval and the recommendations. *)
Definition approved (prob : float) : bool := float_ge prob f_0_5.

Definition recommends (prob : float) : bool :=
  negb (float_ge prob f_0_5) && float_lt prob f_0_5.

(** Whether the bands of a gauge tile the axis from [lo] to [hi]. *)
Fixpoint steps_cover (lo hi : Z) (steps : list gauge_step) : bool :=
  match steps with
  | [] => bool_decide (lo = hi)
  | s :: steps =>
      bool_decide (step_lo s = lo) && bool_decide (lo < step_hi s)
      && steps_cover (step_hi s) hi steps
  end.

(** Whether the needle of the gauge is at or past its threshold line. *)
Definition needle_past_threshold (f : figure) : bool :=
  match f with
  | FIndicator i => float_ge (ind_value i) (float_of_Z (ind_thr_value i))
  | FBar _ => false
  end.

(** The float just below the threshold line of the gauge, and the value
    of the float just below 0.5. *)
Definition below_50 : float := SFpred prec emax (float_of_Z 50).
Definition below_half : Z := ulps (SFpred prec emax f_0_5).

(** The elements [show_result] adds, in the order of the page. *)
Definition result_page (prob : float) (p : list container)
    : list emitted :=
  let c := p ++ [CContainer] in
  [(c, EMarkdown card_open true);
   (c, EPlotly (fig prob) true);
   (c, EMarkdown (if approved prob then approved_html else rejected_html)
         true);
   (c, EColumns [1; 1]);
   (c ++ [CColumn "col_met1"],
    EMetric "Probabilité d'approbation" (format_pct1 prob));
   (c ++ [CColumn "col_met2"], EMetric "Seuil de décision" "50%");
   (c, EMarkdown "</div>" true)]
  ++ (if recommends prob then [(c, EWarning recommendations)] else []).

(** The elements of the page above the handler's: the same in every run
    of the page, whatever the model and the session. *)
Definition page_head (p : list container) : list emitted :=
  [(p, EMarkdown main_header true);
   (p, EMarkdown
         "### Entrez les détails du demandeur pour prédire l'approbation du prêt"
         false);
   (p, EColumns [2; 1])]
  ++ form_page (p ++ [CColumn "col1"])
  ++ [(p ++ [CColumn "col2"], ESubheader "🎯 Prédiction");
      (p ++ [CColumn "col2"],
       EButton "🚀 Calculer la probabilité d'approbation" true "primary")].

(** The state in which the handler starts: the page head shown, the
    widgets of the page declared. *)
Definition st_head (cx : run_ctx) (st : run_state) : run_state :=
  St (reverse (page_head (cx_path cx)) ++ rs_out st)
     (reverse page_widgets ++ rs_widgets st)
     (rs_cache st) (rs_io st).

(** The context of the right column. *)
Definition cx_col2 (cx : run_ctx) : run_ctx :=
  Ctx (cx_env cx) (cx_session cx) (cx_path cx ++ [CColumn "col2"]).

(** The state after the call of the pipeline. *)
Definition st_asked (i : inputs) (st : run_state) : run_state :=
  st_io (IoPredictProba (input_df i)) st.

(** ** The scripts of the form, unfolded *)

(** The form and its eleven widgets are one script: what is proved of
    the form by the structure of its script starts by unfolding them. *)
Create HintDb form_script.

#[export] Hint Unfold prediction_form gender education married
  self_employed dependents property_area applicant_income
  coapplicant_income loan_amount loan_amount_term credit_history
  : form_script.

Ltac unfold_form := autounfold with form_script.

(** The handler is a script by cases on the button and on the model. *)
Ltac handler_cases model b :=
  unfold predict_handler, prob, show_result; destruct b, model.

(** ** The decision *)

Lemma ulps_f_0_5 : 2 * ulps f_0_5 = ulp_den.
Proof. by vm_compute. Qed.

(** C1: The decision is exact at the threshold: a valid finite
    probability is approved exactly when its real value, [ulps p] units of
    2^-1074, is at least one half. *)
Theorem decision_threshold p :
  valid p = true -> is_finite p = true ->
  decision p = "Approved" <-> ulp_den <= 2 * ulps p.
Proof.
  intros Hv Hf. unfold decision. rewrite float_ge_ulps by done.
  pose proof ulps_f_0_5.
  destruct (Z.leb_spec (ulps f_0_5) (ulps p)); split; (done || lia).
Qed.

Lemma decision_threshold_witness :
  decision (float_lit 82 100) = "Approved"
  <-> ulp_den <= 2 * ulps (float_lit 82 100).
Proof. apply decision_threshold; reflexivity. Defined.

(** The values the specification names: 0.5 and 1.0 are approved,
    0.0 and the largest float below 0.5 are not, nor is the literal
    0.499999.  The metric beside the decision rounds to one decimal: a
    probability of 0.49996 is not approved and is shown as 50.0%, the
    value of the threshold. *)
Theorem decision_at_threshold :
  decision f_0_5 = "Approved" /\ decision f_1_0 = "Approved"
  /\ decision f_0_0 = "Not Approved"
  /\ decision (SFpred prec emax f_0_5) = "Not Approved"
  /\ decision (float_lit 499999 1000000) = "Not Approved"
  /\ decision (float_lit 49996 100000) = "Not Approved"
  /\ format_pct1 (float_lit 49996 100000) = "50.0%".
Proof. by vm_compute. Qed.

Lemma decision_approved p : decision p = "Approved" <-> approved p = true.
Proof. unfold decision, approved. by destruct (float_ge p f_0_5). Qed.

Lemma decision_rejected p :
  decision p = "Not Approved" <-> approved p = false.
Proof. unfold decision, approved. by destruct (float_ge p f_0_5). Qed.

Lemma approved_ulps p :
  valid p = true -> is_finite p = true ->
  approved p = true <-> ulp_den <= 2 * ulps p.
Proof.
  intros Hv Hf. unfold approved. rewrite float_ge_ulps by done.
  pose proof ulps_f_0_5. rewrite Z.leb_le. lia.
Qed.

(** Away from NaN the second test of line 226 adds nothing. *)
Lemma recommends_not_approved p :
  is_nan p = false -> recommends p = negb (approved p).
Proof.
  intros Hp. unfold recommends, approved.
  rewrite float_lt_not_ge by done. by destruct (float_ge p f_0_5).
Qed.

(** The decision is monotone in the probability: a probability at
    least as large as an approved one is approved. *)
Theorem decision_monotone p q :
  valid p = true -> is_finite p = true ->
  valid q = true -> is_finite q = true ->
  ulps p <= ulps q -> decision p = "Approved" -> decision q = "Approved".
Proof.
  intros ?? ?? Hle. rewrite !decision_approved, !approved_ulps by done. lia.
Qed.

Lemma decision_monotone_witness : decision (float_lit 82 100) = "Approved".
Proof.
  apply (decision_monotone f_0_5); [reflexivity..|by_decide|reflexivity].
Defined.

(** ** The form *)

Lemma selected_fits options s label :
  index_fits s label options = true -> (0 < length options)%nat ->
  choice s label options ∈ options.
Proof.
  unfold index_fits, choice, selected. intros Hfit Hlen.
  set (i := match s (KSelectbox, label) with
            | Some (WIndex i) => i | _ => 0%nat end).
  assert (Hi : (i < length options)%nat).
  { subst i. destruct (s (KSelectbox, label)) as [[i| |]|]; try done.
    by apply bool_decide_eq_true in Hfit. }
  destruct (lookup_lt_is_Some_2 options i Hi) as [x Hx].
  rewrite Hx. eapply list_elem_of_lookup_2, Hx.
Qed.

Lemma number_fits_ge s label min_value value :
  number_fits s label min_value = true -> min_value <= value ->
  min_value <= number s label value.
Proof.
  unfold number_fits, number, entered. intros Hfit Hv.
  destruct (s (KNumberInput, label)) as [[| |]|]; try done.
  by apply bool_decide_eq_true in Hfit.
Qed.

(** In a session that fits the form, the values read are in the domain
    of the record. *)
Lemma read_inputs_valid s :
  valid_ui s = true -> valid_inputs (read_inputs s).
Proof.
  unfold valid_ui. rewrite !andb_true_iff. intros H. destruct_and!.
  split; cbn [read_inputs in_gender in_married in_dependents in_education
                in_self_employed in_applicant_income in_coapplicant_income
                in_loan_amount in_loan_amount_term in_credit_history
                in_property_area];
    first [apply selected_fits; [done|cbn; lia]
          | apply number_fits_ge; [done|lia]].
Qed.

(** The form, step by step, from a state in which none of its widgets is
    declared. *)
Lemma prediction_form_steps cx st :
  Forall (λ w, w ∉ rs_widgets st) form_widgets ->
  prediction_form cx st =
  (inr (read_inputs (cx_session cx)),
   St (reverse (form_page (cx_path cx)) ++ rs_out st)
      (reverse form_widgets ++ rs_widgets st)
      (rs_cache st) (rs_io st)).
Proof.
  destruct cx as [env s p], st as [out ws cache io]. st_simpl.
  unfold form_widgets. rewrite !Forall_cons. intros H. destruct_and!.
  unfold_form.
  etrans; [run_script|]. f_equal; st_eq.
Qed.

(** C7: In a session that fits the form, and from a state in which none
    of its widgets is declared, the form does not raise; it returns the
    eleven values of the session, each in the domain the pipeline expects
    (a categorical value is one of the options of its box, an amount is at
    least 0); it shows its seventeen elements and declares its eleven
    widgets, and touches neither the cache nor the outside. *)
Theorem prediction_form_valid cx st :
  valid_ui (cx_session cx) = true ->
  Forall (λ w, w ∉ rs_widgets st) form_widgets ->
  exists st',
    prediction_form cx st = (inr (read_inputs (cx_session cx)), st')
    /\ valid_inputs (read_inputs (cx_session cx))
    /\ added st st' = form_page (cx_path cx)
    /\ rs_widgets st' = reverse form_widgets ++ rs_widgets st
    /\ rs_cache st' = rs_cache st /\ rs_io st' = rs_io st.
Proof.
  intros Hs Hw. eexists. split; [by apply prediction_form_steps|].
  split; [by apply read_inputs_valid|]. split; [by apply added_new|done].
Qed.

Lemma no_widget_declared (ws : list wid) : Forall (λ w, w ∉ []) ws.
Proof. apply Forall_forall. intros w _. apply not_elem_of_nil. Qed.

Lemma prediction_form_valid_witness :
  exists st',
    prediction_form (cx_of env_found scenario1) (initial_state ∅) =
    (inr (read_inputs (session_of scenario1)), st')
    /\ valid_inputs (read_inputs (session_of scenario1))
    /\ added (initial_state ∅) st' = form_page []
    /\ rs_widgets st' = reverse form_widgets ++ []
    /\ rs_cache st' = ∅ /\ rs_io st' = [].
Proof.
  apply (prediction_form_valid (cx_of env_found scenario1) (initial_state ∅));
    [by vm_compute|apply no_widget_declared].
Defined.

(** ** The table *)

Lemma option_not_none (options : list pyval) v :
  v ∈ options -> VNone ∉ options -> v <> VNone.
Proof. congruence. Qed.

(** The table has one row, whose columns are the eleven features in
    the order of the documentation, each once; the cell of each column is
    the value of the widget of that feature (the three amounts as
    integers); on valid inputs no cell is [None]. *)
Theorem input_df_columns i :
  exists r, input_df i = [r] /\ r.*1 = feature_names /\ NoDup r.*1
  /\ cell r <$> feature_names = Some <$>
       [in_gender i; in_married i; in_dependents i; in_education i;
        in_self_employed i; VInt (in_applicant_income i);
        VInt (in_coapplicant_income i); VInt (in_loan_amount i);
        in_loan_amount_term i; in_credit_history i; in_property_area i]
  /\ (valid_inputs i -> Forall (λ c, c.2 <> VNone) r).
Proof.
  eexists. split; [done|]. split; [done|]. split; [by_decide|].
  split; [done|].
  intros []. repeat constructor; cbn [snd]; try done.
  all: eapply option_not_none; [done|by_decide].
Qed.

(** ** The result *)

Lemma show_result_run p cx st :
  show_result p cx st =
  (inr (), st_emits (reverse (result_page p (cx_path cx))) st).
Proof.
  destruct cx as [env s path].
  unfold show_result, result_page, recommends, approved, decision.
  destruct (float_ge p f_0_5), (float_lt p f_0_5);
    cbv [String.eqb Ascii.eqb Bool.eqb andb negb];
    (etrans; [run_script|]); f_equal; st_eq.
Qed.

(** The warning is not among the seven elements that are always shown. *)
Lemma warning_only_if_recommends p path :
  EWarning recommendations ∈ (result_page p path).*2 <-> recommends p = true.
Proof.
  unfold result_page. destruct (recommends p); cbn [app fmap list_fmap snd].
  - split; [done|]. set_solver.
  - split; [|done]. rewrite !elem_of_cons, elem_of_nil. intuition discriminate.
Qed.

(** For a probability that is not NaN, the recommendations are
    among the elements the handler adds to the page exactly when the
    decision is "Not Approved". *)
Theorem recommendations_iff_rejected p cx st :
  is_nan p = false ->
  EWarning recommendations ∈ (added st (show_result p cx st).2).*2
  <-> decision p = "Not Approved".
Proof.
  intros Hp. rewrite show_result_run, decision_rejected. cbn [snd].
  rewrite added_emits, warning_only_if_recommends.
  rewrite recommends_not_approved by done. by destruct (approved p).
Qed.

Lemma recommendations_iff_rejected_witness :
  EWarning recommendations
    ∈ (added (initial_state ∅)
         (show_result (float_lit 20 100) (cx_of env_found scenario2)
            (initial_state ∅)).2).*2
  <-> decision (float_lit 20 100) = "Not Approved".
Proof. apply recommendations_iff_rejected. reflexivity. Defined.

(** C33: A NaN probability is shown as not approved, and without the
    recommendations: both tests of the script are false on NaN. *)
Theorem nan_rejected_without_advice cx st :
  decision S754_nan = "Not Approved"
  /\ EMarkdown rejected_html true
       ∈ (added st (show_result S754_nan cx st).2).*2
  /\ EWarning recommendations
       ∉ (added st (show_result S754_nan cx st).2).*2.
Proof.
  rewrite show_result_run. cbn [snd]. rewrite added_emits.
  split; [done|]. split; [|by rewrite warning_only_if_recommends].
  cbn. set_solver.
Qed.

(** ** The gauge *)

(** The gauge shows the probability times 100 on an axis that ends
    at 100; its three bands tile the axis from 0 to 100 without gap or
    overlap; its threshold line, at 50, is the decision threshold 0.5
    times 100. *)
Theorem fig_gauge p :
  exists ind, fig p = FIndicator ind
  /\ ind_value ind = float_mul p (float_of_Z 100)
  /\ ind_axis_range ind = (None, Some 100)
  /\ steps_cover 0 100 (ind_steps ind) = true
  /\ float_of_Z (ind_thr_value ind) = float_mul f_0_5 (float_of_Z 100).
Proof. eexists. repeat split; reflexivity. Qed.

(** A valid float below 0.5 is at most the float just below 0.5. *)
Lemma ulps_below_half p :
  valid p = true -> is_finite p = true -> ulps p < ulps f_0_5 ->
  ulps p <= below_half.
Proof.
  replace below_half with ((2 ^ prec - 1) * 2 ^ (-54 - emin))
    by (by vm_compute).
  replace (ulps f_0_5) with (2 ^ (prec - 1) * 2 ^ (-53 - emin))
    by (by vm_compute).
  destruct p as [s| | |s m e]; [intros _ _ _; by vm_compute|done|done|].
  intros Hp _. cbn [valid valid_binary] in Hp. pose proof (mag_pos m e Hp).
  destruct (bounded_inv m e Hp) as (He & Hm & Hn).
  assert (0 < 2 ^ (-54 - emin)) by (by apply pow2_pos).
  assert (0 < 2 ^ prec - 1) by (by vm_compute).
  destruct s; cbn [ulps]; [intros _; nia|].
  unfold mag. intros Hlt.
  assert (He' : e <= -54).
  { destruct (Z.le_gt_cases e (-54)); [done|]. exfalso.
    specialize (Hn ltac:(unfold emin; lia)).
    pose proof (Z.pow_le_mono_r 2 (-53 - emin) (e - emin) ltac:(lia)
                  ltac:(lia)).
    nia. }
  pose proof (Z.pow_le_mono_r 2 (e - emin) (-54 - emin) ltac:(lia)
                ltac:(lia)).
  assert (0 < 2 ^ (e - emin)) by (apply pow2_pos; lia).
  nia.
Qed.

Lemma ulps_negative p :
  valid p = true -> sign_bit p = true -> ulps p < ulps f_0_5.
Proof.
  intros Hp Hs. assert (0 < ulps f_0_5) by done.
  destruct p as [| | |[] m e]; try done.
  pose proof (mag_pos m e Hp). cbn [ulps]. lia.
Qed.

Section needle.
Context (p : float) (Hp : valid p = true) (Hfp : is_finite p = true).
Local Set Default Proof Using "All".

Local Abbreviation value := (float_mul p (float_of_Z 100)).

(** At or above 0.5 the exact product is at or above 50, and so is its
    rounding. *)
Lemma needle_up :
  is_finite value = true -> ulps f_0_5 <= ulps p ->
  ulps (float_of_Z 50) <= ulps value.
Proof.
  intros Hf Hle. apply float_mul_above; try done.
  replace (ulps (float_of_Z 50)) with (ulps f_0_5 * 100) by (by vm_compute).
  replace (ulps (float_of_Z 100)) with (100 * ulp_den) by (by vm_compute).
  rewrite (Z.mul_assoc (ulps p)).
  apply Z.mul_le_mono_nonneg_r; [done|]. lia.
Qed.

(** Below 0.5 the exact product is nearer to the float just below 50
    than to 50: the floats are 2^-54 apart below 0.5 and 2^-47 apart
    below 50, and 100 * 2^-54 is more than the half of 2^-47. *)
Lemma needle_down :
  is_finite value = true -> ulps p < ulps f_0_5 ->
  ulps value < ulps (float_of_Z 50).
Proof.
  intros Hf Hlt.
  apply (float_mul_below p (float_of_Z 100) Hp eq_refl Hfp eq_refl Hf
           below_50); [done|done|by vm_compute|].
  pose proof (ulps_below_half p Hp Hfp Hlt) as Hle.
  replace (ulps (float_of_Z 100)) with (100 * ulp_den) by (by vm_compute).
  assert (200 * below_half < ulps below_50 + ulps (float_of_Z 50))
    by (by vm_compute).
  rewrite !Z.mul_assoc. apply Z.mul_lt_mono_pos_r; [done|]. lia.
Qed.

(** A product that overflows comes from a value far above 0.5. *)
Lemma needle_overflow :
  is_finite value = false -> sign_bit p = false -> ulps f_0_5 <= ulps p.
Proof.
  intros Hi Hs.
  destruct (float_mul_spec p (float_of_Z 100) Hp eq_refl Hfp eq_refl)
    as (_ & _ & _ & _ & Hover).
  specialize (Hover Hi). revert Hover.
  replace (ulps (float_of_Z 100)) with (100 * ulp_den) by (by vm_compute).
  assert (0 <= ulps p).
  { destruct p as [| | |[] m e]; try done.
    pose proof (mag_pos m e Hp). cbn [ulps]. lia. }
  rewrite Z.mul_assoc, Z.abs_mul, (Z.abs_eq ulp_den) by done.
  intros Hover%Z.mul_le_mono_pos_r; [|done].
  assert (ulps f_0_5 * 100 < max_ulps) by (by vm_compute). lia.
Qed.
End needle.

(** C36: The gauge and the decision agree, for every float the pipeline
    can return: the needle, at the rounded product of the probability and
    100, is at or past the threshold line at 50 exactly when the loan is
    approved.  The rounding of the product never carries a probability
    below 0.5 to 50 nor one at or above 0.5 below it; the infinities and
    NaN are on the same side in both. *)
Theorem gauge_agrees p :
  valid p = true -> needle_past_threshold (fig p) = approved p.
Proof.
  intros Hp. unfold needle_past_threshold, fig, approved.
  cbn [ind_value ind_thr_value].
  destruct (is_finite p) eqn:Hfp; [|by destruct p as [|[]| |]].
  destruct (float_mul_spec p (float_of_Z 100) Hp eq_refl Hfp eq_refl)
    as (Hv & Hn & Hs & _).
  rewrite (float_ge_ulps p f_0_5) by done.
  destruct (is_finite (float_mul p (float_of_Z 100))) eqn:Hf.
  - rewrite float_ge_ulps by done.
    destruct (Z.leb_spec (ulps f_0_5) (ulps p)).
    + apply Z.leb_le. by apply needle_up.
    + apply Z.leb_gt. by apply needle_down.
  - pose proof (needle_overflow p Hp Hfp Hf) as Ho.
    pose proof (ulps_negative p Hp) as Hneg.
    destruct (float_mul p (float_of_Z 100)) as [|s| |]; try done.
    cbn [sign_bit] in Hs. rewrite xorb_false_r in Hs. subst s.
    destruct (sign_bit p).
    + transitivity false; [done|]. symmetry. apply Z.leb_gt. by apply Hneg.
    + transitivity true; [done|]. symmetry. apply Z.leb_le. by apply Ho.
Qed.

Lemma gauge_agrees_witness :
  needle_past_threshold (fig (SFpred prec emax f_0_5))
  = approved (SFpred prec emax f_0_5).
Proof. apply gauge_agrees. reflexivity. Defined.

(** ** The handler *)

(** The call of the pipeline is logged whatever it answers, and nothing
    else of the state changes. *)
Lemma prob_state m i cx st :
  prob m (input_df i) cx st = ((prob m (input_df i) cx st).1, st_asked i st).
Proof.
  unfold prob, mbind, script_bind, call_predict_proba, py_index.
  destruct (predict_proba m _) as [e|probs]; [done|].
  destruct (probs !! 0%nat) as [row0|]; [|done]. cbn.
  by destruct (row0 !! 1%nat).
Qed.

Section handler.
Context (m : pipeline) (i : inputs) (cx : run_ctx) (st : run_state).

Lemma prob_scored probs row0 p :
  predict_proba m (input_df i) = inr probs ->
  probs !! 0%nat = Some row0 -> row0 !! 1%nat = Some p ->
  prob m (input_df i) cx st = (inr p, st_asked i st).
Proof.
  intros H H0 H1. unfold prob, mbind, script_bind, call_predict_proba,
    py_index. rewrite H, H0. cbn. by rewrite H1.
Qed.

Lemma prob_raises e :
  predict_proba m (input_df i) = inl e ->
  prob m (input_df i) cx st = (inl e, st_asked i st).
Proof.
  intros H. unfold prob, mbind, script_bind, call_predict_proba.
  by rewrite H.
Qed.

Lemma prob_no_row probs :
  predict_proba m (input_df i) = inr probs -> probs !! 0%nat = None ->
  prob m (input_df i) cx st =
  (inl (index_error 0 (length probs)), st_asked i st).
Proof.
  intros H H0. unfold prob, mbind, script_bind, call_predict_proba,
    py_index. by rewrite H, H0.
Qed.

Lemma prob_no_column probs row0 :
  predict_proba m (input_df i) = inr probs ->
  probs !! 0%nat = Some row0 -> row0 !! 1%nat = None ->
  prob m (input_df i) cx st =
  (inl (index_error 1 (length row0)), st_asked i st).
Proof.
  intros H H0 H1. unfold prob, mbind, script_bind, call_predict_proba,
    py_index. rewrite H, H0. cbn. by rewrite H1.
Qed.

(** The handler after the call of the pipeline. *)
Lemma predict_handler_after r st' :
  prob m (input_df i) cx st = (r, st') ->
  predict_handler (Some m) true i cx st =
  match r with
  | inr p => (inr (), st_emits (reverse (result_page p (cx_path cx))) st')
  | inl e => (inr (), st_emit (cx_path cx, EError (prediction_error e)) st')
  end.
Proof.
  intros H. unfold predict_handler, try_except, mbind, script_bind.
  rewrite H. destruct r as [e|p]; [done|].
  by rewrite show_result_run.
Qed.

(** C2: When the pipeline answers with a matrix that has an entry in
    row 0, column 1, the handler asks the pipeline once, with the table of
    the inputs, and shows the result for that entry: the probability of
    class 1. *)
Theorem predict_handler_scored probs row0 p :
  predict_proba m (input_df i) = inr probs ->
  probs !! 0%nat = Some row0 -> row0 !! 1%nat = Some p ->
  predict_handler (Some m) true i cx st =
  (inr (), st_emits (reverse (result_page p (cx_path cx))) (st_asked i st)).
Proof.
  intros. by erewrite predict_handler_after by eauto using prob_scored.
Qed.

(** C3: When the pipeline raises, the handler does not: it shows one
    error message, which carries the text of the exception, and nothing of
    a result. *)
Theorem predict_handler_failed e :
  predict_proba m (input_df i) = inl e ->
  predict_handler (Some m) true i cx st =
  (inr (),
   st_emit
     (cx_path cx, EError ("Erreur lors de la prédiction : " +:+ exn_str e))
     (st_asked i st)).
Proof.
  intros. by erewrite predict_handler_after by eauto using prob_raises.
Qed.

(** When the matrix of the pipeline has no row 0 or no column 1, the
    indexing raises [IndexError], and the handler shows it as any other
    failure of the prediction. *)
Theorem predict_handler_bad_shape probs :
  predict_proba m (input_df i) = inr probs ->
  (probs !! 0%nat = None \/ exists row0,
     probs !! 0%nat = Some row0 /\ row0 !! 1%nat = None) ->
  exists e, exn_cls e = IndexError /\
  predict_handler (Some m) true i cx st =
  (inr (), st_emit (cx_path cx, EError (prediction_error e)) (st_asked i st)).
Proof.
  intros H [H0|(row0 & H0 & H1)]; eexists; (split; [|
    erewrite predict_handler_after
      by eauto using prob_no_row, prob_no_column; done]); done.
Qed.

End handler.

(** Without a click or without a model the handler does nothing: no
    call of the pipeline, no element, no message. *)
Theorem predict_handler_idle model b i cx st :
  b = false \/ model = None ->
  predict_handler model b i cx st = (inr (), st).
Proof. intros [->| ->]; [done|by destruct b]. Qed.

(** The handler always ends normally; it adds elements to the page and at
    most one call to the log, and leaves widgets and cache as they were. *)
Lemma predict_handler_ends model b i cx st :
  exists x io,
    predict_handler model b i cx st =
    (inr (), St (reverse x ++ rs_out st) (rs_widgets st) (rs_cache st)
                (io ++ rs_io st))
    /\ (length io <= 1)%nat.
Proof.
  destruct st as [out ws cache io0], b, model as [m|];
    try (by exists [], []; split; [|cbn; lia]).
  erewrite predict_handler_after by apply prob_state.
  destruct (prob m _ _ _).1 as [e|p].
  - by exists [(cx_path cx, EError (prediction_error e))],
              [IoPredictProba (input_df i)].
  - by exists (result_page p (cx_path cx)), [IoPredictProba (input_df i)].
Qed.

(** The handler at the fixtures: the pipeline that answers 0.82, the one
    that raises, the one whose matrix has one column, and no pipeline. *)

Lemma predict_handler_scored_witness :
  predict_handler (Some fixture_model) true
    (read_inputs (session_of scenario1))
    (cx_of env_found scenario1) (initial_state ∅) =
  (inr (),
   st_emits (reverse (result_page (float_lit 82 100) []))
     (st_asked (read_inputs (session_of scenario1)) (initial_state ∅))).
Proof.
  apply (predict_handler_scored fixture_model
           (read_inputs (session_of scenario1))
           (cx_of env_found scenario1) (initial_state ∅)
           [[float_lit 18 100; float_lit 82 100]]
           [float_lit 18 100; float_lit 82 100]); reflexivity.
Defined.

Lemma predict_handler_failed_witness :
  predict_handler (Some failing_model) true
    (read_inputs (session_of scenario1))
    (cx_of env_found scenario1) (initial_state ∅) =
  (inr (),
   st_emit
     ([], EError ("Erreur lors de la prédiction : "
                    +:+ "could not convert string to float"))
     (st_asked (read_inputs (session_of scenario1)) (initial_state ∅))).
Proof.
  apply (predict_handler_failed failing_model
           (read_inputs (session_of scenario1))
           (cx_of env_found scenario1) (initial_state ∅)
           (Exn OtherException "could not convert string to float")).
  reflexivity.
Defined.

Lemma predict_handler_bad_shape_witness :
  exists e, exn_cls e = IndexError /\
  predict_handler (Some one_column_model) true
    (read_inputs (session_of scenario1))
    (cx_of env_found scenario1) (initial_state ∅) =
  (inr (),
   st_emit ([], EError (prediction_error e))
     (st_asked (read_inputs (session_of scenario1)) (initial_state ∅))).
Proof.
  apply (predict_handler_bad_shape one_column_model
           (read_inputs (session_of scenario1))
           (cx_of env_found scenario1) (initial_state ∅) [[f_1_0]]);
    [reflexivity|right; by exists [f_1_0]].
Defined.

Lemma predict_handler_idle_witness :
  predict_handler None true (read_inputs (session_of scenario1))
    (cx_of env_missing scenario1) (initial_state ∅) =
  (inr (), initial_state ∅).
Proof. apply (predict_handler_idle None true). by right. Defined.

(** ** The page *)

(** The page up to the handler, from a state in which none of its widgets
    is declared. *)
Lemma prediction_page_steps model cx st :
  Forall (λ w, w ∉ rs_widgets st) page_widgets ->
  prediction_page model cx st =
  predict_handler model (clicked (cx_session cx button_widget))
    (read_inputs (cx_session cx)) (cx_col2 cx) (st_head cx st).
Proof.
  destruct cx as [env s p], st as [out ws cache io].
  unfold st_head, cx_col2. st_simpl.
  unfold page_widgets. rewrite Forall_app, Forall_singleton.
  intros [Hform Hbtn].
  pose proof Hform as Hf. revert Hf. unfold form_widgets at 1.
  rewrite !Forall_cons. intros Hf. destruct_and!.
  unfold prediction_page, predict_btn.
  do 3 (eapply bind_run; [run_script|]; cbn beta iota).
  eapply bind_run.
  { unfold within. apply prediction_form_steps. by st_simpl. }
  cbn beta iota. unfold within at 1.
  eapply bind_run; [run_script|]. cbn beta iota.
  eapply bind_run.
  { apply button_run. st_simpl. unfold form_widgets.
    cbn [reverse rev_append app]. fresh_widget. }
  cbn beta iota. st_simpl. f_equal.
Qed.

Lemma page_st_head cx st :
  page (st_head cx st) = page st ++ page_head (cx_path cx).
Proof. by apply page_out. Qed.

Lemma page_st_asked i st : page (st_asked i st) = page st.
Proof. done. Qed.

#[export] Hint Rewrite page_st_head page_st_asked : loan_rw.

(** The page keeps every relation that allows elements, widgets and the
    call of the pipeline. *)
Section keeps.
Context (R : relation run_state) `{!Allows R}.
Context `{!forall w, AllowsRegister R w}.
Context `{!forall e, Known e -> AllowsEmit R e}.
Context `{!forall df, AllowsIo R (IoPredictProba df)}.

#[export] Instance prediction_form_keeps : Keeps R prediction_form.
Proof. unfold_form. apply _. Qed.

#[export] Instance predict_handler_keeps model b i :
  Keeps R (predict_handler model b i).
Proof. handler_cases model b; apply _. Qed.

#[export] Instance prediction_page_keeps model :
  Keeps R (prediction_page model).
Proof. unfold prediction_page, predict_btn. apply _. Qed.

End keeps.

(** Without a model the page keeps every relation that allows elements
    and widgets: it calls nothing. *)
Section keeps_none.
Context (R : relation run_state) `{!Allows R}.
Context `{!forall w, AllowsRegister R w}.
Context `{!forall e, Known e -> AllowsEmit R e}.

#[export] Instance predict_handler_none_keeps b i :
  Keeps R (predict_handler None b i).
Proof. unfold predict_handler. destruct b; apply _. Qed.

#[export] Instance prediction_page_none_keeps :
  Keeps R (prediction_page None).
Proof. unfold prediction_page, predict_btn. apply _. Qed.

End keeps_none.

(** A run of the page with a loaded pipeline and the button clicked:
    the page shows its head (titles, form, button), asks the pipeline
    once, with the table of the values the session holds for the form, and
    shows, in the right column, the result for the probability of class 1
    the pipeline returned.  Nothing else is shown, nothing is cached. *)
Theorem prediction_page_scored m cx st probs row0 p :
  Forall (λ w, w ∉ rs_widgets st) page_widgets ->
  cx_session cx button_widget = Some WTrigger ->
  predict_proba m (input_df (read_inputs (cx_session cx))) = inr probs ->
  probs !! 0%nat = Some row0 -> row0 !! 1%nat = Some p ->
  prediction_page (Some m) cx st =
  (inr (),
   st_emits (reverse (result_page p (cx_path cx ++ [CColumn "col2"])))
     (st_asked (read_inputs (cx_session cx)) (st_head cx st))).
Proof.
  intros Hw Hb **. rewrite prediction_page_steps, Hb by done.
  by erewrite predict_handler_after by eauto using prob_scored.
Qed.

(** C6: The page never ends in an exception, whatever the pipeline does
    (no pipeline, an answer, an exception, a matrix of the wrong shape) and
    whatever the session holds: it shows at least its head, declares its
    twelve widgets, calls the pipeline at most once and leaves the cache as
    it was. *)
Theorem prediction_page_total model cx st :
  Forall (λ w, w ∉ rs_widgets st) page_widgets ->
  exists st' x io,
    prediction_page model cx st = (inr (), st')
    /\ added st st' = page_head (cx_path cx) ++ x
    /\ rs_widgets st' = reverse page_widgets ++ rs_widgets st
    /\ rs_cache st' = rs_cache st
    /\ rs_io st' = io ++ rs_io st /\ (length io <= 1)%nat.
Proof.
  intros Hw. rewrite prediction_page_steps by done.
  destruct (predict_handler_ends model
              (clicked (cx_session cx button_widget))
              (read_inputs (cx_session cx)) (cx_col2 cx) (st_head cx st))
    as (x & io & -> & Hio).
  eexists _, x, io. split; [done|]. split; [|done].
  apply added_new. cbn [rs_out st_head]. by rewrite reverse_app, app_assoc.
Qed.

Lemma prediction_page_scored_witness :
  prediction_page (Some fixture_model) (cx_of env_found scenario2)
    (initial_state ∅) =
  (inr (),
   st_emits (reverse (result_page (float_lit 20 100) [CColumn "col2"]))
     (st_asked (read_inputs (session_of scenario2))
        (st_head (cx_of env_found scenario2) (initial_state ∅)))).
Proof.
  apply (prediction_page_scored fixture_model (cx_of env_found scenario2)
           (initial_state ∅) [[float_lit 80 100; float_lit 20 100]]
           [float_lit 80 100; float_lit 20 100]);
    [apply no_widget_declared|reflexivity..].
Defined.

Lemma prediction_page_total_witness :
  exists st' x io,
    prediction_page (Some failing_model) (cx_of env_found scenario1)
      (initial_state ∅) = (inr (), st')
    /\ added (initial_state ∅) st' = page_head [] ++ x
    /\ rs_widgets st' = reverse page_widgets ++ []
    /\ rs_cache st' = ∅
    /\ rs_io st' = io ++ [] /\ (length io <= 1)%nat.
Proof.
  apply (prediction_page_total (Some failing_model)
           (cx_of env_found scenario1) (initial_state ∅)).
  apply no_widget_declared.
Defined.
