(* ===== verification/Docs.v ===== *)
(** * Docs: the documentation page

    Lines 238-332 of [src/app.py]: three tabs.  The first shows the table
    of the variables, built from four lists; the second shows the image of
    the feature importances, or, when the file is missing, a warning and a
    bar chart of example values; the third shows the guide.

    The page reads nothing from the session.  What it can go wrong on is
    the construction of the table and of the chart (lists of unequal
    length) and the image file. *)

From S2P Require Import Prelude PyFloat Runtime Keeps Fixtures Predict.

(** ** The table of the variables (lines 246-276) *)

Definition variables_data : list (string * list string) :=
  [("Variable",
    ["Gender"; "Married"; "Dependents"; "Education"; "Self_Employed";
     "ApplicantIncome"; "CoapplicantIncome"; "LoanAmount";
     "Loan_Amount_Term"; "Credit_History"; "Property_Area"]);
   ("Type",
    ["Catégorielle"; "Catégorielle"; "Catégorielle"; "Catégorielle";
     "Catégorielle";
     "Numérique"; "Numérique"; "Numérique"; "Numérique"; "Binaire";
     "Catégorielle"]);
   ("Description",
    ["Genre du demandeur";
     "Statut marital";
     "Nombre de personnes à charge";
     "Niveau d'éducation";
     "Statut d'indépendant";
     "Revenu mensuel du demandeur";
     "Revenu mensuel du co-demandeur";
     "Montant du prêt demandé (en milliers)";
     "Durée du prêt en jours";
     "Historique de crédit (1=bon, 0=faible)";
     "Zone géographique de la propriété"]);
   ("Impact",
    ["Faible"; "Moyen"; "Moyen"; "Moyen"; "Moyen";
     "Élevé"; "Élevé"; "Élevé"; "Moyen"; "Très élevé"; "Moyen"])].

Definition df_variables : script (list (string * list string)) :=
  pd_dataframe variables_data.

(** The block [with tab1:]. *)
Definition tab1 : script unit :=
  within (CTab "tab1") (
    emit (ESubheader "Description des variables");;
    df ← df_variables;
    emit (EDataframe df true true)).

(** ** The feature importances (lines 279-312) *)

Definition image_path : string := "feature_importance.png".

Definition image_missing : string :=
  "📊 Le graphique d'importance des caractéristiques n'est pas disponible.".

Definition features : list string :=
  ["Credit_History"; "ApplicantIncome"; "LoanAmount"; "CoapplicantIncome";
   "Property_Area"; "Loan_Amount_Term"; "Education"; "Married"].

Definition importance : list float :=
  [float_lit 35 100; float_lit 18 100; float_lit 15 100; float_lit 12 100;
   float_lit 8 100; float_lit 6 100; float_lit 4 100; float_lit 2 100].

(** The chart of the [except] branch. *)
Definition example_fig : script figure :=
  px_bar importance features "h"
    "Importance des caractéristiques (exemple)"
    [("x", "Importance"); ("y", "Caractéristiques")].

(** The block [with col_img:]: the [try] with its [except]. *)
Definition col_img : script unit :=
  within (CColumn "col_img") (
    try_except (only FileNotFoundError)
      (image ← call_image_open image_path;
       emit (EImage image "Importance des caractéristiques" true))
      (λ _,
        emit (EWarning image_missing);;
        fig ← example_fig;
        emit (EPlotly fig true))).

Definition interpretation : string := "
            **Interprétation :**

            - **Credit_History** : Facteur le plus important
            - **Revenus** : Contribution significative à la décision
            - **Montant du prêt** : Impact négatif si trop élevé
            - **Autres facteurs** : Influence modérée à faible
            ".

Definition col_desc : script unit :=
  within (CColumn "col_desc") (emit (EInfo interpretation)).

(** The block [with tab2:]. *)
Definition tab2 : script unit :=
  within (CTab "tab2") (
    emit (ESubheader "Importance des caractéristiques");;
    emit (EColumns [2; 1]);;
    col_img;;
    col_desc).

(** ** The guide (lines 315-332) *)

Definition guide : string := "
        ### Comment utiliser cette application :

        1. **Remplir les informations** dans le formulaire de prédiction
        2. **Cliquer sur le bouton** de calcul de probabilité
        3. **Analyser les résultats** et les recommandations

        ### Seuil de décision :
        - ≥ 50% : Prêt approuvé
        - < 50% : Prêt refusé

        ### Facteurs clés d'approbation :
        - Historique de crédit impeccable
        - Revenus stables et suffisants
        - Montant du prêt proportionnel aux revenus
        ".

(** The block [with tab3:]. *)
Definition tab3 : script unit :=
  within (CTab "tab3") (
    emit (ESubheader "Guide d'utilisation");;
    emit (EMarkdown guide false)).

(** ** The page (lines 238-332) *)

Definition tab_labels : list string :=
  ["📋 Variables"; "📈 Importance des caractéristiques"; "ℹ️ Guide"].

Definition documentation_page : script unit :=
  emit (ETitle "📊 Documentation du modèle");;
  emit (ETabs tab_labels);;
  tab1;;
  tab2;;
  tab3.

(** ** What the page shows *)

(** The example chart as [px.bar] returns it. *)
Definition example_chart : figure :=
  FBar (BarChart importance features "h"
          "Importance des caractéristiques (exemple)"
          [("x", "Importance"); ("y", "Caractéristiques")]).

(** How the page ends, by what [Image.open] gave. *)
Definition docs_result (r : exn + string) : exn + unit :=
  match r with
  | inr _ => inr ()
  | inl e => if only FileNotFoundError (exn_cls e) then inr () else inl e
  end.

(** The elements up to the image, the elements of the image column, and
    the elements after it. *)
Definition docs_head (p : list container) : list emitted :=
  [(p, ETitle "📊 Documentation du modèle");
   (p, ETabs tab_labels);
   (p ++ [CTab "tab1"], ESubheader "Description des variables");
   (p ++ [CTab "tab1"], EDataframe variables_data true true);
   (p ++ [CTab "tab2"], ESubheader "Importance des caractéristiques");
   (p ++ [CTab "tab2"], EColumns [2; 1])].

Definition docs_image (r : exn + string) (p : list container)
    : list emitted :=
  let c := (p ++ [CTab "tab2"]) ++ [CColumn "col_img"] in
  match r with
  | inr image => [(c, EImage image "Importance des caractéristiques" true)]
  | inl e =>
      if only FileNotFoundError (exn_cls e)
      then [(c, EWarning image_missing); (c, EPlotly example_chart true)]
      else []
  end.

Definition docs_tail (p : list container) : list emitted :=
  [((p ++ [CTab "tab2"]) ++ [CColumn "col_desc"], EInfo interpretation);
   (p ++ [CTab "tab3"], ESubheader "Guide d'utilisation");
   (p ++ [CTab "tab3"], EMarkdown guide false)].

Definition docs_page (r : exn + string) (p : list container)
    : list emitted :=
  docs_head p ++ docs_image r p
  ++ (if docs_result r is inr _ then docs_tail p else []).

(** The state after a run of the page. *)
Definition st_docs (r : exn + string) (cx : run_ctx) (st : run_state)
    : run_state :=
  St (reverse (docs_page r (cx_path cx)) ++ rs_out st) (rs_widgets st)
     (rs_cache st) (IoImageOpen image_path :: rs_io st).

(** Whether a list of floats is strictly decreasing. *)
Fixpoint decreasing (l : list float) : bool :=
  match l with
  | x :: (y :: _) as l' => float_lt y x && decreasing l'
  | _ => true
  end.

(** ** The scripts of the page, unfolded *)

(** The page, its three tabs and what they build are one script. *)
Create HintDb docs_script.

#[export] Hint Unfold documentation_page tab1 tab2 tab3 col_img col_desc
  df_variables example_fig : docs_script.

Ltac unfold_docs := autounfold with docs_script.

(** ** The page, step by step *)

Lemma documentation_page_steps cx st r :
  image_open (cx_env cx) image_path = r ->
  documentation_page cx st = (docs_result r, st_docs r cx st).
Proof.
  intros H. destruct cx as [env s p], st as [out ws cache io].
  unfold st_docs, docs_page, docs_image, docs_result. st_simpl.
  cbn [cx_env] in H.
  destruct r as [e|image];
    [destruct (only FileNotFoundError (exn_cls e)) eqn:Hc|];
    unfold_docs;
    (etrans; [run_script|]); f_equal; st_eq.
Qed.

Lemma page_st_docs r cx st :
  page (st_docs r cx st) = page st ++ docs_page r (cx_path cx).
Proof. by apply page_out. Qed.

#[export] Hint Rewrite page_st_docs : loan_rw.

#[export] Instance documentation_page_keeps (R : relation run_state)
    `{!Allows R} `{!forall e, Known e -> AllowsEmit R e}
    `{!AllowsIo R (IoImageOpen image_path)} :
  Keeps R documentation_page.
Proof. unfold_docs. apply _. Qed.

(** ** The table and the chart *)

(** The table of the documentation lists the columns of the table
    the handler gives to the pipeline: same names, same order.  Its four
    lists have eleven entries each, so that the construction of the table
    does not raise. *)
Theorem variables_table_matches_model cx st :
  variables_data !! 0%nat = Some ("Variable", feature_names)
  /\ Forall (λ c, length c.2 = length feature_names) variables_data
  /\ variables_data.*1 = ["Variable"; "Type"; "Description"; "Impact"]
  /\ df_variables cx st = (inr variables_data, st).
Proof. repeat split; by_decide || reflexivity. Qed.

(** The example chart is well formed: as many features as values,
    so that [px.bar] does not raise; every feature is a column of the
    model's table and is listed once; the values decrease, the credit
    history first. *)
Theorem example_chart_well_formed cx st :
  example_fig cx st = (inr example_chart, st)
  /\ length features = length importance
  /\ Forall (.∈ feature_names) features /\ NoDup features
  /\ decreasing importance = true
  /\ head features = Some "Credit_History".
Proof.
  split; [reflexivity|]. split; [reflexivity|]. split; by_decide.
Qed.

(** ** The page in each state of the image file *)

Section image.
Context (cx : run_ctx) (st : run_state).

(** With the image file in place the page shows the image in the
    left column of the second tab and goes on to the guide; it opens the
    file once and reads nothing else. *)
Theorem documentation_page_image image :
  image_open (cx_env cx) image_path = inr image ->
  exists st',
    documentation_page cx st = (inr (), st')
    /\ added st st' =
       docs_head (cx_path cx)
       ++ [((cx_path cx ++ [CTab "tab2"]) ++ [CColumn "col_img"],
            EImage image "Importance des caractéristiques" true)]
       ++ docs_tail (cx_path cx)
    /\ rs_io st' = IoImageOpen image_path :: rs_io st
    /\ rs_widgets st' = rs_widgets st /\ rs_cache st' = rs_cache st.
Proof.
  intros H. rewrite (documentation_page_steps _ _ _ H). eexists.
  split; [done|]. split; [by apply added_new|done].
Qed.

(** C34: With the image file missing the page shows, in its place, the
    warning and the example chart, and goes on to the guide: the
    exception stays inside the page, and the one call to the outside
    is the attempt to open the image. *)
Theorem documentation_page_missing_image e :
  image_open (cx_env cx) image_path = inl e ->
  exn_cls e = FileNotFoundError ->
  exists st',
    documentation_page cx st = (inr (), st')
    /\ added st st' =
       docs_head (cx_path cx)
       ++ [((cx_path cx ++ [CTab "tab2"]) ++ [CColumn "col_img"],
            EWarning image_missing);
           ((cx_path cx ++ [CTab "tab2"]) ++ [CColumn "col_img"],
            EPlotly example_chart true)]
       ++ docs_tail (cx_path cx)
    /\ rs_io st' = IoImageOpen image_path :: rs_io st.
Proof.
  intros H Hc. rewrite (documentation_page_steps _ _ _ H). eexists.
  unfold docs_result, st_docs, docs_page, docs_image, docs_result.
  rewrite Hc. split; [done|]. split; [by apply added_new|done].
Qed.

(** C35: Any other failure of [Image.open] (a file that is no image, a
    file that cannot be read) is not caught: the run ends with the
    exception in the middle of the second tab, after the table and before
    the interpretation and the guide, which are not shown. *)
Theorem documentation_page_image_error e :
  image_open (cx_env cx) image_path = inl e ->
  exn_cls e <> FileNotFoundError ->
  exists st',
    documentation_page cx st = (inl e, st')
    /\ added st st' = docs_head (cx_path cx)
    /\ Forall (λ x, x ∉ added st st') (docs_tail (cx_path cx)).
Proof.
  intros H Hc. rewrite (documentation_page_steps _ _ _ H). eexists.
  unfold docs_result, st_docs, docs_page, docs_image, docs_result, only.
  rewrite bool_decide_false by done. split; [done|].
  rewrite (added_new _ _ (docs_head (cx_path cx)))
    by (cbn [rs_out]; by rewrite !app_nil_r).
  split; [done|]. unfold docs_head, docs_tail.
  repeat constructor; rewrite !elem_of_cons, elem_of_nil;
    intros H'; destruct_or!; try done; simplify_eq.
Qed.

End image.

Lemma documentation_page_image_witness :
  exists st',
    documentation_page (cx_of env_image fresh_session) (initial_state ∅) =
    (inr (), st')
    /\ added (initial_state ∅) st' =
       docs_head []
       ++ [(([] ++ [CTab "tab2"]) ++ [CColumn "col_img"],
            EImage "feature importances" "Importance des caractéristiques"
              true)]
       ++ docs_tail []
    /\ rs_io st' = IoImageOpen image_path :: []
    /\ rs_widgets st' = [] /\ rs_cache st' = ∅.
Proof.
  by apply (documentation_page_image (cx_of env_image fresh_session)
              (initial_state ∅)).
Defined.

Lemma documentation_page_missing_image_witness :
  exists st',
    documentation_page (cx_of env_found fresh_session) (initial_state ∅) =
    (inr (), st')
    /\ added (initial_state ∅) st' =
       docs_head []
       ++ [(([] ++ [CTab "tab2"]) ++ [CColumn "col_img"],
            EWarning image_missing);
           (([] ++ [CTab "tab2"]) ++ [CColumn "col_img"],
            EPlotly example_chart true)]
       ++ docs_tail []
    /\ rs_io st' = IoImageOpen image_path :: [].
Proof.
  by apply (documentation_page_missing_image
              (cx_of env_found fresh_session) (initial_state ∅)
              no_such_file).
Defined.

Lemma documentation_page_image_error_witness :
  exists st',
    documentation_page (cx_of env_bad_image fresh_session)
      (initial_state ∅) = (inl unidentified_image, st')
    /\ added (initial_state ∅) st' = docs_head []
    /\ Forall (λ x, x ∉ added (initial_state ∅) st') (docs_tail []).
Proof.
  by apply (documentation_page_image_error
              (cx_of env_bad_image fresh_session) (initial_state ∅)).
Defined.
