(* ===== verification/App.v ===== *)
(** * App: the whole script

    [src/app.py] from its first line to its last, as one [script]: the page
    configuration and the style sheet (lines 11-49), the load of the model
    (line 63), the sidebar with the navigation (lines 66-75), the page the
    navigation selects (lines 78, 238 and 335), and the footer (lines
    371-377).  The about page (lines 335-368) is defined here; the other
    two pages are those of [Predict] and [Docs]. *)

From S2P Require Import Prelude PyFloat Runtime Keeps Fixtures.
From S2P Require Import Gateway Predict Docs.

(** ** The frame (lines 11-75) *)

Definition page_config : script unit :=
  set_page_config "Loan Approval Predictor" "💰" "wide" "expanded".

Definition style_sheet : string := "
<style>
    .main-header {
        font-size: 3rem;
        color: #1f77b4;
        text-align: center;
        margin-bottom: 2rem;
    }
    .prediction-card {
        background-color: #f0f2f6;
        padding: 2rem;
        border-radius: 10px;
        border-left: 5px solid #1f77b4;
    }
    .approved {
        color: #28a745;
        font-weight: bold;
    }
    .rejected {
        color: #dc3545;
        font-weight: bold;
    }
    .metric-card {
        background-color: white;
        padding: 1rem;
        border-radius: 10px;
        box-shadow: 0 2px 4px rgba(0,0,0,0.1);
        margin: 0.5rem 0;
    }
</style>
".

Definition page_options : list string :=
  ["🏠 Prédiction"; "📊 Documentation"; "ℹ️ À propos"].

Definition sidebar_info : string := "
    Cette application prédit la probabilité d'approbation de prêts basée sur des données historiques.
    ".

(** The block [with st.sidebar:]; its value is the variable [page]. *)
Definition sidebar : script pyval :=
  within CSidebar (
    emit (ETitle "💰 Loan Predictor");;
    emit (EMarkdown "---" false);;
    page ← radio "Navigation" page_options;
    emit (EMarkdown "---" false);;
    emit (EMarkdown "### Informations" false);;
    emit (EInfo sidebar_info);;
    mret page).

(** ** The about page (lines 335-368) *)

Definition about_text : string := "
        Cette application de prédiction d'approbation de prêts utilise l'apprentissage automatique
        pour évaluer la probabilité qu'une demande de prêt soit approuvée basée sur des données historiques.

        **Fonctionnalités principales :**
        - Interface intuitive pour la saisie des données
        - Prédiction en temps réel avec visualisations
        - Explications détaillées des résultats
        - Documentation complète du modèle
        ".

Definition tech_text : string := "
        - **Streamlit** : Interface utilisateur
        - **Scikit-learn** : Modèle de machine learning
        - **Plotly** : Visualisations interactives
        - **Pandas** : Traitement des données
        - **Joblib** : Sauvegarde du modèle
        ".

(** The first two lines of the literal end in a space. *)
Definition disclaimer : string :=
  nl +:+ "    ⚠️ **Disclaimer** : Cette prédiction est basée sur des données historiques et peut ne pas refléter"
  +:+ " " +:+ nl
  +:+ "    exactement les décisions réelles des institutions financières. Consultez toujours un conseiller financier"
  +:+ " " +:+ nl
  +:+ "    professionnel pour des décisions importantes."
  +:+ nl +:+ "    ".

Definition about_page : script unit :=
  emit (ETitle "ℹ️ À propos de l'application");;
  emit (EColumns [1; 1]);;
  within (CColumn "col_about") (
    emit (ESubheader "Description");;
    emit (EMarkdown about_text false));;
  within (CColumn "col_tech") (
    emit (ESubheader "Technologies utilisées");;
    emit (EMarkdown tech_text false));;
  emit (EMarkdown "---" false);;
  emit (EInfo disclaimer).

(** ** The footer (lines 371-377) *)

Definition footer_html : string :=
  "<div style='text-align: center; color: gray;'>"
  +:+ "Loan Approval Predictor © 2025 | Application de prédiction de prêts"
  +:+ "</div>".

Definition footer : script unit :=
  emit (EMarkdown "---" false);;
  emit (EMarkdown footer_html true).

(** ** The script *)

(** The [if]/[elif] chain on [page] (lines 78, 238, 335): a value that is
    none of the three options selects nothing. *)
Definition body (model : option pipeline) (page : pyval) : script unit :=
  if py_eq page (VStr "🏠 Prédiction") then prediction_page model
  else if py_eq page (VStr "📊 Documentation") then documentation_page
  else if py_eq page (VStr "ℹ️ À propos") then about_page
  else mret ().

Definition app : script unit :=
  page_config;;
  emit (EMarkdown style_sheet true);;
  model ← load_model;
  page ← sidebar;
  body model page;;
  footer.

(** ** What a run reads and shows *)

Definition nav_widget : wid := (KRadio, "Navigation").

(** The index the navigation holds: 0 until the user chooses. *)
Definition nav_index (s : wid -> option wvalue) : nat :=
  match s nav_widget with Some (WIndex i) => i | _ => 0%nat end.

(** The value of [page] in a session. *)
Definition current_page (s : wid -> option wvalue) : pyval :=
  default VNone (VStr <$> selected page_options (s nav_widget)).

(** The elements before the load, of the sidebar, of the about page and
    of the footer. *)
Definition frame_head (p : list container) : list emitted :=
  [(p, EPageConfig "Loan Approval Predictor" "💰" "wide" "expanded");
   (p, EMarkdown style_sheet true)].

Definition sidebar_page (p : list container) : list emitted :=
  let c := p ++ [CSidebar] in
  [(c, ETitle "💰 Loan Predictor");
   (c, EMarkdown "---" false);
   (c, ERadio "Navigation" page_options);
   (c, EMarkdown "---" false);
   (c, EMarkdown "### Informations" false);
   (c, EInfo sidebar_info)].

Definition about_elements (p : list container) : list emitted :=
  [(p, ETitle "ℹ️ À propos de l'application");
   (p, EColumns [1; 1]);
   (p ++ [CColumn "col_about"], ESubheader "Description");
   (p ++ [CColumn "col_about"], EMarkdown about_text false);
   (p ++ [CColumn "col_tech"], ESubheader "Technologies utilisées");
   (p ++ [CColumn "col_tech"], EMarkdown tech_text false);
   (p, EMarkdown "---" false);
   (p, EInfo disclaimer)].

Definition footer_elements (p : list container) : list emitted :=
  [(p, EMarkdown "---" false); (p, EMarkdown footer_html true)].

(** The state in which the model is loaded, and the state in which the
    selected page starts. *)
Definition st_css (cx : run_ctx) (st : run_state) : run_state :=
  st_emits (reverse (frame_head (cx_path cx))) st.

Definition st_sidebar (cx : run_ctx) (st : run_state) : run_state :=
  St (reverse (sidebar_page (cx_path cx)) ++ rs_out st)
     (nav_widget :: rs_widgets st) (rs_cache st) (rs_io st).

(** The files of the outside are benign when reading them either works
    or fails because the file is not there. *)
Definition benign (e : env) : bool :=
  found_or_missing (joblib_load e artifact_path)
  && found_or_missing (image_open e image_path).

(** ** The parts of the script, step by step *)

Lemma sidebar_steps cx st :
  nav_widget ∉ rs_widgets st ->
  sidebar cx st = (inr (current_page (cx_session cx)), st_sidebar cx st).
Proof.
  intros H. destruct cx as [env s p], st as [out ws cache io].
  unfold sidebar, st_sidebar, current_page. st_simpl.
  etrans; [run_script|]. f_equal; st_eq.
Qed.

Lemma about_page_steps cx st :
  about_page cx st =
  (inr (), st_emits (reverse (about_elements (cx_path cx))) st).
Proof.
  destruct cx as [env s p]. unfold about_page.
  etrans; [run_script|]. f_equal; st_eq.
Qed.

Lemma footer_steps cx st :
  footer cx st =
  (inr (), st_emits (reverse (footer_elements (cx_path cx))) st).
Proof.
  destruct cx as [env s p]. unfold footer.
  etrans; [run_script|]. f_equal; st_eq.
Qed.

(** The page that runs, by the index of the navigation. *)
Lemma body_nav model s :
  body model (current_page s) =
  match nav_index s with
  | 0%nat => prediction_page model
  | 1%nat => documentation_page
  | 2%nat => about_page
  | _ => mret ()
  end.
Proof.
  unfold current_page, nav_index, selected.
  destruct (s nav_widget) as [[[|[|[|i]]]| |]|]; reflexivity.
Qed.

(** The script from a state in which nothing is shown and no widget is
    declared, by what the load of the model gave. *)
Lemma app_steps cx st r st1 :
  rs_out st = [] -> rs_widgets st = [] ->
  load_model cx (st_css cx st) = (r, st1) ->
  app cx st =
  match r with
  | inl e => (inl e, st1)
  | inr model =>
      (body model (current_page (cx_session cx));; footer)
        cx (st_sidebar cx st1)
  end.
Proof.
  intros Hout Hws Hload. unfold app, page_config.
  eapply bind_run.
  { unfold set_page_config. rewrite Hout, bool_decide_true by done. done. }
  cbn beta iota. eapply bind_run; [apply emit_run|]. cbn beta iota.
  eapply bind_run; [apply Hload|]. destruct r as [e|model]; [done|].
  assert (Hnav : nav_widget ∉ rs_widgets st1).
  { pose proof (load_model_widgets cx (st_css cx st)) as Hw.
    rewrite Hload in Hw. cbn [snd] in Hw. rewrite Hw.
    cbn [st_css rs_widgets st_emits]. rewrite Hws. apply not_elem_of_nil. }
  eapply bind_run; [by apply sidebar_steps|done].
Qed.

(** The script when the load returned and the selected page ended. *)
Lemma app_run cx st model st1 r stb :
  rs_out st = [] -> rs_widgets st = [] ->
  load_model cx (st_css cx st) = (inr model, st1) ->
  body model (current_page (cx_session cx)) cx (st_sidebar cx st1)
    = (r, stb) ->
  app cx st =
  match r with
  | inl e => (inl e, stb)
  | inr _ => (inr (), st_emits (reverse (footer_elements (cx_path cx))) stb)
  end.
Proof.
  intros Hout Hws Hload Hbody.
  rewrite (app_steps _ _ _ _ Hout Hws Hload).
  eapply bind_run; [done|]. destruct r as [e|[]]; [done|].
  apply footer_steps.
Qed.

Lemma page_st_css cx st :
  page (st_css cx st) = page st ++ frame_head (cx_path cx).
Proof. apply page_emits. Qed.

Lemma page_st_sidebar cx st :
  page (st_sidebar cx st) = page st ++ sidebar_page (cx_path cx).
Proof. by apply page_out. Qed.

#[export] Hint Rewrite page_st_css page_st_sidebar : loan_rw.

(** What follows the load keeps every relation that allows elements,
    widgets, the call of the pipeline and the read of the image. *)
Section keeps.
Context (R : relation run_state) `{!Allows R}.
Context `{!forall w, AllowsRegister R w}.
Context `{!forall e, Known e -> AllowsEmit R e}.
Context `{!forall df, AllowsIo R (IoPredictProba df)}.
Context `{!AllowsIo R (IoImageOpen image_path)}.

#[export] Instance sidebar_keeps : Keeps R sidebar.
Proof. unfold sidebar. apply _. Qed.

#[export] Instance about_page_keeps : Keeps R about_page.
Proof. unfold about_page. apply _. Qed.

#[export] Instance footer_keeps : Keeps R footer.
Proof. unfold footer. apply _. Qed.

#[export] Instance body_keeps model page : Keeps R (body model page).
Proof. unfold body. apply _. Qed.

(** The script after line 63. *)
#[export] Instance after_load_keeps model :
  Keeps R (page ← sidebar; body model page;; footer).
Proof. apply _. Qed.

End keeps.

Section keeps_none.
Context (R : relation run_state) `{!Allows R}.
Context `{!forall w, AllowsRegister R w}.
Context `{!forall e, Known e -> AllowsEmit R e}.
Context `{!AllowsIo R (IoImageOpen image_path)}.

#[export] Instance body_none_keeps page : Keeps R (body None page).
Proof. unfold body. apply _. Qed.

#[export] Instance after_load_none_keeps :
  Keeps R (page ← sidebar; body None page;; footer).
Proof. apply _. Qed.

End keeps_none.

#[export] Instance app_grows : Grows app.
Proof. unfold app, page_config. apply _. Qed.

(** The script from the load on, in a run that starts with nothing
    shown. *)
Lemma app_from_load cx st :
  rs_out st = [] ->
  app cx st =
  (model ← load_model; page ← sidebar; body model page;; footer)
    cx (st_css cx st).
Proof.
  intros Hout. unfold app, page_config.
  eapply bind_run.
  { unfold set_page_config. rewrite Hout, bool_decide_true by done. done. }
  cbn beta iota. eapply bind_run; [apply emit_run|]. done.
Qed.

(** What the script after the load keeps, the whole script keeps from
    the state in which the load ended. *)
Lemma app_after_load (R : relation run_state) `{!Reflexive R}
    cx st r st1 :
  rs_out st = [] ->
  load_model cx (st_css cx st) = (r, st1) ->
  (forall model, r = inr model ->
     Keeps R (page ← sidebar; body model page;; footer)) ->
  R st1 (app cx st).2.
Proof.
  intros Hout Hload HR. rewrite app_from_load by done.
  unfold mbind at 1, script_bind at 1. rewrite Hload.
  destruct r as [e|model]; [done|]. by apply HR.
Qed.

(** The widgets of the prediction page are not declared when the page
    starts: the sidebar has declared the navigation alone. *)
Lemma page_widgets_fresh cx st :
  rs_widgets st = [] ->
  Forall (λ w, w ∉ rs_widgets (st_sidebar cx st)) page_widgets.
Proof. intros H. cbn [st_sidebar rs_widgets]. rewrite H. by_decide. Qed.

(** When the image file is in place or missing, the selected page ends
    normally, whatever the model, the pipeline's answer and the session;
    it adds to the page and leaves the cache as it was. *)
Lemma body_returns model cx st :
  found_or_missing (image_open (cx_env cx) image_path) = true ->
  Forall (λ w, w ∉ rs_widgets st) page_widgets ->
  exists shown stb,
    body model (current_page (cx_session cx)) cx st = (inr (), stb)
    /\ rs_out stb = reverse shown ++ rs_out st
    /\ rs_cache stb = rs_cache st.
Proof.
  intros Himg Hw. rewrite body_nav.
  destruct (nav_index _) as [|[|[|i]]].
  - rewrite prediction_page_steps by done.
    destruct (predict_handler_ends model
                (clicked (cx_session cx button_widget))
                (read_inputs (cx_session cx)) (cx_col2 cx) (st_head cx st))
      as (x & io & -> & _).
    exists (page_head (cx_path cx) ++ x). eexists. split; [done|].
    split; [|done]. cbn [rs_out st_head]. by rewrite reverse_app, app_assoc.
  - rewrite (documentation_page_steps _ _ _ eq_refl).
    exists (docs_page (image_open (cx_env cx) image_path) (cx_path cx)),
      (st_docs (image_open (cx_env cx) image_path) cx st).
    split; [|done]. f_equal. unfold docs_result.
    destruct (image_open _ _); [|done]. cbn in Himg. by rewrite Himg.
  - rewrite about_page_steps. by eexists (about_elements (cx_path cx)), _.
  - by exists [], st.
Qed.

(** ** The navigation *)

(** The navigation selects the page: from a state in which nothing
    is shown yet, and once the model is loaded, the script shows the
    sidebar and runs the prediction page when the session holds no choice
    or the first one, the documentation page for the second, the about
    page for the third, and no page for an index past the options; the
    footer follows the page. *)
Theorem app_runs_selected_page cx st model st1 :
  rs_out st = [] -> rs_widgets st = [] ->
  load_model cx (st_css cx st) = (inr model, st1) ->
  app cx st =
  (match nav_index (cx_session cx) with
   | 0%nat => prediction_page model
   | 1%nat => documentation_page
   | 2%nat => about_page
   | _ => mret ()
   end;; footer) cx (st_sidebar cx st1).
Proof.
  intros Hout Hws Hload.
  by rewrite (app_steps _ _ _ _ Hout Hws Hload), body_nav.
Qed.

(** ** Whole runs *)

(** [page_eq]: the page of a state built by the steps of the script,
    from the page lemmas of the components. *)
Ltac page_eq Hout :=
  autorewrite with loan_rw; unfold page; rewrite Hout;
  cbn [reverse rev_append app]; rewrite <- ?app_assoc; reflexivity.

(** C31: The first request of a process, end to end.  With nothing
    cached, the artifact in place, the prediction page selected, the
    button clicked and a pipeline that answers, the run shows, in this
    order, the frame, the sidebar, the form with the button, the result
    for the probability of class 1, and the footer; it reads the artifact
    once, then asks the pipeline once, and leaves the pipeline in the
    cache. *)
Theorem app_scored cx st m probs row0 p :
  rs_out st = [] -> rs_widgets st = [] -> cached_model st = None ->
  joblib_load (cx_env cx) artifact_path = inr m ->
  nav_index (cx_session cx) = 0%nat ->
  cx_session cx button_widget = Some WTrigger ->
  predict_proba m (input_df (read_inputs (cx_session cx))) = inr probs ->
  probs !! 0%nat = Some row0 -> row0 !! 1%nat = Some p ->
  exists st',
    app cx st = (inr (), st')
    /\ page st' =
       frame_head (cx_path cx) ++ sidebar_page (cx_path cx)
       ++ page_head (cx_path cx)
       ++ result_page p (cx_path cx ++ [CColumn "col2"])
       ++ footer_elements (cx_path cx)
    /\ rs_io st' =
       [IoPredictProba (input_df (read_inputs (cx_session cx)));
        IoJoblibLoad artifact_path] ++ rs_io st
    /\ cached_model st' = Some (Some m, []).
Proof.
  intros Hout Hws Hcold Hm Hnav Hb Hp H0 H1. eexists. split.
  - eapply (app_run _ _ (Some m) _ (inr ())); [done|done|..].
    + rewrite load_model_cold by done. by rewrite Hm.
    + rewrite body_nav, Hnav.
      rewrite prediction_page_steps by by apply page_widgets_fresh.
      rewrite Hb. change (clicked (Some WTrigger)) with true.
      by erewrite predict_handler_after by eauto using prob_scored.
  - split; [page_eq Hout|]. split; [done|]. apply lookup_insert_eq.
Qed.

(** The degraded mode.  With the failed load in the cache, every run
    of the prediction page shows the message of the load again, right
    after the style sheet, then the sidebar, the form and the button, and
    the footer.  A click changes nothing: no result, no message in the
    prediction column, no call to the outside, the artifact is not read
    again. *)
Theorem app_model_missing cx st :
  rs_out st = [] -> rs_widgets st = [] ->
  cached_model st = Some (None, [EError model_not_found]) ->
  nav_index (cx_session cx) = 0%nat ->
  exists st',
    app cx st = (inr (), st')
    /\ page st' =
       frame_head (cx_path cx) ++ [(cx_path cx, EError model_not_found)]
       ++ sidebar_page (cx_path cx) ++ page_head (cx_path cx)
       ++ footer_elements (cx_path cx)
    /\ rs_io st' = rs_io st /\ rs_cache st' = rs_cache st.
Proof.
  intros Hout Hws Hc Hnav. eexists. split.
  - eapply (app_run _ _ None _ (inr ())); [done|done|..].
    + by apply load_model_warm.
    + rewrite body_nav, Hnav.
      rewrite prediction_page_steps by by apply page_widgets_fresh.
      by destruct (clicked _).
  - split; [page_eq Hout|done].
Qed.

(** The script ends normally whenever the two files it reads are in
    place or missing; the page then starts with the frame, holds the
    sidebar, and ends with the footer; the model is cached. *)
Lemma app_returns cx st :
  benign (cx_env cx) = true -> rs_out st = [] -> rs_widgets st = [] ->
  exists st' notice shown,
    app cx st = (inr (), st')
    /\ page st' =
       frame_head (cx_path cx) ++ notice ++ sidebar_page (cx_path cx)
       ++ shown ++ footer_elements (cx_path cx)
    /\ is_Some (cached_model st').
Proof.
  unfold benign. intros [Hload Himg]%andb_true_iff Hout Hws.
  destruct (load_model_returns cx (st_css cx st) Hload)
    as (v & notice & st1 & Hrun & Hout1 & Hws1 & Hc).
  destruct (body_returns v cx (st_sidebar cx st1) Himg)
    as (shown & stb & Hbody & Houtb & Hcb).
  { apply page_widgets_fresh. by rewrite Hws1. }
  exists (st_emits (reverse (footer_elements (cx_path cx))) stb),
    notice, shown.
  split; [by rewrite (app_run _ _ _ _ _ _ Hout Hws Hrun Hbody)|].
  split; [|unfold cached_model in *; st_simpl; by rewrite Hcb].
  rewrite page_emits, (page_out _ _ _ Houtb), page_st_sidebar,
    (page_out _ _ _ Hout1), page_st_css.
  unfold page. rewrite Hout. cbn [reverse rev_append app].
  by rewrite <- !app_assoc.
Qed.

(** A failure of the load other than a missing file ends the run
    at line 63: the page holds the frame and nothing else (no sidebar, no
    page, no footer), and nothing is cached, so that the next run reads
    the artifact again. *)
Theorem app_load_error cx st e :
  rs_out st = [] -> rs_widgets st = [] -> cached_model st = None ->
  joblib_load (cx_env cx) artifact_path = inl e ->
  exn_cls e <> FileNotFoundError ->
  exists st',
    app cx st = (inl e, st')
    /\ page st' = frame_head (cx_path cx)
    /\ rs_io st' = IoJoblibLoad artifact_path :: rs_io st
    /\ cached_model st' = None.
Proof.
  intros Hout Hws Hcold He Hc. eexists. split.
  - erewrite app_steps; [|done|done|].
    2:{ rewrite load_model_cold by done. rewrite He. unfold cold_outcome, only.
        by rewrite bool_decide_false. }
    done.
  - split; [page_eq Hout|done].
Qed.

(** ** The theorems at the fixtures *)

(** The about page, in a process whose artifact is in place. *)
Lemma app_runs_selected_page_witness :
  app (cx_of env_found session_about) (initial_state ∅) =
  (about_page;; footer) (cx_of env_found session_about)
    (st_sidebar (cx_of env_found session_about)
       (st_store load_model_key (Some fixture_model, [])
          (st_read
             (st_css (cx_of env_found session_about) (initial_state ∅))))).
Proof.
  by apply (app_runs_selected_page (cx_of env_found session_about)
              (initial_state ∅) (Some fixture_model)).
Defined.

(** Scenario 1 as the first request of a process. *)
Lemma app_scored_witness :
  exists st',
    app (cx_of env_found scenario1) (initial_state ∅) = (inr (), st')
    /\ page st' =
       frame_head [] ++ sidebar_page [] ++ page_head []
       ++ result_page (float_lit 82 100) ([] ++ [CColumn "col2"])
       ++ footer_elements []
    /\ rs_io st' =
       [IoPredictProba (input_df (read_inputs (session_of scenario1)));
        IoJoblibLoad artifact_path] ++ []
    /\ cached_model st' = Some (Some fixture_model, []).
Proof.
  by apply (app_scored (cx_of env_found scenario1) (initial_state ∅)
              fixture_model [[float_lit 18 100; float_lit 82 100]]
              [float_lit 18 100; float_lit 82 100]).
Defined.

(** The same request after a load that found no file, the file being in
    place by now. *)
Lemma app_model_missing_witness :
  exists st',
    app (cx_of env_found scenario1) (initial_state cache_unavailable) =
    (inr (), st')
    /\ page st' =
       frame_head [] ++ [([], EError model_not_found)]
       ++ sidebar_page [] ++ page_head [] ++ footer_elements []
    /\ rs_io st' = [] /\ rs_cache st' = cache_unavailable.
Proof.
  by apply (app_model_missing (cx_of env_found scenario1)
              (initial_state cache_unavailable)).
Defined.

Lemma app_load_error_witness :
  exists st',
    app (cx_of env_corrupt scenario1) (initial_state ∅) =
    (inl invalid_load_key, st')
    /\ page st' = frame_head []
    /\ rs_io st' = IoJoblibLoad artifact_path :: []
    /\ cached_model st' = None.
Proof.
  by apply (app_load_error (cx_of env_corrupt scenario1) (initial_state ∅)).
Defined.
