(* ===== verification/Logfree.v ===== *)
(** * Logfree: a run does not read the log

    The log of the calls to the outside ([rs_io]) is there for the
    theorems: no call of the script reads it.  [LogFree m] says so of a
    script [m]: the run of [m] from a state with the log [io] is the run
    from the same state with an empty log, with [io] below what the run
    logged.  Like [Keeps], it is found by instance resolution along the
    structure of the script; here it is found for every construct of
    [Runtime] and for the whole script [app].

    [World] starts every run with the log of the process; with [LogFree]
    the page a client gets, the widgets it keeps and the cache after the
    run do not depend on what other clients asked before. *)

From S2P Require Import Prelude PyFloat Runtime Keeps Fixtures.
From S2P Require Import Gateway Predict Docs App.

(** ** Definitions *)

(** The state [st] with the log [io]. *)
Definition with_log (io : list io_event) (st : run_state) : run_state :=
  St (rs_out st) (rs_widgets st) (rs_cache st) io.

(** The run of [m] from [st] with an empty log. *)
Definition unlogged {A} (m : script A) (cx : run_ctx) (st : run_state)
    : (exn + A) * run_state :=
  m cx (with_log [] st).

(** The outcome [r] of a run from an empty log, on top of the log [io]. *)
Definition on_log {A} (io : list io_event) (r : (exn + A) * run_state)
    : (exn + A) * run_state :=
  (r.1, with_log (rs_io r.2 ++ io) r.2).

Class LogFree {A} (m : script A) : Prop :=
  log_free : forall cx st io,
    m cx (with_log io st) = on_log io (unlogged m cx st).

#[export] Hint Mode LogFree + ! : typeclass_instances.

(** ** The states with a log *)

Lemma with_log_self st : with_log (rs_io st) st = st.
Proof. by destruct st. Qed.

Lemma with_log_twice io io' st :
  with_log io (with_log io' st) = with_log io st.
Proof. done. Qed.

Lemma on_log_twice {A} io io' (r : (exn + A) * run_state) :
  on_log io (on_log io' r) = on_log (io' ++ io) r.
Proof. unfold on_log. cbn. by rewrite (assoc_L (++)). Qed.

Lemma on_log_nil {A} (m : script A) cx st :
  on_log [] (m cx st) = m cx st.
Proof.
  unfold on_log. rewrite (right_id_L [] (++)), with_log_self.
  by destruct (m cx st).
Qed.

(** A run from any state, by the run from the empty log. *)
Lemma log_free_run {A} (m : script A) `{!LogFree m} cx st :
  m cx st = on_log (rs_io st) (unlogged m cx st).
Proof. by rewrite <- (with_log_self st) at 1. Qed.

(** What a run returns, shows, declares and caches does not depend on
    the log it starts with. *)
Lemma log_free_outcome {A} (m : script A) `{!LogFree m} cx st io :
  let r := m cx st in let r' := m cx (with_log io st) in
  r'.1 = r.1 /\ rs_out r'.2 = rs_out r.2
  /\ rs_widgets r'.2 = rs_widgets r.2 /\ rs_cache r'.2 = rs_cache r.2.
Proof. cbn zeta. by rewrite log_free, (log_free_run m cx st). Qed.

(** What a run adds to the log does not depend on the log either. *)
Lemma log_free_log {A} (m : script A) `{!LogFree m} cx st io :
  rs_io (m cx (with_log io st)).2 = rs_io (unlogged m cx st).2 ++ io.
Proof. by rewrite log_free. Qed.

(** ** The combinators *)

#[export] Instance ret_log_free {A} (x : A) : LogFree (mret x : script A).
Proof. done. Qed.

#[export] Instance raise_log_free {A} e : LogFree (@raise A e).
Proof. done. Qed.

#[export] Instance bind_log_free {A B} (m : script A) (k : A -> script B) :
  LogFree m -> (forall x, LogFree (k x)) -> LogFree (m ≫= k).
Proof.
  intros Hm Hk cx st io. unfold unlogged, mbind, script_bind.
  rewrite (Hm cx st io). unfold unlogged.
  destruct (m cx (with_log [] st)) as [[e|x] st1]; [done|].
  cbn [on_log fst snd].
  rewrite (log_free_run (k x) cx st1), (Hk x cx st1 (_ ++ io)).
  by rewrite on_log_twice.
Qed.

#[export] Instance try_except_log_free {A} c (body : script A) handler :
  LogFree body -> (forall e, LogFree (handler e)) ->
  LogFree (try_except c body handler).
Proof.
  intros Hb Hh cx st io. unfold unlogged, try_except.
  rewrite (Hb cx st io). unfold unlogged.
  destruct (body cx (with_log [] st)) as [[e|x] st1]; [|done].
  cbn [on_log fst snd]. destruct (c _); [|done].
  rewrite (log_free_run (handler e) cx st1), (Hh e cx st1 (_ ++ io)).
  by rewrite on_log_twice.
Qed.

#[export] Instance within_log_free {A} c (body : script A) :
  LogFree body -> LogFree (within c body).
Proof. intros Hb cx st io. apply Hb. Qed.

#[export] Instance if_log_free {A} (b : bool) (m1 m2 : script A) :
  LogFree m1 -> LogFree m2 -> LogFree (if b then m1 else m2).
Proof. by destruct b. Qed.

#[export] Instance pair_log_free {A B C} (x : A * B)
    (k : A -> B -> script C) :
  (forall a b, LogFree (k a b)) -> LogFree (let '(a, b) := x in k a b).
Proof. by destruct x. Qed.

(** ** The primitives *)

#[export] Instance emit_log_free e : LogFree (emit e).
Proof. done. Qed.

#[export] Instance widget_value_log_free w : LogFree (widget_value w).
Proof. done. Qed.

#[export] Instance register_log_free w : LogFree (register w).
Proof.
  intros cx st io. unfold unlogged, register. cbn [with_log rs_widgets].
  by case_decide.
Qed.

#[export] Instance selectbox_log_free l o s h : LogFree (selectbox l o s h).
Proof. unfold selectbox. apply _. Qed.

#[export] Instance radio_log_free l o : LogFree (radio l o).
Proof. unfold radio. apply _. Qed.

#[export] Instance number_input_log_free l m s v h :
  LogFree (number_input l m s v h).
Proof. unfold number_input. apply _. Qed.

#[export] Instance button_log_free l u t : LogFree (button l u t).
Proof. unfold button. apply _. Qed.

#[export] Instance py_index_log_free {A} (a : list A) i :
  LogFree (py_index a i).
Proof. unfold py_index. destruct (a !! i); apply _. Qed.

#[export] Instance set_page_config_log_free t i l s :
  LogFree (set_page_config t i l s).
Proof.
  intros cx st io. unfold unlogged, set_page_config. cbn [with_log rs_out].
  by case_bool_decide.
Qed.

#[export] Instance pd_dataframe_log_free data : LogFree (pd_dataframe data).
Proof. unfold pd_dataframe. apply _. Qed.

#[export] Instance px_bar_log_free x y o t l : LogFree (px_bar x y o t l).
Proof. unfold px_bar. apply _. Qed.

(** A call to the outside writes the log and does not read it. *)

#[export] Instance call_joblib_load_log_free p :
  LogFree (call_joblib_load p).
Proof. done. Qed.

#[export] Instance call_image_open_log_free p : LogFree (call_image_open p).
Proof. done. Qed.

#[export] Instance call_predict_proba_log_free m df :
  LogFree (call_predict_proba m df).
Proof. done. Qed.

(** The decorator reads the cache. *)
#[export] Instance cache_resource_log_free name f :
  LogFree f -> LogFree (cache_resource name f).
Proof.
  intros Hf cx st io. unfold unlogged, cache_resource.
  cbn [with_log rs_cache].
  destruct (rs_cache st !! name) as [[v replay]|]; [done|].
  rewrite (Hf cx st io). unfold unlogged.
  by destruct (f cx (with_log [] st)) as [[e|v] st1].
Qed.

(** ** The script *)

#[export] Instance load_model_log_free : LogFree load_model.
Proof. unfold load_model, load_model_body. apply _. Qed.

#[export] Instance prediction_form_log_free : LogFree prediction_form.
Proof. unfold_form. apply _. Qed.

#[export] Instance predict_handler_log_free model b i :
  LogFree (predict_handler model b i).
Proof. handler_cases model b; apply _. Qed.

#[export] Instance prediction_page_log_free model :
  LogFree (prediction_page model).
Proof. unfold prediction_page, predict_btn. apply _. Qed.

#[export] Instance documentation_page_log_free : LogFree documentation_page.
Proof. unfold_docs. apply _. Qed.

#[export] Instance sidebar_log_free : LogFree sidebar.
Proof. unfold sidebar. apply _. Qed.

#[export] Instance about_page_log_free : LogFree about_page.
Proof. unfold about_page. apply _. Qed.

#[export] Instance footer_log_free : LogFree footer.
Proof. unfold footer. apply _. Qed.

#[export] Instance body_log_free model page : LogFree (body model page).
Proof. unfold body. apply _. Qed.

#[export] Instance app_log_free : LogFree app.
Proof. unfold app, page_config. apply _. Qed.
