(* ===== verification/Cachefree.v ===== *)
(** * Cachefree: the script after the load does not touch the cache

    The cache of [st.cache_resource] is the one thing the runs of a
    process share.  The script reaches it through the decorated
    function [load_model] and through nothing else: what runs after the
    call (the sidebar, the selected page, the footer) returns, shows
    and declares the same whatever the cache holds, and leaves the cache
    as it is.  [CacheFree m] says so of a script [m]; like [Keeps] and
    [LogFree] it is found by instance resolution along the structure of
    the script, for every construct of [Runtime] but the decorator.

    [Overlap] rests on it: a run that overlaps with others is the call
    of [load_model], which the threads of [Threads] interleave, and
    then a part that no other run can influence. *)

From S2P Require Import Prelude PyFloat Runtime Keeps Fixtures.
From S2P Require Import Gateway Predict Docs App Logfree.

(** ** Definitions *)

(** The state [st] with the cache [c]. *)
Definition with_cache (c : gmap string cache_entry) (st : run_state)
    : run_state :=
  St (rs_out st) (rs_widgets st) c (rs_io st).

(** The outcome [r] of a run, on the cache [c]. *)
Definition on_cache {A} (c : gmap string cache_entry)
    (r : (exn + A) * run_state) : (exn + A) * run_state :=
  (r.1, with_cache c r.2).

Class CacheFree {A} (m : script A) : Prop :=
  cache_free : forall cx st c, m cx (with_cache c st) = on_cache c (m cx st).

#[export] Hint Mode CacheFree + ! : typeclass_instances.

(** The script after the call of [load_model], given what the call
    returned (lines 76 to 377 of [src/app.py]). *)
Definition after_load (model : option pipeline) : script unit :=
  page ← sidebar; body model page;; footer.

(** The state of a run of its own: what is shown and declared, no cache
    and no log. *)
Definition private (st : run_state) : run_state :=
  St (rs_out st) (rs_widgets st) ∅ [].

(** The outcome [r] of a private run, in a process with the cache [c]
    and the log [io]. *)
Definition shared_with {A} (c : gmap string cache_entry)
    (io : list io_event) (r : (exn + A) * run_state)
    : (exn + A) * run_state :=
  (r.1, St (rs_out r.2) (rs_widgets r.2) c (rs_io r.2 ++ io)).

(** ** The states with a cache *)

Lemma with_cache_self st : with_cache (rs_cache st) st = st.
Proof. by destruct st. Qed.

Lemma on_cache_twice {A} c c' (r : (exn + A) * run_state) :
  on_cache c (on_cache c' r) = on_cache c r.
Proof. done. Qed.

(** A run that does not touch the cache leaves it as it is. *)
Lemma cache_free_cache {A} (m : script A) `{!CacheFree m} cx st :
  rs_cache (m cx st).2 = rs_cache st.
Proof.
  rewrite <- (with_cache_self st) at 1. by rewrite cache_free.
Qed.

(** ** The combinators *)

#[export] Instance ret_cache_free {A} (x : A) : CacheFree (mret x : script A).
Proof. done. Qed.

#[export] Instance raise_cache_free {A} e : CacheFree (@raise A e).
Proof. done. Qed.

#[export] Instance bind_cache_free {A B} (m : script A) (k : A -> script B) :
  CacheFree m -> (forall x, CacheFree (k x)) -> CacheFree (m ≫= k).
Proof.
  intros Hm Hk cx st c. unfold mbind, script_bind. rewrite (Hm cx st c).
  destruct (m cx st) as [[e|x] st1]; [done|]. apply Hk.
Qed.

#[export] Instance try_except_cache_free {A} c (body : script A) handler :
  CacheFree body -> (forall e, CacheFree (handler e)) ->
  CacheFree (try_except c body handler).
Proof.
  intros Hb Hh cx st c'. unfold try_except. rewrite (Hb cx st c').
  destruct (body cx st) as [[e|x] st1]; [|done].
  cbn [on_cache fst snd]. destruct (c _); [apply Hh|done].
Qed.

#[export] Instance within_cache_free {A} c (body : script A) :
  CacheFree body -> CacheFree (within c body).
Proof. intros Hb cx st c'. apply Hb. Qed.

#[export] Instance if_cache_free {A} (b : bool) (m1 m2 : script A) :
  CacheFree m1 -> CacheFree m2 -> CacheFree (if b then m1 else m2).
Proof. by destruct b. Qed.

#[export] Instance pair_cache_free {A B C} (x : A * B)
    (k : A -> B -> script C) :
  (forall a b, CacheFree (k a b)) -> CacheFree (let '(a, b) := x in k a b).
Proof. by destruct x. Qed.

(** ** The primitives *)

#[export] Instance emit_cache_free e : CacheFree (emit e).
Proof. done. Qed.

#[export] Instance widget_value_cache_free w : CacheFree (widget_value w).
Proof. done. Qed.

#[export] Instance register_cache_free w : CacheFree (register w).
Proof.
  intros cx st c. unfold register. cbn [with_cache rs_widgets].
  by case_decide.
Qed.

#[export] Instance selectbox_cache_free l o s h :
  CacheFree (selectbox l o s h).
Proof. unfold selectbox. apply _. Qed.

#[export] Instance radio_cache_free l o : CacheFree (radio l o).
Proof. unfold radio. apply _. Qed.

#[export] Instance number_input_cache_free l m s v h :
  CacheFree (number_input l m s v h).
Proof. unfold number_input. apply _. Qed.

#[export] Instance button_cache_free l u t : CacheFree (button l u t).
Proof. unfold button. apply _. Qed.

#[export] Instance py_index_cache_free {A} (a : list A) i :
  CacheFree (py_index a i).
Proof. unfold py_index. destruct (a !! i); apply _. Qed.

#[export] Instance set_page_config_cache_free t i l s :
  CacheFree (set_page_config t i l s).
Proof.
  intros cx st c. unfold set_page_config. cbn [with_cache rs_out].
  by case_bool_decide.
Qed.

#[export] Instance pd_dataframe_cache_free data :
  CacheFree (pd_dataframe data).
Proof. unfold pd_dataframe. apply _. Qed.

#[export] Instance px_bar_cache_free x y o t l : CacheFree (px_bar x y o t l).
Proof. unfold px_bar. apply _. Qed.

#[export] Instance call_joblib_load_cache_free p :
  CacheFree (call_joblib_load p).
Proof. done. Qed.

#[export] Instance call_image_open_cache_free p :
  CacheFree (call_image_open p).
Proof. done. Qed.

#[export] Instance call_predict_proba_cache_free m df :
  CacheFree (call_predict_proba m df).
Proof. done. Qed.

(** ** The script after the load *)

#[export] Instance prediction_form_cache_free : CacheFree prediction_form.
Proof. unfold_form. apply _. Qed.

#[export] Instance predict_handler_cache_free model b i :
  CacheFree (predict_handler model b i).
Proof. handler_cases model b; apply _. Qed.

#[export] Instance prediction_page_cache_free model :
  CacheFree (prediction_page model).
Proof. unfold prediction_page, predict_btn. apply _. Qed.

#[export] Instance documentation_page_cache_free :
  CacheFree documentation_page.
Proof. unfold_docs. apply _. Qed.

#[export] Instance sidebar_cache_free : CacheFree sidebar.
Proof. unfold sidebar. apply _. Qed.

#[export] Instance about_page_cache_free : CacheFree about_page.
Proof. unfold about_page. apply _. Qed.

#[export] Instance footer_cache_free : CacheFree footer.
Proof. unfold footer. apply _. Qed.

#[export] Instance body_cache_free model page : CacheFree (body model page).
Proof. unfold body. apply _. Qed.

#[export] Instance after_load_cache_free model :
  CacheFree (after_load model).
Proof. unfold after_load. apply _. Qed.

#[export] Instance after_load_log_free model : LogFree (after_load model).
Proof. unfold after_load. apply _. Qed.

(** ** A private run *)

(** A script that reads neither the cache nor the log, from any state,
    by its private run. *)
Lemma private_run {A} (m : script A) `{!CacheFree m} `{!LogFree m} cx st :
  m cx st = shared_with (rs_cache st) (rs_io st) (m cx (private st)).
Proof.
  rewrite (log_free_run m cx st). unfold unlogged.
  change (with_log [] st) with (with_cache (rs_cache st) (private st)).
  by rewrite (cache_free (m := m) cx (private st) (rs_cache st)).
Qed.

(** The decorator is where the cache is read: the script is not free of
    the cache. *)
Lemma load_model_not_cache_free : ~ CacheFree load_model.
Proof.
  intros H.
  pose proof (H (cx_of env_found ∅) (initial_state ∅) cache_unavailable)
    as Heq.
  rewrite !load_model_outcome in Heq. by apply (f_equal fst) in Heq.
Qed.
