(* ===== verification/Local.v ===== *)
(** * Local: a run reads the session at the widgets it declares

    The script reads the session through its widgets: [st.selectbox],
    [st.number_input], [st.radio] and [st.button] declare a widget and
    return what the session holds for it.  [Local m] says that a run of
    [m] depends on the session at the widgets the run declares and
    nowhere else: in a session that holds the same for these widgets
    the run is the same, in what it returns or raises, shows, declares,
    caches and logs.  Like [Keeps] and [LogFree] it is found by
    instance resolution along the structure of the script; the
    instances for sequences need that the first part only adds to the
    declared widgets ([Grows]).  [widget_value] alone is not local: the
    instances are for the widgets, which declare before they read
    ([read_local]). *)

From S2P Require Import Prelude PyFloat Runtime Keeps Fixtures.
From S2P Require Import Gateway Predict Docs App.

(** ** Definitions *)

(** The context [cx] with the session [s]. *)
Definition with_session (s : wid -> option wvalue) (cx : run_ctx)
    : run_ctx :=
  Ctx (cx_env cx) s (cx_path cx).

(** The sessions [s] and [cx_session cx] hold the same for the widgets a
    run from [st] to [st'] declared. *)
Definition same_on (st st' : run_state) (s : wid -> option wvalue)
    (cx : run_ctx) : Prop :=
  forall w, w ∈ rs_widgets st' -> w ∉ rs_widgets st -> s w = cx_session cx w.

Class Local {A} (m : script A) : Prop :=
  local : forall cx s st,
    same_on st (m cx st).2 s cx -> m (with_session s cx) st = m cx st.

#[export] Hint Mode Local + ! : typeclass_instances.

(** ** The combinators *)

Lemma same_on_first st st1 st2 s cx :
  grows st1 st2 -> same_on st st2 s cx -> same_on st st1 s cx.
Proof.
  intros [_ Hw _ _] H w Hw1 Hn. apply H; [|done]. by eapply elem_of_suffix.
Qed.

Lemma same_on_second st st1 st2 s cx :
  grows st st1 -> same_on st st2 s cx -> same_on st1 st2 s cx.
Proof.
  intros [_ Hw _ _] H w Hw2 Hn. apply H; [done|]. intros Hw0. apply Hn.
  by eapply elem_of_suffix.
Qed.

#[export] Instance ret_local {A} (x : A) : Local (mret x : script A).
Proof. done. Qed.

#[export] Instance raise_local {A} e : Local (@raise A e).
Proof. done. Qed.

#[export] Instance bind_local {A B} (m : script A) (k : A -> script B) :
  Grows m -> (forall x, Grows (k x)) ->
  Local m -> (forall x, Local (k x)) -> Local (m ≫= k).
Proof.
  intros Gm Gk Hm Hk cx s st. unfold mbind, script_bind. intros H.
  pose proof (Gm cx st) as G1. specialize (Hm cx s st).
  destruct (m cx st) as [[e|x] st1]; cbn [snd] in *.
  - by rewrite Hm.
  - pose proof (Gk x cx st1) as G2.
    rewrite Hm by by eapply same_on_first.
    apply Hk. by eapply same_on_second.
Qed.

#[export] Instance try_except_local {A} c (body : script A) handler :
  Grows body -> (forall e, Grows (handler e)) ->
  Local body -> (forall e, Local (handler e)) ->
  Local (try_except c body handler).
Proof.
  intros Gb Gh Hb Hh cx s st. unfold try_except. intros H.
  pose proof (Gb cx st) as G1. specialize (Hb cx s st).
  destruct (body cx st) as [[e|x] st1]; cbn [snd] in *;
    [|by rewrite Hb].
  destruct (c (exn_cls e)) eqn:Hc; [|by rewrite Hb, Hc].
  pose proof (Gh e cx st1) as G2.
  rewrite Hb, Hc by by eapply same_on_first.
  apply Hh. by eapply same_on_second.
Qed.

#[export] Instance within_local {A} c (body : script A) :
  Local body -> Local (within c body).
Proof.
  intros Hb cx s st H.
  exact (Hb (Ctx (cx_env cx) (cx_session cx) (cx_path cx ++ [c])) s st H).
Qed.

#[export] Instance if_local {A} (b : bool) (m1 m2 : script A) :
  Local m1 -> Local m2 -> Local (if b then m1 else m2).
Proof. by destruct b. Qed.

#[export] Instance pair_local {A B C} (x : A * B)
    (k : A -> B -> script C) :
  (forall a b, Local (k a b)) -> Local (let '(a, b) := x in k a b).
Proof. by destruct x. Qed.

(** ** The primitives *)

#[export] Instance emit_local e : Local (emit e).
Proof. done. Qed.

#[export] Instance register_local w : Local (register w).
Proof. done. Qed.

(** A widget is read after it is declared. *)
Lemma read_local {A} w (k : option wvalue -> script A) :
  (forall v, Grows (k v)) -> (forall v, Local (k v)) ->
  Local (register w;; v ← widget_value w; k v).
Proof.
  intros Gk Hk cx s st. unfold mbind, script_bind, register, widget_value.
  case_decide as Hw; [done|]. cbn [with_session cx_session]. intros H.
  pose proof (Gk (cx_session cx w) cx (st_register w st)) as G.
  assert (s w = cx_session cx w) as ->.
  { apply H; [|done]. eapply elem_of_suffix; [|apply G]. by left. }
  apply Hk. eapply same_on_second; [|done].
  split; st_simpl; try done. by apply suffix_cons_r.
Qed.

#[export] Instance selectbox_local l o s h : Local (selectbox l o s h).
Proof.
  exact (read_local (KSelectbox, l)
           (λ v, emit (ESelectbox l o s h);;
                 mret (default VNone (selected o v))) _ _).
Qed.

#[export] Instance radio_local l o : Local (radio l o).
Proof.
  exact (read_local (KRadio, l)
           (λ v, emit (ERadio l o);;
                 mret (default VNone (VStr <$> selected o v))) _ _).
Qed.

#[export] Instance number_input_local l m s v h :
  Local (number_input l m s v h).
Proof.
  exact (read_local (KNumberInput, l)
           (λ x, (if v <? m then raise (Exn ValueBelowMinError l)
                  else mret ());;
                 emit (ENumberInput l m s v h);; mret (entered v x)) _ _).
Qed.

#[export] Instance button_local l u t : Local (button l u t).
Proof.
  exact (read_local (KButton, l)
           (λ v, emit (EButton l u t);; mret (clicked v)) _ _).
Qed.

#[export] Instance py_index_local {A} (a : list A) i : Local (py_index a i).
Proof. unfold py_index. destruct (a !! i); apply _. Qed.

#[export] Instance set_page_config_local t i l s :
  Local (set_page_config t i l s).
Proof. done. Qed.

#[export] Instance pd_dataframe_local data : Local (pd_dataframe data).
Proof. unfold pd_dataframe. apply _. Qed.

#[export] Instance px_bar_local x y o t l : Local (px_bar x y o t l).
Proof. unfold px_bar. apply _. Qed.

#[export] Instance call_joblib_load_local p : Local (call_joblib_load p).
Proof. done. Qed.

#[export] Instance call_image_open_local p : Local (call_image_open p).
Proof. done. Qed.

#[export] Instance call_predict_proba_local m df :
  Local (call_predict_proba m df).
Proof. done. Qed.

#[export] Instance cache_resource_local name f :
  Local f -> Local (cache_resource name f).
Proof.
  intros Hf cx s st H. unfold cache_resource in *.
  destruct (rs_cache st !! name) as [[v replay]|]; [done|].
  rewrite Hf; [done|]. by destruct (f cx st) as [[e|v] st1].
Qed.

(** ** The script *)

#[export] Instance load_model_local : Local load_model.
Proof. unfold load_model, load_model_body. apply _. Qed.

#[export] Instance prediction_form_local : Local prediction_form.
Proof. unfold_form. apply _. Qed.

#[export] Instance predict_handler_local model b i :
  Local (predict_handler model b i).
Proof. handler_cases model b; apply _. Qed.

#[export] Instance prediction_page_local model :
  Local (prediction_page model).
Proof. unfold prediction_page, predict_btn. apply _. Qed.

#[export] Instance documentation_page_local : Local documentation_page.
Proof. unfold_docs. apply _. Qed.

#[export] Instance sidebar_local : Local sidebar.
Proof. unfold sidebar. apply _. Qed.

#[export] Instance about_page_local : Local about_page.
Proof. unfold about_page. apply _. Qed.

#[export] Instance footer_local : Local footer.
Proof. unfold footer. apply _. Qed.

#[export] Instance body_local model page : Local (body model page).
Proof. unfold body. apply _. Qed.

#[export] Instance app_local : Local app.
Proof. unfold app, page_config. apply _. Qed.
