(* ===== verification/Session.v ===== *)
(** * Session: the runs of one server process

    Streamlit runs [src/app.py] again on every interaction of a user.  The
    runs of a process share one thing, the store of [st.cache_resource];
    everything else (the page, the declared widgets) starts empty in each
    run.  This file models the process as a state machine: a state
    ([server]) holds the cache, the log of all calls to the outside since
    the start, and the page and outcome of the last run; a step is one run
    of [app] for an interaction, which brings the session's widget values
    and the content of the files at that moment.

    The theorems are invariants of the machine, by induction on its
    steps: which model is used, how often the artifact is read, that no
    run raises, and what the degraded mode shows. *)

From S2P Require Import Prelude PyFloat Runtime Keeps Fixtures.
From S2P Require Import Gateway Predict Docs App.

(** ** The server *)

Record server := Server {
  sv_cache : gmap string cache_entry;
  sv_log : list io_event;
  sv_page : list emitted;
  sv_raised : option exn
}.

(** The process before its first run. *)
Definition boot : server := Server ∅ [] [] None.

(** An interaction: what the files hold when the run starts, and the
    values of the widgets of the session that interacts. *)
Record interaction := Interaction {
  i_env : env;
  i_session : session
}.

(** The state in which a run starts. *)
Definition start (sv : server) : run_state :=
  St [] [] (sv_cache sv) (sv_log sv).

Definition raised {A} (r : exn + A) : option exn :=
  match r with inl e => Some e | inr _ => None end.

(** One run of the script. *)
Definition rerun (i : interaction) (sv : server) : server :=
  let r := app (cx_of (i_env i) (i_session i)) (start sv) in
  Server (rs_cache r.2) (rs_io r.2) (page r.2) (raised r.1).

(** The runs of a list of interactions, from the start of the process. *)
Definition run_all (l : list interaction) : server :=
  foldl (λ sv i, rerun i sv) boot l.

(** The step relation, for interactions whose files satisfy [ok]. *)
Inductive step (ok : env -> Prop) : server -> server -> Prop :=
| step_rerun i sv : ok (i_env i) -> step ok sv (rerun i sv).

Definition reachable (ok : env -> Prop) : server -> Prop :=
  rtc (step ok) boot.

(** Any files at all, and files that are in place or missing. *)
Definition any_env (e : env) : Prop := True.
Definition benign_env (e : env) : Prop := benign e = true.

(** Three interactions: a visit while the artifact is missing, scenario 1
    with the artifact in place, and a visit of the documentation. *)
Definition visit_missing : interaction := Interaction env_missing fresh_session.
Definition request_found : interaction := Interaction env_found scenario1.
Definition visit_docs : interaction := Interaction env_found session_docs.

(** ** What the state says *)

(** The entry of [load_model] in the cache of the process. *)
Definition sv_model (sv : server) : option cache_entry :=
  sv_cache sv !! load_model_key.

Definition is_load (ev : io_event) : bool :=
  match ev with IoJoblibLoad _ => true | _ => false end.

Definition is_predict (ev : io_event) : bool :=
  match ev with IoPredictProba _ => true | _ => false end.

(** How often the artifact was read, and how often a pipeline was asked. *)
Definition loads (io : list io_event) : nat :=
  length (List.filter is_load io).

Definition predicts (io : list io_event) : nat :=
  length (List.filter is_predict io).

(** A run is quiet when it leaves the cache and the number of reads of
    the artifact as they were; idle when it also asks no pipeline. *)
Record quiet (st st' : run_state) : Prop := Quiet {
  quiet_cache : rs_cache st' = rs_cache st;
  quiet_loads : loads (rs_io st') = loads (rs_io st)
}.

Record idle (st st' : run_state) : Prop := Idle {
  idle_quiet : quiet st st';
  idle_predicts : predicts (rs_io st') = predicts (rs_io st)
}.

(** What a read of the artifact leaves in an empty cache: the pipeline,
    the failure to find the file with its message, or nothing. *)
Definition load_entry (r : exn + pipeline) : option cache_entry :=
  match r with
  | inr m => Some (Some m, [])
  | inl e =>
      if only FileNotFoundError (exn_cls e)
      then Some (None, [EError model_not_found])
      else None
  end.

(** The invariant of a process whose files are benign: nothing is cached
    and the artifact was never read, or the model is cached and the
    artifact was read exactly once. *)
Definition loaded_once (sv : server) : Prop :=
  match sv_model sv with
  | None => sv_cache sv = ∅ /\ loads (sv_log sv) = 0%nat
  | Some _ => loads (sv_log sv) = 1%nat
  end.

(** ** [quiet] and [idle] are kept by all but the load *)

#[export] Instance quiet_preorder : PreOrder quiet.
Proof.
  split; [done|]. intros st1 st2 st3 [] []. split; congruence.
Qed.

#[export] Instance quiet_allows : Allows quiet.
Proof. split. apply _. Qed.

#[export] Instance quiet_allows_register w : AllowsRegister quiet w.
Proof. by intros st. Qed.

#[export] Instance quiet_allows_emit e : AllowsEmit quiet e.
Proof. by intros p st. Qed.

#[export] Instance quiet_allows_predict df :
  AllowsIo quiet (IoPredictProba df).
Proof. by intros st. Qed.

#[export] Instance quiet_allows_image p : AllowsIo quiet (IoImageOpen p).
Proof. by intros st. Qed.

#[export] Instance idle_preorder : PreOrder idle.
Proof.
  split; [done|]. intros st1 st2 st3 [] []. split; [by etrans|congruence].
Qed.

#[export] Instance idle_allows : Allows idle.
Proof. split. apply _. Qed.

#[export] Instance idle_allows_register w : AllowsRegister idle w.
Proof. by intros st. Qed.

#[export] Instance idle_allows_emit e : AllowsEmit idle e.
Proof. by intros p st. Qed.

#[export] Instance idle_allows_image p : AllowsIo idle (IoImageOpen p).
Proof. by intros st. Qed.

Lemma load_entry_benign r :
  found_or_missing r = true -> is_Some (load_entry r).
Proof. destruct r as [e|m]; cbn; [intros ->|]; eauto. Qed.

(** ** One run *)

Section run.
Context (i : interaction) (sv : server).

Let cx : run_ctx := cx_of (i_env i) (i_session i).

(** A run on a filled cache is quiet. *)
Lemma rerun_warm c :
  sv_model sv = Some c ->
  sv_cache (rerun i sv) = sv_cache sv
  /\ loads (sv_log (rerun i sv)) = loads (sv_log sv).
Proof.
  intros Hc. destruct c as [v replay].
  assert (Hq : quiet (start sv) (app cx (start sv)).2); [|by destruct Hq].
  transitivity
    (st_emits (reverse (pair (cx_path cx) <$> replay))
       (st_css cx (start sv))); [done|].
  eapply (app_after_load quiet cx (start sv)); [done| |intros; apply _].
  by apply load_model_warm.
Qed.

(** A run on an empty cache reads the artifact once; it fills the cache
    unless the read failed otherwise than by a missing file. *)
Lemma rerun_cold :
  sv_model sv = None ->
  loads (sv_log (rerun i sv)) = S (loads (sv_log sv))
  /\ sv_cache (rerun i sv) =
     match load_entry (joblib_load (i_env i) artifact_path) with
     | Some c => <[load_model_key := c]> (sv_cache sv)
     | None => sv_cache sv
     end.
Proof.
  intros Hc.
  pose proof (load_model_cold cx (st_css cx (start sv)) Hc) as Hload.
  assert (Hq : quiet
    (cold_outcome cx (st_css cx (start sv))
       (joblib_load (i_env i) artifact_path)).2 (app cx (start sv)).2).
  { eapply (app_after_load quiet cx (start sv)); [done| |intros; apply _].
    rewrite Hload. apply surjective_pairing. }
  destruct Hq as [Hcache Hloads]. unfold rerun. cbn [sv_cache sv_log].
  fold cx. rewrite Hcache, Hloads. unfold cold_outcome.
  destruct (joblib_load _ _) as [e|m]; cbn [load_entry];
    [destruct (only _ _)|]; by split.
Qed.

(** A run in the degraded mode is idle and shows the message of the
    load. *)
Lemma rerun_degraded :
  sv_model sv = Some (None, [EError model_not_found]) ->
  idle (start sv) (app cx (start sv)).2
  /\ ([], EError model_not_found) ∈ sv_page (rerun i sv).
Proof.
  intros Hc.
  pose proof (load_model_warm cx (st_css cx (start sv)) _ _ Hc) as Hload.
  split.
  - etrans; [|eapply (app_after_load idle cx (start sv)); [done|done|]].
    + done.
    + intros model [= <-]. apply _.
  - assert (Hg : grows
      (st_emits (reverse (pair (cx_path cx) <$> [EError model_not_found]))
         (st_css cx (start sv))) (app cx (start sv)).2).
    { eapply (app_after_load grows cx (start sv)); [done|done|].
      intros; apply _. }
    destruct Hg as [[k Hk] _ _ _].
    unfold rerun. cbn [sv_page]. fold cx. unfold page.
    rewrite elem_of_reverse, Hk. apply elem_of_app. right. by left.
Qed.

End run.

Lemma run_all_snoc l i : run_all (l ++ [i]) = rerun i (run_all l).
Proof. unfold run_all. by rewrite foldl_app. Qed.

Lemma step_run_all ok l i :
  ok (i_env i) -> step ok (run_all l) (run_all (l ++ [i])).
Proof. intros H. rewrite run_all_snoc. by constructor. Qed.

Lemma run_all_reachable ok l :
  Forall (λ i, ok (i_env i)) l -> reachable ok (run_all l).
Proof.
  induction l as [|i l IH] using rev_ind; [intros; apply rtc_refl|].
  intros [Hl Hi%Forall_inv]%Forall_app.
  eapply rtc_r; [by apply IH|by apply step_run_all].
Qed.

(** Induction on the runs of a process, the last run last. *)
Lemma reachable_ind_r ok (P : server -> Prop) :
  P boot ->
  (forall sv i, reachable ok sv -> ok (i_env i) -> P sv -> P (rerun i sv)) ->
  forall sv, reachable ok sv -> P sv.
Proof.
  intros Hb Hs. apply rtc_ind_r; [done|].
  intros sv sv' Hr Hstep IH. destruct Hstep. by apply Hs.
Qed.

Lemma rtc_step_ind_r ok (P : server -> Prop) sv :
  P sv ->
  (forall sv' i, rtc (step ok) sv sv' -> P sv' -> P (rerun i sv')) ->
  forall sv', rtc (step ok) sv sv' -> P sv'.
Proof.
  intros Hb Hs. apply rtc_ind_r; [done|].
  intros sv1 sv2 Hr Hstep IH. destruct Hstep. by apply Hs.
Qed.

(** ** The machine *)

(** The states the process can reach are the results of running
    the script for a list of interactions, one after the other, from the
    start: the step relation and the function [run_all] describe the same
    machine. *)
Theorem reachable_run_all ok sv :
  reachable ok sv <->
  exists l, Forall (λ i, ok (i_env i)) l /\ sv = run_all l.
Proof.
  split.
  - revert sv. apply reachable_ind_r; [by exists []|].
    intros sv i _ Hi (l & Hl & ->). exists (l ++ [i]).
    split; [|by rewrite run_all_snoc].
    apply Forall_app. split; [done|by apply Forall_singleton].
  - intros (l & Hl & ->). by apply run_all_reachable.
Qed.

(** ** Invariants *)

(** The model is fixed for the life of the process.  Once the
    cache holds the result of [load_model], a pipeline or the failure to
    find one, every later state holds the same result, whatever the files
    have become and whatever the users do, and the artifact is not read
    again. *)
Theorem model_fixed ok sv sv' c :
  rtc (step ok) sv sv' -> sv_model sv = Some c ->
  sv_model sv' = Some c /\ loads (sv_log sv') = loads (sv_log sv).
Proof.
  induction 1 as [|sv1 sv2 sv3 Hs _ IH]; [done|]. intros Hc.
  destruct Hs as [i sv1 _].
  destruct (rerun_warm i sv1 c Hc) as [Hcache Hl].
  destruct IH as [IH1 IH2]; [unfold sv_model; by rewrite Hcache|].
  split; [done|congruence].
Qed.

(** C29: As long as the artifact is in place or missing whenever it is
    read, the process reads it exactly once: in every reachable state,
    either nothing is cached and the artifact was never read, or the
    result of the load is cached and the artifact was read once. *)
Theorem loaded_once_invariant sv :
  reachable benign_env sv -> loaded_once sv.
Proof.
  revert sv. apply reachable_ind_r; [by split|]. intros sv i _ Hi IH.
  unfold benign_env, benign in Hi. apply andb_true_iff in Hi as [Hi _].
  unfold loaded_once in *. destruct (sv_model sv) as [c|] eqn:Hc.
  - destruct (rerun_warm i sv c Hc) as [Hcache ->].
    unfold sv_model in *. by rewrite Hcache, Hc.
  - destruct IH as [_ IH], (rerun_cold i sv Hc) as [-> Hcache].
    destruct (load_entry_benign _ Hi) as [c Hentry].
    rewrite Hentry in Hcache.
    unfold sv_model. rewrite Hcache, lookup_insert_eq. by rewrite IH.
Qed.

(** C28: As long as the two files the script reads are in place or
    missing, no run of the process ends in an exception, whatever the
    sessions hold and whatever the pipeline answers; and the page of every
    run starts with the frame, holds the sidebar and ends with the
    footer. *)
Theorem never_raises sv :
  reachable benign_env sv ->
  sv_raised sv = None
  /\ (sv = boot \/ exists notice shown,
        sv_page sv =
        frame_head [] ++ notice ++ sidebar_page [] ++ shown
        ++ footer_elements []).
Proof.
  revert sv. apply reachable_ind_r; [split; [done|by left]|].
  intros sv i _ Hi _.
  destruct (app_returns (cx_of (i_env i) (i_session i)) (start sv) Hi)
    as (st' & notice & shown & Hrun & Hpage & _); [done..|].
  unfold rerun. rewrite Hrun. split; [done|]. right. by exists notice, shown.
Qed.

(** C30: The degraded mode lasts.  Once the load has found no file,
    every later run, whatever the files have become, shows the message of
    the load and asks no pipeline: scoring stays disabled until the
    process is restarted. *)
Theorem degraded_mode ok sv sv' :
  sv_model sv = Some (None, [EError model_not_found]) ->
  rtc (step ok) sv sv' ->
  sv_model sv' = Some (None, [EError model_not_found])
  /\ predicts (sv_log sv') = predicts (sv_log sv)
  /\ (sv' = sv \/ ([], EError model_not_found) ∈ sv_page sv').
Proof.
  intros Hc. revert sv'. apply rtc_step_ind_r.
  { split; [done|]. split; [done|by left]. }
  intros sv' i _ (Hc' & Hp & _).
  destruct (rerun_degraded i sv' Hc') as [[[Hcache _] Hpred] Hin].
  split; [unfold sv_model, rerun; cbn [sv_cache]; by rewrite Hcache|].
  split; [|by right]. unfold rerun. cbn [sv_log]. by rewrite Hpred.
Qed.

(** ** The invariants at the fixtures *)

(** The artifact is missing at the first visit and in place at the
    request that follows. *)
Lemma model_fixed_witness :
  sv_model (run_all [visit_missing; request_found])
    = Some (None, [EError model_not_found])
  /\ loads (sv_log (run_all [visit_missing; request_found]))
     = loads (sv_log (run_all [visit_missing])).
Proof.
  apply (model_fixed any_env (run_all [visit_missing])
           (run_all [visit_missing; request_found]));
    [|by vm_compute].
  apply rtc_once, (step_run_all any_env [visit_missing] request_found).
  exact I.
Defined.

Lemma loaded_once_invariant_witness :
  loaded_once (run_all [request_found; visit_docs]).
Proof.
  apply loaded_once_invariant, run_all_reachable.
  repeat constructor.
Defined.

Lemma never_raises_witness :
  sv_raised (run_all [request_found; visit_docs]) = None
  /\ (run_all [request_found; visit_docs] = boot \/ exists notice shown,
        sv_page (run_all [request_found; visit_docs]) =
        frame_head [] ++ notice ++ sidebar_page [] ++ shown
        ++ footer_elements []).
Proof.
  apply never_raises, run_all_reachable. repeat constructor.
Defined.

Lemma degraded_mode_witness :
  sv_model (run_all [visit_missing; request_found])
    = Some (None, [EError model_not_found])
  /\ predicts (sv_log (run_all [visit_missing; request_found]))
     = predicts (sv_log (run_all [visit_missing]))
  /\ (run_all [visit_missing; request_found] = run_all [visit_missing]
      \/ ([], EError model_not_found)
           ∈ sv_page (run_all [visit_missing; request_found])).
Proof.
  apply (degraded_mode any_env (run_all [visit_missing])
           (run_all [visit_missing; request_found]));
    [by vm_compute|].
  apply rtc_once, (step_run_all any_env [visit_missing] request_found).
  exact I.
Defined.
