(* ===== verification/Spec.v ===== *)
(** * Spec: the contract, and the script as its refinement

    The specification describes the program as two components with a
    contract each: a model gateway that loads the pipeline at most once
    and then is ready or unavailable for good, and a request handler that
    builds the record, scores it, decides with the threshold 0.5 and
    recommends improvements on a rejection.  This file states the two
    contracts as pure definitions (no page, no run state) and proves that
    the script implements them: the cache of the process, read through an
    abstraction function, moves as the gateway does; the elements the
    handler shows are the rendering of the outcome the contract gives.

    Where the script and the specification differ, the contract here
    follows the script and the difference is a hypothesis or a remark of
    the theorem: a failed read that is not a missing file leaves the
    gateway unloaded; a failed scoring carries the exception; a
    probability that is not a number is outside the refinement. *)

From S2P Require Import Prelude PyFloat Runtime Keeps Fixtures.
From S2P Require Import Gateway Predict Docs App Session.

(** ** The model gateway *)

Inductive gateway :=
| Unloaded
| Ready (m : pipeline)
| Unavailable.

(** [load()], given what the read of the artifact gives: performed once;
    a gateway that is ready or unavailable stays as it is. *)
Definition gw_load (r : exn + pipeline) (g : gateway) : gateway :=
  match g with
  | Unloaded =>
      match r with
      | inr m => Ready m
      | inl e =>
          if only FileNotFoundError (exn_cls e) then Unavailable
          else Unloaded
      end
  | _ => g
  end.

(** The gateway over the interactions of a process. *)
Definition gw_run (l : list interaction) : gateway :=
  foldl (λ g i, gw_load (joblib_load (i_env i) artifact_path) g) Unloaded l.

(** The gateway a server state stands for. *)
Definition gw_of (sv : server) : gateway :=
  match sv_model sv with
  | None => Unloaded
  | Some (Some m, _) => Ready m
  | Some (None, _) => Unavailable
  end.

(** ** The request handler *)

Inductive verdict := Approved | NotApproved.

(** [decide]: the threshold rule. *)
Definition decide (p : float) : verdict :=
  if float_ge p f_0_5 then Approved else NotApproved.

(** [recommend]: the fixed list of suggestions on a rejection. *)
Definition recommend (d : verdict) : list string :=
  match d with
  | Approved => []
  | NotApproved =>
      ["Améliorer l'historique de crédit";
       "Augmenter le revenu du demandeur/co-demandeur";
       "Réduire le montant du prêt demandé"]
  end.

(** [score]: the probability of the approved class for a record, or the
    failure of the pipeline. *)
Definition score (m : pipeline) (i : inputs) : exn + float :=
  match predict_proba m (input_df i) with
  | inl e => inl e
  | inr probs =>
      match probs !! 0%nat with
      | None => inl (index_error 0 (length probs))
      | Some row0 =>
          match row0 !! 1%nat with
          | None => inl (index_error 1 (length row0))
          | Some p => inr p
          end
      end
  end.

(** What a request comes to. *)
Inductive outcome :=
| NoRequest
| Scored (p : float) (d : verdict) (advice : list string)
| ScoringFailed (e : exn).

Definition handle (model : option pipeline) (request : bool) (i : inputs)
    : outcome :=
  match request, model with
  | true, Some m =>
      match score m i with
      | inr p => Scored p (decide p) (recommend (decide p))
      | inl e => ScoringFailed e
      end
  | _, _ => NoRequest
  end.

(** ** The validation of the record *)

(** What [buildRecord] finds wrong with a record: a choice that is no
    option of its field, a negative amount.  Fields are named as the
    columns of the table. *)
Inductive invalid :=
| OutOfDomain (field : string)
| Negative (field : string).

Definition check_option (field : string) (options : list pyval) (v : pyval)
    : list invalid :=
  if bool_decide (v ∈ options) then [] else [OutOfDomain field].

Definition check_amount (field : string) (z : Z) : list invalid :=
  if bool_decide (0 <= z) then [] else [Negative field].

(** The violations of a record, in the order of the table. *)
Definition violations (i : inputs) : list invalid :=
  check_option "Gender" gender_options (in_gender i)
  ++ check_option "Married" married_options (in_married i)
  ++ check_option "Dependents" dependents_options (in_dependents i)
  ++ check_option "Education" education_options (in_education i)
  ++ check_option "Self_Employed" self_employed_options (in_self_employed i)
  ++ check_amount "ApplicantIncome" (in_applicant_income i)
  ++ check_amount "CoapplicantIncome" (in_coapplicant_income i)
  ++ check_amount "LoanAmount" (in_loan_amount i)
  ++ check_option "Loan_Amount_Term" loan_amount_term_options
       (in_loan_amount_term i)
  ++ check_option "Credit_History" credit_history_options
       (in_credit_history i)
  ++ check_option "Property_Area" property_area_options
       (in_property_area i).

(** [buildRecord]: the record, or its first violation. *)
Definition build_record (raw : inputs) : invalid + inputs :=
  match violations raw with
  | [] => inr raw
  | v :: _ => inl v
  end.

(** [predict]: [buildRecord], then the handler; no outcome when the
    record is rejected. *)
Definition predict (model : option pipeline) (request : bool)
    (raw : inputs) : invalid + outcome :=
  if request then
    match build_record raw with
    | inl v => inl v
    | inr i => inr (handle model true i)
    end
  else inr NoRequest.

(** ** The presentation of an outcome *)

Definition indent : string := "                        ".

(** The suggestions as one markdown text. *)
Definition advice_text (advice : list string) : string :=
  nl +:+ indent +:+ "**Recommandations pour améliorer l'approbation :**"
  +:+ nl
  +:+ String.concat "" ((λ a, indent +:+ "- " +:+ a +:+ nl) <$> advice)
  +:+ indent.

Definition verdict_html (d : verdict) : string :=
  match d with Approved => approved_html | NotApproved => rejected_html end.

Definition render (o : outcome) (p : list container) : list emitted :=
  match o with
  | NoRequest => []
  | ScoringFailed e => [(p, EError (prediction_error e))]
  | Scored pr d advice =>
      let c := p ++ [CContainer] in
      [(c, EMarkdown card_open true);
       (c, EPlotly (fig pr) true);
       (c, EMarkdown (verdict_html d) true);
       (c, EColumns [1; 1]);
       (c ++ [CColumn "col_met1"],
        EMetric "Probabilité d'approbation" (format_pct1 pr));
       (c ++ [CColumn "col_met2"], EMetric "Seuil de décision" "50%");
       (c, EMarkdown "</div>" true)]
      ++ match advice with
         | [] => []
         | _ => [(c, EWarning (advice_text advice))]
         end
  end.

(** The log after a request: the pipeline was asked when there was a
    request and a pipeline. *)
Definition logged (model : option pipeline) (request : bool) (i : inputs)
    (st : run_state) : run_state :=
  match request, model with
  | true, Some _ => st_asked i st
  | _, _ => st
  end.

(** ** The gateway refinement *)

(** One run moves the gateway by one [load]. *)
Lemma gw_step i sv :
  gw_of (rerun i sv) =
  gw_load (joblib_load (i_env i) artifact_path) (gw_of sv).
Proof.
  unfold gw_of. destruct (sv_model sv) as [c|] eqn:Hc.
  - destruct (rerun_warm i sv c Hc) as [Hcache _].
    unfold sv_model in *. rewrite Hcache, Hc. by destruct c as [[m|] ?].
  - destruct (rerun_cold i sv Hc) as [_ Hcache].
    unfold sv_model in *. rewrite Hcache. cbn [gw_load].
    destruct (joblib_load _ _) as [e|m]; cbn [load_entry];
      [destruct (only _ _)|]; by rewrite ?lookup_insert_eq, ?Hc.
Qed.

(** C9: The cache of the process implements the gateway of the
    specification.  After any list of interactions the cache stands for
    the state the gateway is in after as many calls of [load]: unloaded
    until a read of the artifact works or finds no file, then ready with
    the pipeline of that read, or unavailable, for good.  A read that
    fails otherwise leaves the gateway unloaded, and the next run reads
    again. *)
Theorem gateway_refinement l : gw_of (run_all l) = gw_run l.
Proof.
  induction l as [|i l IH] using rev_ind; [done|].
  unfold gw_run. by rewrite run_all_snoc, gw_step, foldl_app, IH.
Qed.

(** ** The handler refinement *)

Lemma prob_score m i cx st : (prob m (input_df i) cx st).1 = score m i.
Proof.
  unfold prob, score, mbind, script_bind, call_predict_proba, py_index.
  destruct (predict_proba m _) as [e|probs]; [done|].
  destruct (probs !! 0%nat) as [row0|]; [|done]. cbn.
  by destruct (row0 !! 1%nat).
Qed.

(** The text of the script is the rendering of the list. *)
Lemma advice_text_recommendations :
  advice_text (recommend NotApproved) = recommendations.
Proof. reflexivity. Qed.

Lemma render_scored p path :
  is_nan p = false ->
  render (Scored p (decide p) (recommend (decide p))) path
  = result_page p path.
Proof.
  intros Hp. unfold render, result_page, decide.
  rewrite recommends_not_approved by done. unfold approved.
  destruct (float_ge p f_0_5); [done|].
  by rewrite <- advice_text_recommendations.
Qed.

(** C8: The handler implements the contract.  Whatever the model, the
    click and the inputs, and as long as the pipeline does not answer
    with a probability that is not a number, the handler ends normally,
    asks the pipeline exactly when there is a request and a model, and
    adds to the page the rendering of the outcome of the contract:
    nothing without a request or without a model, the error message when
    the scoring fails, and otherwise the gauge, the decision by the
    threshold, the two metrics and, exactly on a rejection, the three
    suggestions. *)
Theorem handler_refines model b i cx st :
  (forall m, model = Some m -> score m i <> inr S754_nan) ->
  predict_handler model b i cx st =
  (inr (),
   st_emits (reverse (render (handle model b i) (cx_path cx)))
     (logged model b i st)).
Proof.
  intros Hnan. destruct b, model as [m|]; try by destruct st.
  erewrite predict_handler_after by apply prob_state.
  rewrite prob_score. unfold handle, logged.
  specialize (Hnan m eq_refl). destruct (score m i) as [e|p]; [done|].
  rewrite render_scored; [done|]. by destruct p.
Qed.

(** The properties the specification asks of the contract, at the
    contract: the threshold is inclusive, the suggestions are there
    exactly on a rejection, and the two scenarios, with the pipeline that
    answers 0.82 for a good credit history and 0.2 for a poor one, come
    to an approval without suggestions and to a rejection with the three
    suggestions. *)
Theorem spec_properties :
  decide f_0_5 = Approved
  /\ decide (float_lit 499999 1000000) = NotApproved
  /\ decide f_1_0 = Approved /\ decide f_0_0 = NotApproved
  /\ (forall d, recommend d <> [] <-> d = NotApproved)
  /\ handle (Some fixture_model) true (read_inputs (session_of scenario1))
     = Scored (float_lit 82 100) Approved []
  /\ handle (Some fixture_model) true (read_inputs (session_of scenario2))
     = Scored (float_lit 20 100) NotApproved (recommend NotApproved).
Proof.
  do 4 (split; [by vm_compute|]).
  split; [by intros []|]. split; by vm_compute.
Qed.

(** ** The validation *)

Lemma check_option_nil field options v :
  check_option field options v = [] <-> v ∈ options.
Proof. unfold check_option. by case_bool_decide. Qed.

Lemma check_amount_nil field z : check_amount field z = [] <-> 0 <= z.
Proof. unfold check_amount. by case_bool_decide. Qed.

(** A record has no violation exactly when it is in the domain of the
    form. *)
Lemma violations_nil i : violations i = [] <-> valid_inputs i.
Proof.
  unfold violations. rewrite !app_nil, !check_option_nil, !check_amount_nil.
  split; [intros H; destruct_and!; by split|intros []; done].
Qed.

Lemma build_record_valid i : valid_inputs i -> build_record i = inr i.
Proof. intros Hi%violations_nil. unfold build_record. by rewrite Hi. Qed.

(** On a record of the domain the check of [predict] is not seen. *)
Lemma predict_valid model request i :
  valid_inputs i -> predict model request i = inr (handle model request i).
Proof.
  intros Hi. unfold predict. rewrite build_record_valid by done.
  by destruct request, model.
Qed.

(** The two rejections the specification names: a negative income and a
    gender that is no option. *)
Lemma build_record_rejects i :
  valid_inputs i ->
  build_record
    {| in_gender := in_gender i; in_married := in_married i;
       in_dependents := in_dependents i; in_education := in_education i;
       in_self_employed := in_self_employed i;
       in_applicant_income := -1;
       in_coapplicant_income := in_coapplicant_income i;
       in_loan_amount := in_loan_amount i;
       in_loan_amount_term := in_loan_amount_term i;
       in_credit_history := in_credit_history i;
       in_property_area := in_property_area i |}
  = inl (Negative "ApplicantIncome")
  /\ build_record
       {| in_gender := VStr "Other"; in_married := in_married i;
          in_dependents := in_dependents i; in_education := in_education i;
          in_self_employed := in_self_employed i;
          in_applicant_income := in_applicant_income i;
          in_coapplicant_income := in_coapplicant_income i;
          in_loan_amount := in_loan_amount i;
          in_loan_amount_term := in_loan_amount_term i;
          in_credit_history := in_credit_history i;
          in_property_area := in_property_area i |}
     = inl (OutOfDomain "Gender").
Proof.
  intros []. unfold build_record, violations.
  cbn [in_gender in_married in_dependents in_education in_self_employed
       in_applicant_income in_coapplicant_income in_loan_amount
       in_loan_amount_term in_credit_history in_property_area].
  split.
  - by rewrite !(proj2 (check_option_nil _ _ _)) by done.
  - replace (check_option "Gender" gender_options (VStr "Other"))
      with [OutOfDomain "Gender"]; [done|].
    unfold check_option. by rewrite bool_decide_eq_false_2 by by_decide.
Qed.

(** ** The refinement at the fixtures *)

Lemma handler_refines_witness :
  predict_handler (Some fixture_model) true
    (read_inputs (session_of scenario2))
    (cx_of env_found scenario2) (initial_state ∅) =
  (inr (),
   st_emits
     (reverse
        (render
           (handle (Some fixture_model) true
              (read_inputs (session_of scenario2))) []))
     (logged (Some fixture_model) true (read_inputs (session_of scenario2))
        (initial_state ∅))).
Proof.
  apply (handler_refines (Some fixture_model) true
           (read_inputs (session_of scenario2))
           (cx_of env_found scenario2) (initial_state ∅)).
  intros m [= <-]. by vm_compute.
Defined.
