(* ===== verification/Threads.v ===== *)
(** * Threads: the load under concurrent first access

    [World] serves one request at a time; Streamlit runs the script of
    every session in a thread of its own, and the threads share the
    cache of [load_model].  The specification asks that the load
    happens at most once "even under concurrent first access", guarded
    by a mutex; [st.cache_resource] does so: a call looks the entry up,
    and on a miss takes the lock of the entry, looks again, and reads
    the artifact only when the entry is still missing.  This file
    models the calls of [load_model()] of any number of threads, step
    by step, in any interleaving ([advance], [tstep]).

    The invariant [coherent] (the lock is held by the one thread in the
    critical section, a thread reads only while the cache is empty, a
    thread returns what the cache holds) is proved by induction on the
    steps; with it, that the artifact is read once, that every call
    returns (the steps are well founded and some thread can always
    step), that the cache moves as the gateway of [Spec] does, and that
    a thread alone does what [Gateway.load_model] does in a run.
    [Overlap] puts these threads under the runs of the script and shows
    why [World] may take a run as one step.  Without the lock two
    threads read the artifact ([unguarded_reads_twice]). *)

From Stdlib Require Import Wf_nat.
From S2P Require Import Prelude PyFloat Runtime Keeps Fixtures.
From S2P Require Import Gateway Predict Docs App Session Spec.

Local Open Scope nat_scope.

(** ** Definitions *)

(** Where a thread is in its call of [load_model()]: before the lookup,
    after a lookup that found nothing, with the lock, reading the
    artifact with the lock, or back from the call. *)
Inductive pc :=
| Calling
| Missed
| Locked
| Reading
| Returned (v : option pipeline)
| Failed (x : exn).

(** What the threads share: the entry of [load_model] in the cache, the
    holder of the lock of that entry, and the number of reads of the
    artifact. *)
Record shared := Shared {
  sh_entry : option cache_entry;
  sh_lock : option nat;
  sh_loads : nat
}.

Record system := System {
  sy_threads : gmap nat pc;
  sy_shared : shared
}.

(** The process before any call. *)
Definition quiet_system : system := System ∅ (Shared None None 0).

Definition move (k : nat) (p : pc) (sh : shared) (s : system) : system :=
  System (<[k := p]> (sy_threads s)) sh.

(** Where the thread that read the artifact ends. *)
Definition outcome (r : exn + pipeline) : pc :=
  match r with
  | inr m => Returned (Some m)
  | inl x =>
      if only FileNotFoundError (exn_cls x) then Returned None else Failed x
  end.

(** What a lookup of the cache gives. *)
Definition looked_up (c : option cache_entry) (miss : pc) : pc :=
  match c with Some (v, _) => Returned v | None => miss end.

(** One step of the thread [k]: the lookup; taking the lock, if it is
    free; the second lookup, with the lock, which releases the lock on a
    hit; the read of the artifact, which stores what a run stores
    ([load_entry]) and releases the lock. *)
Definition advance (e : env) (k : nat) (s : system) : option system :=
  let sh := sy_shared s in
  p ← sy_threads s !! k;
  match p with
  | Calling => Some (move k (looked_up (sh_entry sh) Missed) sh s)
  | Missed =>
      match sh_lock sh with
      | None =>
          Some (move k Locked (Shared (sh_entry sh) (Some k) (sh_loads sh)) s)
      | Some _ => None
      end
  | Locked =>
      Some (match sh_entry sh with
            | Some (v, _) =>
                move k (Returned v) (Shared (sh_entry sh) None (sh_loads sh)) s
            | None =>
                move k Reading (Shared None (sh_lock sh) (S (sh_loads sh))) s
            end)
  | Reading =>
      let r := joblib_load e artifact_path in
      Some (move k (outcome r)
              (Shared (from_option Some (sh_entry sh) (load_entry r)) None
                 (sh_loads sh)) s)
  | Returned _ | Failed _ => None
  end.

(** The same call without the lock: a lookup that finds nothing goes on
    to read the artifact. *)
Definition advance_unguarded (e : env) (k : nat) (s : system)
    : option system :=
  let sh := sy_shared s in
  p ← sy_threads s !! k;
  match p with
  | Calling =>
      Some (match sh_entry sh with
            | Some (v, _) => move k (Returned v) sh s
            | None =>
                move k Reading (Shared None (sh_lock sh) (S (sh_loads sh))) s
            end)
  | Reading =>
      let r := joblib_load e artifact_path in
      Some (move k (outcome r)
              (Shared (from_option Some (sh_entry sh) (load_entry r)) None
                 (sh_loads sh)) s)
  | _ => None
  end.

(** A schedule: the threads that step, in order. *)
Fixpoint schedule (step : nat -> system -> option system) (ks : list nat)
    (s : system) : option system :=
  match ks with
  | [] => Some s
  | k :: ks => s' ← step k s; schedule step ks s'
  end.

(** A thread starts a call, or a thread steps. *)
Inductive tstep (ok : env -> Prop) : system -> system -> Prop :=
| t_arrive k s :
    sy_threads s !! k = None -> tstep ok s (move k Calling (sy_shared s) s)
| t_advance e k s s' :
    ok e -> advance e k s = Some s' -> tstep ok s s'.

Definition treachable (ok : env -> Prop) : system -> Prop :=
  rtc (tstep ok) quiet_system.

(** The steps of the calls that are under way. *)
Definition advances (s' s : system) : Prop :=
  exists e k, advance e k s = Some s'.

(** A thread that holds the lock. *)
Definition critical (p : pc) : bool :=
  match p with Locked | Reading => true | _ => false end.

(** A thread whose call is over. *)
Definition final (p : pc) : bool :=
  match p with Returned _ | Failed _ => true | _ => false end.

(** The invariant: the lock is held by the thread in the critical
    section and by no other; a thread reads the artifact only while the
    cache is empty; a thread has returned what the cache holds. *)
Record coherent (s : system) : Prop := Coherent {
  co_lock k :
    sh_lock (sy_shared s) = Some k
    <-> exists p, sy_threads s !! k = Some p /\ critical p = true;
  co_reading k :
    sy_threads s !! k = Some Reading -> sh_entry (sy_shared s) = None;
  co_returned k v :
    sy_threads s !! k = Some (Returned v) ->
    exists replay, sh_entry (sy_shared s) = Some (v, replay)
}.

(** The reads of the artifact there must have been: one when the cache
    is filled or a thread is reading, none otherwise. *)
Definition reading (p : option pc) : nat :=
  match p with Some Reading => 1 | _ => 0 end.

Definition reads_due (s : system) : nat :=
  match sh_entry (sy_shared s), sh_lock (sy_shared s) with
  | Some _, _ => 1
  | None, Some k => reading (sy_threads s !! k)
  | None, None => 0
  end.

(** The artifact was read as often as it had to be. *)
Definition loads_once (s : system) : Prop :=
  sh_loads (sy_shared s) = reads_due s.

(** The gateway of the specification a cache entry stands for. *)
Definition gw_entry (c : option cache_entry) : gateway :=
  match c with
  | None => Unloaded
  | Some (Some m, _) => Ready m
  | Some (None, _) => Unavailable
  end.

(** The steps a call has left, at most. *)
Definition rank (p : pc) : nat :=
  match p with
  | Calling => 4 | Missed => 3 | Locked => 2 | Reading => 1 | _ => 0
  end.

Definition work (s : system) : nat :=
  map_fold (λ _ p n, rank p + n) 0 (sy_threads s).

(** A thread alone, for at most [n] steps. *)
Fixpoint drive (e : env) (k : nat) (n : nat) (s : system) : system :=
  match n with
  | 0 => s
  | S n => match advance e k s with Some s' => drive e k n s' | None => s end
  end.

(** What the call of a thread gave. *)
Definition result (p : pc) : option (exn + option pipeline) :=
  match p with
  | Returned v => Some (inr v)
  | Failed x => Some (inl x)
  | _ => None
  end.

(** The artifact is in place or missing. *)
Definition readable (e : env) : Prop :=
  is_Some (load_entry (joblib_load e artifact_path)).

(** Two threads call at once while the artifact is missing; the
    schedule of a race, in which the second thread waits for the lock
    and finds the cache filled. *)
Definition two_callers : system :=
  move 1 Calling (Shared None None 0)
    (move 0 Calling (Shared None None 0) quiet_system).

Definition race : list nat := [0; 1; 0; 0; 0; 1; 1].

Definition after_race : system :=
  default quiet_system (schedule (advance env_missing) race two_callers).

(** ** One step *)

Lemma lookup_move k p sh s j :
  sy_threads (move k p sh s) !! j
  = if base.decide (k = j) then Some p else sy_threads s !! j.
Proof. apply lookup_insert. Qed.

(** What a step of [k] does: [k] moves from [p] to [p'], the others
    stay, the shared state becomes [sh']. *)
Record moved (k : nat) (p p' : pc) (sh' : shared) (s s' : system)
    : Prop := Moved {
  mv_from : sy_threads s !! k = Some p;
  mv_to : s' = move k p' sh' s
}.

(** The steps, case by case. *)
Inductive advanced (e : env) (k : nat) (s s' : system) : Prop :=
| adv_hit v replay :
    sh_entry (sy_shared s) = Some (v, replay) ->
    moved k Calling (Returned v) (sy_shared s) s s' -> advanced e k s s'
| adv_miss :
    sh_entry (sy_shared s) = None ->
    moved k Calling Missed (sy_shared s) s s' -> advanced e k s s'
| adv_lock :
    sh_lock (sy_shared s) = None ->
    moved k Missed Locked
      (Shared (sh_entry (sy_shared s)) (Some k) (sh_loads (sy_shared s)))
      s s' ->
    advanced e k s s'
| adv_hit_locked v replay :
    sh_entry (sy_shared s) = Some (v, replay) ->
    moved k Locked (Returned v)
      (Shared (Some (v, replay)) None (sh_loads (sy_shared s))) s s' ->
    advanced e k s s'
| adv_read :
    sh_entry (sy_shared s) = None ->
    moved k Locked Reading
      (Shared None (sh_lock (sy_shared s)) (S (sh_loads (sy_shared s))))
      s s' ->
    advanced e k s s'
| adv_store :
    moved k Reading (outcome (joblib_load e artifact_path))
      (Shared (from_option Some (sh_entry (sy_shared s))
                 (load_entry (joblib_load e artifact_path)))
         None (sh_loads (sy_shared s))) s s' ->
    advanced e k s s'.

Lemma advance_advanced e k s s' :
  advance e k s = Some s' <-> advanced e k s s'.
Proof.
  unfold advance. split.
  - destruct (sy_threads s !! k) as [p|] eqn:Hk; [|done]. cbn.
    destruct p; try done.
    + destruct (sh_entry (sy_shared s)) as [[v replay]|] eqn:Hc;
        intros [= <-]; [eapply adv_hit|eapply adv_miss]; done.
    + destruct (sh_lock (sy_shared s)) eqn:Hl; [done|].
      intros [= <-]. by eapply adv_lock.
    + destruct (sh_entry (sy_shared s)) as [[v replay]|] eqn:Hc;
        intros [= <-]; [eapply adv_hit_locked|eapply adv_read]; done.
    + intros [= <-]. by eapply adv_store.
  - intros [v replay Hc [Hk ->]|Hc [Hk ->]|Hl [Hk ->]|v replay Hc [Hk ->]
           |Hc [Hk ->]|[Hk ->]]; rewrite Hk; cbn; by rewrite ?Hc, ?Hl.
Qed.

(** ** The invariant *)

(** Who holds the lock after [k] has moved from [p] to [p']. *)
Definition holder (k : nat) (p p' : pc) (l : option nat) : option nat :=
  if critical p' then Some k else if critical p then None else l.

Lemma quiet_coherent : coherent quiet_system.
Proof.
  split; cbn; intros; [|done..]. split; [done|]. by intros (p & ? & _).
Qed.

Lemma coherent_holder s k p :
  coherent s -> sy_threads s !! k = Some p -> critical p = true ->
  sh_lock (sy_shared s) = Some k.
Proof. intros [Hl _ _] Hk Hp. apply Hl. eauto. Qed.

(** Two threads in the critical section are one. *)
Lemma coherent_exclusive s j k p q :
  coherent s -> sy_threads s !! j = Some p -> sy_threads s !! k = Some q ->
  critical p = true -> critical q = true -> j = k.
Proof.
  intros Hs Hj Hk Hp Hq.
  pose proof (coherent_holder s j p Hs Hj Hp) as H1.
  pose proof (coherent_holder s k q Hs Hk Hq) as H2. congruence.
Qed.

Lemma lock_moved k p p' sh' s j :
  coherent s -> sy_threads s !! k = Some p ->
  sh_lock sh' = holder k p p' (sh_lock (sy_shared s)) ->
  (critical p' = true -> critical p = false ->
   sh_lock (sy_shared s) = None) ->
  sh_lock sh' = Some j
  <-> exists q, sy_threads (move k p' sh' s) !! j = Some q
        /\ critical q = true.
Proof.
  intros Hs Hk -> Hfree. rewrite lookup_move. unfold holder.
  destruct (base.decide (k = j)) as [<-|Hj].
  - destruct (critical p') eqn:Hp'; [by split; eauto|].
    split; [|by intros (q & [= <-] & Hq); congruence].
    destruct (critical p) eqn:Hp; [done|]. intros Hl.
    apply (co_lock s Hs) in Hl as (q & Hq & Hc). congruence.
  - rewrite <- (co_lock s Hs j).
    destruct (critical p') eqn:Hp', (critical p) eqn:Hp; try done.
    + pose proof (coherent_holder s k p Hs Hk Hp). split; congruence.
    + rewrite Hfree by done. split; congruence.
    + pose proof (coherent_holder s k p Hs Hk Hp). split; congruence.
Qed.

(** The invariant after a step, from what the step does to the lock and
    to the cache. *)
Lemma moved_coherent k p p' sh' s :
  coherent s -> sy_threads s !! k = Some p ->
  sh_lock sh' = holder k p p' (sh_lock (sy_shared s)) ->
  (critical p' = true -> critical p = false ->
   sh_lock (sy_shared s) = None) ->
  (p' = Reading -> sh_entry sh' = None) ->
  (forall v, p' = Returned v -> exists replay, sh_entry sh' = Some (v, replay)) ->
  (sh_entry sh' = sh_entry (sy_shared s) \/ p = Reading) ->
  coherent (move k p' sh' s).
Proof.
  intros Hs Hk Hl Hfree Hr Hv Hc.
  assert (forall j q, j <> k -> sy_threads s !! j = Some q ->
            q = Reading \/ (exists v, q = Returned v) ->
            sh_entry sh' = sh_entry (sy_shared s)) as Hkeep.
  { intros j q Hj Hq Hcase. destruct Hc as [Hc| ->]; [done|].
    destruct Hcase as [->|[v ->]].
    - destruct Hj. by eapply (coherent_exclusive s j k).
    - destruct (co_returned s Hs j v Hq) as [replay Hv'].
      by rewrite (co_reading s Hs k Hk) in Hv'. }
  split; cbn [move sy_shared sy_threads]; intros j.
  - by apply (lock_moved k p p' sh' s).
  - rewrite lookup_insert. case_decide as Hj; [by intros [= ->]; apply Hr|].
    intros Hq. rewrite (Hkeep j Reading) by eauto. by eapply co_reading.
  - intros v. rewrite lookup_insert.
    case_decide as Hj; [by intros [= ->]; apply Hv|].
    intros Hq. rewrite (Hkeep j (Returned v)) by eauto.
    by eapply co_returned.
Qed.

Lemma arrive_coherent k s :
  sy_threads s !! k = None -> coherent s ->
  coherent (move k Calling (sy_shared s) s).
Proof.
  intros Hk Hs. split; cbn [move sy_shared sy_threads]; intros j.
  - rewrite (co_lock s Hs j), lookup_insert.
    case_decide as Hj; [subst j|done]. rewrite Hk.
    split; intros (q & [= <-] & Hq); done.
  - rewrite lookup_insert. case_decide; [done|]. apply (co_reading s Hs).
  - intros v. rewrite lookup_insert. case_decide; [done|].
    apply (co_returned s Hs).
Qed.

Lemma outcome_final r : final (outcome r) = true.
Proof. destruct r as [x|m]; cbn; [|done]. by destruct (only _ _). Qed.

Lemma final_not_critical p : final p = true -> critical p = false.
Proof. by destruct p. Qed.

(** The thread that read the artifact returns what it stored. *)
Lemma outcome_returned r v :
  outcome r = Returned v -> exists replay, load_entry r = Some (v, replay).
Proof.
  destruct r as [x|m]; cbn; [destruct (only _ _)|]; intros [= <-]; eauto.
Qed.

Lemma advance_coherent e k s s' :
  advance e k s = Some s' -> coherent s -> coherent s'.
Proof.
  intros Ha%advance_advanced Hs.
  destruct Ha as [v replay Hc [Hk ->]|Hc [Hk ->]|Hf [Hk ->]
                 |v replay Hc [Hk ->]|Hc [Hk ->]|[Hk ->]];
    (eapply moved_coherent; [done|done|..]); cbn [sh_lock sh_entry];
    unfold holder; cbn [critical]; try done; eauto.
  - intros ? [= <-]. eauto.
  - intros ? [= <-]. eauto.
  - by eapply coherent_holder.
  - by rewrite final_not_critical by apply outcome_final.
  - intros Ho. pose proof (outcome_final (joblib_load e artifact_path)).
    by rewrite Ho in *.
  - intros v [replay ->]%outcome_returned. eauto.
Qed.

Lemma tstep_coherent ok s s' : tstep ok s s' -> coherent s -> coherent s'.
Proof.
  intros [k s0 Hk|e k s0 s1 _ Ha]; [by apply arrive_coherent|].
  by eapply advance_coherent.
Qed.

Lemma treachable_coherent ok s : treachable ok s -> coherent s.
Proof.
  revert s. apply rtc_ind_r; [apply quiet_coherent|].
  intros s s' _ Hs IH. by eapply tstep_coherent.
Qed.

(** ** The artifact is read once *)

Lemma reading_moved k p p' (m : gmap nat pc) j :
  m !! k = p -> reading p = reading (Some p') ->
  reading (<[k := p']> m !! j) = reading (m !! j).
Proof.
  intros <- Hp. rewrite lookup_insert. by case_decide; subst.
Qed.

Lemma arrive_loads k s :
  sy_threads s !! k = None -> loads_once s ->
  loads_once (move k Calling (sy_shared s) s).
Proof.
  unfold loads_once, reads_due. cbn [move sy_shared sy_threads].
  intros Hk ->. repeat case_match; try done. by erewrite reading_moved.
Qed.

Lemma advance_loads e k s s' :
  readable e -> advance e k s = Some s' -> coherent s ->
  loads_once s -> loads_once s'.
Proof.
  intros [c He] Ha%advance_advanced Hs. unfold loads_once, reads_due.
  destruct Ha as [v replay Hc [Hk ->]|Hc [Hk ->]|Hf [Hk ->]
                 |v replay Hc [Hk ->]|Hc [Hk ->]|[Hk ->]];
    cbn [move sy_shared sy_threads sh_entry sh_lock sh_loads];
    rewrite ?Hc, ?Hf.
  - done.
  - intros ->. case_match; [|done]. by erewrite reading_moved.
  - intros ->. case_match; [done|]. by rewrite lookup_insert_eq.
  - done.
  - rewrite (coherent_holder s k Locked Hs Hk eq_refl), Hk, lookup_insert_eq.
    by intros ->.
  - rewrite (co_reading s Hs k Hk), He,
      (coherent_holder s k Reading Hs Hk eq_refl), Hk. done.
Qed.

Lemma treachable_loads s : treachable readable s -> loads_once s.
Proof.
  revert s. apply rtc_ind_r; [done|]. intros s s' Hr Hs IH.
  destruct Hs as [k s0 Hk|e k s0 s1 He Ha]; [by apply arrive_loads|].
  eapply advance_loads; [done..|by eapply treachable_coherent|done].
Qed.

Lemma reads_due_le s : reads_due s <= 1.
Proof.
  unfold reads_due, reading. repeat case_match; lia.
Qed.

(** ** Every call ends *)

Lemma work_move k p p' sh' s :
  sy_threads s !! k = Some p ->
  work (move k p' sh' s) + rank p = work s + rank p'.
Proof.
  intros Hk. unfold work. cbn [move sy_threads].
  rewrite <- insert_delete_eq.
  rewrite map_fold_insert_L, (map_fold_delete_L _ _ k p (sy_threads s));
    [lia|intros; lia|done|intros; lia|apply lookup_delete_eq].
Qed.

Lemma advanced_rank e k s s' :
  advanced e k s s' ->
  exists p p' sh', moved k p p' sh' s s' /\ rank p' < rank p.
Proof.
  intros [v replay Hc Hm|Hc Hm|Hf Hm|v replay Hc Hm|Hc Hm|Hm];
    eexists _, _, _; (split; [done|]); cbn; try lia.
  pose proof (outcome_final (joblib_load e artifact_path)).
  destruct (outcome _); cbn in *; done || lia.
Qed.

Lemma advances_work s s' : advances s' s -> work s' < work s.
Proof.
  intros (e & k & Ha%advance_advanced).
  destruct (advanced_rank e k s s' Ha) as (p & p' & sh' & [Hk ->] & Hr).
  pose proof (work_move k p p' sh' s Hk). lia.
Qed.

(** ** No thread waits for ever *)

Lemma coherent_progress e s k p :
  coherent s -> sy_threads s !! k = Some p -> final p = false ->
  exists j s', advance e j s = Some s'.
Proof.
  intros Hs Hk Hp. destruct (sh_lock (sy_shared s)) as [j|] eqn:Hl.
  - apply (co_lock s Hs) in Hl as (q & Hq & Hc). exists j.
    unfold advance. rewrite Hq. destruct q; try done; cbn; eauto.
  - exists k. unfold advance. rewrite Hk, Hl.
    destruct p; try done; cbn; eauto;
      by rewrite (coherent_holder s k _ Hs Hk eq_refl) in Hl.
Qed.

(** ** The gateway of the specification *)

Lemma gw_entry_load r : gw_entry (load_entry r) = gw_load r Unloaded.
Proof. destruct r as [x|m]; cbn; [|done]. by destruct (only _ _). Qed.

Lemma advance_gateway e k s s' :
  advance e k s = Some s' -> coherent s ->
  gw_entry (sh_entry (sy_shared s'))
  = match sy_threads s !! k with
    | Some Reading =>
        gw_load (joblib_load e artifact_path)
          (gw_entry (sh_entry (sy_shared s)))
    | _ => gw_entry (sh_entry (sy_shared s))
    end.
Proof.
  intros Ha%advance_advanced Hs.
  destruct Ha as [v replay Hc [Hk ->]|Hc [Hk ->]|Hf [Hk ->]
                 |v replay Hc [Hk ->]|Hc [Hk ->]|[Hk ->]];
    rewrite Hk; cbn [move sy_shared sh_entry]; rewrite ?Hc; try done.
  rewrite (co_reading s Hs k Hk). cbn [from_option gw_entry].
  destruct (load_entry _) eqn:E; rewrite <- gw_entry_load, E; done.
Qed.

(** ** A thread alone is a call of the script *)

Ltac thread_step :=
  unfold advance at 1;
  cbn [move sy_threads sy_shared sh_entry sh_lock sh_loads];
  rewrite lookup_insert_eq;
  cbn [mbind option_bind looked_up move sy_threads sy_shared sh_entry
         sh_lock sh_loads].

Lemma drive_warm e k n v replay s0 :
  exists s1,
    drive e k 4 (move k Calling (Shared (Some (v, replay)) None n) s0)
    = move k (Returned v) (Shared (Some (v, replay)) None n) s1.
Proof.
  exists (move k Calling (Shared (Some (v, replay)) None n) s0).
  cbn [drive]. by do 2 thread_step.
Qed.

Lemma drive_cold e k n s0 :
  exists s1,
    drive e k 4 (move k Calling (Shared None None n) s0)
    = move k (outcome (joblib_load e artifact_path))
        (Shared (load_entry (joblib_load e artifact_path)) None (S n)) s1.
Proof.
  exists (move k Reading (Shared None (Some k) (S n))
            (move k Locked (Shared None (Some k) n)
               (move k Missed (Shared None None n)
                  (move k Calling (Shared None None n) s0)))).
  cbn [drive]. do 4 thread_step. by destruct (load_entry _).
Qed.

Lemma drive_alone cx st k n s0 :
  let s := move k Calling (Shared (cached_model st) None n) s0 in
  let s' := drive (cx_env cx) k 4 s in
  let r := load_model cx st in
  (result <$> sy_threads s' !! k) = Some (Some r.1)
  /\ sh_entry (sy_shared s') = cached_model r.2
  /\ sh_lock (sy_shared s') = None
  /\ sh_loads (sy_shared s') + loads (rs_io st) = n + loads (rs_io r.2).
Proof.
  cbn zeta. rewrite load_model_outcome. unfold load_outcome.
  destruct (cached_model st) as [[v replay]|] eqn:Hc.
  - destruct (drive_warm (cx_env cx) k n v replay s0) as [s1 ->].
    cbn [move sy_threads sy_shared sh_entry sh_lock sh_loads].
    by rewrite lookup_insert_eq.
  - destruct (drive_cold (cx_env cx) k n s0) as [s1 ->].
    cbn [move sy_threads sy_shared sh_entry sh_lock sh_loads].
    rewrite lookup_insert_eq. unfold cold_outcome, cached_model, outcome in *.
    destruct (joblib_load _ _) as [x|m]; [destruct (only _ _) eqn:Hx|];
      cbn; rewrite ?Hx, ?lookup_insert_eq; cbn; repeat split; try done; lia.
Qed.

(** ** Schedules *)

Lemma schedule_reachable ok e ks s s' :
  ok e -> schedule (advance e) ks s = Some s' ->
  rtc (tstep ok) s s'.
Proof.
  intros He. revert s. induction ks as [|k ks IH]; intros s Hs.
  - injection Hs as <-. apply rtc_refl.
  - cbn [schedule] in Hs. destruct (advance e k s) as [s1|] eqn:Ha; [|done].
    eapply rtc_l; [by eapply t_advance|]. by apply IH.
Qed.

Lemma two_callers_reachable ok : treachable ok two_callers.
Proof. eapply rtc_l; [|apply rtc_once]; by apply t_arrive. Qed.

Lemma race_runs :
  schedule (advance env_missing) race two_callers = Some after_race.
Proof. by vm_compute. Qed.

Lemma after_race_reachable : treachable readable after_race.
Proof.
  unfold treachable. etrans; [apply two_callers_reachable|].
  eapply (schedule_reachable _ env_missing); [by eexists|apply race_runs].
Qed.

(** Without the lock both threads read the artifact. *)
Lemma unguarded_reads_twice :
  sh_loads ∘ sy_shared
    <$> schedule (advance_unguarded env_missing) [0; 1; 0; 1] two_callers
  = Some 2.
Proof. by vm_compute. Qed.

(** ** Theorems *)

(** C25: The load is initialised once.  In every state the threads can
    reach while the artifact is in place or missing, the artifact has
    been read at most once; at most one thread is in the critical
    section; and all the calls that have returned have returned the
    same. *)
Theorem single_initialization s :
  treachable readable s ->
  sh_loads (sy_shared s) <= 1
  /\ (forall j k p q,
        sy_threads s !! j = Some p -> sy_threads s !! k = Some q ->
        critical p = true -> critical q = true -> j = k)
  /\ (forall j k v v',
        sy_threads s !! j = Some (Returned v) ->
        sy_threads s !! k = Some (Returned v') -> v = v').
Proof.
  intros Hr. pose proof (treachable_coherent _ _ Hr) as Hs.
  split; [rewrite (treachable_loads s Hr); apply reads_due_le|].
  split; [intros j k p q; by apply (coherent_exclusive s)|].
  intros j k v v' [r Hj]%(co_returned s Hs) [r' Hk]%(co_returned s Hs).
  congruence.
Qed.

(** C26: The threads implement the gateway of the specification.  Every
    step of a thread leaves the gateway the cache stands for as it is,
    except the step that ends the read of the artifact, which is the
    [load] of the specification; and a call that has returned has
    returned what the gateway holds.  A thread that runs alone from its
    call to its return does what the call of [load_model] does in the
    script: same value or exception, same cache entry, one read of the
    artifact more exactly when the script reads it. *)
Theorem threads_refine_gateway ok e k s s' cx st n s0 :
  treachable ok s -> advance e k s = Some s' ->
  (gw_entry (sh_entry (sy_shared s'))
   = match sy_threads s !! k with
     | Some Reading =>
         gw_load (joblib_load e artifact_path)
           (gw_entry (sh_entry (sy_shared s)))
     | _ => gw_entry (sh_entry (sy_shared s))
     end)
  /\ (forall j v,
        sy_threads s' !! j = Some (Returned v) ->
        gw_entry (sh_entry (sy_shared s'))
        = match v with Some m => Ready m | None => Unavailable end)
  /\ (let t :=
        drive (cx_env cx) k 4
          (move k Calling (Shared (cached_model st) None n) s0) in
      let r := load_model cx st in
      (result <$> sy_threads t !! k) = Some (Some r.1)
      /\ sh_entry (sy_shared t) = cached_model r.2
      /\ sh_lock (sy_shared t) = None
      /\ sh_loads (sy_shared t) + loads (rs_io st)
         = n + loads (rs_io r.2)).
Proof.
  intros Hs%treachable_coherent Ha. split; [by apply advance_gateway|].
  split; [|apply drive_alone].
  intros j v Hj. pose proof (advance_coherent _ _ _ _ Ha Hs) as Hs'.
  destruct (co_returned s' Hs' j v Hj) as [replay ->]. by destruct v.
Qed.

(** C27: Every call returns.  The steps of the calls that are under way
    are well founded, so no schedule goes on for ever; and in every
    state that can be reached, either every call is over or some thread
    can step, whatever the files hold: no thread waits for a lock that
    is never released. *)
Theorem calls_return :
  well_founded advances
  /\ forall ok e s,
       treachable ok s ->
       map_Forall (λ _ p, final p = true) (sy_threads s)
       \/ exists j s', advance e j s = Some s'.
Proof.
  split.
  { apply (well_founded_lt_compat _ work). intros s' s.
    apply advances_work. }
  intros ok e s Hs%treachable_coherent.
  destruct (base.decide
              (map_Forall (λ _ p, final p = true) (sy_threads s)))
    as [|(k & p & Hk & Hp)%map_not_Forall]; [by left|right|apply _].
  eapply coherent_progress; [done..|]. by destruct (final p).
Qed.

(** The race of the two callers. *)
Lemma single_initialization_witness :
  sh_loads (sy_shared after_race) <= 1
  /\ (forall j k p q,
        sy_threads after_race !! j = Some p ->
        sy_threads after_race !! k = Some q ->
        critical p = true -> critical q = true -> j = k)
  /\ (forall j k v v',
        sy_threads after_race !! j = Some (Returned v) ->
        sy_threads after_race !! k = Some (Returned v') -> v = v').
Proof. apply single_initialization, after_race_reachable. Defined.

(** The first step of the race, and a call on the cold cache of the
    fixture. *)
Lemma threads_refine_gateway_witness :
  exists s',
    advance env_missing 0 two_callers = Some s'
    /\ gw_entry (sh_entry (sy_shared s')) = Unloaded.
Proof.
  eexists. split; [by vm_compute|].
  eapply eq_trans;
    [apply (threads_refine_gateway any_env env_missing 0 two_callers _
              (cx_of env_missing ∅) (initial_state ∅) 0 quiet_system
              (two_callers_reachable _) eq_refl)|].
  done.
Defined.
