(* ===== verification/Browser.v ===== *)
(** * Browser: what the user does, and the session

    Streamlit keeps, for every browser that is connected, a session: the
    value of each widget the user has touched.  An action of the user (a
    choice in a select box, a number entered, a click) changes the
    session and starts a run of the script with it.

    An [action] is what a page lets the user do: [permitted] reads it
    off the elements of the page (an option of a select box that is
    shown, a number at or above the minimum of an input that is shown, a
    button that is shown).  [set] stores the action in the session;
    [kept] is what is left of the session after the run: the state of
    the widgets the run declared, and no click.

    Lemmas: the session stays one the form is specified for
    ([session_fits], [set_fits], [kept_fits]); a click is gone after
    the run ([kept_calm]); the form and the navigation read their own
    widgets only ([agree], [read_inputs_agree]). *)

From S2P Require Import Prelude PyFloat Runtime Keeps Fixtures.
From S2P Require Import Gateway Predict Docs App.

(** ** What the user does *)

(** An action of the user: an option of a select box or of the radio,
    a number, a click, or a reload of the page. *)
Inductive action :=
| Choose (label : string) (i : nat)
| Pick (label : string) (i : nat)
| Enter (label : string) (z : Z)
| Click (label : string)
| Rerun.

#[export] Instance action_eq_dec : EqDecision action.
Proof. solve_decision. Defined.

(** The element [e] lets the user do [a]. *)
Definition offers (a : action) (e : element) : bool :=
  match a, e with
  | Choose label i, ESelectbox l options _ _ =>
      bool_decide (l = label) && bool_decide (i < length options)%nat
  | Pick label i, ERadio l options =>
      bool_decide (l = label) && bool_decide (i < length options)%nat
  | Enter label z, ENumberInput l min_value _ _ _ =>
      bool_decide (l = label) && bool_decide (min_value <= z)
  | Click label, EButton l _ _ => bool_decide (l = label)
  | _, _ => false
  end.

(** What a page lets the user do. *)
Definition permitted (page : list emitted) (a : action) : bool :=
  match a with
  | Rerun => true
  | _ => bool_decide (Exists (λ x, offers a x.2 = true) page)
  end.

(** The widget an action is on. *)
Definition target (a : action) : option wid :=
  match a with
  | Choose label _ => Some (KSelectbox, label)
  | Pick label _ => Some (KRadio, label)
  | Enter label _ => Some (KNumberInput, label)
  | Click label => Some (KButton, label)
  | Rerun => None
  end.

(** The session with which the run an action starts is served. *)
Definition set (a : action) (s : session) : session :=
  match a with
  | Choose label i => <[(KSelectbox, label) := WIndex i]> s
  | Pick label i => <[(KRadio, label) := WIndex i]> s
  | Enter label z => <[(KNumberInput, label) := WNumber z]> s
  | Click label => <[(KButton, label) := WTrigger]> s
  | Rerun => s
  end.

(** The session after a run: the state of a widget the run did not
    declare is dropped, and a click is consumed. *)
Definition kept (declared : list wid) (s : session) : session :=
  filter (λ wv, wv.1 ∈ declared /\ wv.2 <> WTrigger) s.

(** A value fits its widget: it is of the widget's kind, an index of a
    select box of the form is one of its options, a number of an input
    of the form is at least its minimum. *)
Definition fits (w : wid) (v : wvalue) : bool :=
  match w, v with
  | (KSelectbox, label), WIndex i =>
      match select_boxes !! label with
      | Some options => bool_decide (i < length options)%nat
      | None => true
      end
  | (KNumberInput, label), WNumber z =>
      match number_inputs !! label with
      | Some min_value => bool_decide (min_value <= z)
      | None => true
      end
  | (KRadio, _), WIndex _ => true
  | (KButton, _), WTrigger => true
  | _, _ => false
  end.

Definition session_fits (s : session) : Prop :=
  map_Forall (λ w v, fits w v = true) s.

(** A session that holds no click. *)
Definition calm (s : session) : Prop :=
  map_Forall (λ (w : wid) v, v <> WTrigger) s.

(** ** Pages and sessions that agree *)

(** Every select box and number input shown is one of the form. *)
Definition all_known (out : list emitted) : Prop :=
  Forall (λ x, known x.2 = true) out.

(** Two sessions agree on the widgets [D]. *)
Definition agree (D : list wid) (s s' : session) : Prop :=
  forall w, w ∈ D -> s !! w = s' !! w.

(** The widgets the prediction page reads. *)
Definition form_state : list wid := nav_widget :: form_widgets.

(** ** Sessions *)

Lemma index_fits_of s label options :
  session_fits s -> select_boxes !! label = Some options ->
  index_fits (session_of s) label options = true.
Proof.
  intros Hs Hl. unfold index_fits, session_of.
  destruct (s !! (KSelectbox, label)) as [[i| |]|] eqn:E; try done.
  apply Hs in E. cbn [fits] in E. by rewrite Hl in E.
Qed.

Lemma number_fits_of s label min_value :
  session_fits s -> number_inputs !! label = Some min_value ->
  number_fits (session_of s) label min_value = true.
Proof.
  intros Hs Hl. unfold number_fits, session_of.
  destruct (s !! (KNumberInput, label)) as [[|z|]|] eqn:E; try done.
  apply Hs in E. cbn [fits] in E. by rewrite Hl in E.
Qed.

(** A session that fits is one of the sessions the form is specified
    for. *)
Lemma session_fits_valid_ui s :
  session_fits s -> valid_ui (session_of s) = true.
Proof.
  intros Hs. unfold valid_ui.
  by rewrite !(index_fits_of s), !(number_fits_of s) by done.
Qed.

Lemma fits_not_trigger s k label :
  session_fits s -> k <> KButton -> s !! (k, label) <> Some WTrigger.
Proof. intros Hs Hk H. apply Hs in H. by destruct k. Qed.

(** An action that a page permits is offered by one of its elements. *)
Lemma permitted_offers page a :
  permitted page a = true -> a <> Rerun ->
  exists x, x ∈ page /\ offers a x.2 = true.
Proof.
  intros Hp Ha. apply Exists_exists.
  by destruct a; [apply bool_decide_eq_true in Hp..|].
Qed.

Lemma offers_permitted page a x :
  x ∈ page -> offers a x.2 = true -> a <> Rerun -> permitted page a = true.
Proof.
  intros Hx Ho Ha.
  assert (Exists (λ x, offers a x.2 = true) page)
    by (apply Exists_exists; eauto).
  by destruct a; [apply bool_decide_eq_true..|].
Qed.

Lemma permitted_subseteq page page' a :
  page ⊆ page' -> permitted page a = true -> permitted page' a = true.
Proof.
  intros Hp Ha. destruct (base.decide (a = Rerun)) as [->|Hr]; [done|].
  destruct (permitted_offers page a Ha Hr) as (x & Hx & Ho).
  eapply offers_permitted; [by apply Hp|done..].
Qed.

(** What a page of known widgets permits fits. *)
Lemma set_fits page a s :
  all_known page -> permitted page a = true ->
  session_fits s -> session_fits (set a s).
Proof.
  intros Hk Hp Hs. destruct (base.decide (a = Rerun)) as [->|Ha]; [done|].
  destruct (permitted_offers page a Hp Ha) as ([p e] & Hx & Ho).
  pose proof (proj1 (Forall_forall _ _) Hk _ Hx) as He. cbn [snd] in *.
  destruct a as [label i|label i|label z|label|]; [..|done];
    apply map_Forall_insert_2; try done; cbn [fits].
  - destruct e; try done. cbn [offers known] in *.
    apply andb_true_iff in Ho as [->%bool_decide_eq_true Ho].
    apply bool_decide_eq_true in He. by rewrite He.
  - destruct e; try done. cbn [offers known] in *.
    apply andb_true_iff in Ho as [->%bool_decide_eq_true Ho].
    apply bool_decide_eq_true in He. by rewrite He.
Qed.

Lemma kept_fits declared s : session_fits s -> session_fits (kept declared s).
Proof.
  intros Hs w v [Hw _]%map_lookup_filter_Some. by apply Hs in Hw.
Qed.

Lemma kept_calm declared s : calm (kept declared s).
Proof. by intros w v [_ [_ Hv]]%map_lookup_filter_Some. Qed.

Lemma calm_not_clicked s w : calm s -> clicked (session_of s w) = false.
Proof.
  intros Hs. unfold clicked, session_of. apply bool_decide_eq_false.
  intros Hw. by apply Hs in Hw.
Qed.

Lemma set_lookup_ne a s w : target a <> Some w -> set a s !! w = s !! w.
Proof.
  destruct a; cbn [target set]; intros H; [..|done];
    apply lookup_insert_ne; congruence.
Qed.

Lemma clicked_set a s w :
  calm s -> target a <> Some w -> clicked (session_of (set a s) w) = false.
Proof.
  intros Hs Ha. unfold session_of, clicked. rewrite set_lookup_ne by done.
  by apply calm_not_clicked.
Qed.

(** The run an action starts sees the click of the button exactly when
    the action is that click. *)
Lemma clicked_button a s :
  calm s ->
  clicked (session_of (set a s) button_widget)
  = bool_decide (a = Click "🚀 Calculer la probabilité d'approbation").
Proof.
  intros Hs. unfold button_widget.
  destruct (base.decide (target a = Some button_widget)) as [Ht|Ht].
  - unfold button_widget in Ht. destruct a; cbn [target] in Ht; simplify_eq.
    rewrite bool_decide_eq_true_2 by done.
    unfold session_of. cbn [set]. by rewrite lookup_insert_eq.
  - rewrite clicked_set by done. symmetry. apply bool_decide_eq_false_2.
    by intros ->.
Qed.

Lemma set_nav a s :
  target a <> Some nav_widget ->
  nav_index (session_of (set a s)) = nav_index (session_of s).
Proof. intros H. unfold nav_index, session_of. by rewrite set_lookup_ne. Qed.

(** ** Sessions that agree on some widgets *)

#[export] Instance agree_equivalence D : Equivalence (agree D).
Proof.
  split; [done|by intros s s' H w Hw; symmetry; apply H|].
  intros s1 s2 s3 H1 H2 w Hw. by rewrite H1, H2.
Qed.

Lemma agree_subseteq D D' s s' : D ⊆ D' -> agree D' s s' -> agree D s s'.
Proof. intros HD H w Hw. by apply H, HD. Qed.

#[export] Instance set_agree D a : Proper (agree D ==> agree D) (set a).
Proof.
  intros s s' H w Hw. destruct (base.decide (target a = Some w)) as [Ht|Ht].
  - destruct a; simplify_eq/=; by rewrite !lookup_insert_eq.
  - rewrite !set_lookup_ne by done. by apply H.
Qed.

Lemma foldl_set_agree D l : forall s s',
  agree D s s' -> agree D (foldl (flip set) s l) (foldl (flip set) s' l).
Proof.
  induction l as [|a l IH]; intros s s' H; [done|].
  cbn [foldl]. by apply IH, set_agree.
Qed.

(** The form reads the widgets of the form, the navigation its own. *)
Lemma read_inputs_agree s s' :
  agree form_widgets s s' ->
  read_inputs (session_of s) = read_inputs (session_of s').
Proof.
  intros H. unfold read_inputs, choice, number, session_of.
  by rewrite !H by by_decide.
Qed.

Lemma nav_index_agree s s' :
  agree form_state s s' ->
  nav_index (session_of s) = nav_index (session_of s').
Proof.
  intros H. unfold nav_index, session_of. by rewrite H by by_decide.
Qed.

Lemma read_inputs_click label s :
  read_inputs (session_of (set (Click label) s))
  = read_inputs (session_of s).
Proof.
  apply read_inputs_agree. intros t Ht. apply lookup_insert_ne.
  intros <-. revert Ht. by_decide.
Qed.

(** What is kept of a session agrees with it on the widgets that were
    declared. *)
Lemma kept_agree D declared s :
  D ⊆ declared -> Forall (λ w, s !! w <> Some WTrigger) D ->
  agree D (kept declared s) s.
Proof.
  intros HD Hs w Hw. unfold kept.
  destruct (s !! w) as [v|] eqn:E.
  - apply map_lookup_filter_Some. split; [done|]. split; [by apply HD|].
    cbn. intros ->. by eapply (proj1 (Forall_forall _ _) Hs w).
  - by apply map_lookup_filter_None_2; left.
Qed.

Lemma form_state_typed s :
  session_fits s -> Forall (λ w, s !! w <> Some WTrigger) form_state.
Proof.
  intros Hs. unfold form_state, form_widgets, nav_widget.
  repeat (apply Forall_cons; split); [..|done]; by apply fits_not_trigger.
Qed.

