(* ===== verification/World.v ===== *)
(** * World: the process and the browsers it serves

    The loop of Streamlit over the runs of [Session]: a [world] is the
    server of [Session] and the clients, each with its session and the
    page it shows.  [receive] serves one request, a browser that
    connects or an action of [Browser] that the client's page permits:
    the server moves by [rerun], the client gets the page of the run
    and keeps the state of the widgets the run declared.  [wstep] is
    the step relation; one request is served at a time.

    Theorems, by induction on the steps: the steps of the world are
    steps of the server; every session fits the form and holds no click;
    every table the pipeline was asked to score is the table of a record
    of the domain; the pipeline is asked exactly by the run a click on
    the prediction page starts, when the gateway is ready; once a
    request is served while the artifact can be read or is missing, the
    gateway is settled for good. *)

From S2P Require Import Prelude PyFloat Runtime Keeps Fixtures.
From S2P Require Import Gateway Predict Docs App Session Spec Browser.

(** ** What a run shows and asks *)

(** The elements of [out] pass the test [P]. *)
Definition passes (P : element -> bool) (out : list emitted) : Prop :=
  Forall (λ x, P x.2 = true) out.

(** A run shows elements that pass [P] only, after elements that do. *)
Definition over (P : element -> bool) (st st' : run_state) : Prop :=
  passes P (rs_out st) -> passes P (rs_out st').

(** A run shows no widget but those of the form. *)
Abbreviation tame := (over known).

(** A run asks no pipeline. *)
Definition mute (st st' : run_state) : Prop :=
  asked (rs_io st') = asked (rs_io st).

(** The notice stored with the model passes [P]. *)
Definition cache_over (P : element -> bool)
    (cache : gmap string cache_entry) : Prop :=
  forall v replay, cache !! load_model_key = Some (v, replay) ->
    Forall (λ e, P e = true) replay.

(** The notice stored with the model shows no widget. *)
Abbreviation cache_known := (cache_over known).

(** Whether a run asks the pipeline: the prediction page is shown, the
    button was clicked and the load gave a pipeline. *)
Definition requests (s : wid -> option wvalue) (r : exn + option pipeline)
    : bool :=
  bool_decide (nav_index s = 0%nat) && clicked (s button_widget)
  && match r with inr (Some _) => true | _ => false end.

(** The gateway holds a pipeline. *)
Definition ready (g : gateway) : bool :=
  match g with Ready _ => true | _ => false end.

(** With these files, a load fills the cache. *)
Definition settles (e : env) : bool :=
  bool_decide (is_Some (load_entry (joblib_load e artifact_path))).

(** ** The world *)

(** A client: the session of a browser and the page it shows. *)
Record client := Client {
  cl_session : session;
  cl_page : list emitted
}.

Record world := World {
  w_server : server;
  w_clients : gmap nat client
}.

(** The process has started and nobody is connected. *)
Definition online : world := World boot ∅.

(** The run of the script for a session. *)
Definition run (e : env) (s : session) (sv : server)
    : (exn + unit) * run_state :=
  app (cx_of e s) (start sv).

(** One run for the client [k] with the session [s]: the server moves by
    [rerun]; the client gets the page and keeps the state of the widgets
    the run declared. *)
Definition serve (e : env) (k : nat) (s : session) (w : world) : world :=
  let st := (run e s (w_server w)).2 in
  World (rerun (Interaction e s) (w_server w))
    (<[k := Client (kept (rs_widgets st) s) (page st)]> (w_clients w)).

(** A request: a browser connects, or a connected one acts. *)
Inductive request :=
| Connect (k : nat)
| Act (k : nat) (a : action).

(** The world after a request, if the request can be made: a new client
    starts with an empty session; an action has to be one the client's
    page permits. *)
Definition receive (e : env) (q : request) (w : world) : option world :=
  match q with
  | Connect k =>
      match w_clients w !! k with
      | None => Some (serve e k ∅ w)
      | Some _ => None
      end
  | Act k a =>
      c ← w_clients w !! k;
      if permitted (cl_page c) a
      then Some (serve e k (set a (cl_session c)) w)
      else None
  end.

(** One request is served at a time, with the files as they are at that
    moment. *)
Inductive wstep (ok : env -> Prop) : world -> world -> Prop :=
| wstep_receive e q w w' :
    ok e -> receive e q w = Some w' -> wstep ok w w'.

Definition wreachable (ok : env -> Prop) : world -> Prop :=
  rtc (wstep ok) online.

(** A list of requests, served in order. *)
Fixpoint play (l : list (env * request)) (w : world) : option world :=
  match l with
  | [] => Some w
  | (e, q) :: l => w' ← receive e q w; play l w'
  end.

(** ** The invariant *)

Record client_ok (c : client) : Prop := Client_ok {
  ok_fits : session_fits (cl_session c);
  ok_calm : calm (cl_session c);
  ok_page : all_known (cl_page c)
}.

(** The table of a record of the domain. *)
Definition valid_df (df : dataframe) : Prop :=
  exists i, df = input_df i /\ valid_inputs i.

Record sound (w : world) : Prop := Sound {
  sound_clients : map_Forall (λ _, client_ok) (w_clients w);
  sound_cache : cache_known (sv_cache (w_server w));
  sound_asked : Forall valid_df (asked (sv_log (w_server w)))
}.

(** ** Fixtures *)

(** Two browsers have connected while the artifact was in place. *)
Definition first_visitor : world := serve env_found 0 ∅ online.
Definition two_visitors : world := serve env_found 1 ∅ first_visitor.

(** ** [over] and [mute] are kept by the pages *)

(** [over P] allows everything but to show an element that fails [P]. *)
#[export] Instance over_preorder P : PreOrder (over P).
Proof.
  split; [by intros st H|]. intros st1 st2 st3 H1 H2 H. by apply H2, H1.
Qed.

#[export] Instance over_allows P : Allows (over P).
Proof. split. apply _. Qed.

#[export] Instance over_allows_register P w : AllowsRegister (over P) w.
Proof. by intros st H. Qed.

Lemma over_allows_emit P e : P e = true -> AllowsEmit (over P) e.
Proof. intros He p st H. by constructor. Qed.

#[export] Instance tame_allows_emit e : Known e -> AllowsEmit tame e.
Proof. apply over_allows_emit. Qed.

#[export] Instance over_allows_io P ev : AllowsIo (over P) ev.
Proof. by intros st H. Qed.

#[export] Instance mute_preorder : PreOrder mute.
Proof. split; [done|]. unfold mute. intros st1 st2 st3. congruence. Qed.

#[export] Instance mute_allows : Allows mute.
Proof. split. apply _. Qed.

#[export] Instance mute_allows_register w : AllowsRegister mute w.
Proof. by intros st. Qed.

#[export] Instance mute_allows_emit e : AllowsEmit mute e.
Proof. by intros p st. Qed.

#[export] Instance mute_allows_load p : AllowsIo mute (IoJoblibLoad p).
Proof. by intros st. Qed.

#[export] Instance mute_allows_image p : AllowsIo mute (IoImageOpen p).
Proof. by intros st. Qed.

Lemma mute_asked {A} (m : script A) `{!Keeps mute m} cx st :
  asked (rs_io (m cx st).2) = asked (rs_io st).
Proof. exact (keeps (R:=mute) cx st). Qed.

(** ** One run *)

Lemma passes_emits P x st :
  passes P x -> passes P (rs_out st) ->
  passes P (rs_out (st_emits (reverse x) st)).
Proof. intros Hx Hout. apply Forall_app. by split; [apply Forall_reverse|]. Qed.

Lemma passes_replay P p replay :
  Forall (λ e, P e = true) replay -> passes P (pair p <$> replay).
Proof. intros H. apply Forall_fmap. by eapply Forall_impl. Qed.

(** What holds of the load and of the cache for every test that the
    message of the missing artifact passes. *)
Section over.
Context (P : element -> bool) (Hmissing : P (EError model_not_found) = true).

Lemma load_model_over cx st :
  cache_over P (rs_cache st) -> passes P (rs_out st) ->
  passes P (rs_out (load_model cx st).2).
Proof.
  intros Hc Hout. rewrite load_model_outcome. unfold load_outcome.
  destruct (cached_model st) as [[v replay]|] eqn:Hm.
  - apply passes_emits; [|done]. apply passes_replay. by eapply Hc.
  - unfold cold_outcome. destruct (joblib_load _ _) as [e|m]; [|done].
    destruct (only _ _); [|done]. by constructor.
Qed.

Lemma load_entry_over r v replay :
  load_entry r = Some (v, replay) -> Forall (λ e, P e = true) replay.
Proof.
  destruct r as [e|m]; cbn; [destruct (only _ _)|]; intros [= <- <-];
    by repeat constructor.
Qed.

Lemma rerun_cache_over i sv :
  cache_over P (sv_cache sv) -> cache_over P (sv_cache (rerun i sv)).
Proof.
  intros Hc. destruct (sv_model sv) as [c|] eqn:Hm.
  - destruct (rerun_warm i sv c Hm) as [-> _]. done.
  - destruct (rerun_cold i sv Hm) as [_ ->].
    destruct (load_entry _) as [[v replay]|] eqn:He; [|done].
    intros v' replay'. rewrite lookup_insert_eq. intros [= <- <-].
    by eapply load_entry_over.
Qed.

End over.

Lemma load_model_asked cx st :
  asked (rs_io (load_model cx st).2) = asked (rs_io st).
Proof.
  rewrite load_model_outcome. unfold load_outcome, cold_outcome.
  repeat case_match; done.
Qed.

(** Every select box and number input of a page of the script is one of
    the form. *)
Lemma app_known cx st :
  rs_out st = [] -> cache_known (rs_cache st) ->
  all_known (rs_out (app cx st).2).
Proof.
  intros Hout Hc.
  destruct (load_model cx (st_css cx st)) as [r st1] eqn:Hload.
  apply (app_after_load tame cx st r st1 Hout Hload); [intros; apply _|].
  replace st1 with (load_model cx (st_css cx st)).2 by by rewrite Hload.
  apply load_model_over; [done..|].
  cbn [st_css st_emits rs_out]. rewrite Hout. by repeat constructor.
Qed.

Lemma predict_handler_asked model b i cx st :
  (predict_handler model b i cx st).1 = inr ()
  /\ asked (rs_io (predict_handler model b i cx st).2)
     = (if b && bool_decide (is_Some model) then [input_df i] else [])
       ++ asked (rs_io st).
Proof.
  destruct b, model as [m|]; try done.
  erewrite predict_handler_after by apply prob_state.
  by destruct (prob m _ _ _).1.
Qed.

(** What a run asks of the pipeline. *)
Lemma app_asks cx st :
  rs_out st = [] -> rs_widgets st = [] ->
  asked (rs_io (app cx st).2) =
  (if requests (cx_session cx) (load_model cx (st_css cx st)).1
   then [input_df (read_inputs (cx_session cx))] else [])
  ++ asked (rs_io st).
Proof.
  intros Hout Hws. pose proof (load_model_asked cx (st_css cx st)) as Hl.
  pose proof (load_model_widgets cx (st_css cx st)) as Hw.
  destruct (load_model cx (st_css cx st)) as [r st1] eqn:Hload.
  rewrite (app_steps _ _ _ _ Hout Hws Hload).
  cbn [fst snd st_css st_emits rs_io rs_widgets] in *.
  unfold requests. destruct r as [e|model]; [by rewrite andb_false_r|].
  rewrite body_nav. destruct (nav_index _) as [|[|[|k]]]; cbn [bool_decide];
    [|rewrite <- Hl; apply (mute_asked (_ ;; footer))..].
  unfold mbind, script_bind. rewrite prediction_page_steps
    by (apply page_widgets_fresh; by rewrite Hw).
  destruct (predict_handler_asked model (clicked (cx_session cx button_widget))
              (read_inputs (cx_session cx)) (cx_col2 cx)
              (st_head cx (st_sidebar cx st1))) as [H1 H2].
  destruct (predict_handler _ _ _ _ _) as [r' st']. cbn [fst snd] in *.
  subst r'. rewrite footer_steps. cbn [snd st_emits rs_io]. rewrite H2.
  cbn [st_head st_sidebar rs_io]. rewrite Hl.
  by destruct (clicked _), model.
Qed.

(** The run of the prediction page: the widgets it declares and the head
    of the page it shows. *)
Lemma app_form cx st model st1 :
  rs_out st = [] -> rs_widgets st = [] ->
  load_model cx (st_css cx st) = (inr model, st1) ->
  nav_index (cx_session cx) = 0%nat ->
  rs_widgets (app cx st).2 = reverse page_widgets ++ [nav_widget]
  /\ page_head (cx_path cx) ⊆ page (app cx st).2.
Proof.
  intros Hout Hws Hload Hnav.
  pose proof (load_model_widgets cx (st_css cx st)) as Hw.
  rewrite Hload in Hw. cbn [snd st_css st_emits rs_widgets] in Hw.
  rewrite (app_steps _ _ _ _ Hout Hws Hload), body_nav, Hnav.
  unfold mbind, script_bind. rewrite prediction_page_steps
    by (apply page_widgets_fresh; by rewrite Hw).
  destruct (predict_handler_ends model (clicked (cx_session cx button_widget))
              (read_inputs (cx_session cx)) (cx_col2 cx)
              (st_head cx (st_sidebar cx st1))) as (x & io & -> & _).
  rewrite footer_steps. unfold page.
  cbn [snd st_emits rs_widgets rs_out st_head st_sidebar].
  split; [by rewrite Hw, Hws|]. intros y Hy.
  rewrite elem_of_reverse, !elem_of_app, !elem_of_reverse. auto.
Qed.

(** What the load of a run gave is what the gateway says after the
    run. *)
Lemma load_ready i sv :
  match (load_model (cx_of (i_env i) (i_session i))
           (st_css (cx_of (i_env i) (i_session i)) (start sv))).1 with
  | inr (Some _) => true
  | _ => false
  end = ready (gw_of (rerun i sv)).
Proof.
  rewrite gw_step, load_model_outcome. unfold load_outcome, gw_of, sv_model.
  change (cached_model (st_css _ (start sv)))
    with (sv_cache sv !! load_model_key).
  destruct (sv_cache sv !! load_model_key) as [[[m|] replay]|]; [done..|].
  unfold cold_outcome. cbn [gw_load].
  destruct (joblib_load _ _) as [x|m]; [|done]. by destruct (only _ _).
Qed.

(** ** The gateway *)

Lemma gw_load_settled r g : g <> Unloaded -> gw_load r g = g.
Proof. by destruct g. Qed.

Lemma gw_load_settles e g :
  settles e = true -> gw_load (joblib_load e artifact_path) g <> Unloaded.
Proof.
  intros [c Hc]%bool_decide_eq_true. destruct g; [|done..]. cbn [gw_load].
  destruct (joblib_load _ _) as [x|m]; [|done]. cbn [load_entry] in Hc.
  by destruct (only _ _).
Qed.

Lemma gw_of_ready sv m :
  gw_of sv = Ready m -> exists replay, sv_model sv = Some (Some m, replay).
Proof.
  unfold gw_of. destruct (sv_model sv) as [[[m'|] replay]|]; [|done..].
  intros [= ->]. by exists replay.
Qed.

(** ** One request *)

Lemma rerun_asked e s sv :
  session_fits s -> Forall valid_df (asked (sv_log sv)) ->
  Forall valid_df (asked (sv_log (rerun (Interaction e s) sv))).
Proof.
  intros Hs Ha. unfold rerun. cbn [sv_log i_env i_session].
  rewrite app_asks by done. apply Forall_app. split; [|done].
  destruct (requests _ _); [|done]. apply Forall_singleton.
  eexists. split; [done|].
  by apply read_inputs_valid, session_fits_valid_ui.
Qed.

Lemma serve_sound e k s w :
  sound w -> session_fits s -> sound (serve e k s w).
Proof.
  intros [Hcl Hc Ha] Hs. split; cbn [serve w_server w_clients].
  - apply map_Forall_insert_2; [|done]. split; cbn [cl_session cl_page].
    + by apply kept_fits.
    + apply kept_calm.
    + apply Forall_reverse. by apply app_known.
  - by apply rerun_cache_over.
  - by apply rerun_asked.
Qed.

Lemma receive_sound e q w w' :
  receive e q w = Some w' -> sound w -> sound w'.
Proof.
  intros Hr Hw. destruct q as [k|k a]; cbn [receive] in Hr.
  - destruct (w_clients w !! k); simplify_eq.
    by apply serve_sound.
  - destruct (w_clients w !! k) as [c|] eqn:Hc; [|done]. cbn in Hr.
    destruct (permitted _ _) eqn:Hp; simplify_eq.
    destruct (sound_clients w Hw k c Hc) as [Hf _ Hk].
    apply serve_sound; [done|]. by eapply set_fits.
Qed.

Lemma receive_server e q w w' :
  receive e q w = Some w' ->
  exists s, w_server w' = rerun (Interaction e s) (w_server w).
Proof.
  destruct q as [k|k a]; cbn [receive]; intros Hr.
  - destruct (w_clients w !! k); simplify_eq. by eexists.
  - destruct (w_clients w !! k) as [c|]; [|done]. cbn in Hr.
    destruct (permitted _ _); simplify_eq. by eexists.
Qed.

Lemma connect_new e k w :
  w_clients w !! k = None -> receive e (Connect k) w = Some (serve e k ∅ w).
Proof. intros H. cbn [receive]. by rewrite H. Qed.

(** A browser can always connect. *)
Lemma connect_fresh e w :
  receive e (Connect (fresh (dom (w_clients w)))) w
  = Some (serve e (fresh (dom (w_clients w))) ∅ w).
Proof. apply connect_new, not_elem_of_dom, is_fresh. Qed.

(** What a request asks of the pipeline. *)
Lemma receive_asked e k a w c w' :
  sound w -> w_clients w !! k = Some c ->
  receive e (Act k a) w = Some w' ->
  asked (sv_log (w_server w')) =
  (if bool_decide (a = Click "🚀 Calculer la probabilité d'approbation")
      && bool_decide (nav_index (session_of (cl_session c)) = 0%nat)
      && ready (gw_of (w_server w'))
   then [input_df (read_inputs (session_of (cl_session c)))] else [])
  ++ asked (sv_log (w_server w)).
Proof.
  intros Hw Hc Hr. destruct (sound_clients w Hw k c Hc) as [_ Hcalm _].
  cbn [receive] in Hr. rewrite Hc in Hr. cbn [mbind option_bind] in Hr.
  destruct (permitted _ _); simplify_eq. cbn [serve w_server].
  rewrite <- load_ready. unfold rerun. cbn [sv_log i_env i_session].
  rewrite app_asks by done. unfold requests. cbn [cx_of cx_session].
  rewrite clicked_button by done. rewrite (andb_comm (bool_decide (_ = 0%nat))).
  case_bool_decide as Ha; [subst a|done]. cbn [andb].
  by rewrite set_nav, read_inputs_click.
Qed.

(** ** The steps *)

Lemma online_sound : sound online.
Proof. split; [apply map_Forall_empty| |by constructor]. by intros v r. Qed.

Lemma wreachable_sound ok w : wreachable ok w -> sound w.
Proof.
  revert w. apply rtc_ind_r; [apply online_sound|].
  intros w w' _ [e q w1 w2 _ Hr] IH. by eapply receive_sound.
Qed.

Lemma wstep_step ok w w' :
  wstep ok w w' -> step ok (w_server w) (w_server w').
Proof. intros [e q w1 w2 He [s ->]%receive_server]. by constructor. Qed.

Lemma wreachable_server ok w :
  wreachable ok w -> reachable ok (w_server w).
Proof.
  revert w. apply rtc_ind_r; [apply rtc_refl|].
  intros w w' _ Hs IH. eapply rtc_r; [done|]. by apply wstep_step.
Qed.

Lemma wstep_gateway ok w w' :
  wstep ok w w' -> gw_of (w_server w) <> Unloaded ->
  gw_of (w_server w') = gw_of (w_server w).
Proof.
  intros [e q w1 w2 _ [s ->]%receive_server] Hg.
  by rewrite gw_step, gw_load_settled.
Qed.

Lemma rtc_wstep_gateway ok w w' :
  rtc (wstep ok) w w' -> gw_of (w_server w) <> Unloaded ->
  gw_of (w_server w') = gw_of (w_server w).
Proof.
  induction 1 as [|w1 w2 w3 Hs _ IH]; intros Hg; [done|].
  rewrite IH, (wstep_gateway _ _ _ Hs); [done..|].
  by rewrite (wstep_gateway _ _ _ Hs).
Qed.

(** ** A request on the prediction page, with the gateway ready *)

Lemma serve_ready e k s w m :
  gw_of (w_server w) = Ready m -> gw_of (w_server (serve e k s w)) = Ready m.
Proof. intros Hm. cbn [serve w_server]. by rewrite gw_step, Hm. Qed.

Lemma nav_index_empty : nav_index (session_of ∅) = 0%nat.
Proof. done. Qed.

Section serve.
Context (e : env) (k : nat) (s : session) (w : world) (m : pipeline).
Context (Hm : gw_of (w_server w) = Ready m).
Context (Hnav : nav_index (session_of s) = 0%nat).
Context (Hs : session_fits s).

Local Set Default Proof Using "All".

Lemma serve_load :
  exists st1,
    load_model (cx_of e s) (st_css (cx_of e s) (start (w_server w)))
    = (inr (Some m), st1).
Proof.
  destruct (gw_of_ready _ _ Hm) as [replay Hc].
  eexists. by apply load_model_warm.
Qed.

(** The client sees the form and keeps what it holds for it. *)
Lemma serve_client :
  exists c, w_clients (serve e k s w) !! k = Some c
    /\ agree form_state (cl_session c) s
    /\ page_head [] ⊆ cl_page c.
Proof.
  destruct serve_load as [st1 Hload].
  destruct (app_form (cx_of e s) (start (w_server w)) _ _ eq_refl eq_refl
              Hload Hnav) as [Hw Hp].
  eexists. split; [apply lookup_insert_eq|]. cbn [cl_session cl_page].
  split; [|done]. apply kept_agree; [|by apply form_state_typed].
  unfold run. rewrite Hw. by_decide.
Qed.

Lemma serve_asked :
  asked (sv_log (w_server (serve e k s w))) =
  (if clicked (session_of s button_widget)
   then [input_df (read_inputs (session_of s))] else [])
  ++ asked (sv_log (w_server w)).
Proof.
  destruct serve_load as [st1 Hload]. cbn [serve w_server]. unfold rerun.
  cbn [sv_log i_env i_session]. rewrite app_asks by done. unfold requests.
  rewrite Hload. cbn [fst cx_of cx_session]. rewrite Hnav, andb_true_r. done.
Qed.

End serve.

(** The click of the button, at a client that sees the form. *)
Lemma click_on_form e k w c m :
  sound w -> gw_of (w_server w) = Ready m -> w_clients w !! k = Some c ->
  nav_index (session_of (cl_session c)) = 0%nat ->
  page_head [] ⊆ cl_page c ->
  exists w',
    receive e (Act k (Click "🚀 Calculer la probabilité d'approbation")) w
    = Some w'
    /\ asked (sv_log (w_server w'))
       = input_df (read_inputs (session_of (cl_session c)))
         :: asked (sv_log (w_server w)).
Proof.
  intros Hw Hm Hc Hnav Hp.
  destruct (sound_clients w Hw k c Hc) as [Hfit Hcalm Hk].
  set (a := Click "🚀 Calculer la probabilité d'approbation").
  assert (Hperm : permitted (cl_page c) a = true).
  { eapply permitted_subseteq; [done|]. by_decide. }
  assert (Hfit' : session_fits (set a (cl_session c))) by by eapply set_fits.
  assert (Hnav' : nav_index (session_of (set a (cl_session c))) = 0%nat)
    by by rewrite set_nav.
  eexists. cbn [receive]. rewrite Hc. cbn [mbind option_bind].
  rewrite Hperm. split; [done|].
  rewrite (serve_asked e k _ w m Hm Hnav' Hfit'). subst a.
  rewrite read_inputs_click. unfold session_of, button_widget. cbn [set].
  by rewrite lookup_insert_eq.
Qed.

(** ** The fixture *)

Lemma first_visitor_ready :
  gw_of (w_server first_visitor) = Ready fixture_model.
Proof. unfold first_visitor. cbn [serve w_server]. by rewrite gw_step. Qed.

Lemma two_visitors_reachable : wreachable any_env two_visitors.
Proof.
  eapply rtc_l; [|apply rtc_once]; by eapply (wstep_receive _ env_found),
    connect_new.
Qed.

Lemma two_visitors_ready : gw_of (w_server two_visitors) = Ready fixture_model.
Proof. by apply serve_ready, first_visitor_ready. Qed.

(** The second visitor sees the form. *)
Lemma two_visitors_client :
  exists c, w_clients two_visitors !! 1%nat = Some c
    /\ nav_index (session_of (cl_session c)) = 0%nat
    /\ page_head [] ⊆ cl_page c.
Proof.
  destruct (serve_client env_found 1 ∅ first_visitor fixture_model
              first_visitor_ready nav_index_empty (map_Forall_empty _))
    as (c & Hc & Hag & Hp).
  exists c. split; [done|]. split; [|done].
  by rewrite (nav_index_agree _ _ Hag).
Qed.

(** ** Theorems *)

(** C10: Only records of the domain reach the pipeline.  In every world
    that can be reached, every table the pipeline was asked to score is
    the table of a record whose choices are options of their select box
    and whose amounts are not negative: what the widgets permit is all
    the validation there is, and it is enough. *)
Theorem pipeline_asked_valid ok w :
  wreachable ok w ->
  Forall (λ df, exists i, df = input_df i /\ valid_inputs i)
    (asked (sv_log (w_server w))).
Proof. intros Hw%wreachable_sound. apply (sound_asked w Hw). Qed.

(** C12: The pipeline is asked by a click, once.  When a client acts, the
    run asks the pipeline exactly when the action is the click of the
    button, the client is on the prediction page and the gateway is
    ready; it asks once, with the record the client's session holds.
    Every other action, a reload included, asks nothing: a click is
    consumed by the run it starts. *)
Theorem asks_on_click ok w k c a e w' :
  wreachable ok w -> w_clients w !! k = Some c ->
  receive e (Act k a) w = Some w' ->
  asked (sv_log (w_server w')) =
  (if bool_decide (a = Click "🚀 Calculer la probabilité d'approbation")
      && bool_decide (nav_index (session_of (cl_session c)) = 0%nat)
      && ready (gw_of (w_server w'))
   then [input_df (read_inputs (session_of (cl_session c)))] else [])
  ++ asked (sv_log (w_server w)).
Proof. intros Hw%wreachable_sound. by apply receive_asked. Qed.

(** C13: The check of the record is not missed.  The specification has
    the handler check the record it builds and reject it with a
    validation error; the script has no such check.  In every world that
    can be reached, whatever a client does that its page permits, the
    form gives the run a record of the domain, so that the contract with
    the check, [predict], comes to the outcome of the contract without
    it, which is the one the script renders. *)
Theorem validation_redundant ok w k c a model request :
  wreachable ok w -> w_clients w !! k = Some c ->
  permitted (cl_page c) a = true ->
  valid_inputs (read_inputs (session_of (set a (cl_session c))))
  /\ predict model request (read_inputs (session_of (set a (cl_session c))))
     = inr (handle model request
              (read_inputs (session_of (set a (cl_session c))))).
Proof.
  intros Hw%wreachable_sound Hc Ha.
  destruct (sound_clients w Hw k c Hc) as [Hfit _ Hk].
  assert (valid_inputs (read_inputs (session_of (set a (cl_session c))))).
  { eapply read_inputs_valid, session_fits_valid_ui, set_fits; done. }
  split; [done|]. by apply predict_valid.
Qed.

(** C14: The gateway settles.  In every world a request can be served,
    and once a request is served while the artifact can be read or is
    missing, the gateway is ready or unavailable, and it is the same in
    every world that follows, whatever the files become. *)
Theorem gateway_settles ok w e :
  settles e = true ->
  (exists q w1, receive e q w = Some w1)
  /\ forall q w1 w2,
       receive e q w = Some w1 -> rtc (wstep ok) w1 w2 ->
       gw_of (w_server w1) <> Unloaded
       /\ gw_of (w_server w2) = gw_of (w_server w1).
Proof.
  intros He. split; [eexists _, _; apply connect_fresh|].
  intros q w1 w2 [s Hs]%receive_server Hrtc.
  assert (gw_of (w_server w1) <> Unloaded)
    by (rewrite Hs, gw_step; by apply gw_load_settles).
  split; [done|]. by eapply rtc_wstep_gateway.
Qed.

(** ** The theorems at the fixture *)

(** The second visitor clicks. *)
Lemma pipeline_asked_valid_witness :
  exists w,
    receive env_found
      (Act 1 (Click "🚀 Calculer la probabilité d'approbation")) two_visitors
    = Some w
    /\ asked (sv_log (w_server w)) <> []
    /\ Forall (λ df, exists i, df = input_df i /\ valid_inputs i)
         (asked (sv_log (w_server w))).
Proof.
  destruct two_visitors_client as (c & Hc & Hnav & Hp).
  destruct (click_on_form env_found 1 two_visitors c fixture_model
              (wreachable_sound _ _ two_visitors_reachable)
              two_visitors_ready Hc Hnav Hp) as (w & Hr & Ha).
  exists w. split; [done|]. split; [by rewrite Ha|].
  apply (pipeline_asked_valid any_env).
  eapply rtc_r; [apply two_visitors_reachable|]. by econstructor.
Defined.

Lemma asks_on_click_witness :
  exists c w,
    w_clients two_visitors !! 1%nat = Some c
    /\ receive env_found
         (Act 1 (Click "🚀 Calculer la probabilité d'approbation"))
         two_visitors = Some w
    /\ asked (sv_log (w_server w)) =
       (if bool_decide
             (Click "🚀 Calculer la probabilité d'approbation"
              = Click "🚀 Calculer la probabilité d'approbation")
           && bool_decide (nav_index (session_of (cl_session c)) = 0%nat)
           && ready (gw_of (w_server w))
        then [input_df (read_inputs (session_of (cl_session c)))] else [])
       ++ asked (sv_log (w_server two_visitors)).
Proof.
  destruct two_visitors_client as (c & Hc & Hnav & Hp).
  destruct (click_on_form env_found 1 two_visitors c fixture_model
              (wreachable_sound _ _ two_visitors_reachable)
              two_visitors_ready Hc Hnav Hp) as (w & Hr & _).
  exists c, w. split; [done|]. split; [done|].
  by apply (asks_on_click any_env two_visitors 1 c _ env_found w
              two_visitors_reachable).
Defined.

(** The second visitor enters an income of 2500. *)
Lemma validation_redundant_witness :
  exists c,
    w_clients two_visitors !! 1%nat = Some c
    /\ valid_inputs
         (read_inputs
            (session_of
               (set (Enter "Revenu du demandeur ($)" 2500) (cl_session c))))
    /\ predict (Some fixture_model) true
         (read_inputs
            (session_of
               (set (Enter "Revenu du demandeur ($)" 2500) (cl_session c))))
       = inr (handle (Some fixture_model) true
                (read_inputs
                   (session_of
                      (set (Enter "Revenu du demandeur ($)" 2500)
                         (cl_session c))))).
Proof.
  destruct two_visitors_client as (c & Hc & Hnav & Hp).
  exists c. split; [done|].
  apply (validation_redundant any_env two_visitors 1 c);
    [apply two_visitors_reachable|done|].
  eapply permitted_subseteq; [done|]. by_decide.
Defined.

Lemma gateway_settles_witness :
  (exists q w1, receive env_found q online = Some w1)
  /\ forall q w1 w2,
       receive env_found q online = Some w1 -> rtc (wstep any_env) w1 w2 ->
       gw_of (w_server w1) <> Unloaded
       /\ gw_of (w_server w2) = gw_of (w_server w1).
Proof. by apply (gateway_settles any_env online env_found). Defined.
