(* ===== verification/Scoring.v ===== *)
(** * Scoring: what the artifact promises

    The script does not know the pipeline it loads: it calls
    [predict_proba] on a table of one row and reads the entry of row 0,
    column 1 (line 177 of [src/app.py]).  The specification states what
    the artifact owes (sections 3, 6 and 8): on the record of an
    applicant, a probability, a number between 0 and 1.  [Calibrated] is
    that promise, an interface between the artifact and the script.

    The theorems of the script are proved against the interface: with a
    calibrated pipeline the handler never takes the path of an error,
    the needle of the gauge is on a band, the metric reads from 0.0% to
    100.0%, a loan that is not approved comes with the recommendations;
    and in the worlds whose artifact is calibrated every click of the
    button is answered with a result, and no page ever holds the
    message of a failed prediction: the pages other than the prediction
    page show no error by the structure of their scripts ([hushed]),
    the prediction page by the promise.  The pipeline of the fixtures
    keeps the promise; the one that raises and the one whose matrix has
    one column do not. *)

From S2P Require Import Prelude PyFloat Rounding Format Runtime Keeps.
From S2P Require Import Fixtures Gateway Predict Docs App Session Spec.
From S2P Require Import Browser World.

(** ** Definitions *)

(** A probability: a float from 0 to 1. *)
Definition probability (p : float) : bool :=
  valid p && float_ge p f_0_0 && float_ge f_1_0 p.

(** The promise of the artifact: the record of an applicant is scored,
    with a probability. *)
Class Calibrated (m : pipeline) : Prop :=
  calibrated : forall i, valid_inputs i ->
    exists p, score m i = inr p /\ probability p = true.

(** The files of a process whose artifact, where it can be read, keeps
    the promise. *)
Definition stocked (e : env) : Prop :=
  forall m, joblib_load e artifact_path = inr m -> Calibrated m.

(** Whether the needle of a gauge is on one of its bands, and not past
    the end of the axis. *)
Definition on_band (v : float) (s : gauge_step) : bool :=
  float_ge v (float_of_Z (step_lo s)) && float_ge (float_of_Z (step_hi s)) v.

Definition needle_on_scale (f : figure) : bool :=
  match f with
  | FIndicator g =>
      existsb (on_band (ind_value g)) (ind_steps g)
      && from_option (λ hi, float_ge (float_of_Z hi) (ind_value g)) true
           (ind_axis_range g).2
  | FBar _ => false
  end.

(** The button of the form. *)
Definition predict_click : action :=
  Click "🚀 Calculer la probabilité d'approbation".

(** The cache of a process holds calibrated pipelines only, and no
    notice with them. *)
Definition promise_kept (sv : server) : Prop :=
  forall m replay, sv_model sv = Some (Some m, replay) ->
    Calibrated m /\ replay = [].

(** The page of an answered request: the frame, the sidebar, the form
    with the button, the result and the footer. *)
Definition answered_page (p : float) (path : list container)
    : list emitted :=
  frame_head path ++ sidebar_page path ++ page_head path
  ++ result_page p (path ++ [CColumn "col2"]) ++ footer_elements path.

(** Minus zero, the one probability with a sign. *)
Definition minus_zero : float := S754_zero true.

(** An element is mild when it is no error message, or the one of the
    missing artifact: it reports no failure of the scoring. *)
Definition mild (e : element) : bool :=
  match e with
  | EError body => String.eqb body model_not_found
  | _ => true
  end.

Class Mild (e : element) : Prop := is_mild : mild e = true.

#[export] Hint Extern 0 (Mild _) => exact eq_refl : typeclass_instances.

(** A run shows mild elements only. *)
Abbreviation hushed := (over mild).

(** The pages of the browsers and the notice of the cache are mild. *)
Record composed (w : world) : Prop := Composed {
  cp_pages : map_Forall (λ _ c, passes mild (cl_page c)) (w_clients w);
  cp_cache : cache_over mild (sv_cache (w_server w))
}.

(** A browser has connected while the artifact was missing. *)
Definition cut_off : world := serve env_missing 0 ∅ online.

Definition cut_off_client : client :=
  let st := (run env_missing ∅ boot).2 in
  Client (kept (rs_widgets st) ∅) (page st).

(** ** Probabilities *)

Lemma probability_ulps p :
  probability p = true ->
  valid p = true /\ is_finite p = true /\ 0 <= ulps p <= ulp_den.
Proof.
  unfold probability. rewrite !andb_true_iff. intros [[Hv H0] H1].
  assert (Hf : is_finite p = true) by (by destruct p as [|[]| |]).
  rewrite float_ge_ulps in H0, H1 by done.
  apply Z.leb_le in H0, H1. split; [done|]. split; [done|].
  revert H0 H1. by replace (ulps f_1_0) with ulp_den by (by vm_compute).
Qed.

(** A probability has no sign, but for minus zero. *)
Lemma probability_sign p :
  probability p = true -> p <> minus_zero -> sign_bit p = false.
Proof.
  intros (Hv & Hf & H0 & _)%probability_ulps Hz.
  destruct p as [[]|s| |[] m e]; try done.
  pose proof (mag_pos m e Hv). cbn [ulps] in H0. lia.
Qed.

(** ** The pipelines of the fixtures *)

#[export] Instance fixture_calibrated : Calibrated fixture_model.
Proof.
  intros i Hi. pose proof (credit_history_ok i Hi) as Hc.
  apply elem_of_cons in Hc as [Hc|Hc%list_elem_of_singleton].
  all: unfold score, fixture_model, predict_proba, fixture_proba, input_df,
    cell.
  all: cbn; rewrite Hc; cbn; eexists; (split; [done|by vm_compute]).
Qed.

Lemma scenario1_valid : valid_inputs (read_inputs (session_of scenario1)).
Proof. apply read_inputs_valid. by vm_compute. Qed.

Lemma failing_not_calibrated : ~ Calibrated failing_model.
Proof.
  intros H.
  by destruct (H _ scenario1_valid) as (p & ? & _).
Qed.

Lemma one_column_not_calibrated : ~ Calibrated one_column_model.
Proof.
  intros H.
  by destruct (H _ scenario1_valid) as (p & ? & _).
Qed.

Lemma env_found_stocked : stocked env_found.
Proof. intros m [= <-]. apply _. Qed.

Lemma env_missing_stocked : stocked env_missing.
Proof. by intros m. Qed.

(** ** The result of a probability *)

Section result.
Context (p : float) (Hp : probability p = true).
Local Set Default Proof Using "All".

Local Abbreviation pct := (float_mul p (float_of_Z 100)).

Lemma probability_not_nan : is_nan p = false.
Proof. destruct (probability_ulps p Hp) as (_ & Hf & _). by destruct p. Qed.

(** The percentage is a float from 0 to 100. *)
Lemma pct_on_scale :
  valid pct = true /\ is_finite pct = true
  /\ 0 <= ulps pct <= ulps (float_of_Z 100).
Proof.
  destruct (probability_ulps p Hp) as (Hv & Hf & H0 & H1).
  destruct (base.decide (p = minus_zero)) as [->|Hz]; [by vm_compute|].
  pose proof (probability_sign p Hp Hz) as Hs.
  destruct (float_mul_spec p (float_of_Z 100) Hv eq_refl Hf eq_refl)
    as (Hvr & _).
  split; [done|]. split; [by apply pct_finite|by apply pct_range].
Qed.

(** A float from 0 to 100 is on one of the bands of the gauge. *)
Lemma needle_on_band :
  existsb (on_band pct)
    [GaugeStep 0 30 "lightcoral"; GaugeStep 30 70 "lightyellow";
     GaugeStep 70 100 "lightgreen"] = true.
Proof.
  destruct pct_on_scale as (Hv & Hf & H0 & H1). revert Hv Hf H0 H1.
  generalize pct. intros v Hv Hf H0 H1.
  cbn [existsb]. unfold on_band. cbn [step_lo step_hi].
  rewrite !float_ge_ulps by done.
  assert (ulps (float_of_Z 0) = 0) as -> by (by vm_compute).
  destruct (Z.le_gt_cases (ulps v) (ulps (float_of_Z 30))) as [H30|H30].
  { apply Z.leb_le in H0, H30. by rewrite H0, H30. }
  destruct (Z.le_gt_cases (ulps v) (ulps (float_of_Z 70))) as [H70|H70].
  { apply Z.lt_le_incl, Z.leb_le in H30. apply Z.leb_le in H70.
    by rewrite H30, H70, orb_true_r. }
  apply Z.lt_le_incl, Z.leb_le in H70. apply Z.leb_le in H1.
  by rewrite H70, H1, !orb_true_r.
Qed.

(** The text of the metric, with the sign of minus zero. *)
Lemma metric_text :
  let t := tenths pct in
  format_pct1 p
  = (if bool_decide (p = minus_zero) then "-" else "")
    +:+ (digits (t / 10) +:+ "." +:+ digits (t mod 10)) +:+ "%"
  /\ 0 <= t <= 1000.
Proof.
  cbn zeta. destruct (probability_ulps p Hp) as (Hv & Hf & H0 & H1).
  case_bool_decide as Hz; [by subst p; vm_compute|].
  pose proof (probability_sign p Hp Hz) as Hs.
  destruct (format_pct1_shape p Hv Hf Hs H1) as [-> Ht]. done.
Qed.

End result.

(** Minus zero is a float from 0 to 1, and the format shows its sign. *)
Lemma metric_minus_zero :
  probability minus_zero = true /\ format_pct1 minus_zero = "-0.0%".
Proof. by vm_compute. Qed.

(** ** A request for a prediction, with the pipeline in the cache *)

Lemma app_answers cx st m p :
  rs_out st = [] -> rs_widgets st = [] ->
  cached_model st = Some (Some m, []) ->
  nav_index (cx_session cx) = 0%nat ->
  cx_session cx button_widget = Some WTrigger ->
  score m (read_inputs (cx_session cx)) = inr p ->
  exists st',
    app cx st = (inr (), st') /\ page st' = answered_page p (cx_path cx).
Proof.
  intros Hout Hws Hwarm Hnav Hb Hp. eexists. split.
  - eapply (app_run _ _ (Some m) _ (inr ())); [done|done|..].
    + by apply load_model_warm.
    + rewrite body_nav, Hnav.
      rewrite prediction_page_steps by by apply page_widgets_fresh.
      rewrite Hb. change (clicked (Some WTrigger)) with true.
      erewrite predict_handler_after by apply prob_state.
      by rewrite prob_score, Hp.
  - unfold answered_page. page_eq Hout.
Qed.

(** ** The worlds whose artifact keeps the promise *)

Lemma rerun_promise i sv :
  stocked (i_env i) -> promise_kept sv -> promise_kept (rerun i sv).
Proof.
  intros He Hw m replay. unfold sv_model.
  destruct (sv_model sv) as [c|] eqn:Hc.
  - destruct (rerun_warm i _ c Hc) as [-> _]. apply Hw.
  - destruct (rerun_cold i _ Hc) as [_ ->].
    destruct (joblib_load _ _) as [x|m'] eqn:Hl; cbn [load_entry].
    + destruct (only _ _); [by rewrite lookup_insert_eq|apply Hw].
    + rewrite lookup_insert_eq. intros [= <- <-]. split; [by apply He|done].
Qed.

Lemma wreachable_promise w :
  wreachable stocked w -> promise_kept (w_server w).
Proof.
  revert w. apply rtc_ind_r; [done|].
  intros w w' _ [e q ? ? He [s ->]%receive_server] IH.
  by apply rerun_promise.
Qed.

(** The run of a click of a browser on the prediction page, on a cache
    that holds a pipeline that keeps the promise. *)
Lemma click_run e c m st `{!Calibrated m} :
  rs_out st = [] -> rs_widgets st = [] ->
  cached_model st = Some (Some m, []) ->
  session_fits (cl_session c) -> all_known (cl_page c) ->
  nav_index (session_of (cl_session c)) = 0%nat ->
  permitted (cl_page c) predict_click = true ->
  exists p,
    score m (read_inputs (session_of (cl_session c))) = inr p
    /\ probability p = true
    /\ page (app (cx_of e (set predict_click (cl_session c))) st).2
       = answered_page p [].
Proof.
  intros Hout Hws Hm Hfit Hkn Hnav Hperm.
  set (s := set predict_click (cl_session c)).
  assert (Hfit' : session_fits s) by by eapply set_fits.
  destruct (calibrated (read_inputs (session_of s))) as (p & Hp & Hprob).
  { by apply read_inputs_valid, session_fits_valid_ui. }
  assert (Hnav' : nav_index (session_of s) = 0%nat)
    by (unfold s, predict_click; by rewrite set_nav).
  assert (Hb : session_of s button_widget = Some WTrigger).
  { unfold s, session_of, button_widget, predict_click. cbn [set].
    by rewrite lookup_insert_eq. }
  destruct (app_answers (cx_of e s) st m p) as (st' & Hrun & Hpage);
    [done..|].
  exists p. rewrite Hrun. split; [|done].
  revert Hp. unfold s, predict_click. by rewrite read_inputs_click.
Qed.

Lemma two_visitors_stocked : wreachable stocked two_visitors.
Proof.
  eapply rtc_l; [|apply rtc_once];
    by eapply (wstep_receive _ env_found), connect_new;
      try apply env_found_stocked.
Qed.

(** ** Theorems *)

(** C37: The result of a probability is on the scales of the page.  For
    every float from 0 to 1 the needle of the gauge, at the rounded
    product of the probability and 100, lies on one of the three bands
    and not past the end of the axis; the loan is either approved or
    shown with the recommendations, never both and never neither; and
    the metric reads a number of tenths from 0 to 1000, that is from
    0.0% to 100.0%, written without a sign unless the probability is
    minus zero, which is shown as -0.0%. *)
Theorem result_on_scale p :
  probability p = true ->
  needle_on_scale (fig p) = true
  /\ recommends p = negb (approved p)
  /\ let t := tenths (float_mul p (float_of_Z 100)) in
     0 <= t <= 1000
     /\ format_pct1 p
        = (if bool_decide (p = minus_zero) then "-" else "")
          +:+ (digits (t / 10) +:+ "." +:+ digits (t mod 10)) +:+ "%".
Proof.
  intros Hp. split; [|split].
  - unfold needle_on_scale, fig. cbn [ind_value ind_steps ind_axis_range snd].
    rewrite (needle_on_band p Hp). cbn [from_option andb].
    destruct (pct_on_scale p Hp) as (Hv & Hf & _ & H1).
    rewrite float_ge_ulps by done. by apply Z.leb_le.
  - apply recommends_not_approved, (probability_not_nan p Hp).
  - destruct (metric_text p Hp) as [Ht Hr]. by split.
Qed.

(** The handler with a pipeline that keeps its promise.  For the
    record of an applicant the handler never shows an error: it asks
    the pipeline once and shows the result of a probability, which is
    the outcome [Scored] of the contract with the decision of the
    threshold rule and its recommendations. *)
Lemma handler_answers m `{!Calibrated m} i cx st :
  valid_inputs i ->
  exists p,
    probability p = true
    /\ handle (Some m) true i = Scored p (decide p) (recommend (decide p))
    /\ predict_handler (Some m) true i cx st
       = (inr (),
          st_emits (reverse (result_page p (cx_path cx))) (st_asked i st)).
Proof.
  intros (p & Hs & Hp)%calibrated. exists p. split; [done|].
  split; [by cbn [handle]; rewrite Hs|].
  erewrite predict_handler_after by apply prob_state.
  by rewrite prob_score, Hs.
Qed.

(** ** No failure of the scoring is shown *)

(** The sidebar, the documentation, the about page and the footer show
    no error message: by the structure of their scripts. *)
#[export] Instance hushed_allows_emit e : Mild e -> AllowsEmit hushed e.
Proof. apply over_allows_emit. Qed.

#[export] Instance sidebar_hushed : Keeps hushed sidebar.
Proof. unfold sidebar. apply _. Qed.

#[export] Instance footer_hushed : Keeps hushed footer.
Proof. unfold footer. apply _. Qed.

#[export] Instance about_page_hushed : Keeps hushed about_page.
Proof. unfold about_page. apply _. Qed.

#[export] Instance documentation_page_hushed : Keeps hushed documentation_page.
Proof. unfold_docs. apply _. Qed.

Lemma passes_mild_error out path body :
  passes mild out -> (path, EError body) ∈ out -> body = model_not_found.
Proof.
  intros Hp Hin. apply String.eqb_eq.
  exact (proj1 (Forall_forall _ _) Hp (path, EError body) Hin).
Qed.

Lemma page_head_mild p : passes mild (page_head p).
Proof.
  unfold page_head, form_page. repeat (apply Forall_app; split);
    by repeat constructor.
Qed.

Lemma result_page_mild x p : passes mild (result_page x p).
Proof.
  unfold result_page. apply Forall_app. split; [by repeat constructor|].
  destruct (recommends x); by repeat constructor.
Qed.

(** The prediction page is mild for the record of an applicant and a
    pipeline that keeps the promise: the one error message of the page
    is in the handler of the exception, which is not reached. *)
Lemma handler_mild model b i cx st :
  (forall m, model = Some m -> Calibrated m) -> valid_inputs i ->
  hushed st (predict_handler model b i cx st).2.
Proof.
  intros Hm Hi. destruct b, model as [m|];
    try (by rewrite predict_handler_idle by auto).
  destruct (handler_answers m (Calibrated0 := Hm m eq_refl) i cx st Hi)
    as (p & _ & _ & ->).
  intros H. apply passes_emits; [apply result_page_mild|done].
Qed.

Lemma prediction_page_mild model cx st :
  (forall m, model = Some m -> Calibrated m) ->
  valid_inputs (read_inputs (cx_session cx)) ->
  Forall (λ w, w ∉ rs_widgets st) page_widgets ->
  hushed st (prediction_page model cx st).2.
Proof.
  intros Hm Hi Hw. rewrite prediction_page_steps by done.
  etrans; [|by apply handler_mild]. intros H.
  apply Forall_app. split; [apply Forall_reverse, page_head_mild|done].
Qed.

Lemma body_mild model cx st :
  (forall m, model = Some m -> Calibrated m) ->
  valid_inputs (read_inputs (cx_session cx)) ->
  Forall (λ w, w ∉ rs_widgets st) page_widgets ->
  hushed st ((body model (current_page (cx_session cx));; footer) cx st).2.
Proof.
  intros Hm Hi Hw. rewrite body_nav.
  destruct (nav_index _) as [|[|[|k]]]; [|apply (keeps (R:=hushed))..].
  unfold mbind, script_bind.
  pose proof (prediction_page_mild model cx st Hm Hi Hw) as Hp.
  destruct (prediction_page model cx st) as [[e|[]] st2]; [done|].
  etrans; [done|]. apply (keeps (R:=hushed)).
Qed.

(** The pipeline the load returns keeps the promise, from the cache or
    from the file. *)
Lemma load_model_calibrated cx st m st1 :
  stocked (cx_env cx) ->
  (forall m replay, cached_model st = Some (Some m, replay) -> Calibrated m) ->
  load_model cx st = (inr (Some m), st1) -> Calibrated m.
Proof.
  intros He Hc. rewrite load_model_outcome. unfold load_outcome.
  destruct (cached_model st) as [[v replay]|] eqn:Hm.
  - intros [= -> _]. by eapply Hc.
  - unfold cold_outcome. destruct (joblib_load _ _) as [e|m'] eqn:Hl.
    + by destruct (only _ _).
    + intros [= <- _]. by apply He.
Qed.

(** A run of the script for the record of an applicant shows mild
    elements only, whichever page is selected and whether or not the
    button was clicked. *)
Lemma app_mild cx st :
  rs_out st = [] -> rs_widgets st = [] ->
  stocked (cx_env cx) ->
  (forall m replay, cached_model st = Some (Some m, replay) -> Calibrated m) ->
  cache_over mild (rs_cache st) ->
  valid_inputs (read_inputs (cx_session cx)) ->
  passes mild (rs_out (app cx st).2).
Proof.
  intros Hout Hws He Hm Hc Hi.
  pose proof (load_model_over mild eq_refl cx (st_css cx st) Hc) as Hl.
  pose proof (load_model_widgets cx (st_css cx st)) as Hw.
  pose proof (load_model_calibrated cx (st_css cx st)) as Hcal.
  destruct (load_model cx (st_css cx st)) as [r st1] eqn:Hload.
  rewrite (app_steps _ _ _ _ Hout Hws Hload). cbn [snd] in *.
  assert (H1 : passes mild (rs_out st1)).
  { apply Hl. cbn [st_css st_emits rs_out]. rewrite Hout.
    by repeat constructor. }
  destruct r as [e|model]; [done|].
  apply body_mild; [intros m ->; by eapply Hcal|done|..].
  - apply page_widgets_fresh. by rewrite Hw.
  - apply Forall_app. split; [by repeat constructor|done].
Qed.

Lemma serve_composed e k s w :
  stocked e -> promise_kept (w_server w) -> session_fits s ->
  composed w -> composed (serve e k s w).
Proof.
  intros He Hp Hs [Hcl Hc]. split; cbn [serve w_server w_clients].
  - apply map_Forall_insert_2; [|done]. cbn [cl_page].
    apply Forall_reverse, app_mild; [done..| |done|].
    + intros m replay Hm. by apply (Hp m replay).
    + by apply read_inputs_valid, session_fits_valid_ui.
  - by apply rerun_cache_over.
Qed.

Lemma receive_composed e q w w' :
  stocked e -> promise_kept (w_server w) -> sound w ->
  receive e q w = Some w' -> composed w -> composed w'.
Proof.
  intros He Hp Hs Hr Hw. destruct q as [k|k a]; cbn [receive] in Hr.
  - destruct (w_clients w !! k); simplify_eq. by apply serve_composed.
  - destruct (w_clients w !! k) as [c|] eqn:Hc; [|done]. cbn in Hr.
    destruct (permitted _ _) eqn:Hperm; simplify_eq.
    destruct (sound_clients w Hs k c Hc) as [Hf _ Hk].
    apply serve_composed; [done..| |done]. by apply (set_fits (cl_page c)).
Qed.

Lemma wreachable_composed w : wreachable stocked w -> composed w.
Proof.
  revert w. apply rtc_ind_r; [split; [apply map_Forall_empty|done]|].
  intros w w' Hw Hs IH. inversion Hs as [e q ? ? He Hr]; subst.
  exact (receive_composed e q _ _ He (wreachable_promise _ Hw)
           (wreachable_sound _ _ Hw) Hr IH).
Qed.

Lemma cut_off_reachable : wreachable stocked cut_off.
Proof.
  apply rtc_once. by eapply (wstep_receive _ env_missing), connect_new.
Qed.

Lemma cut_off_lookup : w_clients cut_off !! 0%nat = Some cut_off_client.
Proof. exact (lookup_insert_eq _ _ _). Qed.

(** The page of that browser holds the message of the missing
    artifact. *)
Lemma cut_off_page : ([], EError model_not_found) ∈ cl_page cut_off_client.
Proof. by_decide. Qed.

(** C15: Every click is answered.  In every world that can be reached
    while the artifact, where it can be read, keeps its promise, when
    the gateway is ready and a client on the prediction page clicks the
    button, the request is served whatever the files have become, and
    the page the client gets is the frame, the sidebar, the form, the
    result and the footer and nothing else: no message of an error.
    The result is the one of the probability the pipeline gives for the
    record the client's session holds, a float from 0 to 1. *)
Theorem click_answered w k c e m :
  wreachable stocked w -> w_clients w !! k = Some c ->
  gw_of (w_server w) = Ready m ->
  nav_index (session_of (cl_session c)) = 0%nat ->
  permitted (cl_page c) predict_click = true ->
  exists p w',
    receive e (Act k predict_click) w = Some w'
    /\ score m (read_inputs (session_of (cl_session c))) = inr p
    /\ probability p = true
    /\ (cl_page <$> w_clients w' !! k) = Some (answered_page p []).
Proof.
  intros Hw Hc Hm Hnav Hperm.
  destruct (gw_of_ready _ _ Hm) as [replay Hmodel].
  destruct (wreachable_promise w Hw m replay Hmodel) as [Hcal ->].
  destruct (sound_clients w (wreachable_sound _ _ Hw) k c Hc)
    as [Hfit _ Hkn].
  destruct (click_run e c m (start (w_server w)) eq_refl eq_refl Hmodel
              Hfit Hkn Hnav Hperm) as (p & Hs & Hp & Hpage).
  exists p. eexists. split; [|split; [done|split; [done|]]].
  { cbn [receive]. rewrite Hc. cbn [mbind option_bind]. by rewrite Hperm. }
  cbn [serve w_clients]. rewrite lookup_insert_eq.
  cbn [fmap option_fmap option_map cl_page]. by rewrite <- Hpage.
Qed.

(** C16: No browser is shown a failure of the scoring.  In every world
    that can be reached while the artifact, where it can be read, keeps
    its promise, whatever the browsers select and click and whatever
    the files become between the requests, the one error message a page
    can hold is the message of the missing artifact: the message of a
    failed prediction is never shown, because the widgets let only
    records of the domain reach the pipeline and the pipeline answers
    those with a probability. *)
Theorem errors_only_missing w k c :
  wreachable stocked w -> w_clients w !! k = Some c ->
  forall path body,
    (path, EError body) ∈ cl_page c -> body = model_not_found.
Proof.
  intros Hw%wreachable_composed Hc path body.
  apply passes_mild_error, (cp_pages w Hw k c Hc).
Qed.

(** ** The theorems at the fixtures *)

Lemma result_on_scale_witness :
  needle_on_scale (fig (float_lit 82 100)) = true
  /\ recommends (float_lit 82 100) = negb (approved (float_lit 82 100))
  /\ let t := tenths (float_mul (float_lit 82 100) (float_of_Z 100)) in
     0 <= t <= 1000
     /\ format_pct1 (float_lit 82 100)
        = (if bool_decide (float_lit 82 100 = minus_zero) then "-" else "")
          +:+ (digits (t / 10) +:+ "." +:+ digits (t mod 10)) +:+ "%".
Proof. apply result_on_scale. by vm_compute. Defined.

(** The second visitor clicks, after the artifact was removed. *)
Lemma click_answered_witness :
  exists c p w',
    w_clients two_visitors !! 1%nat = Some c
    /\ receive env_missing (Act 1 predict_click) two_visitors = Some w'
    /\ score fixture_model (read_inputs (session_of (cl_session c))) = inr p
    /\ probability p = true
    /\ (cl_page <$> w_clients w' !! 1%nat) = Some (answered_page p []).
Proof.
  destruct two_visitors_client as (c & Hc & Hnav & Hp).
  destruct (click_answered two_visitors 1 c env_missing fixture_model
              two_visitors_stocked Hc two_visitors_ready Hnav)
    as (p & w' & H); [|by exists c, p, w'].
  eapply permitted_subseteq; [done|]. by_decide.
Defined.

(** The browser that connected while the artifact was missing: its page
    holds the message of the missing artifact, and no other error. *)
Lemma errors_only_missing_witness :
  wreachable stocked cut_off
  /\ w_clients cut_off !! 0%nat = Some cut_off_client
  /\ forall path body,
       (path, EError body) ∈ cl_page cut_off_client ->
       body = model_not_found.
Proof.
  split; [apply cut_off_reachable|]. split; [apply cut_off_lookup|].
  exact (errors_only_missing cut_off 0%nat cut_off_client
           cut_off_reachable cut_off_lookup).
Defined.
