(* ===== verification/Visit.v ===== *)
(** * Visit: a record entered through the form reaches the pipeline

    What the user enters is what the pipeline receives.  [enter i] are
    the actions that enter the record [i] field by field, [submit i]
    ends them with the click of the button, and [visit] is a browser
    that connects and acts as told.  Each action starts a run of the
    script, and after each run the browser keeps the values of the
    widgets the run declared.

    Theorems: the form reads back the record that was entered
    ([read_fill]); the actions are ones the form permits
    ([enter_permitted]); on a server whose gateway is ready, a new
    visitor who enters a record of the domain and clicks makes the
    pipeline be asked once, with the table of that record
    ([visit_roundtrip]). *)

From S2P Require Import Prelude PyFloat Runtime Keeps Fixtures.
From S2P Require Import Gateway Predict Docs App Session Spec Browser World.

(** ** Entering a record *)

(** The index of an option: the first position at which it stands. *)
Definition index_of (options : list pyval) (v : pyval) : nat :=
  default 0%nat (fst <$> list_find (λ x, x = v) options).

(** The actions that enter a record, in the order of the form. *)
Definition enter (i : inputs) : list action :=
  [Choose "Genre" (index_of gender_options (in_gender i));
   Choose "Éducation" (index_of education_options (in_education i));
   Choose "Marié(e)" (index_of married_options (in_married i));
   Choose "Indépendant" (index_of self_employed_options (in_self_employed i));
   Choose "Personnes à charge"
     (index_of dependents_options (in_dependents i));
   Choose "Zone de propriété"
     (index_of property_area_options (in_property_area i));
   Enter "Revenu du demandeur ($)" (in_applicant_income i);
   Enter "Revenu du co-demandeur ($)" (in_coapplicant_income i);
   Enter "Montant du prêt (k$)" (in_loan_amount i);
   Choose "Durée du prêt (jours)"
     (index_of loan_amount_term_options (in_loan_amount_term i));
   Choose "Historique de crédit"
     (index_of credit_history_options (in_credit_history i))].

(** The session in which the record is entered. *)
Definition fill (i : inputs) (s : session) : session :=
  foldl (flip set) s (enter i).

(** The record is entered and the button clicked. *)
Definition submit (i : inputs) : list action :=
  enter i ++ [Click "🚀 Calculer la probabilité d'approbation"].

(** A browser connects as the client [k] and acts; each request finds
    the files as they are at that moment. *)
Definition visit (k : nat) (e : env) (l : list (env * action))
    : list (env * request) :=
  (e, Connect k) :: (prod_map id (Act k) <$> l).

(** An action on a field of the form. *)
Definition on_form (a : action) : Prop :=
  (exists t, target a = Some t /\ t ∈ form_widgets)
  /\ permitted (page_head []) a = true.

(** The record of scenario 2, and a visitor who enters it while the
    artifact stays in place. *)
Definition applicant : inputs := read_inputs (session_of scenario2).

Definition applicant_visit : list (env * request) :=
  visit 2 env_found (pair env_found <$> submit applicant).

(** ** The form reads back what was entered *)

Lemma index_of_lookup options v :
  v ∈ options -> options !! index_of options v = Some v.
Proof.
  intros Hv. unfold index_of.
  destruct (list_find_elem_of (λ x, x = v) options v Hv eq_refl)
    as [[k x] Hk].
  rewrite Hk. by apply list_find_Some in Hk as (? & -> & _).
Qed.

Lemma index_of_lt options v :
  v ∈ options -> (index_of options v < length options)%nat.
Proof. intros Hv. eapply lookup_lt_Some. by apply index_of_lookup. Qed.

Section read.
Context (s : session) (w : wid) (x : wvalue) (label : string).

Lemma choice_set options v :
  v ∈ options ->
  choice (session_of (<[(KSelectbox, label) := WIndex (index_of options v)]> s))
    label options = v.
Proof.
  intros Hv. unfold choice, session_of, selected.
  by rewrite lookup_insert_eq, index_of_lookup.
Qed.

Lemma number_set z value :
  number (session_of (<[(KNumberInput, label) := WNumber z]> s)) label value
  = z.
Proof. unfold number, session_of. by rewrite lookup_insert_eq. Qed.

Lemma choice_insert_ne options :
  w <> (KSelectbox, label) ->
  choice (session_of (<[w := x]> s)) label options
  = choice (session_of s) label options.
Proof. intros. unfold choice, session_of. by rewrite lookup_insert_ne. Qed.

Lemma number_insert_ne value :
  w <> (KNumberInput, label) ->
  number (session_of (<[w := x]> s)) label value
  = number (session_of s) label value.
Proof. intros. unfold number, session_of. by rewrite lookup_insert_ne. Qed.

End read.

(** Entering a record and reading the form gives the record. *)
Lemma read_fill i s :
  valid_inputs i -> read_inputs (session_of (fill i s)) = i.
Proof.
  intros []. destruct i as [g m d ed se ai ci la lt ch pa].
  unfold fill, enter, read_inputs.
  cbn [foldl flip set in_gender in_married in_dependents in_education
       in_self_employed in_applicant_income in_coapplicant_income
       in_loan_amount in_loan_amount_term in_credit_history
       in_property_area] in *.
  f_equal;
    rewrite ?choice_insert_ne, ?number_insert_ne by done;
    by rewrite ?choice_set, ?number_set.
Qed.

(** ** The form permits to enter every record of the domain *)

Lemma permitted_choose page p label options shown help i :
  (p, ESelectbox label options shown help) ∈ page ->
  (i < length options)%nat -> permitted page (Choose label i) = true.
Proof.
  intros Hx Hi. eapply offers_permitted; [done| |done]. cbn [offers snd].
  by rewrite !bool_decide_eq_true_2.
Qed.

Lemma permitted_enter page p label min_value step value help z :
  (p, ENumberInput label min_value step value help) ∈ page ->
  min_value <= z -> permitted page (Enter label z) = true.
Proof.
  intros Hx Hi. eapply offers_permitted; [done| |done]. cbn [offers snd].
  by rewrite !bool_decide_eq_true_2.
Qed.

Lemma enter_permitted i p :
  valid_inputs i -> Forall (λ a, permitted (form_page p) a = true) (enter i).
Proof.
  intros []. unfold enter, form_page.
  repeat (apply Forall_cons; split); [..|done];
    first [eapply permitted_choose; [find_elem|by apply index_of_lt]
          |eapply permitted_enter; [find_elem|done]].
Qed.

Lemma enter_targets i :
  Forall (λ a, exists t, target a = Some t /\ t ∈ form_widgets) (enter i).
Proof. repeat constructor; (eexists; split; [done|by_decide]). Qed.

Lemma form_page_head p : form_page (p ++ [CColumn "col1"]) ⊆ page_head p.
Proof. intros x Hx. unfold page_head. rewrite !elem_of_app. auto. Qed.

Lemma enter_on_form i : valid_inputs i -> Forall on_form (enter i).
Proof.
  intros Hi. apply Forall_and. split; [apply enter_targets|].
  eapply Forall_impl; [by apply (enter_permitted i [CColumn "col1"])|].
  intros a. apply permitted_subseteq, (form_page_head []).
Qed.

Lemma on_form_target a w :
  on_form a -> w ∉ form_widgets -> target a <> Some w.
Proof. intros [(t & Ht & Hf) _] Hw. rewrite Ht. by intros [= ->]. Qed.

(** ** The requests of a visit *)

Lemma play_app l1 l2 w : play (l1 ++ l2) w = play l1 w ≫= play l2.
Proof.
  revert w. induction l1 as [|[e q] l1 IH]; intros w; [done|].
  rewrite <- app_comm_cons. cbn [play].
  destruct (receive e q w); [apply IH|done].
Qed.

(** One action on the form, at a client that sees the form. *)
Lemma act_on_form e k a w c m :
  sound w -> gw_of (w_server w) = Ready m -> w_clients w !! k = Some c ->
  nav_index (session_of (cl_session c)) = 0%nat ->
  page_head [] ⊆ cl_page c -> on_form a ->
  exists w' c',
    receive e (Act k a) w = Some w'
    /\ gw_of (w_server w') = Ready m /\ w_clients w' !! k = Some c'
    /\ nav_index (session_of (cl_session c')) = 0%nat
    /\ agree form_state (cl_session c') (set a (cl_session c))
    /\ page_head [] ⊆ cl_page c'
    /\ asked (sv_log (w_server w')) = asked (sv_log (w_server w)).
Proof.
  intros Hw Hm Hc Hnav Hp Ha.
  destruct (sound_clients w Hw k c Hc) as [Hfit Hcalm Hk].
  assert (Hperm : permitted (cl_page c) a = true)
    by (eapply permitted_subseteq; [done|apply Ha]).
  assert (Hnav' : nav_index (session_of (set a (cl_session c))) = 0%nat).
  { rewrite set_nav; [done|]. apply on_form_target; [done|by_decide]. }
  assert (Hfit' : session_fits (set a (cl_session c))) by by eapply set_fits.
  destruct (serve_client e k _ w m Hm Hnav' Hfit') as (c' & Hc' & Hag & Hp').
  exists (serve e k (set a (cl_session c)) w), c'.
  cbn [receive]. rewrite Hc. cbn [mbind option_bind]. rewrite Hperm.
  split; [done|]. split; [by apply serve_ready|]. split; [done|].
  split; [by rewrite (nav_index_agree _ _ Hag)|].
  split; [done|]. split; [done|].
  rewrite (serve_asked e k _ w m Hm Hnav' Hfit'), clicked_set; [done..|].
  apply on_form_target; [done|by_decide].
Qed.

(** A sequence of actions on the form. *)
Lemma play_on_form k m (l : list (env * action)) : forall w c,
  sound w -> gw_of (w_server w) = Ready m -> w_clients w !! k = Some c ->
  nav_index (session_of (cl_session c)) = 0%nat ->
  page_head [] ⊆ cl_page c -> Forall on_form l.*2 ->
  exists w' c',
    play (prod_map id (Act k) <$> l) w = Some w'
    /\ sound w'
    /\ gw_of (w_server w') = Ready m /\ w_clients w' !! k = Some c'
    /\ nav_index (session_of (cl_session c')) = 0%nat
    /\ agree form_state (cl_session c')
         (foldl (flip set) (cl_session c) l.*2)
    /\ page_head [] ⊆ cl_page c'
    /\ asked (sv_log (w_server w')) = asked (sv_log (w_server w)).
Proof.
  induction l as [|[e a] l IH]; intros w c Hw Hm Hc Hnav Hp Hl.
  { by exists w, c. }
  apply Forall_cons in Hl as [Ha Hl].
  destruct (act_on_form e k a w c m Hw Hm Hc Hnav Hp Ha)
    as (w1 & c1 & Hr & Hm1 & Hc1 & Hnav1 & Hag & Hp1 & Hask).
  destruct (IH w1 c1 (receive_sound _ _ _ _ Hr Hw) Hm1 Hc1 Hnav1 Hp1 Hl)
    as (w' & c' & Hplay & Hw' & Hm' & Hc' & Hnav' & Hag' & Hp' & Hask').
  exists w', c'.
  change (play _ w)
    with (receive e (Act k a) w ≫= play (prod_map id (Act k) <$> l)).
  rewrite Hr.
  split; [done|]. split; [done|]. split; [done|]. split; [done|].
  split; [done|]. split; [|split; [done|congruence]].
  etrans; [done|]. rewrite fmap_cons. cbn [foldl flip snd].
  by apply foldl_set_agree.
Qed.

(** A visitor who connects, enters a record and clicks. *)
Lemma visit_asks w k e l i m :
  sound w -> gw_of (w_server w) = Ready m ->
  w_clients w !! k = None -> valid_inputs i -> l.*2 = submit i ->
  exists w',
    play (visit k e l) w = Some w'
    /\ asked (sv_log (w_server w'))
       = input_df i :: asked (sv_log (w_server w)).
Proof.
  intros Hw Hm Hk Hi Hl. unfold submit in Hl.
  apply fmap_app_inv in Hl as (l1 & l2 & Hl1 & Hl2 & ->).
  destruct l2 as [|[e2 a2] [|? ?]]; simplify_eq/=.
  rewrite Hk. cbn [mbind option_bind]. rewrite fmap_app, play_app.
  assert (Hfit : session_fits ∅) by apply map_Forall_empty.
  destruct (serve_client e k ∅ w m Hm nav_index_empty Hfit)
    as (c0 & Hc0 & Hag0 & Hp0).
  destruct (play_on_form k m l1 (serve e k ∅ w) c0)
    as (w1 & c1 & -> & Hw1 & Hm1 & Hc1 & Hnav1 & Hag1 & Hp1 & Hask1);
    [by apply serve_sound|by apply serve_ready|done
    |by rewrite (nav_index_agree _ _ Hag0)|done
    |rewrite <- Hl1; by apply enter_on_form|].
  destruct (click_on_form e2 k w1 c1 m Hw1 Hm1 Hc1 Hnav1 Hp1)
    as (w' & Hr & Hask).
  exists w'. cbn [mbind option_bind].
  change (play _ w1) with
    (receive e2 (Act k (Click "🚀 Calculer la probabilité d'approbation")) w1
     ≫= play []).
  rewrite Hr. split; [done|].
  rewrite Hask, Hask1, (serve_asked e k ∅ w m Hm nav_index_empty Hfit).
  f_equal. f_equal. rewrite <- (read_fill i ∅ Hi).
  apply read_inputs_agree.
  eapply agree_subseteq with form_state; [by_decide|].
  etrans; [done|]. rewrite <- Hl1. by apply foldl_set_agree.
Qed.

(** ** Theorems *)

(** C11: What the user enters is what the pipeline receives.  On a
    server whose gateway is ready, a browser that connects, enters a
    record of the domain field by field and clicks the button can do
    all of it (every action is one its page permits at that moment, and
    every action starts a run), and in the end the pipeline has been
    asked once more: with the table of the record that was entered. *)
Theorem visit_roundtrip ok w k e l i m :
  wreachable ok w -> gw_of (w_server w) = Ready m ->
  w_clients w !! k = None -> valid_inputs i -> l.*2 = submit i ->
  exists w',
    play (visit k e l) w = Some w'
    /\ asked (sv_log (w_server w'))
       = input_df i :: asked (sv_log (w_server w)).
Proof. intros Hw%wreachable_sound. by apply visit_asks. Qed.

(** ** The theorem at the fixture *)

Lemma applicant_valid : valid_inputs applicant.
Proof. by apply read_inputs_valid. Qed.

Lemma visit_roundtrip_witness :
  exists w,
    play applicant_visit two_visitors = Some w
    /\ asked (sv_log (w_server w))
       = input_df applicant :: asked (sv_log (w_server two_visitors)).
Proof.
  apply (visit_roundtrip any_env two_visitors 2 env_found
           (pair env_found <$> submit applicant) applicant fixture_model);
    [apply two_visitors_reachable|apply two_visitors_ready|done
    |apply applicant_valid|].
  by rewrite <- list_fmap_compose, list_fmap_id.
Defined.
