(* ===== verification/Loading.v ===== *)
(** * Loading: the load of the artifact ends

    The script has no loop, and the process has one: it serves requests
    for as long as it runs, and every run on an empty cache reads the
    artifact again.  When the artifact can be read, or is missing, the
    first run fills the cache and the reads stop: the steps of the world
    in which the artifact is read are a well-founded relation, and
    after one of them no step reads the artifact again, however many
    requests are served and whatever the files become.  With an
    artifact that cannot be read (a load that raises another exception
    than [FileNotFoundError]) nothing is cached, and the process reads
    the file in every run, for ever. *)

From Stdlib Require Import Wf_nat.
From S2P Require Import Prelude PyFloat Runtime Keeps Fixtures.
From S2P Require Import Gateway Predict Docs App Session Spec Browser World.

(** ** Definitions *)

(** The files are such that a load fills the cache. *)
Definition settling_env (e : env) : Prop := settles e = true.

(** A step of the world in which the artifact is read. *)
Definition reads (ok : env -> Prop) (w' w : world) : Prop :=
  wstep ok w w'
  /\ loads (sv_log (w_server w')) <> loads (sv_log (w_server w)).

(** Whether the load is still to come. *)
Definition unsettled (w : world) : nat :=
  match gw_of (w_server w) with Unloaded => 1 | _ => 0 end.

Lemma gw_of_unloaded sv : gw_of sv = Unloaded <-> sv_model sv = None.
Proof. unfold gw_of. by destruct (sv_model sv) as [[[m|] ?]|]. Qed.

(** The artifact is read by a run that finds the cache empty. *)
Lemma reads_unloaded ok w w' :
  reads ok w' w -> gw_of (w_server w) = Unloaded.
Proof.
  intros [[e q w1 w2 _ [s ->]%receive_server] Hl].
  apply gw_of_unloaded.
  destruct (sv_model (w_server w1)) as [c|] eqn:Hc; [|done].
  by destruct (rerun_warm (Interaction e s) _ c Hc) as [_ ?].
Qed.

Lemma reads_settles w w' :
  reads settling_env w' w -> gw_of (w_server w') <> Unloaded.
Proof.
  intros [[e q w1 w2 He [s ->]%receive_server] _].
  rewrite gw_step. by apply gw_load_settles.
Qed.

Lemma reads_decreases w w' :
  reads settling_env w' w -> (unsettled w' < unsettled w)%nat.
Proof.
  intros H. unfold unsettled. rewrite (reads_unloaded _ _ _ H).
  pose proof (reads_settles _ _ H).
  destruct (gw_of (w_server w')); [done|lia..].
Qed.

(** With an artifact that cannot be read the load is tried again in
    every run. *)
Lemma corrupt_reads w :
  gw_of (w_server w) = Unloaded ->
  exists w', reads any_env w' w /\ gw_of (w_server w') = Unloaded.
Proof.
  intros Hw. exists (serve env_corrupt (fresh (dom (w_clients w))) ∅ w).
  split; [split|].
  - by eapply (wstep_receive _ env_corrupt), connect_fresh.
  - cbn [serve w_server].
    destruct (rerun_cold (Interaction env_corrupt ∅) (w_server w)) as [-> _];
      [by apply gw_of_unloaded|lia].
  - cbn [serve w_server]. by rewrite gw_step, Hw.
Qed.

(** ** Theorems *)

(** C22: The load ends.  As long as the artifact is in place or missing,
    the steps of the world in which the artifact is read form a
    well-founded relation: the process cannot go on reading the file.
    After a step that read the artifact, no step reads it again: not the
    next one and none after any number of requests served, whatever the
    files have become by then. *)
Theorem loading_terminates :
  well_founded (reads settling_env)
  /\ forall w w',
       reads settling_env w' w ->
       forall ok w1 w2, rtc (wstep ok) w' w1 -> ~ reads ok w2 w1.
Proof.
  split.
  - apply (well_founded_lt_compat _ unsettled). intros w' w.
    apply reads_decreases.
  - intros w w' H ok w1 w2 Hrtc H'.
    pose proof (reads_settles _ _ H) as Hs. apply Hs.
    rewrite <- (rtc_wstep_gateway _ _ _ Hrtc Hs). by eapply reads_unloaded.
Qed.

(** With any files at all the reads need not end: the process of a
    server whose artifact cannot be read reads it in every run. *)
Lemma reading_diverges : ~ well_founded (reads any_env).
Proof.
  intros Hwf. assert (forall w, gw_of (w_server w) = Unloaded -> False) as H.
  { intros w. induction (Hwf w) as [w _ IH]. intros Hw.
    destruct (corrupt_reads w Hw) as (w' & Hr & Hw'). by apply (IH w'). }
  by apply (H online).
Qed.
