(* ===== verification/Interleave.v ===== *)
(** * Interleave: the requests of different browsers

    The server runs the script for one request at a time, and the
    requests of the browsers arrive in any order.  Once the gateway has
    settled, the order does not matter to anybody: a run reads the
    cache, which stays as it is, and the session of its own browser;
    it does not read the log ([Logfree]).  So two requests of different
    browsers commute, and every interleaving of the requests of two
    groups of browsers leaves each browser with the page and the session
    it has when the groups are served one after the other.  The worlds
    are compared by [similar]: same clients, same cache, the same calls
    to the outside in some order.

    Before the gateway has settled the order does matter: the first
    request decides what every later one gets. *)

From S2P Require Import Prelude PyFloat Runtime Keeps Fixtures.
From S2P Require Import Gateway Predict Docs App Session Spec.
From S2P Require Import Browser World Visit Logfree.

(** ** Definitions *)

(** The run of the script for a session on a cache, from an empty log. *)
Definition answer (e : env) (s : session) (c : gmap string cache_entry)
    : (exn + unit) * run_state :=
  app (cx_of e s) (initial_state c).

(** The browser that makes a request. *)
Definition client_of (q : request) : nat :=
  match q with Connect k | Act k _ => k end.

(** The session a request comes with, if the request can be made. *)
Definition demand (q : request) (cs : gmap nat client) : option session :=
  match q with
  | Connect k =>
      match cs !! k with None => Some ∅ | Some _ => None end
  | Act k a =>
      c ← cs !! k;
      if permitted (cl_page c) a then Some (set a (cl_session c)) else None
  end.

(** The gateway has settled: the cache holds the outcome of the load. *)
Definition settled (w : world) : Prop := gw_of (w_server w) <> Unloaded.

(** Worlds with the same clients and the same cache, whose processes made
    the same calls to the outside, in some order. *)
Record similar (w w' : world) : Prop := Similar {
  similar_clients : w_clients w = w_clients w';
  similar_cache : sv_cache (w_server w) = sv_cache (w_server w');
  similar_log : sv_log (w_server w) ≡ₚ sv_log (w_server w')
}.

(** The outcomes of two lists of requests: both refused, or similar. *)
Abbreviation alike := (option_Forall2 similar).

(** The interleavings of two lists. *)
Inductive merge {A} : list A -> list A -> list A -> Prop :=
| merge_nil : merge [] [] []
| merge_left x l1 l2 l : merge l1 l2 l -> merge (x :: l1) l2 (x :: l)
| merge_right x l1 l2 l : merge l1 l2 l -> merge l1 (x :: l2) (x :: l).

(** No browser makes requests in both lists. *)
Definition apart (l1 l2 : list (env * request)) : Prop :=
  forall x y, x ∈ l1 -> y ∈ l2 -> client_of x.2 <> client_of y.2.

(** Two browsers connect while the artifact is being installed: one finds
    it, the other does not. *)
Definition early : env * request := (env_missing, Connect 0).
Definition late : env * request := (env_found, Connect 1).

(** ** [similar] is an equivalence that the requests respect *)

#[export] Instance similar_equivalence : Equivalence similar.
Proof.
  split.
  - by intros w.
  - by intros w w' [].
  - intros w1 w2 w3 [] []. split; by etrans.
Qed.

#[export] Instance alike_equivalence : Equivalence alike.
Proof. apply _. Qed.

Lemma alike_bind (f g : world -> option world) mw mw' :
  alike mw mw' -> (forall w w', similar w w' -> alike (f w) (g w')) ->
  alike (mw ≫= f) (mw' ≫= g).
Proof. destruct 1; [cbn; auto|constructor]. Qed.

(** A run, by the run from an empty log. *)
Lemma run_answer e s sv :
  run e s sv = on_log (sv_log sv) (answer e s (sv_cache sv)).
Proof.
  exact (log_free (m := app) (cx_of e s) (initial_state (sv_cache sv))
           (sv_log sv)).
Qed.

Lemma serve_answer e k s w :
  let r := answer e s (sv_cache (w_server w)) in
  serve e k s w =
  World (Server (rs_cache r.2) (rs_io r.2 ++ sv_log (w_server w))
           (page r.2) (raised r.1))
    (<[k := Client (kept (rs_widgets r.2) s) (page r.2)]> (w_clients w)).
Proof.
  cbn zeta. unfold serve, rerun. cbn [i_env i_session].
  change (app (cx_of e s) (start (w_server w))) with (run e s (w_server w)).
  by rewrite run_answer.
Qed.

Lemma receive_demand e q w :
  receive e q w = (λ s, serve e (client_of q) s w) <$> demand q (w_clients w).
Proof.
  destruct q as [k|k a]; cbn; destruct (w_clients w !! k) as [c|]; try done.
  cbn. by destruct (permitted _ _).
Qed.

#[export] Instance serve_similar e k s :
  Proper (similar ==> similar) (serve e k s).
Proof.
  intros w w' [Hc Hm Hl]. rewrite !serve_answer. cbn zeta.
  split; cbn [w_clients w_server sv_cache sv_log]; rewrite ?Hc, ?Hm; [done..|].
  by f_equiv.
Qed.

#[export] Instance receive_similar e q :
  Proper (similar ==> alike) (receive e q).
Proof.
  intros w w' H. rewrite !receive_demand, (similar_clients _ _ H).
  destruct (demand _ _); constructor. by f_equiv.
Qed.

#[export] Instance play_similar l : Proper (similar ==> alike) (play l).
Proof.
  induction l as [|[e q] l IH]; intros w w' H; [by constructor|].
  cbn [play]. apply alike_bind; [by f_equiv|apply IH].
Qed.

(** ** A request leaves the other browsers alone *)

Lemma serve_other e k s w j :
  j <> k -> w_clients (serve e k s w) !! j = w_clients w !! j.
Proof. intros H. cbn [serve w_clients]. by rewrite lookup_insert_ne. Qed.

Lemma demand_other e k s w q :
  client_of q <> k ->
  demand q (w_clients (serve e k s w)) = demand q (w_clients w).
Proof.
  intros H. destruct q as [j|j a]; cbn [demand client_of] in *;
    by rewrite serve_other.
Qed.

Lemma receive_other e q w w' j :
  receive e q w = Some w' -> j <> client_of q ->
  w_clients w' !! j = w_clients w !! j.
Proof.
  rewrite receive_demand. destruct (demand _ _); [|done].
  intros [= <-] H. by apply serve_other.
Qed.

(** ** Once the gateway has settled *)

Lemma receive_settled e q w w' :
  receive e q w = Some w' -> settled w -> settled w'.
Proof.
  intros Hr Hw. unfold settled.
  by rewrite (wstep_gateway any_env w w'); [|econstructor|].
Qed.

Lemma serve_settled e k s w : settled w -> settled (serve e k s w).
Proof.
  intros Hw. unfold settled. cbn [serve w_server].
  by rewrite gw_step, gw_load_settled.
Qed.

Lemma similar_settled w w' : similar w w' -> settled w -> settled w'.
Proof.
  intros [_ Hc _]. unfold settled, gw_of, sv_model. by rewrite Hc.
Qed.

(** A run leaves a settled cache as it is. *)
Lemma answer_settled e s w :
  settled w ->
  rs_cache (answer e s (sv_cache (w_server w))).2 = sv_cache (w_server w).
Proof.
  intros Hw.
  destruct (sv_model (w_server w)) as [c|] eqn:Hc;
    [|by unfold settled, gw_of in Hw; rewrite Hc in Hw].
  apply (rerun_warm (Interaction e s)
           (Server (sv_cache (w_server w)) [] [] None) c Hc).
Qed.

(** Two runs for different browsers, in either order. *)
Lemma serve_commute e1 e2 j k s1 s2 w :
  j <> k -> settled w ->
  similar (serve e1 j s1 (serve e2 k s2 w)) (serve e2 k s2 (serve e1 j s1 w)).
Proof.
  intros Hjk Hw.
  rewrite (serve_answer e1 j s1), (serve_answer e2 k s2 (serve _ _ _ _)).
  cbn zeta. rewrite !serve_answer. cbn [w_server w_clients sv_cache sv_log].
  rewrite !answer_settled by done.
  split; cbn [w_server w_clients sv_cache sv_log].
  - by apply insert_insert_ne.
  - done.
  - rewrite !(assoc_L (++)). f_equiv. apply Permutation_app_comm.
Qed.

Lemma receive_commute e1 e2 q1 q2 w :
  client_of q1 <> client_of q2 -> settled w ->
  alike (receive e1 q1 w ≫= receive e2 q2)
    (receive e2 q2 w ≫= receive e1 q1).
Proof.
  intros Hq Hw. rewrite (receive_demand e1 q1 w), (receive_demand e2 q2 w).
  destruct (demand q1 _) as [s1|] eqn:H1, (demand q2 _) as [s2|] eqn:H2;
    cbn; rewrite ?receive_demand, ?demand_other, ?H1, ?H2 by done;
    constructor.
  by apply serve_commute.
Qed.

Lemma play_two e q e' q' l w :
  play ((e, q) :: (e', q') :: l) w
  = (receive e q w ≫= receive e' q') ≫= play l.
Proof. cbn [play]. by destruct (receive e q w). Qed.

(** A request moves behind the requests of other browsers. *)
Lemma play_move x l1 l2 w :
  apart [x] l1 -> settled w ->
  alike (play (x :: l1 ++ l2) w) (play (l1 ++ x :: l2) w).
Proof.
  revert w. induction l1 as [|y l1 IH]; intros w Hx Hw; [done|].
  destruct x as [e q], y as [e' q']. rewrite <- !app_comm_cons, play_two.
  transitivity ((receive e' q' w ≫= receive e q) ≫= play (l1 ++ l2)).
  - apply alike_bind; [|apply play_similar].
    apply receive_commute; [|done].
    apply (Hx (e, q) (e', q')); find_elem.
  - rewrite <- play_two. cbn [play].
    destruct (receive e' q' w) as [w'|] eqn:Hr; [|constructor].
    apply IH; [|by eapply receive_settled].
    intros x y Hx' Hy. apply Hx; [done|by right].
Qed.

(** The groups of an interleaving, one after the other. *)
Lemma play_merge l1 l2 l w :
  merge l1 l2 l -> apart l1 l2 -> settled w ->
  alike (play l w) (play (l1 ++ l2) w).
Proof.
  intros Hl. revert w.
  induction Hl as [|[e q] l1 l2 l _ IH|[e q] l1 l2 l _ IH];
    intros w Ha Hw; [done|..].
  - cbn [List.app play].
    destruct (receive e q w) as [w'|] eqn:Hr; [|constructor].
    apply IH; [|by eapply receive_settled].
    intros x y Hx Hy. apply Ha; [by right|done].
  - etrans; [|apply play_move; [|done]].
    + cbn [play]. destruct (receive e q w) as [w'|] eqn:Hr; [|constructor].
      apply IH; [|by eapply receive_settled].
      intros x y Hx Hy. apply Ha; [done|by right].
    + intros x y ->%list_elem_of_singleton Hy. apply not_eq_sym, Ha; [done|].
      by left.
Qed.

Lemma play_others l w w' k :
  play l w = Some w' -> Forall (λ x, client_of x.2 <> k) l ->
  w_clients w' !! k = w_clients w !! k.
Proof.
  revert w. induction l as [|[e q] l IH]; intros w Hp Hl;
    [by injection Hp as ->|].
  cbn [play] in Hp. destruct (receive e q w) as [w1|] eqn:Hr; [|done].
  apply Forall_cons in Hl as [Hq Hl]. rewrite (IH w1) by done.
  eapply receive_other; [done|]. by apply not_eq_sym.
Qed.

(** ** Before the gateway has settled *)

(** The first request decides: the browser that finds no artifact leaves
    the process without a model, also for the browser that comes when
    the artifact is there. *)
Lemma early_late_gateway :
  (gw_of ∘ w_server <$> play [early; late] online) = Some Unavailable
  /\ (gw_of ∘ w_server <$> play [late; early] online)
     = Some (Ready fixture_model).
Proof.
  unfold early, late. cbn [play]. rewrite !connect_new by done.
  cbn [mbind option_bind].
  rewrite !connect_new by (by rewrite serve_other).
  cbn [fmap option_fmap option_map compose mbind option_bind].
  split; f_equal; cbn [serve w_server]; by rewrite !gw_step.
Qed.

(** ** Theorems *)

(** C17: The requests of different browsers do not interfere.  On a
    server whose gateway has settled, take the requests of two groups
    of browsers in any interleaving that keeps the order of each group.
    Either the interleaving and the sequence (the first group, then the
    second) both contain a request that cannot be made, or both end in
    worlds in which every browser shows the same page and holds the
    same session, the cache is the same, and the same calls were made to
    the outside, in another order.  And every browser of the first group
    ends with the page and the session it has when the second group
    never asks. *)
Theorem interleaving_serial l1 l2 l w :
  merge l1 l2 l -> apart l1 l2 -> settled w ->
  alike (play l w) (play (l1 ++ l2) w)
  /\ forall w' w1 x,
       play l w = Some w' -> play l1 w = Some w1 -> x ∈ l1 ->
       w_clients w' !! client_of x.2 = w_clients w1 !! client_of x.2.
Proof.
  intros Hl Ha Hw. pose proof (play_merge l1 l2 l w Hl Ha Hw) as H.
  split; [done|]. intros w' w1 x Hw' Hw1 Hx.
  rewrite Hw', play_app, Hw1 in H. cbn [mbind option_bind] in H.
  destruct (play l2 w1) as [w2|] eqn:Hw2; inversion_clear H as [?? Hs|].
  rewrite (similar_clients _ _ Hs). eapply play_others; [done|].
  apply Forall_forall. intros y Hy. by apply not_eq_sym, Ha.
Qed.

(** The second visitor clicks and the first one opens the documentation,
    in this order and in the other. *)
Lemma interleaving_serial_witness :
  alike
    (play [(env_found,
            Act 1 (Click "🚀 Calculer la probabilité d'approbation"));
           (env_found, Act 0 (Pick "Navigation" 1))] two_visitors)
    (play [(env_found, Act 0 (Pick "Navigation" 1));
           (env_found,
            Act 1 (Click "🚀 Calculer la probabilité d'approbation"))]
       two_visitors).
Proof.
  apply (interleaving_serial
           [(env_found, Act 0 (Pick "Navigation" 1))]
           [(env_found,
             Act 1 (Click "🚀 Calculer la probabilité d'approbation"))]).
  - apply merge_right, merge_left, merge_nil.
  - by intros x y ->%list_elem_of_singleton ->%list_elem_of_singleton.
  - unfold settled. by rewrite two_visitors_ready.
Defined.
