(* ===== verification/Reload.v ===== *)
(** * Reload: what a reload changes

    After a run the browser keeps the state of the widgets the run
    declared, without the click ([kept]).  A run reads the session at
    the widgets it declares and nowhere else ([Local]), it does not
    read the log ([Logfree]), and a settled cache stays as it is
    ([Interleave]): so the run for what was kept is the run for the
    session, as long as the session held no click.  A reload after any
    action but a click shows the same page again and leaves the session
    as it is.  After a click it need not: the run of the reload does
    not see the click, which the session does not keep
    ([World.asks_on_click]). *)

From S2P Require Import Prelude PyFloat Runtime Keeps Fixtures.
From S2P Require Import Gateway Predict Docs App Session Spec.
From S2P Require Import Browser World Visit Logfree Local Interleave.

(** ** Definitions *)

(** The action is the click of a button. *)
Definition is_click (a : action) : bool :=
  match a with Click _ => true | _ => false end.

(** ** What is kept is enough *)

Lemma set_calm a s : is_click a = false -> calm s -> calm (set a s).
Proof.
  intros Ha Hs. destruct a; try done; by apply map_Forall_insert_2.
Qed.

Lemma kept_kept declared s :
  kept declared (kept declared s) = kept declared s.
Proof.
  unfold kept. rewrite map_filter_filter. apply map_filter_ext.
  intros w v _. tauto.
Qed.

(** The run for what is kept of a session without a click is the run
    for the session. *)
Lemma answer_kept e s c :
  calm s ->
  answer e (kept (rs_widgets (answer e s c).2) s) c = answer e s c.
Proof.
  intros Hs. unfold answer at 1 3.
  apply (local (m := app) (cx_of e s)). intros w Hw _.
  apply (kept_agree (rs_widgets (answer e s c).2)); [done| |done].
  apply Forall_forall. intros x _ Hx. by apply Hs in Hx.
Qed.

(** A run for the same browser with what it kept. *)
Lemma serve_again e k s w :
  settled w -> calm s ->
  exists c,
    w_clients (serve e k s w) !! k = Some c
    /\ w_clients (serve e k (cl_session c) (serve e k s w))
       = w_clients (serve e k s w).
Proof.
  intros Hw Hs. eexists. split; [apply lookup_insert_eq|].
  cbn [cl_session]. rewrite (serve_answer e k _ (serve e k s w)).
  cbn zeta. rewrite !serve_answer. cbn zeta.
  cbn [w_server w_clients sv_cache]. rewrite !run_answer.
  cbn [on_log snd with_log rs_widgets]. rewrite answer_settled by done.
  rewrite answer_kept, kept_kept by done. apply insert_insert_eq.
Qed.

(** ** Theorems *)

(** C24: A reload changes nothing.  In a world that can be reached, with
    the gateway settled, after any action of a browser but a click the
    browser can reload, and the reload leaves every browser with the
    page and the session it had, and the cache as it was, as long as
    the files are the same: what the session keeps of a run is all the
    run read. *)
Theorem reload_idempotent ok w e k a w1 :
  wreachable ok w -> settled w -> is_click a = false ->
  receive e (Act k a) w = Some w1 ->
  exists w2,
    receive e (Act k Rerun) w1 = Some w2
    /\ w_clients w2 = w_clients w1
    /\ sv_cache (w_server w2) = sv_cache (w_server w1).
Proof.
  intros Hr Hw Ha Hw1. apply wreachable_sound in Hr.
  rewrite receive_demand in Hw1. cbn [demand client_of] in Hw1.
  destruct (w_clients w !! k) as [c|] eqn:Hc; [|done]. cbn in Hw1.
  destruct (permitted _ _); [|done]. injection Hw1 as <-.
  destruct (sound_clients w Hr k c Hc) as [_ Hcalm _].
  destruct (serve_again e k (set a (cl_session c)) w Hw
              (set_calm _ _ Ha Hcalm)) as (c1 & Hc1 & Heq).
  eexists. cbn [receive]. rewrite Hc1. cbn. split; [done|].
  split; [done|].
  rewrite (serve_answer e k (cl_session c1)). cbn zeta.
  cbn [w_server sv_cache]. apply answer_settled. by apply serve_settled.
Qed.

(** The second visitor reloads twice. *)
Lemma reload_idempotent_witness :
  exists w1 w2,
    receive env_found (Act 1 Rerun) two_visitors = Some w1
    /\ receive env_found (Act 1 Rerun) w1 = Some w2
    /\ w_clients w2 = w_clients w1
    /\ sv_cache (w_server w2) = sv_cache (w_server w1).
Proof.
  destruct two_visitors_client as (c & Hc & _).
  assert (Hr : receive env_found (Act 1 Rerun) two_visitors
               = Some (serve env_found 1 (cl_session c) two_visitors)).
  { cbn [receive]. by rewrite Hc. }
  assert (Hs : settled two_visitors).
  { unfold settled. by rewrite two_visitors_ready. }
  destruct (reload_idempotent any_env two_visitors env_found 1 Rerun _
              two_visitors_reachable Hs eq_refl Hr) as (w2 & H).
  eexists _, w2. by split.
Defined.
