(* ===== verification/Navigate.v ===== *)
(** * Navigate: leaving the form

    The session of a browser keeps the state of the widgets the last run
    declared ([kept]).  The form is declared by the prediction page
    alone: a run for the documentation or for the about page declares
    the navigation and nothing else.  So a user who opens another page
    loses what the form held, and finds the defaults when coming back.
    [bare] is the relation of [Keeps] for the pieces of script that
    declare no widget.

    The navigation itself is declared by every run that gets past the
    load: as long as the artifact is in place or missing, every browser
    can open every page ([navigable]). *)

From S2P Require Import Prelude PyFloat Runtime Keeps Fixtures.
From S2P Require Import Gateway Predict Docs App Session Spec.
From S2P Require Import Browser World.

(** ** Definitions *)

(** A piece of script that declares no widget. *)
Definition bare (st st' : run_state) : Prop :=
  rs_widgets st' = rs_widgets st.

(** The user opens the page [i] of the navigation. *)
Definition open (i : nat) : action := Pick "Navigation" i.

(** The artifact is in place or missing. *)
Definition loadable (e : env) : Prop :=
  found_or_missing (joblib_load e artifact_path) = true.

(** Every browser can open every page. *)
Definition navigable (w : world) : Prop :=
  map_Forall (λ _ c, forall i, (i < length page_options)%nat ->
                permitted (cl_page c) (open i) = true) (w_clients w).

(** ** The pages without widgets *)

#[export] Instance bare_preorder : PreOrder bare.
Proof. split; [done|]. unfold bare. intros st1 st2 st3. congruence. Qed.

#[export] Instance bare_allows : Allows bare.
Proof. split. apply _. Qed.

#[export] Instance bare_allows_emit e : AllowsEmit bare e.
Proof. by intros p st. Qed.

#[export] Instance bare_allows_io ev : AllowsIo bare ev.
Proof. by intros st. Qed.

Lemma nav_index_open i s : nav_index (session_of (set (open i) s)) = i.
Proof.
  unfold nav_index, session_of, open, set. by rewrite lookup_insert_eq.
Qed.

(** The documentation, the about page and the footer declare nothing. *)
Lemma away_bare model cx st :
  nav_index (cx_session cx) <> 0%nat ->
  bare st ((body model (current_page (cx_session cx));; footer) cx st).2.
Proof.
  intros H. rewrite body_nav.
  destruct (nav_index _) as [|[|[|n]]]; [done|apply keeps; apply _..].
Qed.

(** A run for another page than the form declares the navigation at
    most. *)
Lemma app_away cx st :
  rs_out st = [] -> rs_widgets st = [] ->
  nav_index (cx_session cx) <> 0%nat ->
  rs_widgets (app cx st).2 ⊆ [nav_widget].
Proof.
  intros Hout Hws Hnav.
  destruct (load_model cx (st_css cx st)) as [r st1] eqn:Hl.
  pose proof (load_model_widgets cx (st_css cx st)) as Hw.
  rewrite Hl in Hw. cbn [snd st_css st_emits rs_widgets] in Hw.
  rewrite (app_steps cx st r st1) by done. destruct r as [x|model].
  - cbn [snd]. rewrite Hw, Hws. apply list_subseteq_nil.
  - rewrite (away_bare model cx _ Hnav). cbn [st_sidebar rs_widgets].
    by rewrite Hw, Hws.
Qed.

Lemma kept_undeclared declared s w :
  w ∉ declared -> kept declared s !! w = None.
Proof.
  intros H. apply map_lookup_filter_None_2. right. intros v _ [Hw _].
  done.
Qed.

Lemma receive_act e k a w w' :
  receive e (Act k a) w = Some w' ->
  exists c, w_clients w !! k = Some c /\ permitted (cl_page c) a = true
    /\ w' = serve e k (set a (cl_session c)) w.
Proof.
  cbn [receive]. destruct (w_clients w !! k) as [c|]; [|done]. cbn.
  destruct (permitted _ _) eqn:Hp; [|done]. intros [= <-]. by exists c.
Qed.

(** What the client keeps after a run for another page. *)
Lemma serve_away e k i s w :
  i <> 0%nat ->
  exists c',
    w_clients (serve e k (set (open i) s) w) !! k = Some c'
    /\ Forall (λ x, cl_session c' !! x = None) page_widgets.
Proof.
  intros Hi. eexists. split; [apply lookup_insert_eq|]. cbn [cl_session].
  apply Forall_forall. intros x Hx. apply kept_undeclared. intros Hd.
  apply app_away in Hd; [|done|done|];
    [|by cbn [cx_of cx_session]; rewrite nav_index_open].
  apply list_elem_of_singleton in Hd as ->. revert Hx. by_decide.
Qed.

(** ** The navigation is always there *)

(** After the load has returned, the page shows the navigation. *)
Lemma app_shows_navigation cx st model st1 :
  rs_out st = [] -> rs_widgets st = [] ->
  load_model cx (st_css cx st) = (inr model, st1) ->
  (cx_path cx ++ [CSidebar], ERadio "Navigation" page_options)
  ∈ page (app cx st).2.
Proof.
  intros Hout Hws Hl. rewrite (app_steps cx st _ st1) by done.
  destruct (keeps (R := grows)
              (m := body model (current_page (cx_session cx));; footer)
              cx (st_sidebar cx st1)) as [[l Hg] _ _ _].
  unfold page. rewrite Hg, elem_of_reverse, elem_of_app. right.
  cbn [st_sidebar rs_out]. rewrite elem_of_app, elem_of_reverse. left.
  unfold sidebar_page. find_elem.
Qed.

(** The client of a run in which the load returns can open every
    page. *)
Lemma serve_offers_navigation e k s w :
  gw_of (w_server w) <> Unloaded \/ loadable e ->
  exists c, w_clients (serve e k s w) !! k = Some c
    /\ forall i, (i < length page_options)%nat ->
         permitted (cl_page c) (open i) = true.
Proof.
  intros Hl. eexists. split; [apply lookup_insert_eq|]. intros i Hi.
  cbn [cl_page permitted open]. apply bool_decide_eq_true, Exists_exists.
  assert (exists model st1,
    load_model (cx_of e s) (st_css (cx_of e s) (start (w_server w)))
    = (inr model, st1)) as (model & st1 & Hload).
  { destruct Hl as [Hg|Hl].
    - destruct (sv_model (w_server w)) as [[v replay]|] eqn:Hc;
        [|by unfold gw_of in Hg; rewrite Hc in Hg].
      eexists _, _. by apply load_model_warm.
    - destruct (load_model_returns (cx_of e s)
                  (st_css (cx_of e s) (start (w_server w))) Hl)
        as (v & ? & st1 & Hv & _). by exists v, st1. }
  eexists. split.
  - by eapply (app_shows_navigation (cx_of e s) (start (w_server w))).
  - unfold open. cbn [snd offers]. rewrite bool_decide_eq_true_2 by done.
    by apply bool_decide_eq_true.
Qed.

Lemma receive_navigable e q w w' :
  loadable e -> receive e q w = Some w' -> navigable w -> navigable w'.
Proof.
  intros He Hr Hw.
  assert (exists k s, w' = serve e k s w) as (k & s & ->).
  { destruct q as [k|k a].
    - cbn [receive] in Hr. destruct (w_clients w !! k); simplify_eq. eauto.
    - apply receive_act in Hr as (c & _ & _ & ->). eauto. }
  destruct (serve_offers_navigation e k s w (or_intror He)) as (c & Hc & H).
  cbn [serve w_clients] in *. rewrite lookup_insert_eq in Hc.
  injection Hc as <-. by apply map_Forall_insert_2.
Qed.

(** With an artifact that cannot be read the run ends at the load: the
    page has no navigation, and the user can only reload. *)
Lemma corrupt_dead_end : ~ navigable (serve env_corrupt 0 ∅ online).
Proof.
  intros H.
  specialize (H 0%nat _ (lookup_insert_eq _ _ _) 1%nat ltac:(cbn; lia)).
  cbn [cl_page] in H. unfold run in H.
  erewrite app_steps in H; [|done|done|];
    [|rewrite load_model_cold by done; apply surjective_pairing].
  revert H. by vm_compute.
Qed.

(** ** Theorems *)

(** C21: Leaving the form forgets it.  When a user opens another page
    than the prediction page, the session of the browser after the run
    holds nothing for the eleven inputs of the form nor for the button,
    whatever was entered before and whatever the files hold; the run
    that shows the form again reads the default of every input. *)
Theorem navigation_forgets e k i w w' :
  i <> 0%nat -> receive e (Act k (open i)) w = Some w' ->
  exists c',
    w_clients w' !! k = Some c'
    /\ Forall (λ x, cl_session c' !! x = None) page_widgets
    /\ read_inputs (session_of (set (open 0) (cl_session c')))
       = read_inputs (session_of ∅).
Proof.
  intros Hi (c & _ & _ & ->)%receive_act.
  destruct (serve_away e k i (cl_session c) w Hi) as (c' & Hc' & Ha).
  exists c'. split; [done|]. split; [done|].
  apply read_inputs_agree. intros x Hx. unfold open.
  rewrite set_lookup_ne, lookup_empty.
  - rewrite Forall_forall in Ha. apply Ha. apply elem_of_app. by left.
  - cbn [target]. intros [= <-]. revert Hx. by_decide.
Qed.

(** C23: No dead end.  As long as the artifact is in place or missing,
    every browser of every world that can be reached shows the
    navigation and can open each of the three pages: no run leaves a
    user on a page without a way on. *)
Theorem no_dead_end w : wreachable loadable w -> navigable w.
Proof.
  revert w. apply rtc_ind_r; [apply map_Forall_empty|].
  intros w w' _ [e q w1 w2 He Hr] IH. by eapply receive_navigable.
Qed.

(** The second visitor opens the documentation. *)
Lemma navigation_forgets_witness :
  exists w' c',
    receive env_found (Act 1 (open 1)) two_visitors = Some w'
    /\ w_clients w' !! 1%nat = Some c'
    /\ Forall (λ x, cl_session c' !! x = None) page_widgets
    /\ read_inputs (session_of (set (open 0) (cl_session c')))
       = read_inputs (session_of ∅).
Proof.
  destruct (serve_offers_navigation env_found 1 ∅ first_visitor)
    as (c & Hc & Hp); [by left; rewrite first_visitor_ready|].
  specialize (Hp 1%nat ltac:(cbn; lia)).
  assert (Hr : receive env_found (Act 1 (open 1)) two_visitors
               = Some (serve env_found 1 (set (open 1) (cl_session c))
                         two_visitors)).
  { change (w_clients two_visitors !! 1%nat = Some c) in Hc.
    cbn [receive]. rewrite Hc. cbn [mbind option_bind]. by rewrite Hp. }
  destruct (navigation_forgets env_found 1 1 two_visitors _ ltac:(lia) Hr)
    as (c' & H).
  eexists _, c'. by split.
Defined.

(** The two visitors of the fixture. *)
Lemma no_dead_end_witness : navigable two_visitors.
Proof.
  apply no_dead_end.
  eapply rtc_l; [|apply rtc_once];
    by eapply (wstep_receive _ env_found), connect_new.
Defined.
