(* ===== verification/Overlap.v ===== *)
(** * Overlap: runs that overlap

    [World] serves one request at a time.  Streamlit starts the run of
    a request in a thread of its own while the runs of other browsers
    are under way, and the runs share the cache of [load_model].  Here
    a run is three parts: the script before the call of [load_model],
    which shows the frame; the call, whose steps the threads of
    [Threads] interleave under the lock of the cache; and the script
    after the call ([Cachefree.after_load]), with what the call
    returned.  The page is delivered to the browser when the run has
    ended; until then the browser makes no other request.

    The theorem of this file is that nothing is gained or lost by the
    overlap: every state reached by runs that overlap matches a state
    of [World], reached by serving requests one at a time.  The worlds
    are related by [matches]: the same cache, and for every browser
    the page and the session it has or, when the call of its run has
    returned, will have when the run is delivered.  The theorem states
    that such a world exists; which one is in the proof, a simulation
    in which [World] serves a request at the step in which its call of
    [load_model] returns ([return_matches]) and stands still on every
    other step.  It rests on [Threads.coherent] (a thread reads the
    artifact only while the cache is empty) and on [CacheFree] (the
    script after the call does not touch the cache).  It follows that
    what is proved of the clients of every world that can be reached
    holds when the runs overlap (the records that reach the pipeline
    are in its domain; when the artifact keeps its promise a click is
    answered with a result and no failure of the scoring is shown) and
    that the artifact is read at most once.  [Settle] shows that every
    run under way ends and that serving one request at a time is a
    case of the overlap. *)

From S2P Require Import Prelude PyFloat Runtime Keeps Fixtures.
From S2P Require Import Gateway Predict Docs App Logfree Cachefree.
From S2P Require Import Session Spec Threads Browser World Scoring.
From S2P Require Import Interleave.

(** ** Definitions *)

(** A run under way: the files it finds, the request it serves and the
    session the request came with. *)
Record flight := Flight {
  fl_env : env;
  fl_request : request;
  fl_session : session
}.

(** The process: the calls of [load_model] of the runs under way with
    the cache they share, the runs under way, and the browsers. *)
Record overlap := Overlap {
  ov_system : system;
  ov_flights : gmap nat flight;
  ov_clients : gmap nat client
}.

Definition opening : overlap := Overlap quiet_system ∅ ∅.

(** The state of a run before the call: the frame is shown. *)
Definition st_called (cx : run_ctx) : run_state :=
  st_css cx (initial_state ∅).

(** The state of a run when the call has returned [v]: the thread that
    found no artifact shows the notice ([Gateway.notice]), which is
    stored with the value and shown again to every thread that finds
    the value in the cache. *)
Definition st_returned (cx : run_ctx) (v : option pipeline) : run_state :=
  st_emits (reverse (pair (cx_path cx) <$> notice v)) (st_called cx).

(** The run after the call: the rest of the script when the call
    returned, the exception when it raised. *)
Definition resume (p : pc) (cx : run_ctx)
    : option ((exn + unit) * run_state) :=
  match p with
  | Returned v => Some (after_load v cx (st_returned cx v))
  | Failed x => Some (inl x, st_called cx)
  | _ => None
  end.

(** What a browser gets from a run: the page, and of its session what
    the widgets the run declared keep. *)
Definition delivered (s : session) (r : (exn + unit) * run_state)
    : client :=
  Client (kept (rs_widgets r.2) s) (page r.2).

(** The thread of a run leaves when the run ends. *)
Definition leave (k : nat) (s : system) : system :=
  System (delete k (sy_threads s)) (sy_shared s).

(** What the browser [k] will get from its run under way, once the call
    of the run has returned. *)
Definition pending (o : overlap) (k : nat) : option client :=
  f ← ov_flights o !! k;
  p ← sy_threads (ov_system o) !! k;
  delivered (fl_session f) <$> resume p (cx_of (fl_env f) (fl_session f)).

(** A request arrives from a browser that has no run under way: its run
    starts, up to the call. *)
Definition arrive (e : env) (q : request) (o : overlap) : option overlap :=
  let k := client_of q in
  match ov_flights o !! k with
  | Some _ => None
  | None =>
      s ← demand q (ov_clients o);
      Some (Overlap (move k Calling (sy_shared (ov_system o)) (ov_system o))
              (<[k := Flight e q s]> (ov_flights o)) (ov_clients o))
  end.

(** The call of the run of [k] takes a step. *)
Definition proceed (k : nat) (o : overlap) : option overlap :=
  f ← ov_flights o !! k;
  s' ← advance (fl_env f) k (ov_system o);
  Some (Overlap s' (ov_flights o) (ov_clients o)).

(** The run of [k], whose call has returned, ends: its page is
    delivered. *)
Definition finish (k : nat) (o : overlap) : option overlap :=
  c ← pending o k;
  Some (Overlap (leave k (ov_system o)) (delete k (ov_flights o))
          (<[k := c]> (ov_clients o))).

Inductive ostep (ok : env -> Prop) : overlap -> overlap -> Prop :=
| o_arrive e q o o' : ok e -> arrive e q o = Some o' -> ostep ok o o'
| o_proceed k o o' : proceed k o = Some o' -> ostep ok o o'
| o_finish k o o' : finish k o = Some o' -> ostep ok o o'.

Definition oreachable (ok : env -> Prop) : overlap -> Prop :=
  rtc (ostep ok) opening.

(** What happens in the process, and a list of such events, in order. *)
Inductive event :=
| Arrives (e : env) (q : request)
| Proceeds (k : nat)
| Ends (k : nat).

Definition occur (ev : event) (o : overlap) : option overlap :=
  match ev with
  | Arrives e q => arrive e q o
  | Proceeds k => proceed k o
  | Ends k => finish k o
  end.

Fixpoint perform (l : list event) (o : overlap) : option overlap :=
  match l with
  | [] => Some o
  | ev :: l => o' ← occur ev o; perform l o'
  end.

(** The files an event brings. *)
Definition allowed (ok : env -> Prop) (ev : event) : Prop :=
  match ev with Arrives e _ => ok e | _ => True end.

(** The cache of a process whose one entry is [c]. *)
Definition cache_of (c : option cache_entry) : gmap string cache_entry :=
  match c with Some c => {[load_model_key := c]} | None => ∅ end.

(** What the browser [k] shows, or will show when its run is
    delivered. *)
Definition shown (o : overlap) (k : nat) : option client :=
  match pending o k with Some c => Some c | None => ov_clients o !! k end.

(** The process with overlapping runs and the process that serves one
    request at a time are at the same point. *)
Record matches (o : overlap) (w : world) : Prop := Matches {
  ma_cache :
    sv_cache (w_server w) = cache_of (sh_entry (sy_shared (ov_system o)));
  ma_clients k : w_clients w !! k = shown o k
}.

(** The invariant of the runs under way: their calls are coherent, the
    cache holds a value with its notice, every run has a thread, and a
    run serves a request of its browser that the browser may still
    make. *)
Record steady (ok : env -> Prop) (o : overlap) : Prop := Steady {
  sd_coherent : coherent (ov_system o);
  sd_entry v replay :
    sh_entry (sy_shared (ov_system o)) = Some (v, replay) ->
    replay = notice v;
  sd_threads k :
    is_Some (sy_threads (ov_system o) !! k) <-> is_Some (ov_flights o !! k);
  sd_flights k f :
    ov_flights o !! k = Some f ->
    ok (fl_env f) /\ client_of (fl_request f) = k
    /\ demand (fl_request f) (ov_clients o) = Some (fl_session f)
}.

(** No run is under way. *)
Definition at_rest (o : overlap) : Prop := ov_flights o = ∅.

(** A step of a call either leaves the cache as it is and the thread in
    the call, or it ends the call, and then the run of the request on
    the cache before the step is the rest of the run after the call, on
    the cache after the step: the return of the call is the moment at
    which the request is served. *)
Inductive stepped (e : env) (k : nat) (s s' : system) : Prop :=
| st_inside p p' sh' :
    moved k p p' sh' s s' -> final p = false -> final p' = false ->
    sh_entry sh' = sh_entry (sy_shared s) -> stepped e k s s'
| st_return p p' sh' io :
    moved k p p' sh' s s' -> final p = false ->
    (forall s0,
       Some (answer e s0 (cache_of (sh_entry (sy_shared s))))
       = shared_with (cache_of (sh_entry sh')) io
           <$> resume p' (cx_of e s0)) ->
    stepped e k s s'.

(** Two browsers connect at once while the artifact is missing.  The
    call of the first reads the artifact and returns while the call of
    the second waits for the lock. *)
Definition cold_start : list event :=
  [Arrives env_missing (Connect 0); Arrives env_missing (Connect 1);
   Proceeds 0; Proceeds 1; Proceeds 0; Proceeds 0; Proceeds 0].

Definition mid_race : overlap :=
  default opening (perform cold_start opening).

(** ** The run of a request, by the call and the rest *)

Lemma from_option_some {A} (x : option A) : from_option Some None x = x.
Proof. by destruct x. Qed.

Lemma entry_notice r v replay :
  load_entry r = Some (v, replay) -> replay = notice v.
Proof.
  destruct r as [x|m]; cbn; [destruct (only _ _)|]; by intros [= <- <-].
Qed.

(** The script is the frame, the call, and the rest. *)
Lemma app_call cx c :
  app cx (initial_state c)
  = (model ← load_model; after_load model) cx (with_cache c (st_called cx)).
Proof. by rewrite app_from_load. Qed.

(** On a filled cache: the rest, with the value of the cache. *)
Lemma answer_warm e s v :
  Some (answer e s (cache_of (Some (v, notice v))))
  = shared_with (cache_of (Some (v, notice v))) []
      <$> resume (Returned v) (cx_of e s).
Proof.
  unfold answer. rewrite app_call. unfold mbind at 1, script_bind at 1.
  rewrite (load_model_warm _ _ v (notice v)) by apply lookup_insert_eq.
  cbn [resume fmap option_fmap option_map].
  by rewrite private_run by apply _.
Qed.

(** On an empty cache: the read of the artifact, and the rest with
    what the read gave. *)
Lemma answer_cold e s :
  let r := joblib_load e artifact_path in
  Some (answer e s ∅)
  = shared_with (cache_of (load_entry r)) [IoJoblibLoad artifact_path]
      <$> resume (outcome r) (cx_of e s).
Proof.
  cbn zeta. unfold answer. rewrite app_call.
  unfold mbind at 1, script_bind at 1.
  rewrite load_model_cold by done. unfold cold_outcome.
  cbn [cx_of cx_env].
  destruct (joblib_load e artifact_path) as [x|m]; cbn [outcome load_entry].
  - destruct (only _ _); [|done]. cbn [resume fmap option_fmap option_map].
    by rewrite private_run by apply _.
  - cbn [resume fmap option_fmap option_map].
    by rewrite private_run by apply _.
Qed.

(** ** The steps of a call *)

Lemma advance_stepped e k s s' :
  coherent s ->
  (forall v replay,
     sh_entry (sy_shared s) = Some (v, replay) -> replay = notice v) ->
  advance e k s = Some s' -> stepped e k s s'.
Proof.
  intros Hs Hn Ha%advance_advanced.
  destruct Ha as [v replay Hc Hm|Hc Hm|Hf Hm|v replay Hc Hm|Hc Hm|Hm].
  - eapply st_return; [done|done|]. intros s0.
    rewrite Hc, (Hn v replay Hc). apply answer_warm.
  - by eapply st_inside.
  - by eapply st_inside.
  - eapply st_return; [done|done|]. intros s0. cbn [sh_entry].
    rewrite Hc, (Hn v replay Hc). apply answer_warm.
  - eapply st_inside; [done..|]. by rewrite Hc.
  - eapply st_return; [done|done|]. intros s0. cbn [sh_entry].
    rewrite (co_reading s Hs k (mv_from _ _ _ _ _ _ Hm)), from_option_some.
    apply answer_cold.
Qed.

(** ** The steps, one by one *)

Lemma arrive_inv e q o o' :
  arrive e q o = Some o' ->
  exists s,
    ov_flights o !! client_of q = None
    /\ demand q (ov_clients o) = Some s
    /\ o' = Overlap (move (client_of q) Calling (sy_shared (ov_system o))
                       (ov_system o))
              (<[client_of q := Flight e q s]> (ov_flights o))
              (ov_clients o).
Proof.
  unfold arrive. destruct (ov_flights o !! _); [done|].
  destruct (demand _ _) as [s|]; [|done]. intros [= <-]. by exists s.
Qed.

Lemma proceed_inv k o o' :
  proceed k o = Some o' ->
  exists f s',
    ov_flights o !! k = Some f
    /\ advance (fl_env f) k (ov_system o) = Some s'
    /\ o' = Overlap s' (ov_flights o) (ov_clients o).
Proof.
  unfold proceed. destruct (ov_flights o !! k) as [f|]; [|done].
  cbn [mbind option_bind].
  destruct (advance _ _ _) as [s'|] eqn:Ha; [|done].
  intros [= <-]. by exists f, s'.
Qed.

Lemma finish_inv k o o' :
  finish k o = Some o' ->
  exists c,
    pending o k = Some c
    /\ o' = Overlap (leave k (ov_system o)) (delete k (ov_flights o))
              (<[k := c]> (ov_clients o)).
Proof.
  unfold finish. destruct (pending o k) as [c|]; [|done].
  intros [= <-]. by exists c.
Qed.

(** A request looks at its browser alone. *)
Lemma demand_local q cs cs' :
  cs !! client_of q = cs' !! client_of q -> demand q cs = demand q cs'.
Proof. destruct q; cbn; by intros ->. Qed.

(** What a browser will show depends on its run, its thread and what it
    shows. *)
Lemma shown_local o o' k :
  ov_flights o' !! k = ov_flights o !! k ->
  sy_threads (ov_system o') !! k = sy_threads (ov_system o) !! k ->
  ov_clients o' !! k = ov_clients o !! k -> shown o' k = shown o k.
Proof. unfold shown, pending. by intros -> -> ->. Qed.

(** While the call of a run is under way the browser shows what it
    showed. *)
Lemma shown_inside o k p :
  sy_threads (ov_system o) !! k = Some p -> final p = false ->
  shown o k = ov_clients o !! k.
Proof.
  intros Hk Hp. unfold shown, pending. rewrite Hk.
  destruct (ov_flights o !! k); [|done]. by destruct p.
Qed.

Lemma shown_idle o k :
  ov_flights o !! k = None -> shown o k = ov_clients o !! k.
Proof. intros Hk. unfold shown, pending. by rewrite Hk. Qed.

(** A thread that has left the call keeps the invariant of the calls
    when it leaves. *)
Lemma leave_coherent k p s :
  sy_threads s !! k = Some p -> final p = true -> coherent s ->
  coherent (leave k s).
Proof.
  intros Hk Hp Hs. split; cbn [leave sy_shared sy_threads]; intros j.
  - rewrite (co_lock s Hs j). split; intros (q & Hq & Hc); exists q.
    + split; [|done]. rewrite lookup_delete_ne; [done|]. intros <-.
      rewrite Hk in Hq. injection Hq as <-.
      by rewrite final_not_critical in Hc.
    + split; [|done]. by apply lookup_delete_Some in Hq as [_ Hq].
  - intros [_ Hq]%lookup_delete_Some. by apply (co_reading s Hs j).
  - intros v [_ Hq]%lookup_delete_Some. by apply (co_returned s Hs j).
Qed.

(** ** The invariant *)

Lemma opening_steady ok : steady ok opening.
Proof.
  split; cbn; [apply quiet_coherent|done| |done]. intros k.
  by rewrite !lookup_empty.
Qed.

Lemma arrive_steady ok e q o o' :
  ok e -> arrive e q o = Some o' -> steady ok o -> steady ok o'.
Proof.
  intros He (s & Hf & Hd & ->)%arrive_inv [Hco Hen Hth Hfl].
  assert (Hk : sy_threads (ov_system o) !! client_of q = None).
  { apply eq_None_not_Some. rewrite Hth, Hf. by intros []. }
  split; cbn [ov_system ov_flights ov_clients move sy_shared sy_threads].
  - by apply arrive_coherent.
  - done.
  - intros k. rewrite !lookup_insert. case_decide; [by split|done].
  - intros k f. rewrite lookup_insert. case_decide as Hj; [|by apply Hfl].
    by intros [= <-].
Qed.

Lemma proceed_steady ok k o o' :
  proceed k o = Some o' -> steady ok o -> steady ok o'.
Proof.
  intros (f & s' & Hf & Ha & ->)%proceed_inv [Hco Hen Hth Hfl].
  split; cbn [ov_system ov_flights ov_clients]; [|intros v replay|..|done].
  - by eapply advance_coherent.
  - apply advance_advanced in Ha.
    destruct Ha as [? ? ? [_ ->]|? [_ ->]|? [_ ->]|? ? ? [_ ->]
                   |Hc [_ ->]|[_ ->]];
      cbn [move sy_shared sh_entry]; try apply Hen.
    + by intros [= <- <-]; eapply Hen.
    + by rewrite Hc in *.
    + destruct (load_entry _) as [c|] eqn:Hl; cbn; [|apply Hen].
      intros [= ->]. by eapply entry_notice.
  - apply advance_advanced, advanced_rank in Ha
      as (p & p' & sh' & [Hk ->] & _).
    intros j. rewrite <- Hth, lookup_move. case_decide; [subst j|done].
    by rewrite Hk.
Qed.

Lemma finish_steady ok k o o' :
  finish k o = Some o' -> steady ok o -> steady ok o'.
Proof.
  intros (c & Hc & ->)%finish_inv [Hco Hen Hth Hfl].
  unfold pending in Hc.
  destruct (ov_flights o !! k) as [f|] eqn:Hf; [|done].
  destruct (sy_threads (ov_system o) !! k) as [p|] eqn:Hk; [|done].
  cbn in Hc.
  split; cbn [ov_system ov_flights ov_clients leave sy_shared sy_threads].
  - eapply leave_coherent; [done| |done]. by destruct p.
  - done.
  - intros j. destruct (base.decide (j = k)) as [->|Hj].
    + rewrite !lookup_delete_eq. split; by intros [].
    + by rewrite !lookup_delete_ne.
  - intros j g [Hj Hg]%lookup_delete_Some.
    destruct (Hfl j g Hg) as (Hok & Hq & Hd). split; [done|].
    split; [done|]. rewrite <- Hd. apply demand_local.
    rewrite Hq. by apply lookup_insert_ne.
Qed.

Lemma ostep_steady ok o o' : ostep ok o o' -> steady ok o -> steady ok o'.
Proof.
  intros [e q o1 o2 He Ha|k o1 o2 Hp|k o1 o2 Hf];
    eauto using arrive_steady, proceed_steady, finish_steady.
Qed.

Lemma oreachable_steady ok o : oreachable ok o -> steady ok o.
Proof.
  revert o. apply rtc_ind_r; [apply opening_steady|].
  intros o o' _ Hs IH. by eapply ostep_steady.
Qed.

(** ** The simulation *)

(** While a request waits for its call the served world stands still. *)
Lemma arrive_matches e q o o' w :
  arrive e q o = Some o' -> matches o w -> matches o' w.
Proof.
  intros (s & Hf & Hd & ->)%arrive_inv [Hc Hcl]. split; [done|].
  intros j. rewrite Hcl. symmetry.
  destruct (base.decide (j = client_of q)) as [->|Hj].
  - rewrite (shown_idle o) by done.
    by rewrite (shown_inside _ _ Calling)
      by (by cbn; rewrite ?lookup_insert_eq).
  - apply shown_local; cbn; by rewrite ?lookup_insert_ne.
Qed.

(** The delivery of a page is no news to the served world. *)
Lemma finish_matches k o o' w :
  finish k o = Some o' -> matches o w -> matches o' w.
Proof.
  intros (c & Hc & ->)%finish_inv [Hca Hcl]. split; [done|].
  intros j. rewrite Hcl. symmetry.
  destruct (base.decide (j = k)) as [->|Hj].
  - rewrite shown_idle by (cbn; apply lookup_delete_eq). cbn.
    rewrite lookup_insert_eq. unfold shown. by rewrite Hc.
  - apply shown_local; cbn; by rewrite ?lookup_delete_ne, ?lookup_insert_ne.
Qed.

(** The return of the call of a run is the run of its request in the
    served world. *)
Lemma return_matches k f p p' sh' io o w :
  ov_flights o !! k = Some f ->
  sy_threads (ov_system o) !! k = Some p -> final p = false ->
  Some (answer (fl_env f) (fl_session f)
          (cache_of (sh_entry (sy_shared (ov_system o)))))
  = shared_with (cache_of (sh_entry sh')) io
      <$> resume p' (cx_of (fl_env f) (fl_session f)) ->
  matches o w ->
  matches (Overlap (move k p' sh' (ov_system o)) (ov_flights o)
             (ov_clients o))
    (serve (fl_env f) k (fl_session f) w).
Proof.
  intros Hf Hk Hp Hr [Hca Hcl]. rewrite serve_answer. cbn zeta.
  rewrite Hca. destruct (resume p' _) as [r'|] eqn:Hres; [|done].
  injection Hr as ->.
  split; cbn [w_server w_clients sv_cache ov_system move sy_shared
                shared_with snd rs_cache]; [done|].
  intros j. destruct (base.decide (j = k)) as [->|Hj].
  - rewrite lookup_insert_eq. unfold shown, pending.
    cbn [ov_system ov_flights move sy_threads].
    rewrite Hf, lookup_insert_eq. cbn [mbind option_bind]. by rewrite Hres.
  - rewrite lookup_insert_ne, Hcl by done. symmetry.
    apply shown_local; cbn; by rewrite ?lookup_insert_ne.
Qed.

(** A step of a call: the served world stands still while the thread
    is in the call, and serves the request of the run when the call
    returns. *)
Lemma proceed_cases ok k o o' w :
  proceed k o = Some o' -> steady ok o -> matches o w ->
  exists f p p',
    ov_flights o !! k = Some f /\ ov_flights o' = ov_flights o
    /\ sy_threads (ov_system o) !! k = Some p /\ final p = false
    /\ sy_threads (ov_system o') !! k = Some p'
    /\ if final p' then
         receive (fl_env f) (fl_request f) w
         = Some (serve (fl_env f) k (fl_session f) w)
         /\ matches o' (serve (fl_env f) k (fl_session f) w)
       else matches o' w.
Proof.
  intros (f & s' & Hf & Ha & ->)%proceed_inv Hs Hm.
  destruct (sd_flights ok o Hs k f Hf) as (Hok & Hq & Hd).
  destruct (advance_stepped _ _ _ _ (sd_coherent ok o Hs) (sd_entry ok o Hs)
              Ha) as [p p' sh' [Hk ->] Hp Hp' He|p p' sh' io [Hk ->] Hp Hr];
    exists f, p, p'; cbn [ov_flights ov_system move sy_threads];
    rewrite lookup_insert_eq; (do 5 (split; [done|])).
  - rewrite Hp'. destruct Hm as [Hca Hcl]. split; cbn; [by rewrite He|].
    intros j. rewrite Hcl. symmetry.
    destruct (base.decide (j = k)) as [->|Hj].
    + by rewrite (shown_inside o k p), (shown_inside _ k p')
        by (by cbn; rewrite ?lookup_insert_eq).
    + apply shown_local; cbn; by rewrite ?lookup_insert_ne.
  - pose proof (Hr (fl_session f)) as Hr'.
    destruct (resume p' _) eqn:Hres in Hr'; [|done].
    replace (final p') with true by (by destruct p').
    split; [|by eapply return_matches].
    rewrite receive_demand, Hq, (demand_local _ _ (ov_clients o)), Hd;
      [done|].
    rewrite Hq, (ma_clients o w Hm). by eapply shown_inside.
Qed.

Lemma proceed_matches ok k o o' w :
  proceed k o = Some o' -> steady ok o -> matches o w ->
  matches o' w \/ exists w', wstep ok w w' /\ matches o' w'.
Proof.
  intros Hp Hs Hm.
  destruct (proceed_cases ok k o o' w Hp Hs Hm)
    as (f & p & p' & Hf & _ & _ & _ & _ & Hcase).
  destruct (final p'); [right|by left]. destruct Hcase as [Hr Hm'].
  eexists. split; [|done]. econstructor; [|done].
  by apply (sd_flights ok o Hs k f Hf).
Qed.

Lemma ostep_matches ok o o' w :
  ostep ok o o' -> steady ok o -> matches o w ->
  exists w', rtc (wstep ok) w w' /\ matches o' w'.
Proof.
  intros [e q o1 o2 He Ha|k o1 o2 Hp|k o1 o2 Hf] Hs Hm.
  - exists w. split; [done|exact (arrive_matches _ _ _ _ _ Ha Hm)].
  - destruct (proceed_matches ok k o1 o2 w Hp Hs Hm) as [?|(w' & ? & ?)];
      [exists w; by split|exists w'; split; [by apply rtc_once|done]].
  - exists w. split; [done|exact (finish_matches _ _ _ _ Hf Hm)].
Qed.

Lemma opening_matches : matches opening online.
Proof. by split. Qed.

(** At rest the browsers show what they show in the served world. *)
Lemma matches_at_rest o w :
  matches o w -> at_rest o -> w_clients w = ov_clients o.
Proof.
  intros [_ Hcl] Hr. apply map_eq. intros k. rewrite Hcl.
  apply shown_idle. by rewrite Hr.
Qed.

Lemma oreachable_matches ok o :
  oreachable ok o -> exists w, wreachable ok w /\ matches o w.
Proof.
  revert o. apply rtc_ind_r.
  { exists online. split; [apply rtc_refl|apply opening_matches]. }
  intros o o' Ho Hs (w & Hw & Hm).
  destruct (ostep_matches ok o o' w Hs (oreachable_steady ok o Ho) Hm)
    as (w' & Hw' & Hm').
  exists w'. split; [unfold wreachable; by etrans|done].
Qed.

(** ** Lists of events *)

Lemma perform_reachable ok l o o' :
  Forall (allowed ok) l -> perform l o = Some o' -> rtc (ostep ok) o o'.
Proof.
  intros Hl. revert o. induction Hl as [|ev l Hev _ IH]; intros o Hp.
  - injection Hp as <-. apply rtc_refl.
  - cbn [perform] in Hp. destruct (occur ev o) as [o1|] eqn:Ho; [|done].
    eapply rtc_l; [|by apply IH].
    destruct ev; [by eapply o_arrive|by eapply o_proceed|by eapply o_finish].
Qed.

Lemma cold_start_runs : perform cold_start opening = Some mid_race.
Proof. by vm_compute. Qed.

Lemma mid_race_reachable : oreachable any_env mid_race.
Proof.
  eapply perform_reachable; [|apply cold_start_runs].
  by repeat constructor.
Qed.

(** In the middle of the race the first browser is about to be shown
    the page with the notice, and the second is still shown nothing. *)
Lemma mid_race_shown :
  (result <$> sy_threads (ov_system mid_race) !! 0%nat)
  = Some (Some (inr None))
  /\ (result <$> sy_threads (ov_system mid_race) !! 1%nat) = Some None
  /\ is_Some (shown mid_race 0) /\ shown mid_race 1 = None.
Proof.
  split; [by vm_compute|]. split; [by vm_compute|].
  split; [by_decide|by vm_compute].
Qed.

(** ** What holds of every world holds when the runs overlap *)

Lemma overlap_transfer ok (P : nat -> client -> Prop) :
  (forall w, wreachable ok w -> map_Forall P (w_clients w)) ->
  forall o k c, oreachable ok o -> shown o k = Some c -> P k c.
Proof.
  intros HP o k c (w & Hw & Hm)%oreachable_matches Hc.
  apply (HP w Hw). by rewrite (ma_clients o w Hm).
Qed.

(** What a browser is shown, or is about to be shown, is a session that
    fits the form and a page whose widgets are those of the form. *)
Lemma overlap_clients_ok ok o k c :
  oreachable ok o -> shown o k = Some c -> client_ok c.
Proof.
  apply (overlap_transfer ok (λ _, client_ok)). intros w Hw.
  apply (sound_clients w), (wreachable_sound ok w Hw).
Qed.

(** What the browsers show while runs are under way is sound as well:
    a page is delivered as it was about to be shown. *)
Lemma overlap_clients_sound ok o :
  oreachable ok o -> map_Forall (λ _, client_ok) (ov_clients o).
Proof.
  revert o. apply rtc_ind_r; [apply map_Forall_empty|].
  intros o o' Ho Hs IH.
  destruct Hs as [e q o1 o2 _ (s & _ & _ & ->)%arrive_inv
                 |k o1 o2 (f & s' & _ & _ & ->)%proceed_inv
                 |k o1 o2 (c & Hc & ->)%finish_inv]; [done..|].
  apply map_Forall_insert_2; [|done].
  apply (overlap_clients_ok ok o1 k); [done|]. unfold shown. by rewrite Hc.
Qed.

(** A request is made with a session that fits the form. *)
Lemma demand_fits q cs s :
  map_Forall (λ _, client_ok) cs -> demand q cs = Some s -> session_fits s.
Proof.
  intros Hcs. destruct q as [k|k a]; cbn [demand].
  - destruct (cs !! k); [done|]. intros [= <-]. apply map_Forall_empty.
  - destruct (cs !! k) as [c|] eqn:Hc; [|done]. cbn [mbind option_bind].
    destruct (permitted _ _) eqn:Hp; [|done]. intros [= <-].
    destruct (Hcs k c Hc) as [Hf _ Hk]. by eapply set_fits.
Qed.

(** The record a run under way reads is in the domain of the pipeline:
    the widgets are validation enough when the runs overlap, too. *)
Lemma overlap_records_valid ok o k f :
  oreachable ok o -> ov_flights o !! k = Some f ->
  valid_inputs (read_inputs (session_of (fl_session f))).
Proof.
  intros Ho Hf.
  destruct (sd_flights ok o (oreachable_steady ok o Ho) k f Hf)
    as (_ & _ & Hd).
  eapply read_inputs_valid, session_fits_valid_ui, demand_fits; [|done].
  by eapply overlap_clients_sound.
Qed.

(** ** The artifact is read once *)

Lemma leave_loads k p s :
  sy_threads s !! k = Some p -> final p = true -> coherent s ->
  loads_once s -> loads_once (leave k s).
Proof.
  intros Hk Hp Hs. unfold loads_once, reads_due.
  cbn [leave sy_shared sy_threads]. intros ->.
  destruct (sh_entry _); [done|]. destruct (sh_lock _) as [j|] eqn:Hl; [|done].
  destruct (base.decide (j = k)) as [->|Hj]; [|by rewrite lookup_delete_ne].
  apply (co_lock s Hs) in Hl as (q & Hq & Hc). rewrite Hk in Hq.
  injection Hq as <-. by rewrite final_not_critical in Hc.
Qed.

Lemma oreachable_loads o :
  oreachable readable o -> loads_once (ov_system o).
Proof.
  revert o. apply rtc_ind_r; [done|]. intros o o' Ho Hs IH.
  pose proof (oreachable_steady _ _ Ho) as Hst.
  destruct Hs as [e q o1 o2 _ (s & Hf & _ & ->)%arrive_inv
                 |k o1 o2 (f & s' & Hf & Ha & ->)%proceed_inv
                 |k o1 o2 (c & Hc & ->)%finish_inv]; cbn [ov_system].
  - apply arrive_loads; [|done]. apply eq_None_not_Some.
    rewrite (sd_threads _ _ Hst), Hf. by intros [].
  - eapply advance_loads; [|done|apply Hst|done].
    apply (sd_flights _ _ Hst k f Hf).
  - unfold pending in Hc.
    destruct (ov_flights o1 !! k) as [f|]; [|done].
    destruct (sy_threads (ov_system o1) !! k) as [p|] eqn:Hk; [|done].
    eapply leave_loads; [done| |apply Hst|done]. by destruct p.
Qed.

(** Single initialisation, for whole runs: however the runs of the
    browsers overlap, the artifact is read at most once. *)
Lemma overlap_loads_once o :
  oreachable readable o -> (sh_loads (sy_shared (ov_system o)) <= 1)%nat.
Proof.
  intros Ho. rewrite (oreachable_loads o Ho). apply reads_due_le.
Qed.

(** ** A click, while runs overlap *)

(** The cache of the process holds calibrated pipelines only. *)
Lemma overlap_promise o m replay :
  oreachable stocked o ->
  sh_entry (sy_shared (ov_system o)) = Some (Some m, replay) ->
  Calibrated m /\ replay = [].
Proof.
  intros (w & Hw & Hm)%oreachable_matches He.
  apply (wreachable_promise w Hw). unfold sv_model.
  rewrite (ma_cache o w Hm), He. apply lookup_insert_eq.
Qed.

(** No failure of the scoring is shown, or about to be shown, while
    runs overlap: the one error message of a page is the message of the
    missing artifact. *)
Lemma overlap_errors_only_missing o k c :
  oreachable stocked o -> shown o k = Some c ->
  forall path body,
    (path, EError body) ∈ cl_page c -> body = model_not_found.
Proof.
  intros Ho Hc path body. apply passes_mild_error. revert Ho Hc.
  apply (overlap_transfer stocked (λ _ c, passes mild (cl_page c))).
  intros w Hw. apply (cp_pages w), (wreachable_composed w Hw).
Qed.

(** An action is made on what the browser shows. *)
Lemma demand_act k a cs c s :
  cs !! k = Some c -> demand (Act k a) cs = Some s ->
  permitted (cl_page c) a = true /\ s = set a (cl_session c).
Proof.
  intros Hc. cbn [demand]. rewrite Hc. cbn [mbind option_bind].
  destruct (permitted _ _); [|done]. split; [done|congruence].
Qed.

(** What is about to be shown when the call has returned a value is
    the page of the request served on the cache that holds the value. *)
Lemma pending_page o k f v :
  ov_flights o !! k = Some f ->
  sy_threads (ov_system o) !! k = Some (Returned v) ->
  (cl_page <$> pending o k)
  = Some (page (answer (fl_env f) (fl_session f)
                  (cache_of (Some (v, notice v)))).2).
Proof.
  intros Hf Hk. unfold pending. rewrite Hf, Hk. cbn [mbind option_bind].
  pose proof (answer_warm (fl_env f) (fl_session f) v) as Hw.
  destruct (resume _ _) as [r|]; [|done].
  apply (f_equal (fmap (λ x : _ * run_state, page x.2))) in Hw.
  symmetry. exact Hw.
Qed.

(** Every click is answered when the runs overlap: a browser on the
    prediction page whose click is under way, once the call of its run
    has returned the pipeline, is about to be shown the page of the
    result for the record its session holds. *)
Lemma overlap_click_answered o k f c m :
  oreachable stocked o ->
  ov_flights o !! k = Some f -> fl_request f = Act k predict_click ->
  ov_clients o !! k = Some c ->
  nav_index (session_of (cl_session c)) = 0%nat ->
  sy_threads (ov_system o) !! k = Some (Returned (Some m)) ->
  exists p,
    score m (read_inputs (session_of (cl_session c))) = inr p
    /\ probability p = true
    /\ (cl_page <$> pending o k) = Some (answered_page p []).
Proof.
  intros Ho Hf Hq Hc Hnav Hk.
  pose proof (oreachable_steady _ _ Ho) as Hst.
  destruct (co_returned _ (sd_coherent _ _ Hst) k _ Hk) as [replay He].
  destruct (overlap_promise o m replay Ho He) as [Hcal _].
  destruct (sd_flights _ _ Hst k f Hf) as (_ & _ & Hd). rewrite Hq in Hd.
  destruct (demand_act k _ _ c _ Hc Hd) as [Hperm Hs].
  destruct (overlap_clients_sound _ _ Ho k c Hc) as [Hfit _ Hkn].
  destruct (click_run (fl_env f) c m
              (initial_state (cache_of (Some (Some m, [])))) eq_refl eq_refl
              (lookup_insert_eq _ _ _) Hfit Hkn Hnav Hperm)
    as (p & Hp & Hprob & Hpage).
  exists p. split; [done|]. split; [done|].
  by rewrite (pending_page o k f (Some m)), Hs, <- Hpage.
Qed.

(** ** Theorems *)

(** C18: Runs that overlap are served one at a time.  Every state the
    process can reach while the runs of the browsers overlap, their
    calls of [load_model] interleaved step by step, matches a world that
    is reached by serving requests one at a time: the cache is the
    same, and every browser shows, or is about to be shown when its
    call has returned, the page and the session it has in that world.
    When no run is under way the browsers of the two are the same. *)
Theorem overlap_serial ok o :
  oreachable ok o ->
  exists w,
    wreachable ok w /\ matches o w
    /\ (at_rest o -> w_clients w = ov_clients o).
Proof.
  intros (w & Hw & Hm)%oreachable_matches. exists w.
  split; [done|]. split; [done|]. by apply matches_at_rest.
Qed.

(** ** The theorems at the fixtures *)

Lemma overlap_serial_witness :
  exists w,
    wreachable any_env w /\ matches mid_race w
    /\ (at_rest mid_race -> w_clients w = ov_clients mid_race).
Proof. apply overlap_serial, mid_race_reachable. Defined.
