(* ===== verification/Settle.v ===== *)
(** * Settle: every run ends, and a run alone

    The process of [Overlap] comes to rest: the steps of the runs under
    way, a step of a call of [load_model] or the delivery of a page,
    are well founded by the measure [effort] (the steps the calls have
    left and the number of runs under way), and while a run is under
    way one of them can be taken: the thread that holds the lock of
    the cache can always step, and a thread whose call has returned
    can always deliver.

    A request that arrives while no run is under way and whose run goes
    on alone to its end leaves the process as [World] is after serving
    the request.  So the worlds of [World] are among the states of the
    process: with [Overlap.overlap_serial] the browsers are shown the
    same whether the runs overlap or not. *)

From Stdlib Require Import Wf_nat.
From S2P Require Import Prelude PyFloat Runtime Keeps Fixtures.
From S2P Require Import Gateway Predict Docs App Logfree Cachefree.
From S2P Require Import Session Spec Threads Browser World Scoring.
From S2P Require Import Interleave Overlap.

(** ** Definitions *)

(** The runs under way go on: a call takes a step or a run ends; no
    request arrives. *)
Definition carries_on (o o' : overlap) : Prop :=
  exists k, proceed k o = Some o' \/ finish k o = Some o'.

(** The steps the runs under way have left, at most. *)
Definition effort (o : overlap) : nat :=
  work (ov_system o) + size (ov_flights o).

(** The run [f] of the browser [k] is the one run under way or the
    last one that ended: its call is under way and the served world is
    [w], or its call has returned and the served world is [w']. *)
Inductive alone (k : nat) (f : flight) (w w' : world) (o : overlap)
    : Prop :=
| alone_inside p :
    ov_flights o !! k = Some f ->
    sy_threads (ov_system o) !! k = Some p -> final p = false ->
    matches o w -> alone k f w w' o
| alone_returned p :
    ov_flights o !! k = Some f ->
    sy_threads (ov_system o) !! k = Some p -> final p = true ->
    matches o w' -> alone k f w w' o
| alone_delivered :
    ov_flights o !! k = None -> matches o w' -> alone k f w w' o.

(** ** Every run ends *)

Lemma carries_on_ostep ok o o' : carries_on o o' -> ostep ok o o'.
Proof. intros [k [H|H]]; [by eapply o_proceed|by eapply o_finish]. Qed.

Lemma work_leave k p s :
  sy_threads s !! k = Some p -> (work (leave k s) + rank p = work s)%nat.
Proof.
  intros Hk. unfold work. cbn [leave sy_threads].
  rewrite (map_fold_delete_L _ _ k p (sy_threads s)); [lia|intros; lia|done].
Qed.

Lemma carries_on_effort o o' :
  carries_on o o' -> (effort o' < effort o)%nat.
Proof.
  unfold effort.
  intros [k [(f & s' & Hf & Ha & ->)%proceed_inv|(c & Hc & ->)%finish_inv]];
    cbn [ov_system ov_flights].
  - apply Nat.add_lt_mono_r, advances_work. by eexists _, _.
  - unfold pending in Hc.
    destruct (ov_flights o !! k) as [f|] eqn:Hf; [|done].
    destruct (sy_threads (ov_system o) !! k) as [p|] eqn:Hk; [|done].
    pose proof (work_leave k p _ Hk).
    pose proof (map_size_delete k (ov_flights o)) as Hsz.
    rewrite Hf in Hsz.
    assert (size (ov_flights o) <> 0%nat).
    { intros Hz%map_size_empty_inv. by rewrite Hz, lookup_empty in Hf. }
    lia.
Qed.

(** Whether a thread can step does not depend on the files. *)
Lemma advance_env e e' k s :
  is_Some (advance e k s) -> is_Some (advance e' k s).
Proof.
  unfold advance. destruct (sy_threads s !! k) as [p|]; [|done].
  cbn [mbind option_bind]. by destruct p.
Qed.

Lemma resume_final p cx : final p = true -> is_Some (resume p cx).
Proof. destruct p; by eauto. Qed.

(** While a run is under way, a call can step or a run can end. *)
Lemma steady_progress ok o :
  steady ok o -> ~ at_rest o -> exists o', carries_on o o'.
Proof.
  intros Hs (k & f & Hf)%map_choose.
  destruct (proj2 (sd_threads ok o Hs k) (mk_is_Some _ _ Hf)) as [p Hk].
  destruct (final p) eqn:Hp.
  - destruct (resume_final p (cx_of (fl_env f) (fl_session f)) Hp)
      as [r Hr].
    eexists. exists k. right. unfold finish, pending. rewrite Hf, Hk.
    cbn [mbind option_bind]. by rewrite Hr.
  - destruct (coherent_progress (fl_env f) _ k p (sd_coherent ok o Hs) Hk Hp)
      as (j & s' & Ha).
    assert (is_Some (ov_flights o !! j)) as [g Hg].
    { apply (sd_threads ok o Hs). unfold advance in Ha.
      by destruct (sy_threads _ !! j). }
    destruct (advance_env _ (fl_env g) j _ (mk_is_Some _ _ Ha)) as [s'' Ha'].
    eexists. exists j. left. unfold proceed. rewrite Hg.
    cbn [mbind option_bind]. by rewrite Ha'.
Qed.

Lemma carries_on_steady ok o o' :
  carries_on o o' -> steady ok o -> steady ok o'.
Proof.
  intros [k [H|H]]; [by eapply proceed_steady|by eapply finish_steady].
Qed.

(** The runs under way cannot go on for ever. *)
Lemma carries_on_wf : well_founded (flip carries_on).
Proof.
  apply (well_founded_lt_compat _ effort). intros o' o.
  apply carries_on_effort.
Qed.

Lemma steady_settles ok o :
  steady ok o -> exists o', rtc carries_on o o' /\ at_rest o'.
Proof.
  induction (carries_on_wf o) as [o _ IH]. intros Hs.
  destruct (base.decide (at_rest o)) as [|Hr]; [by exists o|].
  destruct (steady_progress ok o Hs Hr) as [o1 H1].
  destruct (IH o1 H1 (carries_on_steady ok o o1 H1 Hs))
    as (o' & Hrtc & Ho').
  exists o'. split; [by eapply rtc_l|done].
Qed.

(** ** A request served alone *)

Section served_alone.
Context (ok : env -> Prop) (k : nat) (f : flight) (w w' : world).
Context (Hw : receive (fl_env f) (fl_request f) w = Some w').

Lemma alone_carries_on o o' :
  steady ok o -> (forall j, j <> k -> ov_flights o !! j = None) ->
  alone k f w w' o -> carries_on o o' ->
  alone k f w w' o' /\ forall j, j <> k -> ov_flights o' !! j = None.
Proof using Hw.
  intros Hs Hj Ha [j [Hp|Hf]].
  - destruct (base.decide (j = k)) as [->|Hne];
      [|by apply proceed_inv in Hp as (g & _ & Hg & _); rewrite Hj in Hg].
    destruct Ha as [p Hf Hk Hp' Hm|p Hf Hk Hp' Hm|Hf Hm];
      [|by apply proceed_inv in Hp as (g & s' & _ & Ha & _);
          unfold advance in Ha; rewrite Hk in Ha; destruct p
       |by apply proceed_inv in Hp as (g & _ & Hg & _); rewrite Hf in Hg].
    destruct (proceed_cases ok k o o' w Hp Hs Hm)
      as (g & q & q' & Hg & Hfl & _ & _ & Hk' & Hcase).
    rewrite Hf in Hg. injection Hg as <-. rewrite Hfl. split; [|done].
    destruct (final q') eqn:Hq'.
    + destruct Hcase as [Hr Hm']. rewrite Hw in Hr. injection Hr as ->.
      eapply alone_returned; by rewrite ?Hfl.
    + eapply alone_inside; by rewrite ?Hfl.
  - pose proof (finish_matches j o o' w' Hf) as Hm'.
    apply finish_inv in Hf as (c & Hc & ->). unfold pending in Hc.
    destruct (ov_flights o !! j) as [g|] eqn:Hg; [|done].
    destruct (base.decide (j = k)) as [->|Hne]; [|by rewrite Hj in Hg].
    cbn [ov_flights]. split.
    + apply alone_delivered; [apply lookup_delete_eq|]. apply Hm'.
      destruct Ha as [p _ Hk Hp _|p _ _ _ Hm|_ Hm]; [|done..].
      rewrite Hk in Hc. by destruct p.
    + intros i Hi. rewrite lookup_delete_ne by done. by apply Hj.
Qed.

Lemma alone_settles o o' :
  steady ok o -> (forall j, j <> k -> ov_flights o !! j = None) ->
  alone k f w w' o -> rtc carries_on o o' -> at_rest o' -> matches o' w'.
Proof using Hw.
  intros Hs Hj Ha Hrtc. induction Hrtc as [o|o o1 o2 H1 _ IH].
  - intros Hr. destruct Ha as [p Hf|p Hf|]; [..|done];
      by rewrite Hr, lookup_empty in Hf.
  - destruct (alone_carries_on o o1 Hs Hj Ha H1) as [Ha1 Hj1].
    apply IH; [by eapply carries_on_steady|done..].
Qed.

End served_alone.

(** One request at a time is a case of the overlap: the request
    arrives and its run goes on alone to its end. *)
Lemma serve_overlapped ok e q o w w' :
  ok e -> steady ok o -> at_rest o -> matches o w ->
  receive e q w = Some w' ->
  exists o1 o',
    arrive e q o = Some o1 /\ rtc carries_on o1 o'
    /\ at_rest o' /\ matches o' w'.
Proof.
  intros He Hs Hr Hm Hw. pose proof Hw as Hd. rewrite receive_demand in Hd.
  rewrite (matches_at_rest o w Hm Hr) in Hd.
  destruct (demand q (ov_clients o)) as [s|] eqn:Hq; [|done].
  destruct (arrive e q o) as [o1|] eqn:Ha;
    [|by unfold arrive in Ha; rewrite Hr, lookup_empty, Hq in Ha].
  pose proof (arrive_steady ok e q o o1 He Ha Hs) as Hs1.
  pose proof (arrive_matches e q o o1 w Ha Hm) as Hm1.
  destruct (steady_settles ok o1 Hs1) as (o' & Hrtc & Hr').
  exists o1, o'. do 3 (split; [done|]).
  apply arrive_inv in Ha as (s' & _ & Hq' & ->).
  rewrite Hq in Hq'. injection Hq' as <-.
  eapply (alone_settles ok (client_of q) (Flight e q s) w w' Hw);
    [done| |eapply (alone_inside _ _ _ _ _ Calling)|done..];
    cbn [ov_flights ov_system move sy_threads];
    rewrite ?lookup_insert_eq; try done.
  intros j Hj. by rewrite lookup_insert_ne, Hr.
Qed.

(** An arrival and the steps of the runs under way are steps of the
    process. *)
Lemma arrive_carries_on ok e q o o1 o' :
  ok e -> arrive e q o = Some o1 -> rtc carries_on o1 o' ->
  rtc (ostep ok) o o'.
Proof.
  intros He Ha Hrtc. eapply rtc_l; [by eapply o_arrive|].
  eapply rtc_subrel; [|done]. intros ??. apply carries_on_ostep.
Qed.

Lemma wreachable_overlapped ok w :
  wreachable ok w -> exists o, oreachable ok o /\ at_rest o /\ matches o w.
Proof.
  revert w. apply rtc_ind_r.
  { exists opening. split; [apply rtc_refl|]. split; [done|].
    apply opening_matches. }
  intros w w' _ [e q w1 w2 He Hw] (o & Ho & Hr & Hm).
  destruct (serve_overlapped ok e q o w1 w2 He (oreachable_steady ok o Ho)
              Hr Hm Hw) as (o1 & o' & Ha & Hrtc & Hr' & Hm').
  exists o'. split; [|done]. unfold oreachable. etrans; [done|].
  by eapply arrive_carries_on.
Qed.

(** ** Theorems *)

(** C19: Serving one request at a time is a case of the overlap.  Every
    world that is reached by serving requests one at a time is matched
    by a state of the process with overlapping runs in which no run is
    under way and the browsers are the same; and every request that is
    served in the world can arrive in that state, after which the
    steps of its run, alone, lead to a state that matches the world
    after the request.  With [Overlap.overlap_serial], the browsers
    see the same worlds whether the runs overlap or not. *)
Theorem overlap_complete ok w :
  wreachable ok w ->
  exists o,
    oreachable ok o /\ at_rest o /\ matches o w
    /\ ov_clients o = w_clients w
    /\ forall e q w',
         ok e -> receive e q w = Some w' ->
         exists o1 o',
           arrive e q o = Some o1 /\ rtc carries_on o1 o'
           /\ at_rest o' /\ matches o' w'.
Proof.
  intros (o & Ho & Hr & Hm)%wreachable_overlapped. exists o.
  do 3 (split; [done|]). split; [symmetry; by apply matches_at_rest|].
  intros e q w' He Hw.
  by apply (serve_overlapped ok e q o w w' He (oreachable_steady ok o Ho)).
Qed.

(** C20: Every run ends.  The steps of the runs under way (a call of
    [load_model] steps, a run whose call has returned delivers its
    page) are well founded; in every state the process can reach,
    either no run is under way or one of these steps can be taken; so
    they lead to a state in which no run is under way.  No run waits
    for ever for the lock of the cache, whatever the files hold. *)
Theorem runs_end :
  well_founded (flip carries_on)
  /\ forall ok o,
       oreachable ok o ->
       (at_rest o \/ exists o', carries_on o o')
       /\ exists o', rtc (ostep ok) o o' /\ at_rest o'.
Proof.
  split; [apply carries_on_wf|]. intros ok o Hs%oreachable_steady. split.
  - destruct (base.decide (at_rest o)) as [|Hr]; [by left|right].
    by eapply steady_progress.
  - destruct (steady_settles ok o Hs) as (o' & Hrtc & Hr). exists o'.
    split; [|done]. eapply rtc_subrel; [|done]. intros ??.
    apply carries_on_ostep.
Qed.

(** ** The theorems at the fixtures *)

Lemma overlap_complete_witness :
  exists o,
    oreachable any_env o /\ at_rest o /\ matches o two_visitors
    /\ ov_clients o = w_clients two_visitors
    /\ forall e q w',
         any_env e -> receive e q two_visitors = Some w' ->
         exists o1 o',
           arrive e q o = Some o1 /\ rtc carries_on o1 o'
           /\ at_rest o' /\ matches o' w'.
Proof. apply overlap_complete, two_visitors_reachable. Defined.
